(* ===== verification/_CoqProject ===== *)
-Q . S2P
Prelude.v
Session.v
SessionConc.v
Json.v
GoText.v
CompilerTypes.v
CompilerExpr.v
Compiler.v
Sha256.v
PolicyTypes.v
Cache.v
Engine.v
EngineConc.v
Rego.v
Router.v
AuditStore.v
AuditWriter.v
Config.v
Loader.v
PolicyLoading.v
Upstream.v
Transport.v
Sse.v
SseServer.v
Stdio.v
Observability.v
App.v
Proxy.v
Trail.v
Shipped.v
Lifecycle.v
