(* ===== verification/Prelude.v ===== *)
(** * MCP Proxy: a verification library

    The program (src/) is a policy-enforcing proxy between agents and a server of the
    Model Context Protocol. A transport (SSE or stdio) keeps a session per client and
    hands every JSON-RPC message to the router; the router validates it, asks the policy
    engine about the enforced methods, forwards what is allowed to the upstream server,
    and tells the audit log. The engine runs OPA behind a decision cache, on Rego files and on
    modules compiled from JSON policies; audit records go through a bounded buffer into
    SQLite. Health endpoints report on these parts. The library models these parts as executable
    definitions and proves what makes each of them, and their composition, correct.

    ** Files, parts and correspondence

    - [Prelude]: Go's [(value, error)] pairs ([result]), panics ([outcome]), slices, 64-bit
      wrap-around, time, the tactics and lemmas that the other files share.
    - [Session]: internal/session. Sessions live in a heap; [Manager] maps identifiers to
      pointers. One definition per method ([Create], [Get], [Delete], [cleanup], ...); the
      relation [step] is what clients, the cleanup goroutine and [Stop] may do, one operation
      after another.
    - [SessionConc]: the manager's methods cut at the points where goroutines interleave;
      [run] executes a schedule.
    - [Json], [GoText], [Sha256]: decoded JSON values with their type assertions; Go's
      standard library on text (trimming, splitting, replacing, runes, the verbs [%q], [%f]
      and [%v], and readers of quoted literals); an executable SHA-256 (checked on the FIPS
      vectors).
    - [CompilerTypes], [CompilerExpr], [Compiler]: internal/policy/compiler. Definitions and
      their validation (schema.go, validation.go); expressions (expression.go); rules,
      templates and modules (the other files). A generated module is its text.
    - [PolicyTypes], [Cache], [Engine], [Loader]: internal/policy (types.go, cache.go,
      engine.go, loader.go). [Cache.run] and [Engine.erun] are histories of operations.
      [PolicyLoading] puts the modelled compiler into the loader. [EngineConc] cuts the
      engine's methods at their locks; [cstep] interleaves any number of calls, and
      [alone_is_sequential] ties the steps to [Engine].
    - [Rego]: policies/main.rego, capability.rego, rate_limit.rego, blocklist.rego, one
      definition per rule, and the specification [authorized] that they implement.
    - [Router]: internal/router (types.go, parser.go, response.go, router.go). [Route] runs
      its callbacks in any state; [traced] turns a router into one that logs its calls, and
      [Route_traced] shows that tracing changes nothing else.
    - [AuditStore], [AuditWriter]: internal/audit. The table is the list of its rows; the
      writer's step relation [wstep] interleaves writers, the flush loop, callers of
      [Flush] and shutdown; [AuditWriter.Locks] is the use of the two mutexes.
    - [Config]: internal/config, the whole tree with defaults, overrides and validation.
    - [Upstream]: internal/upstream/client.go. Calls of [Send] are cut at their atomic
      steps and interleave with the reader of the event stream in the relation [ustep].
    - [Transport], [Sse], [Stdio]: internal/transport. The interface as a class with the
      laws of a life cycle, and its two instances. [Sse.stream_step] interleaves the loop of
      a stream with everything else that uses the sessions; [SseServer] runs all streams and
      message requests together; [Stdio.readLoop] runs round by
      round over what each round meets.
    - [Observability]: internal/observability. [hstep] interleaves the goroutines of a
      health check; metrics are their names, kinds, labels and updates.
    - [App]: cmd/proxy/main.go. The closures that connect router, engine, upstream client
      and audit writer; [Start] and [Stop] described by what the components answer. [Proxy]
      composes it with the transports and the health checkers, [Trail] with the audit writer and
      its flush loop, [Shipped] with the policies of the repository (the four Rego files; the
      example of policies/json would not compile together with them). [Lifecycle] is the
      process: [main], [newApplication], [Start] and [Stop] with the modelled components in
      place; [Start_refines] ties it to the description in [App].

    ** What the theorems show

    - End to end ([Proxy], from [App.forwarded_only_with_consent]): with the engine in
      enforce mode and after any sequence of messages, no tool call, resource read or
      subscription that arrives by either transport reaches the upstream server unless OPA
      answered [allow: true] for the input built from its own session, or for an input with
      the same cache key within the cache's time to live; a denial reaches the stream of the
      client that asked.
    - With the policies of the repository ([Rego], [Shipped]): the rules decide exactly their
      specification; from the policy files to the wire, nothing is forwarded that the policy
      data does not authorize, or did for the same cache key within the time to live; the
      cache never widens what an agent may call, only the rate limit can be outdated; the same
      for requests evaluated concurrently.
    - Process ([Lifecycle], [App.Start_needs_policies]): a process that serves has compiled
      its policies, and its probe says so; a signal ends it with code 0 and nothing left open.
    - Transports: the stream refines the queue of its session, first in first out, under
      every interleaving; clients are kept apart: a response only reaches the stream of the
      session that was named in its request; the message endpoint admits exactly open sessions
      with JSON; framed lines are read back as they were written, and so are events whose data
      are single lines (others are cut: [Sse.two_line_data_is_cut]); reading ends, with a
      message, an error or the end of the input where the stack has room for a call per empty
      line, and with its overflow otherwise; the read loop serves all of its input;
      cross-origin access as configured.
    - Policy compiler: which definitions are valid, which compile and to what; validated
      expressions compile without panic; names and quoted literals cannot add code (comments and
      keys can: [Compiler.comment_injection], [CompilerExpr.field_equals_key_is_code]); every
      loaded module has such an origin.
    - Health: every interleaving of the checks gives the worst status; when the probe says
      ready. Metrics: registration and updates never panic.
    - Router: complete mediation over all callbacks, blocking of denials, failing closed on
      errors, forwarding unchanged and at most once, auditing exactly once, exactly which
      messages are accepted, and how rejected ones are answered.
    - Engine and cache: provenance of every decision, transparency of the cache for
      policies that depend on its key only, bounded size for every iteration order, parsing
      that fails closed, and when data and policy changes take effect. Under every
      interleaving ([EngineConc]): calls return and never deadlock, results have a provenance,
      and concurrent loads and data changes settle on the policies stored last.
    - Audit trail ([Trail]): from the message to the row; once the flush loop has exited, the
      database holds exactly the records of the messages served, less those counted as dropped,
      and no record of an enforced call that went upstream hides the decision that let it pass.
    - Audit: conservation of records under every interleaving and failure, order, draining
      on shutdown, all-or-nothing batches, injection-free queries, freedom from deadlock of
      writers and flushers.
    - Sessions: the count is within the limit and, until [Stop], the number of sessions, one
      operation after another and for every schedule of client calls; functional behaviour of
      each operation.
    - Upstream client: answers match their requests and the pending table does not leak,
      for every interleaving; a lost connection releases every waiting call.
    - Configuration: loaded configurations are valid, overrides do not depend on map order,
      numbers survive printing and parsing.
    - Where the code does not do what it says, a theorem exhibits it: the race between
      [cleanup] and [Delete] that breaks the session limit, the cache that outlives rate
      limits and reloaded policies, or is filled again with decisions a change of the data
      should have ended, colliding cache keys, the lock order of [Stats], failed
      evaluations audited as allowed, request identifiers that stall the upstream client or
      clash between sessions, [any] compiled to a conjunction and [not] to the negation of a
      line, code injected through comments, an oversized line that ends in a loop of errors,
      responses dropped with status 202, and others next to the operation they are about.

    ** Conventions, parameters and bounds

    What a call reads from its surroundings (clock, random bytes, map iteration order,
    objects left in a [sync.Pool], whether a driver call fails) is an argument, and the
    theorems hold for all of its values. Third-party code is a class or a section
    parameter: OPA ([Engine.OPA]), goccy/go-json ([Router.GoJson]), the file system and YAML
    (arguments of [Load] and of the section [Loader]), what Go's [fmt] takes from tables and
    float printing ([GoText.GoRuntime]), map orders and OPA's check of a module in the policy
    compiler ([Compiler.CompileEnv]). [Loader] is proved for every compiler. The
    application sees the upstream client through the classes [App.UpstreamClient] and
    [Lifecycle.UpstreamLife]. That OPA evaluates the Rego files as [Rego] does is the class
    [Rego.RunsPolicies], with an instance in [Shipped]; OPA's [sprintf] is an argument there.
    Counters are kept at 64 bits with wrap-around where they can overflow. Recursion is structural
    throughout; fuel appears in [Json.Z_digits] (twenty decimal digits, which every 64-bit integer
    fits in) and in [GoText.trim_with] (the length of the text, of which every round removes a
    byte). The argument [frames] of [Stdio.ReadMessage] is no fuel but the room of the goroutine's
    stack, since the code calls itself for every empty line: [Stdio.ReadMessage_terminates] says
    how many frames a call takes, and the theorems on the read loop hold for every positive number
    of them. Outside [SessionConc], [EngineConc], [AuditWriter], [Upstream], [Sse.stream_step],
    [SseServer] and [Observability.hstep] an operation is atomic, as its mutex makes it; the
    unsynchronised counters of the engine and the cache are modelled as sequential.

    ** Not modelled

    Logging, Prometheus, net/http, bufio, SQLite and OPA itself are libraries: what the code
    relies on of them is written where they are used. A module generated by the policy
    compiler is a text, and what Rego makes of it is not defined here; the rules of [Rego] are
    written by hand after the files of policies/, without those modules. The parsing of flags,
    the lines that are logged, the schema of the database, and structures that no code uses
    (the condition types of schema.go, [ConnectionHandler], [TransportConfig]) are left out. *)

From Stdlib Require Import ZArith Lia.
From stdpp Require Import base list gmap strings numbers sorting.

(** ** Go values that every component uses *)

(** Go's [(value, error)] pairs of functions that fail: [Ok] is a [nil] error. *)
Inductive result (E A : Type) : Type :=
| Ok (a : A)
| Err (e : E).
Arguments Ok {E A} a.
Arguments Err {E A} e.

(** A Go call either returns or panics (nil dereference, index out of range,
    close of a closed channel, unhashable map key). *)
Inductive outcome (A : Type) : Type :=
| Ret (a : A)
| Panic (msg : string).
Arguments Ret {A} a.
Arguments Panic {A} msg.

#[export] Instance result_ret {E} : MRet (result E) := fun A a => Ok a.
#[export] Instance result_bind {E} : MBind (result E) := fun A B f m =>
  match m with Ok a => f a | Err e => Err e end.
#[export] Instance outcome_ret : MRet outcome := fun A a => Ret a.
#[export] Instance outcome_bind : MBind outcome := fun A B f m =>
  match m with Ret a => f a | Panic s => Panic s end.

(** [fmt.Errorf("prefix: %w", err)]. *)
Definition wrap_err {A} (pre : string) (r : result string A) : result string A :=
  match r with
  | Ok a => Ok a
  | Err e => Err (pre +:+ ": " +:+ e)
  end.

Definition is_ok {E A} (r : result E A) : bool :=
  match r with Ok _ => true | Err _ => false end.

(** A Go slice: [None] is the [nil] slice, which JSON and [== nil] tell apart from
    an empty one; [range] and [len] do not. *)
Definition slice (A : Type) : Type := option (list A).
Definition elems {A} (s : slice A) : list A := default [] s.

(** ** Machine integers and time *)

(** [int] and [int64] are 64-bit two's complement. *)
Definition min_int64 : Z := (- 2 ^ 63)%Z.
Definition max_int64 : Z := (2 ^ 63 - 1)%Z.
Definition wrap64 (z : Z) : Z := ((z + 2 ^ 63) `mod` 2 ^ 64 - 2 ^ 63)%Z.
Definition in_int64 (z : Z) : Prop := (min_int64 <= z <= max_int64)%Z.

(** An instant is its number of nanoseconds on the monotonic clock; a [Duration]
    is an [int64] number of nanoseconds. *)
Abbreviation Time := Z (only parsing).
Abbreviation Duration := Z (only parsing).

Definition Nanosecond : Duration := 1%Z.
Definition Microsecond : Duration := 1000%Z.
Definition Millisecond : Duration := 1000000%Z.
Definition Second : Duration := 1000000000%Z.
Definition Minute : Duration := 60000000000%Z.
Definition Hour : Duration := 3600000000000%Z.

(** [Time.Sub] (and [time.Since]) saturates at the ends of [Duration]. *)
Definition time_sub (t u : Time) : Duration :=
  Z.max min_int64 (Z.min max_int64 (t - u)).

(** ** Automation *)

Create HintDb proxy.

(** Case analysis on the scrutinee of a [match] or [if] in the goal or in a
    hypothesis, keeping the equation. *)
Ltac case_on x :=
  let E := fresh "E" in destruct x eqn:E; simplify_eq/=.

Ltac split_goal :=
  match goal with
  | |- context [match ?x with _ => _ end] =>
      lazymatch x with context [match _ with _ => _ end] => fail | _ => case_on x end
  end.

Ltac split_hyp :=
  match goal with
  | H : context [match ?x with _ => _ end] |- _ =>
      lazymatch x with context [match _ with _ => _ end] => fail | _ => case_on x end
  end.

Ltac crush := repeat (first [split_hyp | split_goal]); simplify_eq/=; try done.

Ltac unfold_int := unfold in_int64, wrap64, min_int64, max_int64 in *.

(** ** Shared lemmas *)

Lemma wrap64_id z : in_int64 z -> wrap64 z = z.
Proof. unfold_int. intros ?. rewrite Z.mod_small; lia. Qed.

Lemma wrap64_range z : in_int64 (wrap64 z).
Proof.
  unfold_int. pose proof (Z.mod_pos_bound (z + 2 ^ 63) (2 ^ 64)). lia.
Qed.

Lemma wrap64_add_l a b : wrap64 (wrap64 a + b) = wrap64 (a + b).
Proof.
  unfold wrap64. f_equal.
  replace ((a + 2 ^ 63) `mod` 2 ^ 64 - 2 ^ 63 + b + 2 ^ 63)%Z
    with ((a + 2 ^ 63) `mod` 2 ^ 64 + b)%Z by lia.
  rewrite Zplus_mod_idemp_l. f_equal. lia.
Qed.

Lemma bind_Ok {E A B} (m : result E A) (f : A -> result E B) b :
  m ≫= f = Ok b -> exists a, m = Ok a /\ f a = Ok b.
Proof. destruct m; cbn; naive_solver. Qed.

Lemma elems_Some {A} (l : list A) : elems (Some l) = l.
Proof. reflexivity. Qed.

(** Sums over a list of threads, and how one thread's step changes them. *)
Definition zsum {A} (f : A -> Z) (l : list A) : Z := foldr (fun a z => f a + z)%Z 0%Z l.

Lemma zsum_insert {A} (f : A -> Z) (l : list A) i a b :
  l !! i = Some a -> zsum f (<[i := b]> l) = (zsum f l - f a + f b)%Z.
Proof.
  revert i. induction l as [|x l IH]; intros [|i] Hi; simplify_eq/=; [lia|].
  change (f x + zsum f (<[i := b]> l) = f x + zsum f l - f a + f b)%Z.
  rewrite (IH i) by done. lia.
Qed.

Lemma zsum_nonneg {A} (f : A -> Z) (l : list A) :
  (forall a, 0 <= f a)%Z -> (0 <= zsum f l)%Z.
Proof. intros Hf. induction l as [|x l IH]; simpl; [lia|]. specialize (Hf x). lia. Qed.

Lemma zsum_le {A} (f g : A -> Z) (l : list A) :
  (forall a, f a <= g a)%Z -> (zsum f l <= zsum g l)%Z.
Proof. intros Hf. induction l as [|x l IH]; simpl; [lia|]. specialize (Hf x). lia. Qed.

Lemma zsum_zero {A} (f : A -> Z) (l : list A) :
  Forall (fun a => f a = 0%Z) l -> zsum f l = 0%Z.
Proof. induction 1; simpl; lia. Qed.

Lemma map_size_delete_Some {K A} `{Countable K} (m : gmap K A) i x :
  m !! i = Some x -> size m = S (size (delete i m)).
Proof.
  intros Hi. rewrite <- (map_size_insert_None i x) by apply lookup_delete_eq.
  by rewrite insert_delete_id.
Qed.

#[export] Hint Resolve wrap64_range : proxy.
