(* ===== verification/Session.v ===== *)
(** * Sessions and their manager

    Models src/internal/session/types.go and src/internal/session/manager.go.
    Sessions are shared by pointer (the manager's map, the SSE handler and the
    stdio server all hold the same object), so they live in a heap and the map
    stores locations. The clock readings, the UUIDs and the order in which
    [sync.Map.Range] visits the keys are arguments. This file is the sequential
    view: every operation runs to its end; [SessionConc] interleaves them. *)

From Stdlib Require Import ZArith Lia.
From stdpp Require Import base list gmap strings numbers.
From S2P Require Import Prelude.

(** ** A session (types.go) *)

Record Session : Type := mkSession {
  ID : string;
  CreatedAt : Time;
  LastActivityAt : Time;
  RequestCount : Z;
  AgentID : string;
  AgentName : string;
  Capabilities : slice string;
  IdentityVerified : bool;
  DID : string;
  SourceIP : string;
  UserAgent : string;
  (** messages queued in the buffered channel, oldest first *)
  MessageChan : list string;
  (** whether the [Done] channel is closed *)
  Done : bool
}.

(** [make(chan []byte, 100)]. *)
Definition message_chan_cap : nat := 100.

(** The two readings of the clock give [CreatedAt] and [LastActivityAt]. *)
Definition NewSession (id : string) (t1 t2 : Time) : Session :=
  {| ID := id; CreatedAt := t1; LastActivityAt := t2; RequestCount := 0;
     AgentID := ""; AgentName := ""; Capabilities := None;
     IdentityVerified := false; DID := ""; SourceIP := ""; UserAgent := "";
     MessageChan := []; Done := false |}.

Definition set_activity (n : Z) (now : Time) (s : Session) : Session :=
  {| ID := ID s; CreatedAt := CreatedAt s; LastActivityAt := now; RequestCount := n;
     AgentID := AgentID s; AgentName := AgentName s; Capabilities := Capabilities s;
     IdentityVerified := IdentityVerified s; DID := DID s; SourceIP := SourceIP s;
     UserAgent := UserAgent s; MessageChan := MessageChan s; Done := Done s |}.

Definition set_chan (q : list string) (s : Session) : Session :=
  {| ID := ID s; CreatedAt := CreatedAt s; LastActivityAt := LastActivityAt s;
     RequestCount := RequestCount s;
     AgentID := AgentID s; AgentName := AgentName s; Capabilities := Capabilities s;
     IdentityVerified := IdentityVerified s; DID := DID s; SourceIP := SourceIP s;
     UserAgent := UserAgent s; MessageChan := q; Done := Done s |}.

(** [IncrementRequestCount] of a session: the new session and the value returned. *)
Definition incrementRequestCount (now : Time) (s : Session) : Session * Z :=
  let n := wrap64 (RequestCount s + 1) in (set_activity n now s, n).

Definition GetRequestCount (s : Session) : Z := RequestCount s.

Definition SetAgent (agentID agentName : string) (capabilities : slice string)
    (s : Session) : Session :=
  {| ID := ID s; CreatedAt := CreatedAt s; LastActivityAt := LastActivityAt s;
     RequestCount := RequestCount s;
     AgentID := agentID; AgentName := agentName; Capabilities := capabilities;
     IdentityVerified := IdentityVerified s; DID := DID s; SourceIP := SourceIP s;
     UserAgent := UserAgent s; MessageChan := MessageChan s; Done := Done s |}.

Definition SetIdentity (verified : bool) (did : string) (s : Session) : Session :=
  {| ID := ID s; CreatedAt := CreatedAt s; LastActivityAt := LastActivityAt s;
     RequestCount := RequestCount s;
     AgentID := AgentID s; AgentName := AgentName s; Capabilities := Capabilities s;
     IdentityVerified := verified; DID := did; SourceIP := SourceIP s;
     UserAgent := UserAgent s; MessageChan := MessageChan s; Done := Done s |}.

Definition SetClientInfo (sourceIP userAgent : string) (s : Session) : Session :=
  {| ID := ID s; CreatedAt := CreatedAt s; LastActivityAt := LastActivityAt s;
     RequestCount := RequestCount s;
     AgentID := AgentID s; AgentName := AgentName s; Capabilities := Capabilities s;
     IdentityVerified := IdentityVerified s; DID := DID s; SourceIP := sourceIP;
     UserAgent := userAgent; MessageChan := MessageChan s; Done := Done s |}.

(** [Close]: closing a channel that is closed already would panic; the [select]
    makes the second call a no-op. *)
Definition Close (s : Session) : Session :=
  if Done s then s else
  {| ID := ID s; CreatedAt := CreatedAt s; LastActivityAt := LastActivityAt s;
     RequestCount := RequestCount s;
     AgentID := AgentID s; AgentName := AgentName s; Capabilities := Capabilities s;
     IdentityVerified := IdentityVerified s; DID := DID s; SourceIP := SourceIP s;
     UserAgent := UserAgent s; MessageChan := MessageChan s; Done := true |}.

Definition IsClosed (s : Session) : bool := Done s.

(** [SendMessage]: a [select] with a default. When [Done] is closed and the
    channel has room, both cases are ready and the runtime picks one: [pick_send]
    is its choice. *)
Definition SendMessage (pick_send : bool) (msg : string) (s : Session) : Session * bool :=
  let room := bool_decide (length (MessageChan s) < message_chan_cap) in
  if Done s then
    if room && pick_send then (set_chan (MessageChan s ++ [msg]) s, true) else (s, false)
  else if room then (set_chan (MessageChan s ++ [msg]) s, true)
  else (s, false).

(** [Context]: cancelled by a goroutine once [Done] is closed. *)
Definition ContextCancelled (s : Session) : bool := Done s.

Definition Age (now : Time) (s : Session) : Duration := time_sub now (CreatedAt s).
Definition IdleTime (now : Time) (s : Session) : Duration := time_sub now (LastActivityAt s).

(** ** The manager (manager.go) *)

Abbreviation loc := nat (only parsing).

Record Manager : Type := mkManager {
  sessions : gmap string nat;   (* sync.Map: id to *Session *)
  sessionTTL : Duration;
  maxSessions : Z;
  activeCount : Z;
  totalCreated : Z;
  done : bool                   (* the [done] channel is closed *)
}.

Record ManagerConfig : Type := mkManagerConfig {
  SessionTTL : Duration;
  CleanupInterval : Duration;
  MaxSessions : Z
}.

(** The heap of sessions with the manager that points into it. *)
Record World : Type := mkWorld {
  heap : list Session;
  mgr : Manager
}.

Definition DefaultManagerConfig : ManagerConfig :=
  {| SessionTTL := 2 * Hour; CleanupInterval := Minute; MaxSessions := 10000 |}.

Definition NewManager (cfg : ManagerConfig) : Manager :=
  {| sessions := ∅;
     sessionTTL := if (SessionTTL cfg =? 0)%Z then (2 * Hour)%Z else SessionTTL cfg;
     maxSessions := if (MaxSessions cfg =? 0)%Z then 10000%Z else MaxSessions cfg;
     activeCount := 0; totalCreated := 0; done := false |}.

Definition set_sessions (m : gmap string nat) (n : Z) (c : Z) (g : Manager) : Manager :=
  {| sessions := m; sessionTTL := sessionTTL g; maxSessions := maxSessions g;
     activeCount := n; totalCreated := c; done := done g |}.

(** Errors of the package. *)
Definition ErrMaxSessionsReached : string := "maximum sessions limit reached".
Definition ErrSessionNotFound : string := "session not found".

(** The session a location points to. *)
Definition deref (w : World) (l : loc) : option Session := heap w !! l.

(** Write through a pointer. *)
Definition update (f : Session -> Session) (l : loc) (w : World) : World :=
  {| heap := alter f l (heap w); mgr := mgr w |}.

Definition with_mgr (g : Manager) (w : World) : World := {| heap := heap w; mgr := g |}.

(** [Create]: [uid] is the UUID, [t1] and [t2] the clock readings of [NewSession]. *)
Definition Create (uid : string) (t1 t2 : Time) (w : World) : World * result string loc :=
  let g := mgr w in
  if (activeCount g >=? maxSessions g)%Z then (w, Err ErrMaxSessionsReached)
  else
    let sessionID := "sess_" +:+ uid in
    let l := length (heap w) in
    ({| heap := heap w ++ [NewSession sessionID t1 t2];
        mgr := set_sessions (<[sessionID := l]> (sessions g))
                 (wrap64 (activeCount g + 1)) (wrap64 (totalCreated g + 1)) g |},
     Ok l).

(** [Delete]: [LoadAndDelete], then [Close] and the count, when it was there. *)
Definition Delete (sessionID : string) (w : World) : World :=
  let g := mgr w in
  match sessions g !! sessionID with
  | None => w
  | Some l =>
      update Close l
        (with_mgr (set_sessions (delete sessionID (sessions g))
                     (wrap64 (activeCount g - 1)) (totalCreated g) g) w)
  end.

(** [Get]: a closed session is deleted on the way. *)
Definition Get (sessionID : string) (w : World) : World * option loc :=
  match sessions (mgr w) !! sessionID with
  | None => (w, None)
  | Some l =>
      match deref w l with
      | Some s => if IsClosed s then (Delete sessionID w, None) else (w, Some l)
      | None => (w, None)
      end
  end.

(** [IncrementRequestCount] of the manager. *)
Definition IncrementRequestCount (now : Time) (sessionID : string) (w : World) : World * Z :=
  match Get sessionID w with
  | (w', None) => (w', 0%Z)
  | (w', Some l) =>
      match deref w' l with
      | Some s => let (s', n) := incrementRequestCount now s in (update (const s') l w', n)
      | None => (w', 0%Z)
      end
  end.

Definition ActiveCount (w : World) : Z := activeCount (mgr w).
Definition TotalCreated (w : World) : Z := totalCreated (mgr w).

(** The body of [cleanup]'s [Range] callback on one entry; [tage] and [tidle] are
    the clock readings of [Age] and [IdleTime]. *)
Inductive verdict : Type := Keep | DropClosed | DropExpired | DropIdle.

Definition cleanup_verdict (ttl : Duration) (tage tidle : Time) (s : Session) : verdict :=
  if IsClosed s then DropClosed
  else if (Age tage s >? ttl)%Z then DropExpired
  else if (IdleTime tidle s >? Z.quot ttl 2)%Z then DropIdle
  else Keep.

(** [m.sessions.Delete(key)] with the unconditional [m.activeCount--]. *)
Definition drop_entry (key : string) (w : World) : World :=
  let g := mgr w in
  with_mgr (set_sessions (delete key (sessions g)) (wrap64 (activeCount g - 1))
              (totalCreated g) g) w.

Definition cleanup_visit (clock : string -> Time * Time) (w : World) (key : string) : World :=
  match sessions (mgr w) !! key ≫= fun l => pair l <$> deref w l with
  | None => w
  | Some (l, s) =>
      match cleanup_verdict (sessionTTL (mgr w)) (clock key).1 (clock key).2 s with
      | Keep => w
      | DropClosed => drop_entry key w
      | DropExpired | DropIdle => drop_entry key (update Close l w)
      end
  end.

(** [cleanup]: [order] is the order in which [Range] visits the keys. *)
Definition cleanup (clock : string -> Time * Time) (order : list string) (w : World) : World :=
  foldl (cleanup_visit clock) w order.

(** [List]: the sessions that are not closed, in [Range]'s order. *)
Definition List (order : list string) (w : World) : list loc :=
  omap (fun key =>
    match sessions (mgr w) !! key with
    | Some l =>
        match deref w l with
        | Some s => if IsClosed s then None else Some l
        | None => None
        end
    | None => None
    end) order.

(** [Stop]: closes [done] (a second call panics), then closes and deletes every
    session. *)
Definition stop_visit (w : World) (key : string) : World :=
  match sessions (mgr w) !! key with
  | None => w
  | Some l =>
      let g := mgr w in
      with_mgr (set_sessions (delete key (sessions g)) (activeCount g) (totalCreated g) g)
        (update Close l w)
  end.

Definition close_done (g : Manager) : Manager :=
  {| sessions := sessions g; sessionTTL := sessionTTL g; maxSessions := maxSessions g;
     activeCount := activeCount g; totalCreated := totalCreated g; done := true |}.

Definition Stop (order : list string) (w : World) : outcome World :=
  if done (mgr w) then Panic "close of closed channel"
  else Ret (foldl stop_visit (with_mgr (close_done (mgr w)) w) order).

(** The goroutine of [Start]: a [select] over the context, [done] and the ticker.
    Each event is the case the runtime takes; the loop returns on the first two. *)
Inductive loop_event : Type :=
| EvCtxDone
| EvMgrDone
| EvTick (clock : string -> Time * Time) (order : list string).

Fixpoint Start (evs : list loop_event) (w : World) : World :=
  match evs with
  | [] => w
  | EvCtxDone :: _ | EvMgrDone :: _ => w
  | EvTick clock order :: evs => Start evs (cleanup clock order w)
  end.

(** ** Specification *)

(** What one client of the package may do: the manager's operations and the
    methods of a session it holds. A UUID is new ([uuid.New] documents it). *)
Inductive step : World -> World -> Prop :=
| step_create uid t1 t2 w :
    ("sess_" +:+ uid) ∉ dom (sessions (mgr w)) -> step w (Create uid t1 t2 w).1
| step_get id w : step w (Get id w).1
| step_delete id w : step w (Delete id w)
| step_incr now id w : step w (IncrementRequestCount now id w).1
| step_cleanup clock order w : step w (cleanup clock order w)
| step_close l w : step w (update Close l w)
| step_incr_held now l w : step w (update (fun s => (incrementRequestCount now s).1) l w)
| step_set_agent a n c l w : step w (update (SetAgent a n c) l w)
| step_set_identity v d l w : step w (update (SetIdentity v d) l w)
| step_set_client i u l w : step w (update (SetClientInfo i u) l w)
| step_send pick msg l w : step w (update (fun s => (SendMessage pick msg s).1) l w)
| step_receive l w : step w (update (fun s => set_chan (tail (MessageChan s)) s) l w)
| step_stop order w w' : Stop order w = Ret w' -> step w w'.

Definition init_world (cfg : ManagerConfig) : World := {| heap := []; mgr := NewManager cfg |}.

Definition reachable (cfg : ManagerConfig) : World -> Prop := rtc step (init_world cfg).

(** Well-formed worlds: the map points to sessions that carry their key, the counters are what
    their names say and every channel is within its capacity. [orphans] is the number of sessions
    that [Stop] has removed without counting them out; a manager that runs has none ([wf]). *)
Record counted (orphans : nat) (w : World) : Prop := {
  wf_ptr : forall id l, sessions (mgr w) !! id = Some l ->
           exists s, heap w !! l = Some s /\ ID s = id;
  wf_count : activeCount (mgr w) = Z.of_nat (size (sessions (mgr w)) + orphans);
  wf_max : (activeCount (mgr w) <= Z.max 0 (maxSessions (mgr w)))%Z;
  wf_int : (maxSessions (mgr w) <= max_int64)%Z;
  wf_total : totalCreated (mgr w) = wrap64 (Z.of_nat (length (heap w)));
  wf_chan : Forall (fun s => length (MessageChan s) <= message_chan_cap) (heap w)
}.

Arguments wf_ptr {orphans}.
Arguments wf_count {orphans}.
Arguments wf_max {orphans}.
Arguments wf_int {orphans}.
Arguments wf_total {orphans}.
Arguments wf_chan {orphans}.

Abbreviation wf := (counted 0).

(** The entry of a key: where its session lives and what it holds. *)
Definition entry (w : World) (id : string) : option (loc * Session) :=
  sessions (mgr w) !! id ≫= fun l => pair l <$> deref w l.

(** ** Lemmas *)

Lemma SetAgent_ID a n c s : ID (SetAgent a n c s) = ID s.
Proof. reflexivity. Qed.

Lemma Close_ID s : ID (Close s) = ID s.
Proof. unfold Close. by destruct (Done s). Qed.

Lemma Close_chan s : MessageChan (Close s) = MessageChan s.
Proof. unfold Close. by destruct (Done s). Qed.

Lemma Close_Done s : Done (Close s) = true.
Proof. unfold Close. by destruct (Done s) eqn:?. Qed.

Lemma SendMessage_ID p m s : ID (SendMessage p m s).1 = ID s.
Proof. unfold SendMessage. by repeat case_match. Qed.

Lemma SendMessage_chan p m s :
  length (MessageChan s) <= message_chan_cap ->
  length (MessageChan (SendMessage p m s).1) <= message_chan_cap.
Proof.
  unfold SendMessage. intros ?.
  destruct (bool_decide_reflect (length (MessageChan s) < message_chan_cap));
    repeat case_match; simpl; rewrite ?length_app; simpl; lia.
Qed.

(** A method keeps a session's identity and its channel within capacity. *)
Record tame (f : Session -> Session) : Prop := {
  tame_ID s : ID (f s) = ID s;
  tame_chan s : length (MessageChan s) <= message_chan_cap ->
                length (MessageChan (f s)) <= message_chan_cap
}.

Lemma tame_Close : tame Close.
Proof. split; intros; by rewrite ?Close_ID, ?Close_chan. Qed.

Lemma tame_incr now : tame (fun s => (incrementRequestCount now s).1).
Proof. by split. Qed.

Lemma tame_SetAgent a n c : tame (SetAgent a n c).
Proof. by split. Qed.

Lemma tame_SetIdentity v d : tame (SetIdentity v d).
Proof. by split. Qed.

Lemma tame_SetClientInfo i u : tame (SetClientInfo i u).
Proof. by split. Qed.

Lemma tame_SendMessage p m : tame (fun s => (SendMessage p m s).1).
Proof. split; auto using SendMessage_ID, SendMessage_chan. Qed.

Lemma tame_receive : tame (fun s => set_chan (tail (MessageChan s)) s).
Proof. split; [done|]. intros s. simpl. destruct (MessageChan s); simpl; lia. Qed.

#[export] Hint Resolve tame_Close tame_incr tame_SetAgent tame_SetIdentity
  tame_SetClientInfo tame_SendMessage tame_receive : proxy.

Lemma wf_update {k} f l w : tame f -> counted k w -> counted k (update f l w).
Proof.
  intros [HID Hch] [Hp Hc Hm Hi Ht Hq]. split; simpl; auto.
  - intros id l' Hl. destruct (Hp _ _ Hl) as (s & Hs & <-).
    destruct (decide (l = l')) as [->|].
    + exists (f s). by rewrite list_lookup_alter_eq, Hs, HID.
    + exists s. by rewrite list_lookup_alter_ne.
  - by rewrite length_alter.
  - apply Forall_lookup. intros i s. rewrite list_lookup_alter.
    case_decide; [|intros; by eapply (Forall_lookup_1 _ _ _ _ Hq)].
    intros (s0 & Hs0 & ->)%fmap_Some. apply Hch.
    by eapply (Forall_lookup_1 _ _ _ _ Hq).
Qed.

Lemma wf_drop {k} key l w : sessions (mgr w) !! key = Some l -> counted k w -> counted k (drop_entry key w).
Proof.
  intros Hl [Hp Hc Hm Hi Ht Hq].
  assert (Hsz : size (sessions (mgr w)) = S (size (delete key (sessions (mgr w))))).
  { by eapply map_size_delete_Some. }
  assert (Hwr : wrap64 (activeCount (mgr w) - 1)
                = Z.of_nat (size (delete key (sessions (mgr w))) + k)).
  { rewrite wrap64_id; [lia|]. unfold_int. lia. }
  split; simpl; rewrite ?Hwr; auto.
  - intros id l' [? ?]%lookup_delete_Some. eauto.
  - lia.
Qed.

Lemma Delete_drop id l w :
  sessions (mgr w) !! id = Some l -> Delete id w = update Close l (drop_entry id w).
Proof. unfold Delete. by intros ->. Qed.

Lemma wf_Delete {k} id w : counted k w -> counted k (Delete id w).
Proof.
  intros Hw. destruct (sessions (mgr w) !! id) as [l|] eqn:Hl.
  - rewrite (Delete_drop _ _ _ Hl). eauto using wf_update, wf_drop with proxy.
  - unfold Delete. by rewrite Hl.
Qed.

Lemma wf_Get {k} id w : counted k w -> counted k (Get id w).1.
Proof. intros Hw. unfold Get. repeat case_match; simpl; auto using wf_Delete. Qed.

Lemma wf_cleanup_visit {k} clock w key : counted k w -> counted k (cleanup_visit clock w key).
Proof.
  intros Hw. unfold cleanup_visit.
  destruct (sessions (mgr w) !! key) as [l|] eqn:Hl; [|done]. simpl.
  destruct (deref w l) as [s|]; [|done]. simpl.
  destruct (cleanup_verdict _ _ _ s); eauto using wf_drop.
  all: apply (wf_drop key l); eauto using wf_update with proxy.
Qed.

Lemma wf_cleanup {k} clock order w : counted k w -> counted k (cleanup clock order w).
Proof.
  unfold cleanup. revert w. induction order; simpl; auto using wf_cleanup_visit.
Qed.

Lemma wf_Create {k} uid t1 t2 w :
  ("sess_" +:+ uid) ∉ dom (sessions (mgr w)) -> counted k w -> counted k (Create uid t1 t2 w).1.
Proof.
  intros Hfresh [Hp Hc Hm Hi Ht Hq]. unfold Create.
  destruct (Z.geb_spec (activeCount (mgr w)) (maxSessions (mgr w))); [by split|].
  apply not_elem_of_dom in Hfresh.
  assert (Hwr : wrap64 (activeCount (mgr w) + 1) = (activeCount (mgr w) + 1)%Z).
  { apply wrap64_id. unfold_int. lia. }
  split; simpl; rewrite ?Hwr; auto.
  - intros id l [[<- <-]|[? Hl]]%lookup_insert_Some.
    + eexists. by rewrite list_lookup_middle.
    + destruct (Hp _ _ Hl) as (s & Hs & ?). exists s.
      by rewrite lookup_app_l by eauto using lookup_lt_Some.
  - rewrite map_size_insert_None by done. lia.
  - lia.
  - rewrite Ht, length_app. simpl. unfold wrap64. f_equal.
    replace ((Z.of_nat (length (heap w)) + 2 ^ 63) `mod` 2 ^ 64 - 2 ^ 63 + 1 + 2 ^ 63)%Z
      with ((Z.of_nat (length (heap w)) + 2 ^ 63) `mod` 2 ^ 64 + 1)%Z by lia.
    rewrite Z.add_mod_idemp_l by lia. f_equal. lia.
  - apply Forall_app. split; [done|]. constructor; [simpl; unfold message_chan_cap; lia|done].
Qed.

Lemma wf_Incr {k} now id w : counted k w -> counted k (IncrementRequestCount now id w).1.
Proof.
  intros Hw. unfold IncrementRequestCount.
  pose proof (wf_Get id w Hw) as Hg. destruct (Get id w) as [w' [l|]]; [|done].
  simpl in *. destruct (deref w' l) as [s|] eqn:Hs; [|done]. simpl.
  assert (update (const (incrementRequestCount now s).1) l w'
          = update (fun s => (incrementRequestCount now s).1) l w') as Heq.
  { unfold update. f_equal. apply list_eq. intros i. rewrite !list_lookup_alter.
    case_decide as Hil; [|done]. subst. unfold deref in Hs. by rewrite Hs. }
  change (counted k (update (const (incrementRequestCount now s).1) l w')).
  rewrite Heq. auto using wf_update with proxy.
Qed.

Lemma stop_visit_count w key : activeCount (mgr (stop_visit w key)) = activeCount (mgr w).
Proof. unfold stop_visit. by case_match. Qed.

Lemma stop_visit_sessions w key : sessions (mgr (stop_visit w key)) = delete key (sessions (mgr w)).
Proof.
  unfold stop_visit. case_match; simpl; [done|]. by rewrite delete_id.
Qed.

Lemma stop_visit_done w key : done (mgr (stop_visit w key)) = done (mgr w).
Proof. unfold stop_visit. by case_match. Qed.

Lemma stop_fold order w :
  activeCount (mgr (foldl stop_visit w order)) = activeCount (mgr w) /\
  done (mgr (foldl stop_visit w order)) = done (mgr w) /\
  forall id, id ∈ order \/ sessions (mgr w) !! id = None ->
             sessions (mgr (foldl stop_visit w order)) !! id = None.
Proof.
  revert w. induction order as [|k order IH]; intros w; simpl.
  - split; [done|]. split; [done|]. intros id [?%not_elem_of_nil|?]; done.
  - destruct (IH (stop_visit w k)) as (-> & -> & H). split; [apply stop_visit_count|].
    split; [apply stop_visit_done|].
    intros id Hid. apply H. rewrite stop_visit_sessions.
    destruct (decide (id = k)) as [->|]; [right; apply lookup_delete_eq|].
    rewrite lookup_delete_ne by done. rewrite elem_of_cons in Hid.
    destruct Hid as [[?|?]|?]; [done|by left|by right].
Qed.

Lemma Stop_done order w w' : Stop order w = Ret w' -> done (mgr w') = true.
Proof.
  unfold Stop. destruct (done (mgr w)); [done|]. intros [= <-].
  by destruct (stop_fold order (with_mgr (close_done (mgr w)) w)) as (_ & -> & _).
Qed.

Lemma wf_stop_visit k w key : counted k w -> exists k', counted k' (stop_visit w key).
Proof.
  intros Hw. unfold stop_visit. destruct (sessions (mgr w) !! key) as [l|] eqn:Hl; [|by exists k].
  exists (S k).
  enough (counted (S k) (with_mgr (set_sessions (delete key (sessions (mgr w))) (activeCount (mgr w))
    (totalCreated (mgr w)) (mgr w)) w)) as H by (by apply (wf_update Close l) in H; auto with proxy).
  destruct Hw as [Hp Hc Hm Hi Ht Hq]. pose proof (map_size_delete_Some _ _ _ Hl) as Hsz.
  split; simpl; [|lia|done|done|done|done].
  intros id l' [_ Hl']%lookup_delete_Some. eauto.
Qed.

Lemma wf_Stop k order w w' : Stop order w = Ret w' -> counted k w -> exists k', counted k' w'.
Proof.
  unfold Stop. destruct (done (mgr w)); [done|]. intros [= <-] Hw.
  assert (counted k (with_mgr (close_done (mgr w)) w)) as Hw' by (by destruct Hw).
  clear Hw. revert k Hw'. generalize (with_mgr (close_done (mgr w)) w). clear w.
  induction order as [|key order IH]; intros w k Hw; [by exists k|].
  destruct (wf_stop_visit k w key Hw) as [k' Hk']. by apply (IH _ k').
Qed.

(** Only [Stop] leaves sessions counted that are gone. *)
Lemma wf_step k w w' :
  step w w' -> counted k w -> counted k w' \/ done (mgr w') = true /\ exists k', counted k' w'.
Proof.
  intros Hs. destruct Hs; try (left; by eauto using wf_Create, wf_Get, wf_Delete, wf_Incr, wf_cleanup,
    wf_update with proxy).
  intros Hw. right. split; [|by eapply wf_Stop]. by eapply Stop_done.
Qed.

Lemma wf_init cfg : (MaxSessions cfg <= max_int64)%Z -> wf (init_world cfg).
Proof.
  intros ?. split; simpl; try done.
  - lia.
  - case_match; unfold max_int64 in *; lia.
Qed.

(** The configuration fields never change. *)
Lemma cleanup_visit_cfg clock w key :
  sessionTTL (mgr (cleanup_visit clock w key)) = sessionTTL (mgr w) /\
  maxSessions (mgr (cleanup_visit clock w key)) = maxSessions (mgr w).
Proof. unfold cleanup_visit. by repeat case_match. Qed.

Lemma cleanup_cfg clock order w :
  sessionTTL (mgr (cleanup clock order w)) = sessionTTL (mgr w) /\
  maxSessions (mgr (cleanup clock order w)) = maxSessions (mgr w).
Proof.
  unfold cleanup. revert w. induction order as [|key order IH]; intros w; simpl; [done|].
  destruct (IH (cleanup_visit clock w key)) as [-> ->]. apply cleanup_visit_cfg.
Qed.

Lemma Delete_cfg id w : maxSessions (mgr (Delete id w)) = maxSessions (mgr w).
Proof. unfold Delete. by case_match. Qed.

Lemma Get_cfg id w : maxSessions (mgr (Get id w).1) = maxSessions (mgr w).
Proof. unfold Get. repeat case_match; simpl; auto using Delete_cfg. Qed.

Lemma Stop_cfg order w w' : Stop order w = Ret w' -> maxSessions (mgr w') = maxSessions (mgr w).
Proof.
  unfold Stop. destruct (done (mgr w)); [done|]. intros [= <-].
  change (maxSessions (mgr w)) with (maxSessions (mgr (with_mgr (close_done (mgr w)) w))).
  generalize (with_mgr (close_done (mgr w)) w). induction order as [|key order IH]; intros w0; [done|].
  cbn. rewrite IH. unfold stop_visit. by case_match.
Qed.

Lemma step_cfg w w' : step w w' -> maxSessions (mgr w') = maxSessions (mgr w).
Proof.
  destruct 1; auto using Get_cfg, Delete_cfg.
  - unfold Create. by case_match.
  - unfold IncrementRequestCount. pose proof (Get_cfg id w) as H.
    destruct (Get id w) as [w' [l|]]; [|done]. simpl in *. by case_match.
  - apply cleanup_cfg.
  - by eapply Stop_cfg.
Qed.

(** Entries: what deleting, closing and visiting do to one key and to the others. *)
Lemma entry_Some w id l s :
  entry w id = Some (l, s) <-> sessions (mgr w) !! id = Some l /\ deref w l = Some s.
Proof.
  unfold entry. destruct (sessions (mgr w) !! id) as [l0|]; simpl; [|by split; [|intros []]].
  destruct (deref w l0) as [s0|] eqn:Hs0; simpl; split.
  - intros [= <- <-]. done.
  - intros [[= <-] Hs]. congruence.
  - done.
  - intros [[= <-] Hs]. congruence.
Qed.

Lemma wf_loc_inj {k} w id id' l :
  counted k w -> sessions (mgr w) !! id = Some l -> sessions (mgr w) !! id' = Some l -> id = id'.
Proof.
  intros Hw H1 H2. destruct (wf_ptr w Hw _ _ H1) as (s & Hs & <-).
  destruct (wf_ptr w Hw _ _ H2) as (s' & Hs' & <-). congruence.
Qed.

Lemma wf_entry {k} w id l :
  counted k w -> sessions (mgr w) !! id = Some l -> exists s, entry w id = Some (l, s) /\ ID s = id.
Proof.
  intros Hw Hl. destruct (wf_ptr w Hw _ _ Hl) as (s & Hs & ?).
  exists s. by rewrite entry_Some.
Qed.

Lemma deref_update_ne f l l' w : l <> l' -> deref (update f l w) l' = deref w l'.
Proof. intros. by apply list_lookup_alter_ne. Qed.

Lemma deref_update_eq f l s w : deref w l = Some s -> deref (update f l w) l = Some (f s).
Proof. unfold deref, update. simpl. rewrite list_lookup_alter_eq. by intros ->. Qed.

Lemma cleanup_visit_other clock w key l s :
  wf w -> deref w l = Some s -> ID s <> key -> deref (cleanup_visit clock w key) l = Some s.
Proof.
  intros Hw Hs Hne. unfold cleanup_visit.
  destruct (sessions (mgr w) !! key) as [l'|] eqn:Hl'; [|done]. simpl.
  destruct (wf_ptr w Hw _ _ Hl') as (s' & Hs' & HID).
  rewrite (Hs' : deref w l' = Some s'). simpl.
  assert (l' <> l) by (unfold deref in Hs; congruence).
  case_match; [done|done|..].
  all: change (deref (update Close l' w) l = Some s); by rewrite deref_update_ne.
Qed.

Lemma cleanup_visit_other_entry clock w key id :
  wf w -> id <> key -> entry (cleanup_visit clock w key) id = entry w id.
Proof.
  intros Hw Hne. unfold cleanup_visit, entry.
  destruct (sessions (mgr w) !! key) as [l'|] eqn:Hl'; [|done]. simpl.
  destruct (wf_ptr w Hw _ _ Hl') as (s' & Hs' & HID).
  rewrite (Hs' : deref w l' = Some s'). simpl.
  case_match; simpl; rewrite ?lookup_delete_ne by done; try done.
  all: destruct (sessions (mgr w) !! id) as [l|] eqn:Hl; [|done]; simpl.
  all: assert (l' <> l) by (intros ->; eauto using wf_loc_inj).
  all: by rewrite <- (deref_update_ne Close l' l w).
Qed.

(** The state of one key after its visit: kept as it is, or dropped and closed. *)
Definition after_visit (w w' : World) (id : string) (v : verdict) (l : loc) (s : Session) : Prop :=
  match v with
  | Keep => entry w' id = Some (l, s)
  | _ => sessions (mgr w') !! id = None /\ deref w' l = Some (Close s)
  end.

Lemma cleanup_visit_self clock w id l s :
  entry w id = Some (l, s) ->
  after_visit w (cleanup_visit clock w id) id
    (cleanup_verdict (sessionTTL (mgr w)) (clock id).1 (clock id).2 s) l s.
Proof.
  intros He. unfold cleanup_visit. fold (entry w id). rewrite He.
  apply entry_Some in He as [Hl Hs].
  destruct (cleanup_verdict _ _ _ s) eqn:Hv; simpl.
  - by rewrite entry_Some.
  - split; [apply lookup_delete_eq|].
    unfold cleanup_verdict, IsClosed in Hv. unfold Close.
    repeat case_match; simplify_eq. done.
  - split; [apply lookup_delete_eq|]. by apply (deref_update_eq Close l s w).
  - split; [apply lookup_delete_eq|]. by apply (deref_update_eq Close l s w).
Qed.

Lemma cleanup_dropped clock order w id l s :
  wf w -> sessions (mgr w) !! id = None -> deref w l = Some s -> ID s = id ->
  sessions (mgr (cleanup clock order w)) !! id = None /\
  deref (cleanup clock order w) l = Some s.
Proof.
  unfold cleanup. revert w. induction order as [|key order IH]; intros w Hw Hn Hs Hid;
    simpl; [done|].
  destruct (decide (key = id)) as [->|Hne].
  - replace (cleanup_visit clock w id) with w; [by auto|].
    unfold cleanup_visit. by rewrite Hn.
  - apply IH; auto using wf_cleanup_visit.
    + pose proof (cleanup_visit_other_entry clock w key id Hw (not_eq_sym Hne)) as He.
      unfold entry in He. rewrite Hn in He. simpl in He.
      destruct (sessions (mgr (cleanup_visit clock w key)) !! id) as [l'|] eqn:Hl'; [|done].
      destruct (wf_ptr _ (wf_cleanup_visit clock w key Hw) _ _ Hl') as (s' & Hs' & _).
      simpl in He. unfold deref in He. by rewrite Hs' in He.
    + apply cleanup_visit_other; [done|done|]. congruence.
Qed.

Lemma cleanup_entry clock order w id l s :
  wf w -> NoDup order -> id ∈ order -> entry w id = Some (l, s) ->
  after_visit w (cleanup clock order w) id
    (cleanup_verdict (sessionTTL (mgr w)) (clock id).1 (clock id).2 s) l s.
Proof.
  revert w. induction order as [|key order IH]; intros w Hw Hnd Hin He;
    [by apply not_elem_of_nil in Hin|].
  apply list.NoDup_cons in Hnd as [Hnin Hnd].
  change (cleanup clock (key :: order) w) with (cleanup clock order (cleanup_visit clock w key)).
  destruct (decide (key = id)) as [->|Hne].
  - pose proof (cleanup_visit_self clock w id l s He) as Hv.
    pose proof (wf_cleanup_visit clock w id Hw) as Hw'.
    destruct (entry_Some w id l s) as [[Hl Hs] _]; [done|].
    assert (Hid : ID s = id).
    { destruct (wf_ptr w Hw _ _ Hl) as (s' & Hs' & ?). unfold deref in Hs. congruence. }
    destruct (cleanup_verdict _ _ _ s); simpl in *.
    + clear IH. revert Hv Hw'. generalize (cleanup_visit clock w id). clear -Hnin.
      induction order as [|k order IH]; intros w He Hw; [done|].
      apply not_elem_of_cons in Hnin as [? ?].
      change (cleanup clock (k :: order) w) with (cleanup clock order (cleanup_visit clock w k)).
      apply IH; auto using wf_cleanup_visit. by rewrite cleanup_visit_other_entry.
    + destruct Hv. apply cleanup_dropped; auto. by rewrite Close_ID.
    + destruct Hv. apply cleanup_dropped; auto. by rewrite Close_ID.
    + destruct Hv. apply cleanup_dropped; auto. by rewrite Close_ID.
  - apply elem_of_cons in Hin as [?|Hin]; [done|].
    replace (sessionTTL (mgr w)) with (sessionTTL (mgr (cleanup_visit clock w key)))
      by apply cleanup_visit_cfg.
    apply IH; auto using wf_cleanup_visit. by rewrite cleanup_visit_other_entry.
Qed.

(** Which sessions outlive a [step], seen through a pointer a client holds. *)
Lemma deref_alter_closed f l l' w s :
  (forall s, Done s = true -> Done (f s) = true) ->
  deref w l = Some s -> Done s = true ->
  exists s', deref (update f l' w) l = Some s' /\ Done s' = true.
Proof.
  intros Hf Hs Hd. destruct (decide (l' = l)) as [->|].
  - exists (f s). split; [by apply deref_update_eq|auto].
  - exists s. by rewrite deref_update_ne.
Qed.

Definition closed_at (w : World) (l : loc) : Prop :=
  exists s, deref w l = Some s /\ Done s = true.

Lemma closed_update f l l' w :
  (forall s, Done s = true -> Done (f s) = true) ->
  closed_at w l -> closed_at (update f l' w) l.
Proof. intros Hf (s & Hs & Hd). by apply (deref_alter_closed f l l' w s). Qed.

Lemma closed_Close s : Done s = true -> Done (Close s) = true.
Proof. intros _. apply Close_Done. Qed.

Lemma closed_Delete id l w : closed_at w l -> closed_at (Delete id w) l.
Proof.
  intros Hc. unfold Delete. case_match; [|done].
  apply closed_update; [exact closed_Close|exact Hc].
Qed.

Lemma closed_Get id l w : closed_at w l -> closed_at (Get id w).1 l.
Proof. intros. unfold Get. repeat case_match; simpl; auto using closed_Delete. Qed.

Lemma closed_visit clock w key l : closed_at w l -> closed_at (cleanup_visit clock w key) l.
Proof.
  intros Hc. unfold cleanup_visit.
  destruct (sessions (mgr w) !! key ≫= _) as [[l' s]|]; [|done].
  case_match; [done|exact Hc|..]; exact (closed_update Close l l' w closed_Close Hc).
Qed.

Lemma closed_cleanup clock order w l : closed_at w l -> closed_at (cleanup clock order w) l.
Proof. unfold cleanup. revert w. induction order; simpl; auto using closed_visit. Qed.

Lemma closed_stop order w w' l : Stop order w = Ret w' -> closed_at w l -> closed_at w' l.
Proof.
  unfold Stop. destruct (done (mgr w)); [done|]. intros [= <-] Hc.
  assert (closed_at (with_mgr (close_done (mgr w)) w) l) as Hc' by exact Hc. revert Hc'. clear Hc.
  generalize (with_mgr (close_done (mgr w)) w). clear w.
  induction order as [|key order IH]; intros w Hc; [done|]. cbn. apply IH.
  unfold stop_visit. destruct (sessions (mgr w) !! key) as [l'|]; [|done].
  exact (closed_update Close l l' w closed_Close Hc).
Qed.

Lemma closed_SendMessage p m s : Done s = true -> Done (SendMessage p m s).1 = true.
Proof. unfold SendMessage. intros Hd. rewrite Hd. case_match; exact Hd. Qed.

Lemma closed_step w w' l : step w w' -> closed_at w l -> closed_at w' l.
Proof.
  destruct 1; eauto using closed_Get, closed_Delete, closed_cleanup, closed_update,
    closed_Close, closed_SendMessage, closed_stop.
  - intros (s & Hs & Hd). unfold Create. case_match; [by exists s|]. exists s. split; [|done].
    unfold deref in *. simpl. by rewrite lookup_app_l by eauto using lookup_lt_Some.
  - intros Hc. apply (closed_Get id) in Hc. unfold IncrementRequestCount.
    destruct (Get id w) as [w' [l'|]]; [|done]. simpl in *.
    destruct (deref w' l') as [s|] eqn:Hs; [|done]. simpl.
    destruct Hc as (s' & Hs' & Hd). destruct (decide (l' = l)) as [->|Hne].
    + exists (set_activity (wrap64 (RequestCount s + 1)) now s).
      split; [by eapply (deref_update_eq (const _))|]. simpl. congruence.
    + exists s'. split; [|done]. by rewrite <- Hs'; apply (deref_update_ne (const _)).
Qed.

(** ** Theorems *)

(** Once the manager is stopped it stays so. *)
Lemma step_done w w' : step w w' -> done (mgr w) = true -> done (mgr w') = true.
Proof.
  intros Hs Hd. destruct Hs as [uid t1 t2 w _|id w|id w|now id w|clock order w| | | | | | | |order w w' Hst];
    try exact Hd.
  - unfold Create. by case_match.
  - unfold Get, Delete. by repeat case_match.
  - unfold Delete. by case_match.
  - unfold IncrementRequestCount, Get, Delete. by repeat (case_match; simplify_eq/=).
  - unfold cleanup. revert w Hd. induction order as [|key order IH]; intros w Hd; [done|].
    cbn. apply IH. unfold cleanup_visit. by repeat case_match.
  - unfold Stop in Hst. by rewrite Hd in Hst.
Qed.

Lemma reachable_counted cfg w :
  (MaxSessions cfg <= max_int64)%Z -> reachable cfg w ->
  exists k, counted k w /\ (done (mgr w) = false -> k = 0) /\
    maxSessions (mgr w) = maxSessions (NewManager cfg).
Proof.
  intros Hcfg Hr. unfold reachable in Hr. revert Hr.
  apply (rtc_ind_r (fun w => exists k, counted k w /\ (done (mgr w) = false -> k = 0) /\
    maxSessions (mgr w) = maxSessions (NewManager cfg))).
  - exists 0. split; [by apply wf_init|done].
  - intros w1 w2 _ Hs (k & Hk & Hd & Heq). rewrite <- (step_cfg _ _ Hs) in Heq.
    destruct (wf_step k _ _ Hs Hk) as [H|[Hdone [k' H]]].
    + exists k. split; [done|]. split; [|done]. intros Hd2. apply Hd.
      destruct (done (mgr w1)) eqn:E; [|done]. by rewrite (step_done _ _ Hs E) in Hd2.
    + exists k'. split; [done|]. split; [congruence|done].
Qed.

(** C19: In every state that operations one after another, [Stop] among them, can reach from a
    new manager, the active count never exceeds the configured limit and is at least the number
    of sessions in the map, exactly that number until [Stop]; each key of the map points to the
    session that carries it, and no message channel holds more than its 100 messages. (What
    interleavings of one operation with another can do to the count is in [SessionConc].) *)
Theorem manager_invariant (cfg : ManagerConfig) (w : World) :
  (MaxSessions cfg <= max_int64)%Z ->
  reachable cfg w ->
  (done (mgr w) = false -> ActiveCount w = Z.of_nat (size (sessions (mgr w)))) /\
  (Z.of_nat (size (sessions (mgr w))) <= ActiveCount w)%Z /\
  (ActiveCount w <= Z.max 0 (maxSessions (NewManager cfg)))%Z /\
  (forall id l, sessions (mgr w) !! id = Some l ->
     exists s, deref w l = Some s /\ ID s = id /\
               length (MessageChan s) <= message_chan_cap).
Proof.
  intros Hcfg Hr. destruct (reachable_counted cfg w Hcfg Hr) as (k & Hw & Hk & Heq).
  pose proof (wf_count w Hw) as Hc. unfold ActiveCount. split.
  { intros Hd. rewrite Hc, (Hk Hd). lia. }
  split; [lia|]. split; [rewrite <- Heq; apply (wf_max w Hw)|].
  intros id l Hl. destruct (wf_ptr w Hw _ _ Hl) as (s & Hs & Hid).
  exists s. do 2 (split; [done|]). by apply (Forall_lookup_1 _ _ _ _ (wf_chan w Hw) Hs).
Qed.

(** A world with one session, for the witnesses. *)
Definition one_session : World := (Create "u1" 0 0 (init_world DefaultManagerConfig)).1.

Lemma one_session_wf : wf one_session.
Proof.
  apply wf_Create; [set_solver|]. apply wf_init. unfold max_int64. simpl. lia.
Qed.

Lemma manager_invariant_witness :
  ActiveCount one_session = Z.of_nat (size (sessions (mgr one_session))).
Proof.
  refine (proj1 (manager_invariant DefaultManagerConfig one_session _ _) _).
  - vm_compute. discriminate.
  - eapply rtc_once. apply step_create. set_solver.
  - reflexivity.
Defined.

(** [Create] refuses at the limit and then changes nothing; below it, it returns
    a new open session that [Get] finds under its id, counts it, and leaves every
    other entry alone. *)
Theorem Create_spec (uid : string) (t1 t2 : Time) (w : World) :
  wf w -> ("sess_" +:+ uid) ∉ dom (sessions (mgr w)) ->
  match Create uid t1 t2 w with
  | (w', Err e) =>
      (maxSessions (mgr w) <= ActiveCount w)%Z /\ w' = w /\ e = ErrMaxSessionsReached
  | (w', Ok l) =>
      (ActiveCount w < maxSessions (mgr w))%Z /\
      Get ("sess_" +:+ uid) w' = (w', Some l) /\
      deref w' l = Some (NewSession ("sess_" +:+ uid) t1 t2) /\
      ActiveCount w' = (ActiveCount w + 1)%Z /\
      forall id, id <> "sess_" +:+ uid -> entry w' id = entry w id
  end.
Proof.
  intros Hw Hfresh. pose proof (wf_Create uid t1 t2 w Hfresh Hw) as Hw'. revert Hw'.
  unfold Create, ActiveCount.
  destruct (Z.geb_spec (activeCount (mgr w)) (maxSessions (mgr w))); simpl; [done|].
  intros Hw'. split; [lia|].
  assert (Hd : deref (mkWorld (heap w ++ [NewSession ("sess_" +:+ uid) t1 t2]) (mgr w))
                 (length (heap w)) = Some (NewSession ("sess_" +:+ uid) t1 t2)).
  { unfold deref. simpl. by rewrite list_lookup_middle. }
  split; [|split; [exact Hd|split]].
  - unfold Get. simpl. rewrite lookup_insert_eq. unfold deref in Hd |- *. simpl in *.
    by rewrite Hd.
  - rewrite wrap64_id; [done|]. pose proof (wf_int w Hw). pose proof (wf_count w Hw).
    unfold_int. lia.
  - intros id Hne. unfold entry. simpl. rewrite lookup_insert_ne by done.
    destruct (sessions (mgr w) !! id) as [l|] eqn:Hl; [|done]. simpl.
    destruct (wf_ptr w Hw _ _ Hl) as (s & Hs & _).
    unfold deref. simpl. by rewrite lookup_app_l by eauto using lookup_lt_Some.
Qed.

Lemma Create_spec_witness :
  exists w' l, Create "u2" 5 6 one_session = (w', Ok l) /\
  Get "sess_u2" w' = (w', Some l) /\ ActiveCount w' = 2%Z.
Proof.
  pose proof (Create_spec "u2" 5 6 one_session one_session_wf ltac:(vm_compute; set_solver)) as H.
  destruct (Create "u2" 5 6 one_session) as [w' [l|e]] eqn:E; [|vm_compute in E; discriminate].
  exists w', l. split; [done|]. split; [apply H|]. rewrite (proj1 (proj2 (proj2 (proj2 H)))).
  reflexivity.
Defined.

(** [Delete] makes the id unknown, closes the session for everyone who still
    holds it, counts it out once, and leaves every other entry alone. *)
Theorem Delete_spec (id : string) (w : World) (l : loc) (s : Session) :
  wf w -> entry w id = Some (l, s) ->
  let w' := Delete id w in
  Get id w' = (w', None) /\ deref w' l = Some (Close s) /\
  ActiveCount w' = (ActiveCount w - 1)%Z /\ Delete id w' = w' /\
  forall id', id' <> id -> entry w' id' = entry w id'.
Proof.
  intros Hw He w'. apply entry_Some in He as [Hl Hs].
  assert (Hn : sessions (mgr w') !! id = None).
  { unfold w'. rewrite (Delete_drop _ _ _ Hl). simpl. apply lookup_delete_eq. }
  split; [unfold Get; by rewrite Hn|].
  split; [unfold w'; rewrite (Delete_drop _ _ _ Hl); by apply deref_update_eq|].
  split.
  { pose proof (wf_count w' (wf_Delete id w Hw)) as H'. pose proof (wf_count w Hw) as H0.
    unfold ActiveCount. rewrite H', H0. unfold w'. rewrite (Delete_drop _ _ _ Hl). simpl.
    rewrite (map_size_delete_Some _ _ _ Hl). lia. }
  split; [unfold Delete at 1; by rewrite Hn|].
  intros id' Hne. unfold w'. rewrite (Delete_drop _ _ _ Hl). unfold entry. simpl.
  rewrite lookup_delete_ne by done.
  destruct (sessions (mgr w) !! id') as [l'|] eqn:Hl'; [|done]. simpl.
  assert (l <> l') by (intros ->; apply Hne; eauto using wf_loc_inj).
  by rewrite <- (deref_update_ne Close l l' w).
Qed.

Lemma Delete_spec_witness :
  ActiveCount (Delete "sess_u1" one_session) = 0%Z.
Proof.
  refine (proj1 (proj2 (proj2
    (Delete_spec "sess_u1" one_session 0 (NewSession "sess_u1" 0 0) one_session_wf _)))).
  reflexivity.
Defined.

(** one run of [cleanup], whatever the order of the visits, keeps exactly the
    sessions that are open, within the TTL and idle for at most half of it, untouched
    and under the same pointer; every other session is out of the map and closed. *)
Theorem cleanup_spec (clock : string -> Time * Time) (order : list string) (w : World)
    (id : string) (l : loc) (s : Session) :
  wf w -> NoDup order -> id ∈ order -> entry w id = Some (l, s) ->
  let w' := cleanup clock order w in
  let live := Done s = false /\
              (Age (clock id).1 s <= sessionTTL (mgr w))%Z /\
              (IdleTime (clock id).2 s <= Z.quot (sessionTTL (mgr w)) 2)%Z in
  (live -> entry w' id = Some (l, s)) /\
  (~ live -> sessions (mgr w') !! id = None /\ deref w' l = Some (Close s)).
Proof.
  intros Hw Hnd Hin He w' live.
  pose proof (cleanup_entry clock order w id l s Hw Hnd Hin He) as H. fold w' in H.
  unfold live. clear live. revert H. unfold cleanup_verdict, IsClosed.
  destruct (Done s) eqn:Hd; simpl; [intros; split; [intros [? _]; done|done]|].
  destruct (Z.gtb_spec (Age (clock id).1 s) (sessionTTL (mgr w))); simpl;
    [intros; split; [lia|done]|].
  destruct (Z.gtb_spec (IdleTime (clock id).2 s) (Z.quot (sessionTTL (mgr w)) 2)); simpl;
    intros; split; try done; lia.
Qed.

Lemma cleanup_spec_witness :
  let clock := fun _ => ((3 * Hour)%Z, (3 * Hour)%Z) in
  sessions (mgr (cleanup clock ["sess_u1"] one_session)) !! "sess_u1" = None.
Proof.
  intros clock.
  refine (proj1 (proj2 (cleanup_spec clock ["sess_u1"] one_session "sess_u1" 0
    (NewSession "sess_u1" 0 0) one_session_wf _ _ _) _)).
  - apply NoDup_singleton.
  - set_solver.
  - reflexivity.
  - intros (_ & H & _). vm_compute in H. by apply H.
Defined.

(** a closed session stays closed, for whoever holds a pointer to it, through
    every operation of the package. *)
Theorem closed_forever (w w' : World) (l : loc) (s : Session) :
  rtc step w w' -> deref w l = Some s -> IsClosed s = true ->
  exists s', deref w' l = Some s' /\ IsClosed s' = true.
Proof.
  intros Hr Hs Hd. change (closed_at w' l).
  assert (Hc : closed_at w l) by (by exists s). clear Hs Hd.
  induction Hr; eauto using closed_step.
Qed.

Lemma closed_forever_witness :
  exists s', deref (Delete "sess_u1" (update Close 0 one_session)) 0 = Some s' /\
             IsClosed s' = true.
Proof.
  apply (closed_forever (update Close 0 one_session) _ 0 (Close (NewSession "sess_u1" 0 0))).
  - apply rtc_once. apply step_delete.
  - reflexivity.
  - reflexivity.
Defined.

(** [SendMessage] is a bounded FIFO: [true] means the message was appended to a
    channel that had room, [false] that nothing was sent and the session was closed or
    its channel full; on an open session the answer is exactly whether there was room. *)
Theorem SendMessage_spec (pick : bool) (msg : string) (s : Session) :
  match SendMessage pick msg s with
  | (s', true) => s' = set_chan (MessageChan s ++ [msg]) s /\
                  length (MessageChan s) < message_chan_cap
  | (s', false) => s' = s /\
                   (Done s = true \/ message_chan_cap <= length (MessageChan s))
  end /\
  (Done s = false ->
   (SendMessage pick msg s).2 = bool_decide (length (MessageChan s) < message_chan_cap)).
Proof.
  unfold SendMessage.
  destruct (bool_decide_reflect (length (MessageChan s) < message_chan_cap)) as [Hl|Hl],
    (Done s) eqn:Hd, pick; simpl; split; try done; split; try done; first [by left|right; lia].
Qed.

(** the documented contract of [SendMessage], false on a closed session, is not
    met: with both [select] cases ready the runtime may queue the message and answer
    [true], although nobody will read the channel. *)
Theorem SendMessage_on_closed_may_succeed (msg : string) (s : Session) :
  length (MessageChan s) < message_chan_cap ->
  SendMessage true msg (Close s) = (set_chan (MessageChan s ++ [msg]) (Close s), true).
Proof.
  intros Hl. unfold SendMessage. rewrite Close_Done, Close_chan.
  by rewrite bool_decide_eq_true_2.
Qed.

Lemma SendMessage_on_closed_witness :
  (SendMessage true "hello" (Close (NewSession "s" 0 0))).2 = true.
Proof.
  rewrite (SendMessage_on_closed_may_succeed "hello" (NewSession "s" 0 0)); [done|].
  unfold message_chan_cap. simpl. lia.
Defined.

(** [Stop] empties the map but never touches the active count, so after it the
    count still claims every session that was active; and a second [Stop] panics. *)
Theorem Stop_keeps_active_count (order : list string) (w : World) :
  done (mgr w) = false -> (forall id, id ∈ dom (sessions (mgr w)) -> id ∈ order) ->
  exists w', Stop order w = Ret w' /\ sessions (mgr w') = ∅ /\
             ActiveCount w' = ActiveCount w /\
             forall order', Stop order' w' = Panic "close of closed channel".
Proof.
  intros Hd Hall. unfold Stop. rewrite Hd. eexists. split; [done|].
  destruct (stop_fold order (with_mgr (close_done (mgr w)) w)) as (Hc & Hdn & Hs).
  split; [|split; [exact Hc|intros order'; unfold Stop; by rewrite Hdn]]. apply map_eq. intros id. rewrite lookup_empty. apply Hs. simpl.
  destruct (sessions (mgr w) !! id) eqn:Hl; [left|by right].
  apply Hall. by apply elem_of_dom_2 in Hl.
Qed.

Lemma Stop_keeps_active_count_witness :
  exists w', Stop ["sess_u1"] one_session = Ret w' /\ sessions (mgr w') = ∅ /\
             ActiveCount w' = 1%Z.
Proof.
  destruct (Stop_keeps_active_count ["sess_u1"] one_session) as (w' & H1 & H2 & H3 & _);
    [done| |by exists w'].
  intros id (l & Hl)%elem_of_dom.
  change (sessions (mgr one_session)) with ({["sess_u1" := 0]} : gmap string nat) in Hl.
  apply lookup_singleton_Some in Hl as [<- _]. set_solver.
Defined.
