(* ===== verification/SessionConc.v ===== *)
(** * The session manager under interleaving

    The manager's operations of src/internal/session/manager.go cut at the points
    where another goroutine can run: every access to the [sync.Map], every
    [Close], and each critical section of [m.mu]. [Create] holds the mutex from its
    check to its increment; [Delete] and [cleanup] touch the map outside of it and
    take it only for the decrement. A schedule is the list of thread numbers the
    runtime picks; a thread that waits for the mutex does not move. *)

From Stdlib Require Import ZArith Lia.
From stdpp Require Import base list gmap strings numbers.
From S2P Require Import Prelude Session.

(** Where a goroutine stands. *)
Inductive pc : Type :=
(* Create *)
| PCreate (uid : string) (t1 t2 : Time)
| PCreateStore (uid : string) (t1 t2 : Time)   (* mutex held, limit checked *)
| PCreateCount                                 (* mutex held, stored *)
(* Get: load, look at Done *)
| PGet (id : string)
(* Delete: LoadAndDelete, Close, decrement *)
| PDelete (id : string)
| PDelClose (l : nat)
| PDelCount
(* cleanup's Range: keys still to visit, and the current one *)
| PClean (clock : string -> Time * Time) (keys : list string)
| PCleanClose (key : string) (l : nat) (clock : string -> Time * Time) (keys : list string)
| PCleanDelete (key : string) (clock : string -> Time * Time) (keys : list string)
| PCleanCount (clock : string -> Time * Time) (keys : list string)
| PDone.

Record cstate : Type := mkC {
  cw : World;
  locked : bool;      (* m.mu *)
  threads : list pc
}.

Definition load_and_delete (id : string) (w : World) : World :=
  let g := mgr w in
  with_mgr (set_sessions (delete id (sessions g)) (activeCount g) (totalCreated g) g) w.

Definition decrement (w : World) : World :=
  let g := mgr w in
  with_mgr (set_sessions (sessions g) (wrap64 (activeCount g - 1)) (totalCreated g) g) w.

Definition store_session (uid : string) (t1 t2 : Time) (w : World) : World :=
  let g := mgr w in
  let sessionID := "sess_" +:+ uid in
  {| heap := heap w ++ [NewSession sessionID t1 t2];
     mgr := set_sessions (<[sessionID := length (heap w)]> (sessions g))
              (activeCount g) (totalCreated g) g |}.

Definition increment (w : World) : World :=
  let g := mgr w in
  with_mgr (set_sessions (sessions g) (wrap64 (activeCount g + 1))
              (wrap64 (totalCreated g + 1)) g) w.

(** One atomic step of a goroutine: the world, the mutex and its next point;
    [None] when it is done or blocked on the mutex. *)
Definition pstep (w : World) (lk : bool) (p : pc) : option (World * bool * pc) :=
  match p with
  | PCreate uid t1 t2 =>
      if lk then None
      else if (activeCount (mgr w) >=? maxSessions (mgr w))%Z then Some (w, false, PDone)
      else Some (w, true, PCreateStore uid t1 t2)
  | PCreateStore uid t1 t2 => Some (store_session uid t1 t2 w, lk, PCreateCount)
  | PCreateCount => Some (increment w, false, PDone)
  | PGet id =>
      match entry w id with
      | Some (_, s) => Some (w, lk, if IsClosed s then PDelete id else PDone)
      | None => Some (w, lk, PDone)
      end
  | PDelete id =>
      match sessions (mgr w) !! id with
      | Some l => Some (load_and_delete id w, lk, PDelClose l)
      | None => Some (w, lk, PDone)
      end
  | PDelClose l => Some (update Close l w, lk, PDelCount)
  | PDelCount => if lk then None else Some (decrement w, false, PDone)
  | PClean _ [] => Some (w, lk, PDone)
  | PClean clock (key :: keys) =>
      match entry w key with
      | None => Some (w, lk, PClean clock keys)
      | Some (l, s) =>
          match cleanup_verdict (sessionTTL (mgr w)) (clock key).1 (clock key).2 s with
          | Keep => Some (w, lk, PClean clock keys)
          | DropClosed => Some (w, lk, PCleanDelete key clock keys)
          | DropExpired | DropIdle => Some (w, lk, PCleanClose key l clock keys)
          end
      end
  | PCleanClose key l clock keys => Some (update Close l w, lk, PCleanDelete key clock keys)
  | PCleanDelete key clock keys => Some (load_and_delete key w, lk, PCleanCount clock keys)
  | PCleanCount clock keys =>
      if lk then None else Some (decrement w, false, PClean clock keys)
  | PDone => None
  end.

Definition cstep (i : nat) (st : cstate) : option cstate :=
  p ← threads st !! i;
  '(w', lk', p') ← pstep (cw st) (locked st) p;
  Some {| cw := w'; locked := lk'; threads := <[i := p']> (threads st) |}.

(** A schedule; a pick of a thread that cannot move is skipped. *)
Definition run (sched : list nat) (st : cstate) : cstate :=
  foldl (fun st i => default st (cstep i st)) st sched.

Definition quiescent (st : cstate) : Prop := Forall (fun p => p = PDone) (threads st).

(** Threads of the request path: everything but the background cleanup. *)
Definition is_cleanup (p : pc) : bool :=
  match p with
  | PClean _ _ | PCleanClose _ _ _ _ | PCleanDelete _ _ _ | PCleanCount _ _ => true
  | _ => false
  end.

(** Threads before their first step. *)
Definition is_start (p : pc) : bool :=
  match p with
  | PCreate _ _ _ | PGet _ | PDelete _ | PClean _ _ | PDone => true
  | _ => false
  end.

(** The id a [Create] is about to store. *)
Definition pending_id (p : pc) : option string :=
  match p with
  | PCreate uid _ _ | PCreateStore uid _ _ => Some ("sess_" +:+ uid)
  | _ => None
  end.

(** Deleted and not counted out, stored and not counted in, holding the mutex. *)
Definition uncounted_del (p : pc) : Z :=
  match p with PDelClose _ | PDelCount => 1 | _ => 0 end%Z.
Definition uncounted_add (p : pc) : Z := match p with PCreateCount => 1 | _ => 0 end%Z.
Definition holds (p : pc) : Z :=
  match p with PCreateStore _ _ _ | PCreateCount => 1 | _ => 0 end%Z.

(** A start: idle threads over a well-formed world, every pending UUID new and
    different from the others. *)
Record fresh_start (st : cstate) : Prop := {
  fs_wf : wf (cw st);
  fs_unlocked : locked st = false;
  fs_start : Forall (fun p => is_start p = true) (threads st);
  fs_ids : forall i p id, threads st !! i = Some p -> pending_id p = Some id ->
           id ∉ dom (sessions (mgr (cw st)));
  fs_inj : forall i j p q id, threads st !! i = Some p -> threads st !! j = Some q ->
           pending_id p = Some id -> pending_id q = Some id -> i = j
}.

(** ** The invariant of the request path *)

Record cinv (mx : Z) (st : cstate) : Prop := {
  ci_req : Forall (fun p => is_cleanup p = false) (threads st);
  ci_count : activeCount (mgr (cw st))
             = (Z.of_nat (size (sessions (mgr (cw st))))
                + zsum uncounted_del (threads st) - zsum uncounted_add (threads st))%Z;
  ci_lock : zsum holds (threads st) = if locked st then 1%Z else 0%Z;
  ci_room : locked st = true -> (activeCount (mgr (cw st)) < mx)%Z;
  ci_max : (activeCount (mgr (cw st)) <= Z.max 0 mx)%Z;
  ci_cfg : maxSessions (mgr (cw st)) = mx;
  ci_ids : forall i p id, threads st !! i = Some p -> pending_id p = Some id ->
           id ∉ dom (sessions (mgr (cw st)));
  ci_inj : forall i j p q id, threads st !! i = Some p -> threads st !! j = Some q ->
           pending_id p = Some id -> pending_id q = Some id -> i = j
}.

Lemma uncounted_add_bound p : (0 <= uncounted_add p <= holds p)%Z.
Proof. destruct p; simpl; lia. Qed.

Lemma uncounted_del_nonneg p : (0 <= uncounted_del p)%Z.
Proof. destruct p; simpl; lia. Qed.

Lemma cinv_adds mx st : cinv mx st ->
  (0 <= zsum uncounted_add (threads st) <= zsum holds (threads st))%Z /\
  (0 <= zsum uncounted_del (threads st))%Z.
Proof.
  intros _. split; [split|].
  - apply zsum_nonneg. intros p. apply uncounted_add_bound.
  - apply zsum_le. intros p. apply uncounted_add_bound.
  - apply zsum_nonneg, uncounted_del_nonneg.
Qed.

(** Moving a thread to a point with no pending id keeps the id conditions. *)
Lemma ids_insert (ths : list pc) (m m' : gmap string nat) i p p' :
  ths !! i = Some p ->
  (forall id, pending_id p' = Some id -> pending_id p = Some id) ->
  (forall id j q, j <> i -> ths !! j = Some q -> pending_id q = Some id -> id ∉ dom m -> id ∉ dom m') ->
  (forall id, pending_id p' = Some id -> id ∉ dom m -> id ∉ dom m') ->
  (forall i p id, ths !! i = Some p -> pending_id p = Some id -> id ∉ dom m) ->
  (forall i j p q id, ths !! i = Some p -> ths !! j = Some q ->
     pending_id p = Some id -> pending_id q = Some id -> i = j) ->
  (forall j q id, <[i := p']> ths !! j = Some q -> pending_id q = Some id -> id ∉ dom m') /\
  (forall j k q r id, <[i := p']> ths !! j = Some q -> <[i := p']> ths !! k = Some r ->
     pending_id q = Some id -> pending_id r = Some id -> j = k).
Proof.
  intros Hi Hp Ho Hs Hids Hinj.
  assert (Hlk : forall j q id, <[i := p']> ths !! j = Some q -> pending_id q = Some id ->
    exists q', ths !! j = Some q' /\ pending_id q' = Some id).
  { intros j q id. rewrite list_lookup_insert. case_decide as Hc.
    - destruct Hc as [<- _]. intros [= <-] Hq. eauto.
    - eauto. }
  split.
  - intros j q id Hj Hq. destruct (decide (j = i)) as [->|Hne].
    + rewrite list_lookup_insert_eq in Hj by eauto using lookup_lt_Some.
      injection Hj as <-. eauto.
    + rewrite list_lookup_insert_ne in Hj by done. eauto.
  - intros j k q r id Hj Hk Hq Hr.
    destruct (Hlk _ _ _ Hj Hq) as (q' & ? & ?). destruct (Hlk _ _ _ Hk Hr) as (r' & ? & ?).
    eauto.
Qed.

(** The invariant after one thread's move, from what the move changes. *)
Lemma cinv_move mx st i p (w' : World) (lk' : bool) (p' : pc) :
  cinv mx st -> threads st !! i = Some p -> is_cleanup p' = false ->
  let g := mgr (cw st) in let g' := mgr w' in
  (activeCount g' - activeCount g
   = Z.of_nat (size (sessions g')) - Z.of_nat (size (sessions g))
     + (uncounted_del p' - uncounted_del p) - (uncounted_add p' - uncounted_add p))%Z ->
  (holds p' - holds p = (if lk' then 1 else 0) - (if locked st then 1 else 0))%Z ->
  (lk' = true -> activeCount g' < mx)%Z -> (activeCount g' <= Z.max 0 mx)%Z ->
  maxSessions g' = mx ->
  (forall id, pending_id p' = Some id -> pending_id p = Some id) ->
  (forall id j q, j <> i -> threads st !! j = Some q -> pending_id q = Some id ->
     id ∉ dom (sessions g) -> id ∉ dom (sessions g')) ->
  (forall id, pending_id p' = Some id -> id ∉ dom (sessions g) -> id ∉ dom (sessions g')) ->
  cinv mx {| cw := w'; locked := lk'; threads := <[i := p']> (threads st) |}.
Proof.
  intros [Hreq Hcnt Hlk Hroom Hmax Hcfg Hids Hinj] Hi Hcl g g' Hc Hh Hr Hm Hx Hp Ho Hs.
  destruct (ids_insert (threads st) (sessions g) (sessions g') i p p' Hi Hp Ho Hs Hids Hinj).
  fold g in Hcnt. split; simpl; fold g'; rewrite ?(zsum_insert _ _ _ _ _ Hi); try done; try lia.
  by apply Forall_insert.
Qed.

Lemma lookup_delete_dom (m : gmap string nat) id k : id ∉ dom m -> id ∉ dom (delete k m).
Proof. rewrite !not_elem_of_dom. intros H. by rewrite lookup_delete_None; right. Qed.

Lemma cinv_step mx st i st' :
  (mx <= max_int64)%Z -> cinv mx st -> cstep i st = Some st' -> cinv mx st'.
Proof.
  intros Hint Hc. unfold cstep. destruct (threads st !! i) as [p|] eqn:Hi; [simpl|done].
  destruct (pstep (cw st) (locked st) p) as [[[w' lk'] p']|] eqn:Hp; simpl; [|done].
  intros [= <-].
  pose proof (cinv_adds mx st Hc) as [Hadd Hdel].
  pose proof (Forall_lookup_1 _ _ _ _ (ci_req mx st Hc) Hi) as Hreq. simpl in Hreq.
  pose proof (ci_count mx st Hc). pose proof (ci_lock mx st Hc). pose proof (ci_max mx st Hc).
  pose proof (ci_cfg mx st Hc). pose proof (ci_room mx st Hc) as Hroom.
  assert (Hw : forall d, (-1 <= d <= 1)%Z ->
    (activeCount (mgr (cw st)) + d <= max_int64)%Z ->
    wrap64 (activeCount (mgr (cw st)) + d) = (activeCount (mgr (cw st)) + d)%Z).
  { intros d ? ?. apply wrap64_id. destruct (locked st); unfold_int; lia. }
  assert (Hlkd : (holds p = 1)%Z -> locked st = true).
  { intros Hh. destruct (locked st) eqn:?; [done|].
    assert (zsum holds (<[i := PDone]> (threads st)) = (-1)%Z) as Hneg.
    { rewrite (zsum_insert _ _ _ _ _ Hi). simpl. lia. }
    pose proof (zsum_nonneg holds (<[i := PDone]> (threads st))) as Hnn.
    rewrite Hneg in Hnn. enough (0 <= -1)%Z by lia. apply Hnn. intros []; simpl; lia. }
  destruct p; simpl in Hp, Hreq; try done.
  - destruct (locked st) eqn:El; [done|].
    destruct (Z.geb_spec (activeCount (mgr (cw st))) (maxSessions (mgr (cw st))));
      simplify_eq/=; eapply cinv_move; eauto; simpl; rewrite ?El; try lia; done.
  - injection Hp as <- <- <-. specialize (Hlkd eq_refl).
    pose proof (ci_ids mx st Hc i _ _ Hi eq_refl) as Hfresh.
    eapply cinv_move; eauto; simpl; rewrite ?Hlkd; try lia; try done.
    + rewrite map_size_insert_None by (by apply not_elem_of_dom). lia.
    + intros id j q Hj Hq Hid Hn. rewrite dom_insert_L, not_elem_of_union. split; [|done].
      rewrite not_elem_of_singleton. intros ->. apply Hj.
      by eapply (ci_inj mx st Hc).
  - injection Hp as <- <- <-. specialize (Hlkd eq_refl). specialize (Hroom Hlkd).
    eapply cinv_move; eauto; simpl; rewrite ?Hlkd; rewrite ?Hw by lia; try lia; done.
  - destruct (entry (cw st) id) as [[l s]|]; simplify_eq; [destruct (IsClosed s)|];
      (eapply cinv_move; eauto; simpl; try lia; done).
  - destruct (sessions (mgr (cw st)) !! id) as [l|] eqn:Hl; simplify_eq;
      eapply cinv_move; eauto; simpl; try lia; try done; auto using lookup_delete_dom.
    rewrite (map_size_delete_Some _ _ _ Hl). lia.
  - injection Hp as <- <- <-. eapply cinv_move; eauto; simpl; try lia; done.
  - destruct (locked st) eqn:El; [done|]. injection Hp as <- <- <-.
    assert (1 <= zsum uncounted_del (threads st))%Z.
    { pose proof (zsum_nonneg uncounted_del (<[i := PDone]> (threads st)) uncounted_del_nonneg) as Hn.
      rewrite (zsum_insert _ _ _ _ _ Hi) in Hn. simpl in Hn. lia. }
    assert (Hm : wrap64 (activeCount (mgr (cw st)) - 1) = (activeCount (mgr (cw st)) - 1)%Z).
    { apply (Hw (-1)%Z); unfold_int; lia. }
    eapply cinv_move; eauto; simpl; rewrite ?El, ?Hm; try lia; done.
Qed.

Lemma cinv_run mx sched st :
  (mx <= max_int64)%Z -> cinv mx st -> cinv mx (run sched st).
Proof.
  intros Hint. unfold run. revert st. induction sched as [|i sched IH]; intros st Hc; simpl; [done|].
  apply IH. destruct (cstep i st) eqn:E; simpl; [|done]. by eapply cinv_step.
Qed.

Lemma cinv_start st :
  fresh_start st -> Forall (fun p => is_cleanup p = false) (threads st) ->
  cinv (maxSessions (mgr (cw st))) st.
Proof.
  intros [Hwf Hlk Hst Hids Hinj] Hreq.
  assert (Hz : forall f : pc -> Z, (forall p, is_start p = true -> f p = 0%Z) ->
            zsum f (threads st) = 0%Z).
  { intros f Hf. apply zsum_zero. eapply list.Forall_impl; [exact Hst|]. auto. }
  split; try done.
  - rewrite !Hz by (intros []; done). rewrite (wf_count _ Hwf). lia.
  - by rewrite Hlk, Hz by (intros []; done).
  - by rewrite Hlk.
  - apply Hwf.
Qed.

(** ** Theorems *)

(** C15: whatever the schedule of any number of [Create], [Get] and [Delete] calls,
    the map never holds more sessions than the limit; and when they have all
    returned, the active count is again the number of sessions. *)
Theorem session_limit_concurrent (sched : list nat) (st : cstate) :
  fresh_start st -> Forall (fun p => is_cleanup p = false) (threads st) ->
  let st' := run sched st in
  (Z.of_nat (size (sessions (mgr (cw st')))) <= Z.max 0 (maxSessions (mgr (cw st))))%Z /\
  (quiescent st' -> ActiveCount (cw st') = Z.of_nat (size (sessions (mgr (cw st'))))).
Proof.
  intros Hf Hreq st'.
  pose proof (cinv_run (maxSessions (mgr (cw st))) sched st (wf_int _ (fs_wf _ Hf))
    (cinv_start st Hf Hreq)) as Hc.
  fold st' in Hc. pose proof (cinv_adds _ _ Hc) as [Ha Hd]. destruct Hc as [_ Hc Hl Hr Hm _ _ _].
  split.
  - destruct (locked st'); [specialize (Hr eq_refl)|]; lia.
  - intros Hq. unfold ActiveCount. rewrite Hc.
    rewrite !zsum_zero; [lia|..]; (eapply list.Forall_impl; [exact Hq|]); by intros ? ->.
Qed.

(** A manager limited to one session, holding one. *)
Definition full_world : World :=
  (Create "u1" 0 0 (init_world {| SessionTTL := Hour; CleanupInterval := Minute;
                                  MaxSessions := 1 |})).1.

Definition race_start (ths : list pc) : cstate :=
  {| cw := full_world; locked := false; threads := ths |}.

Lemma full_world_wf : wf full_world.
Proof. apply wf_Create; [set_solver|]. apply wf_init. vm_compute. discriminate. Qed.

Lemma session_limit_concurrent_witness :
  let st' := run [0; 1; 1; 0; 2; 1; 2; 2; 2] (race_start
    [PCreate "u2" 1 1; PDelete "sess_u1"; PCreate "u3" 2 2]) in
  (Z.of_nat (size (sessions (mgr (cw st')))) <= 1)%Z.
Proof.
  apply (session_limit_concurrent [0; 1; 1; 0; 2; 1; 2; 2; 2] (race_start
    [PCreate "u2" 1 1; PDelete "sess_u1"; PCreate "u3" 2 2])).
  - split.
    + exact full_world_wf.
    + reflexivity.
    + repeat constructor.
    + intros [|[|[|]]] p id Hi Hp; simplify_eq/=; apply not_elem_of_dom; reflexivity.
    + intros [|[|[|]]] [|[|[|]]] p q id Hi Hj Hp Hq; simplify_eq/=; done.
  - repeat constructor.
Defined.

(** with the background [cleanup] in play the limit can be exceeded. When a
    client's [Delete] runs between the visit of [cleanup]'s [Range] and its own
    delete, both count the same session out: all calls return with the active count
    one below the number of sessions, and a manager limited to one session ends up
    holding two. *)
Theorem cleanup_delete_race_breaks_limit :
  exists (ths : list pc) (sched : list nat),
    fresh_start (race_start ths) /\
    let st := run sched (race_start ths) in
    quiescent st /\ maxSessions (mgr (cw st)) = 1%Z /\
    size (sessions (mgr (cw st))) = 2 /\ ActiveCount (cw st) = 1%Z.
Proof.
  exists [PClean (fun _ => ((2 * Hour)%Z, (2 * Hour)%Z)) ["sess_u1"]; PDelete "sess_u1";
          PCreate "u2" 1 1; PCreate "u3" 2 2].
  exists [0; 1; 1; 1; 0; 0; 0; 0; 2; 2; 2; 3; 3; 3]. split.
  - split.
    + exact full_world_wf.
    + reflexivity.
    + repeat constructor.
    + intros [|[|[|[|]]]] p id Hi Hp; simplify_eq/=; apply not_elem_of_dom; reflexivity.
    + intros [|[|[|[|]]]] [|[|[|[|]]]] p q id Hi Hj Hp Hq; simplify_eq/=; done.
  - vm_compute. split; [repeat constructor|by repeat split].
Qed.
