(* ===== verification/Json.v ===== *)
(** * Decoded JSON values, and the byte-level text functions of the standard library

    What [encoding/json] puts into an [interface{}], the type assertions the code
    makes on it, the coercion of strings to valid UTF-8 that an encode/decode round
    trip performs, and the text helpers ([hex], [sort.Strings], [strings.Join],
    decimal integers) that the components share. A Go string is a byte string. *)

From Stdlib Require Import ZArith Lia SpecFloat Ascii.
From stdpp Require Import base list gmap strings numbers sorting.
From S2P Require Import Prelude.

(** ** Values *)

(** [float64]. *)
Abbreviation float64 := spec_float (only parsing).

Definition float_of_Z (z : Z) : float64 := binary_normalize 53 1024 z 0 false.
Definition float_div (a b : float64) : float64 := SFdiv 53 1024 a b.

(** An [interface{}] that [json.Unmarshal] filled. The pairs of an object are a Go
    map: their order is the order of one iteration over it and means nothing else. *)
Inductive jvalue : Type :=
| JNull
| JBool (b : bool)
| JNum (f : float64)
| JStr (s : string)
| JArr (l : list jvalue)
| JObj (m : list (string * jvalue)).

Abbreviation jobject := (list (string * jvalue)) (only parsing).

(** [m[k]] and [v, ok := m[k]]. *)
Fixpoint obj_get {A} (m : list (string * A)) (k : string) : option A :=
  match m with
  | [] => None
  | (k', v) :: m => if bool_decide (k = k') then Some v else obj_get m k
  end.

(** [m[k] = v]. *)
Fixpoint obj_set {A} (m : list (string * A)) (k : string) (v : A) : list (string * A) :=
  match m with
  | [] => [(k, v)]
  | (k', v') :: m => if bool_decide (k = k') then (k, v) :: m else (k', v') :: obj_set m k v
  end.

(** [if v, ok := m[k]; ok { return f(v) }; return d]: [f] may recurse into the member. *)
Definition on_key {A B} (k : string) (f : A -> B) (d : B) : list (string * A) -> B :=
  fix go (m : list (string * A)) : B :=
    match m with
    | [] => d
    | (k', v) :: m => if bool_decide (k = k') then f v else go m
    end.

(** Type assertions [v.(T)] with the comma-ok form. *)
Definition as_string (v : jvalue) : option string :=
  match v with JStr s => Some s | _ => None end.
Definition as_bool (v : jvalue) : option bool :=
  match v with JBool b => Some b | _ => None end.
Definition as_array (v : jvalue) : option (list jvalue) :=
  match v with JArr l => Some l | _ => None end.
Definition as_object (v : jvalue) : option jobject :=
  match v with JObj m => Some m | _ => None end.
Definition as_float (v : jvalue) : option float64 :=
  match v with JNum f => Some f | _ => None end.

(** ** Text *)

Fixpoint bytes_of (s : string) : list ascii :=
  match s with "" => [] | String a s => a :: bytes_of s end.
Fixpoint of_bytes (l : list ascii) : string :=
  match l with [] => "" | a :: l => String a (of_bytes l) end.

(** [sort.Strings]: bytewise order. *)
Definition sort_strings (l : list string) : list string := merge_sort String.le l.

(** [strings.Join]. *)
Fixpoint join (sep : string) (l : list string) : string :=
  match l with
  | [] => ""
  | [s] => s
  | s :: l => s +:+ sep +:+ join sep l
  end.

(** [hex.EncodeToString]. *)
Definition hex_digit (n : N) : ascii :=
  match n with
  | 0 => "0" | 1 => "1" | 2 => "2" | 3 => "3" | 4 => "4" | 5 => "5" | 6 => "6" | 7 => "7"
  | 8 => "8" | 9 => "9" | 10 => "a" | 11 => "b" | 12 => "c" | 13 => "d" | 14 => "e" | _ => "f"
  end%N%char.

Definition hex_encode (l : list ascii) : string :=
  of_bytes (l ≫= fun a => [hex_digit (N_of_ascii a / 16); hex_digit (N_of_ascii a mod 16)]).

(** [%d] of an integer. *)
Definition digit_char (n : nat) : ascii := ascii_of_nat (48 + n).

(** Decimal digits of a non-negative integer; a 64-bit integer has at most 20. *)
Fixpoint Z_digits (fuel : nat) (z : Z) (acc : string) : string :=
  match fuel with
  | 0 => acc
  | S fuel =>
      let acc := String (digit_char (Z.to_nat (z mod 10))) acc in
      if (z <? 10)%Z then acc else Z_digits fuel (z / 10) acc
  end.

Definition itoa (z : Z) : string :=
  if (z <? 0)%Z then String "-" (Z_digits 20 (- z) "") else Z_digits 20 z "".

(** Well-formed UTF-8: the length of the encoded rune a string starts with, [None]
    for an invalid byte. The ranges are those of the [unicode/utf8] package. *)
Definition in_range (lo hi : N) (a : ascii) : bool :=
  ((lo <=? N_of_ascii a) && (N_of_ascii a <=? hi))%N.
Definition is_cont : ascii -> bool := in_range 128 191.

Definition rune_len (s : string) : option nat :=
  match s with
  | "" => None
  | String a s1 =>
    if in_range 0 127 a then Some 1
    else if in_range 194 223 a then
      match s1 with String b _ => if is_cont b then Some 2 else None | _ => None end
    else if in_range 224 239 a then
      match s1 with
      | String b (String c _) =>
          let lo := if bool_decide (N_of_ascii a = 224%N) then 160%N else 128%N in
          let hi := if bool_decide (N_of_ascii a = 237%N) then 159%N else 191%N in
          if in_range lo hi b && is_cont c then Some 3 else None
      | _ => None
      end
    else if in_range 240 244 a then
      match s1 with
      | String b (String c (String d _)) =>
          let lo := if bool_decide (N_of_ascii a = 240%N) then 144%N else 128%N in
          let hi := if bool_decide (N_of_ascii a = 244%N) then 143%N else 191%N in
          if in_range lo hi b && is_cont c && is_cont d then Some 4 else None
      | _ => None
      end
    else None
  end.

Definition replacement : string :=
  String (ascii_of_N 239) (String (ascii_of_N 191) (String (ascii_of_N 189) "")).

(** What encoding a string as JSON and decoding it again gives: every invalid byte
    becomes U+FFFD. [skip] counts the bytes of the current rune still to copy. *)
Fixpoint coerce_utf8_go (skip : nat) (s : string) : string :=
  match s with
  | "" => ""
  | String a s' =>
      match skip with
      | S n => String a (coerce_utf8_go n s')
      | 0 =>
          match rune_len s with
          | Some n => String a (coerce_utf8_go (n - 1) s')
          | None => replacement +:+ coerce_utf8_go 0 s'
          end
      end
  end.
Definition coerce_utf8 (s : string) : string := coerce_utf8_go 0 s.

(** The same on values: [Marshal] writes an object's members in key order, and
    [Unmarshal] keeps the last of two members whose keys became equal. *)
Definition key_le (p q : string * jvalue) : Prop := String.le p.1 q.1.
#[export] Instance key_le_dec : RelDecision key_le.
Proof. intros p q. unfold key_le. apply _. Defined.

Definition coerce_members (m : jobject) : jobject :=
  foldl (fun acc p => obj_set acc (coerce_utf8 p.1) p.2) [] (merge_sort key_le m).

Fixpoint coerce (v : jvalue) : jvalue :=
  match v with
  | JNull | JBool _ | JNum _ => v
  | JStr s => JStr (coerce_utf8 s)
  | JArr l => JArr (map coerce l)
  | JObj m => JObj (coerce_members (map (fun p => (p.1, coerce p.2)) m))
  end.

(** ** Lemmas *)

(** Induction that reaches the values inside arrays and objects. *)
Lemma jvalue_nested_ind (P : jvalue -> Prop) :
  P JNull -> (forall b, P (JBool b)) -> (forall f, P (JNum f)) -> (forall s, P (JStr s)) ->
  (forall l, Forall P l -> P (JArr l)) ->
  (forall m, Forall (fun p => P p.2) m -> P (JObj m)) ->
  forall v, P v.
Proof.
  intros Hn Hb Hf Hs Ha Ho. fix IH 1. intros [| b | f | s | l | m].
  - exact Hn.
  - apply Hb.
  - apply Hf.
  - apply Hs.
  - apply Ha. induction l as [|v l IHl]; constructor; [apply IH|exact IHl].
  - apply Ho. induction m as [|[k v] m IHm]; constructor; [apply IH|exact IHm].
Qed.

Lemma of_bytes_of s : of_bytes (bytes_of s) = s.
Proof. induction s; simpl; congruence. Qed.

Lemma bytes_of_of l : bytes_of (of_bytes l) = l.
Proof. induction l; simpl; congruence. Qed.

Lemma str_app_cons a (s t : string) : String a s +:+ t = String a (s +:+ t).
Proof. reflexivity. Qed.

Lemma str_app_nil_l (s : string) : "" +:+ s = s.
Proof. reflexivity. Qed.

Lemma bytes_of_app s t : bytes_of (s +:+ t) = bytes_of s ++ bytes_of t.
Proof.
  induction s as [|a s IH]; [done|]. rewrite str_app_cons. simpl. by rewrite IH.
Qed.

Lemma of_bytes_app l k : of_bytes (l ++ k) = of_bytes l +:+ of_bytes k.
Proof. induction l as [|a l IH]; simpl; [done|]. by rewrite IH, str_app_cons. Qed.

Lemma length_of_bytes l : String.length (of_bytes l) = length l.
Proof. induction l; simpl; congruence. Qed.

Lemma length_bytes_of s : length (bytes_of s) = String.length s.
Proof. induction s; simpl; congruence. Qed.

Lemma str_app_assoc (a b c : string) : (a +:+ b) +:+ c = a +:+ (b +:+ c).
Proof. induction a as [|x a IH]; [done|]. by rewrite !str_app_cons, IH. Qed.

Lemma str_app_nil_r (a : string) : a +:+ "" = a.
Proof. induction a as [|x a IH]; [done|]. by rewrite str_app_cons, IH. Qed.

Lemma str_length_app (a b : string) :
  String.length (a +:+ b) = String.length a + String.length b.
Proof. rewrite <- !length_bytes_of, bytes_of_app. apply length_app. Qed.

Lemma substring_length n (s : string) :
  n <= String.length s -> String.length (String.substring 0 n s) = n.
Proof.
  revert s. induction n as [|n IH]; intros [|a s] Hn; simpl in *; [done..|lia|].
  f_equal. apply IH. lia.
Qed.

Lemma obj_get_In {A} (m : list (string * A)) k v : obj_get m k = Some v -> In (k, v) m.
Proof.
  induction m as [|[k' v'] m IH]; simpl; [done|]. case_bool_decide; [|by auto].
  intros [= ->]. subst. by left.
Qed.

Lemma on_key_get {A B} (m : list (string * A)) k (f : A -> B) d :
  on_key k f d m = match obj_get m k with Some v => f v | None => d end.
Proof. induction m as [|[k' v] m IH]; simpl; [done|]. by case_bool_decide. Qed.

Lemma obj_get_set_eq {A} (m : list (string * A)) k v : obj_get (obj_set m k v) k = Some v.
Proof.
  induction m as [|[k' v'] m IH]; simpl; [by rewrite bool_decide_eq_true_2|].
  case_bool_decide as H; simpl; [by rewrite bool_decide_eq_true_2|].
  by rewrite bool_decide_eq_false_2.
Qed.

Lemma obj_get_set_ne {A} (m : list (string * A)) k k' v :
  k <> k' -> obj_get (obj_set m k v) k' = obj_get m k'.
Proof.
  intros Hne. induction m as [|[k0 v0] m IH]; simpl; [by rewrite bool_decide_eq_false_2|].
  case_bool_decide as H; simpl.
  - subst. by rewrite !bool_decide_eq_false_2.
  - by case_bool_decide.
Qed.

Lemma hex_encode_length l : String.length (hex_encode l) = 2 * length l.
Proof.
  unfold hex_encode. rewrite length_of_bytes.
  induction l as [|a l IH]; [done|]. rewrite bind_cons, length_app, IH. simpl. lia.
Qed.

Lemma sort_strings_Perm l1 l2 : l1 ≡ₚ l2 -> sort_strings l1 = sort_strings l2.
Proof.
  intros Hp. unfold sort_strings. eapply (Sorted_unique String.le).
  - apply Sorted_merge_sort. apply _.
  - apply Sorted_merge_sort. apply _.
  - by rewrite !merge_sort_Permutation.
Qed.

Example itoa_examples : itoa 0 = "0" /\ itoa (-32700) = "-32700" /\ itoa max_int64 = "9223372036854775807".
Proof. by vm_compute. Qed.

Example coerce_utf8_example :
  coerce_utf8 (String (ascii_of_N 195) (String (ascii_of_N 169) (String (ascii_of_N 255) "a")))
  = String (ascii_of_N 195) (String (ascii_of_N 169) (replacement +:+ "a")).
Proof. reflexivity. Qed.
