(* ===== verification/GoText.v ===== *)
(** * Text of the Go standard library that the components print and parse

    [strings.Split], [strings.TrimSpace], [strings.ReplaceAll], runes, the verbs [%q], [%f]
    and [%v] of [fmt], and readers of quoted literals against which [%q] is verified. The
    Unicode table of printable characters, the shortest decimal form of a float and the
    result of converting an out-of-range float to an integer, which the Go specification
    leaves open, are the members of the class [GoRuntime]. *)

From Stdlib Require Import ZArith Lia SpecFloat Ascii.
From stdpp Require Import base list gmap strings numbers sorting pretty.
From S2P Require Import Prelude Json.

(** ** Splitting and trimming *)

#[export] Instance spec_float_eq : EqDecision spec_float.
Proof. solve_decision. Defined.

(** [strings.Split(s, sep)] for a one-byte separator: never empty. *)
Fixpoint split_char (sep : ascii) (s : string) : list string :=
  match s with
  | "" => [""]
  | String a s =>
      if bool_decide (a = sep) then "" :: split_char sep s
      else match split_char sep s with
           | [] => [String a ""]
           | x :: l => String a x :: l
           end
  end.

(** Length of the white space character a byte string starts with: the ASCII ones,
    U+0085, U+00A0, U+1680, U+2000 to U+200A, U+2028, U+2029, U+202F, U+205F, U+3000. *)
Definition space_len (l : list ascii) : nat :=
  let n := map N_of_ascii (take 3 l) in
  match n with
  | a :: rest =>
      if ((9 <=? a) && (a <=? 13) || (a =? 32))%N then 1
      else
        match rest with
        | b :: rest =>
            if ((a =? 194) && ((b =? 133) || (b =? 160)))%N then 2
            else
              match rest with
              | c :: _ =>
                  if ((a =? 225) && (b =? 154) && (c =? 128)
                      || (a =? 226) && (b =? 128)
                         && ((128 <=? c) && (c <=? 138) || (c =? 168) || (c =? 169) || (c =? 175))
                      || (a =? 226) && (b =? 129) && (c =? 159)
                      || (a =? 227) && (b =? 128) && (c =? 128))%N then 3
                  else 0
              | [] => 0
              end
        | [] => 0
        end
  | [] => 0
  end.

(** The white space character a byte string, given in reverse, ends with. *)
Definition space_len_rev (l : list ascii) : nat :=
  if decide (space_len (take 1 l) = 1) then 1
  else if decide (2 <= length l /\ space_len (rev (take 2 l)) = 2) then 2
  else if decide (3 <= length l /\ space_len (rev (take 3 l)) = 3) then 3
  else 0.

(** Dropping white space while there is any; the fuel is the length. *)
Fixpoint trim_with (len : list ascii -> nat) (fuel : nat) (l : list ascii) : list ascii :=
  match fuel with
  | 0 => l
  | S fuel => match len l with 0 => l | n => trim_with len fuel (drop n l) end
  end.

(** [strings.TrimSpace]. *)
Definition TrimSpace (s : string) : string :=
  let l := trim_with space_len (String.length s) (bytes_of s) in
  of_bytes (rev (trim_with space_len_rev (length l) (rev l))).

(** [strings.HasSuffix]. *)
Definition has_suffix (suf s : string) : bool :=
  String.prefix (of_bytes (rev (bytes_of suf))) (of_bytes (rev (bytes_of s))).

(** [strings.TrimPrefix] after [strings.HasPrefix]. *)
Definition strip_prefix (pre s : string) : option string :=
  if String.prefix pre s
  then Some (String.substring (String.length pre) (String.length s - String.length pre) s)
  else None.

(** [strings.TrimSuffix(s, "/")]. *)
Definition trim_slash (s : string) : string :=
  match rev (bytes_of s) with
  | a :: l => if bool_decide (a = "/"%char) then of_bytes (rev l) else s
  | [] => s
  end.


(** [strings.Repeat]. *)
Fixpoint Repeat (s : string) (n : nat) : string :=
  match n with 0 => "" | S n => s +:+ Repeat s n end.

(** [strings.ReplaceAll] for a non-empty [old]: occurrences from left to right that do not
    overlap. [skip] counts the bytes of the current occurrence still to drop. *)
Fixpoint replace_go (old new : string) (skip : nat) (s : string) : string :=
  match s with
  | "" => ""
  | String a s' =>
      match skip with
      | S n => replace_go old new n s'
      | 0 =>
          if String.prefix old s
          then new +:+ replace_go old new (String.length old - 1) s'
          else String a (replace_go old new 0 s')
      end
  end.
Definition ReplaceAll (s old new : string) : string := replace_go old new 0 s.

(** ** Runes *)

Definition dq : string := String (ascii_of_N 34) "".
Definition nl : string := String (ascii_of_N 10) "".
Definition backslash : ascii := ascii_of_N 92.

(** The code point of a well-formed encoding ([utf8.DecodeRuneInString]). *)
Definition decode_rune (l : list ascii) : N :=
  match map N_of_ascii l with
  | [a] => a
  | [a; b] => (a mod 32) * 64 + b mod 64
  | [a; b; c] => (a mod 16) * 4096 + (b mod 64) * 64 + c mod 64
  | [a; b; c; d] => (a mod 8) * 262144 + (b mod 64) * 4096 + (c mod 64) * 64 + d mod 64
  | _ => 0
  end%N.

(** [utf8.AppendRune] of a valid code point. *)
Definition encode_rune (r : N) : list ascii :=
  map ascii_of_N
    (if r <? 128 then [r]
     else if r <? 2048 then [192 + r / 64; 128 + r mod 64]
     else if r <? 65536 then [224 + r / 4096; 128 + r / 64 mod 64; 128 + r mod 64]
     else [240 + r / 262144; 128 + r / 4096 mod 64; 128 + r / 64 mod 64; 128 + r mod 64])%N.

(** ** Formatting verbs *)

(** What the Go runtime provides and this library does not fix: the table of printable
    runes beyond U+00FF, the shortest decimal form ([%v]) of a float, and [int64(f)] for a
    float that no [int64] represents. *)
Class GoRuntime : Type := mkGoRuntime {
  PrintTable : N -> bool;
  FormatG : float64 -> string;
  int64_overflow : float64 -> Z
}.

Section Format.

Context `{RT : GoRuntime}.

(** [strconv.IsPrint]. *)
Definition IsPrint (r : N) : bool :=
  if (r <=? 255)%N
  then ((32 <=? r) && (r <? 127) || (161 <=? r) && negb (r =? 173))%N
  else PrintTable r.

Definition hex_byte (n : N) : string :=
  String (hex_digit (n / 16)) (String (hex_digit (n mod 16)) "").

(** The escape of a rune with its encoding, as [strconv.appendEscapedRune] writes it. *)
Definition escape (l : list ascii) : string :=
  let r := decode_rune l in
  if ((r =? 34) || (r =? 92))%N then String backslash (of_bytes l)
  else if IsPrint r then of_bytes l
  else
    String backslash
      (match r with
       | 7 => "a" | 8 => "b" | 9 => "t" | 10 => "n" | 11 => "v" | 12 => "f" | 13 => "r"
       | _ =>
           if (r <? 32) || (r =? 127) then "x" +:+ hex_byte r
           else if r <? 65536 then "u" +:+ hex_byte (r / 256) +:+ hex_byte (r mod 256)
           else "U" +:+ hex_byte (r / 16777216) +:+ hex_byte (r / 65536 mod 256)
                +:+ hex_byte (r / 256 mod 256) +:+ hex_byte (r mod 256)
       end)%N.

(** The runes of a string in order: a well-formed encoding, or an invalid byte. *)
Fixpoint runes_go (skip : nat) (s : string) : list (list ascii + ascii) :=
  match s with
  | "" => []
  | String a s' =>
      match skip with
      | S n => runes_go n s'
      | 0 =>
          match rune_len s with
          | Some n => inl (take n (bytes_of s)) :: runes_go (n - 1) s'
          | None => inr a :: runes_go 0 s'
          end
      end
  end.
Definition runes (s : string) : list (list ascii + ascii) := runes_go 0 s.

Definition quote_rune (x : list ascii + ascii) : string :=
  match x with
  | inl l => escape l
  | inr a => String backslash ("x" +:+ hex_byte (N_of_ascii a))
  end.

(** [%q]. *)
Definition quote (s : string) : string :=
  dq +:+ foldr (fun x t => quote_rune x +:+ t) dq (runes s).

(** [int64(f)]: truncation towards zero. *)
Definition trunc (f : float64) : option Z :=
  match f with
  | S754_zero _ => Some 0%Z
  | S754_finite s m e =>
      let z := if (e >=? 0)%Z then (Zpos m * 2 ^ e)%Z else (Zpos m / 2 ^ (- e))%Z in
      let z := if s then (- z)%Z else z in
      if bool_decide (min_int64 <= z <= max_int64)%Z then Some z else None
  | _ => None
  end.

Definition int64_of_float (f : float64) : Z :=
  match trunc f with Some z => z | None => int64_overflow f end.

(** [%f]: six decimals, rounded half to even. *)
Definition round_half_even (n d : Z) : Z :=
  let q := (n / d)%Z in
  let r := (n mod d)%Z in
  if ((2 * r <? d) || (2 * r =? d) && Z.even q)%Z then q else (q + 1)%Z.

Definition zero_pad (k : nat) (s : string) : string := Repeat "0" (k - String.length s) +:+ s.

Definition format_f (f : float64) : string :=
  match f with
  | S754_nan => "NaN"
  | S754_infinity s => if s then "-Inf" else "+Inf"
  | S754_zero s => (if s then "-" else "") +:+ "0.000000"
  | S754_finite s m e =>
      let n := if (e >=? 0)%Z then (Zpos m * 2 ^ e * 1000000)%Z
               else round_half_even (Zpos m * 1000000) (2 ^ (- e)) in
      (if s then "-" else "") +:+ pretty (Z.to_N (n / 1000000)) +:+ "."
        +:+ zero_pad 6 (pretty (Z.to_N (n mod 1000000)))
  end.

(** [%v] of a [[]string], and of a decoded value: maps are printed in key order. *)
Definition format_strings (l : list string) : string := "[" +:+ join " " l +:+ "]".

Definition text_le (p q : string * string) : Prop := String.le p.1 q.1.
#[export] Instance text_le_dec : RelDecision text_le.
Proof. intros p q. unfold text_le. apply _. Defined.

Fixpoint format_v (v : jvalue) : string :=
  match v with
  | JNull => "<nil>"
  | JBool b => if b then "true" else "false"
  | JNum f => FormatG f
  | JStr s => s
  | JArr l => format_strings (map format_v l)
  | JObj m =>
      "map[" +:+ join " " (map (fun p => p.1 +:+ ":" +:+ p.2)
                             (merge_sort text_le (map (fun p => (p.1, format_v p.2)) m)))
        +:+ "]"
  end.

End Format.

(** ** Readers of quoted literals *)

Definition hex_val (a : ascii) : option N :=
  let n := N_of_ascii a in
  if in_range 48 57 a then Some (n - 48)%N
  else if in_range 97 102 a then Some (n - 87)%N
  else if in_range 65 70 a then Some (n - 55)%N
  else None.

(** The value of a row of hexadecimal digits, most significant first. *)
Fixpoint hex_num (acc : N) (l : list ascii) : option N :=
  match l with
  | [] => Some acc
  | a :: l => d ← hex_val a; hex_num (acc * 16 + d)%N l
  end.

(** One-character escapes: those of a Go string literal, or those of a JSON string (which
    is also what Rego reads between double quotes). *)
Definition simple_escape (json : bool) (a : ascii) : option N :=
  match N_of_ascii a with
  | 34 => Some 34 | 92 => Some 92
  | 98 => Some 8 | 102 => Some 12 | 110 => Some 10 | 114 => Some 13 | 116 => Some 9
  | 97 => if json then None else Some 7
  | 118 => if json then None else Some 11
  | 47 => if json then Some 47 else None
  | _ => None
  end%N.

Definition cons_bytes (l : list ascii) (r : option (string * string)) : option (string * string) :=
  match r with Some (s, rest) => Some (of_bytes l +:+ s, rest) | None => None end.

Definition cons_rune (r : option N) (k : option (string * string)) : option (string * string) :=
  match r with
  | Some r => if bool_decide (r < 55296 \/ 57344 <= r < 1114112)%N
              then cons_bytes (encode_rune r) k else None
  | None => None
  end.

(** Reads a literal whose opening quote is gone: its value and the text after the closing
    quote. [\x] and [\U] are escapes of Go only. *)
Fixpoint read_literal (json : bool) (s : string) : option (string * string) :=
  match s with
  | "" => None
  | String a s =>
      if bool_decide (N_of_ascii a = 34%N) then Some ("", s)
      else if (N_of_ascii a <? 32)%N then None
      else if bool_decide (a <> backslash) then cons_bytes [a] (read_literal json s)
      else
        match s with
        | "" => None
        | String e s =>
            if bool_decide (e = "x"%char /\ json = false) then
              match s with
              | String h1 (String h2 s) =>
                  match hex_num 0 [h1; h2] with
                  | Some n => cons_bytes [ascii_of_N n] (read_literal json s)
                  | None => None
                  end
              | _ => None
              end
            else if bool_decide (e = "u"%char) then
              match s with
              | String h1 (String h2 (String h3 (String h4 s))) =>
                  cons_rune (hex_num 0 [h1; h2; h3; h4]) (read_literal json s)
              | _ => None
              end
            else if bool_decide (e = "U"%char /\ json = false) then
              match s with
              | String h1 (String h2 (String h3 (String h4
                  (String h5 (String h6 (String h7 (String h8 s))))))) =>
                  cons_rune (hex_num 0 [h1; h2; h3; h4; h5; h6; h7; h8]) (read_literal json s)
              | _ => None
              end
            else
              match simple_escape json e with
              | Some n => cons_bytes [ascii_of_N n] (read_literal json s)
              | None => None
              end
        end
  end.

Definition unquote (json : bool) (s : string) : option (string * string) :=
  match s with
  | String a s => if bool_decide (N_of_ascii a = 34%N) then read_literal json s else None
  | "" => None
  end.

(** ** Lemmas on runes *)

Ltac byte_bool :=
  unfold is_cont, in_range in *;
  repeat match goal with
         | H : (_ && _)%bool = true |- _ => apply andb_true_iff in H as [? ?]
         | H : (_ <=? _)%N = true |- _ => apply N.leb_le in H
         | H : (_ <=? _)%N = false |- _ => apply N.leb_gt in H
         | H : (_ && _)%bool = false |- _ => apply andb_false_iff in H
         end.

(** The encodings of one rune: lead byte and continuation bytes. *)
Inductive wf_rune : list ascii -> Prop :=
| wf_rune1 a : (N_of_ascii a <= 127)%N -> wf_rune [a]
| wf_rune2 a b :
    (194 <= N_of_ascii a <= 223)%N -> (128 <= N_of_ascii b <= 191)%N -> wf_rune [a; b]
| wf_rune3 a b c :
    (224 <= N_of_ascii a <= 239)%N -> (128 <= N_of_ascii b <= 191)%N ->
    (N_of_ascii a = 224 -> 160 <= N_of_ascii b)%N ->
    (N_of_ascii a = 237 -> N_of_ascii b <= 159)%N ->
    (128 <= N_of_ascii c <= 191)%N -> wf_rune [a; b; c]
| wf_rune4 a b c d :
    (240 <= N_of_ascii a <= 244)%N -> (128 <= N_of_ascii b <= 191)%N ->
    (N_of_ascii a = 240 -> 144 <= N_of_ascii b)%N ->
    (N_of_ascii a = 244 -> N_of_ascii b <= 143)%N ->
    (128 <= N_of_ascii c <= 191)%N -> (128 <= N_of_ascii d <= 191)%N -> wf_rune [a; b; c; d].

Lemma rune_len_inv s n :
  rune_len s = Some n -> exists l t, s = of_bytes l +:+ t /\ length l = n /\ wf_rune l.
Proof.
  destruct s as [|a s1]; simpl; [done|].
  destruct (in_range 0 127 a) eqn:E1.
  { intros [= <-]. exists [a], s1. repeat split. constructor. byte_bool. lia. }
  destruct (in_range 194 223 a) eqn:E2.
  { destruct s1 as [|b s2]; [done|]. destruct (is_cont b) eqn:Eb; [|done].
    intros [= <-]. exists [a; b], s2. repeat split. constructor; byte_bool; lia. }
  destruct (in_range 224 239 a) eqn:E3.
  { destruct s1 as [|b [|c s2]]; [done..|].
    destruct (_ && is_cont c) eqn:Eb; [|done].
    intros [= <-]. exists [a; b; c], s2. repeat split.
    do 2 case_bool_decide; byte_bool; constructor; lia. }
  destruct (in_range 240 244 a) eqn:E4; [|done].
  destruct s1 as [|b [|c [|d s2]]]; [done..|].
  destruct (_ && is_cont c && is_cont d) eqn:Eb; [|done].
  intros [= <-]. exists [a; b; c; d], s2. repeat split.
  do 2 case_bool_decide; byte_bool; constructor; lia.
Qed.

Ltac divmod := zify; Z.to_euclidean_division_equations; lia.

(** The code points that a well-formed encoding denotes. *)
Definition valid_point (r : N) : Prop := (r < 55296 \/ 57344 <= r < 1114112)%N.

Lemma decode_rune_valid l : wf_rune l -> valid_point (decode_rune l).
Proof. unfold valid_point. destruct 1; cbn [decode_rune map]; divmod. Qed.

Lemma ascii_of_N_eq a n : n = N_of_ascii a -> ascii_of_N n = a.
Proof. intros ->. apply ascii_N_embedding. Qed.

Lemma encode_decode l : wf_rune l -> encode_rune (decode_rune l) = l.
Proof.
  unfold encode_rune, decode_rune. destruct 1 as [a|a b|a b c|a b c d]; cbn [map].
  - destruct (N.ltb_spec (N_of_ascii a) 128); [|lia]. cbn [map].
    by rewrite ascii_N_embedding.
  - set (r := (_ + _)%N). assert (128 <= r < 2048)%N by (unfold r; divmod).
    rewrite (proj2 (N.ltb_ge r 128)), (proj2 (N.ltb_lt r 2048)) by lia. cbn [map].
    repeat f_equal; apply ascii_of_N_eq; unfold r; divmod.
  - set (r := (_ + _)%N). assert (2048 <= r < 65536)%N by (unfold r; divmod).
    rewrite (proj2 (N.ltb_ge r 128)), (proj2 (N.ltb_ge r 2048)), (proj2 (N.ltb_lt r 65536)) by lia.
    cbn [map]. repeat f_equal; apply ascii_of_N_eq; unfold r; divmod.
  - set (r := (_ + _)%N). assert (65536 <= r)%N by (unfold r; divmod).
    rewrite (proj2 (N.ltb_ge r 128)), (proj2 (N.ltb_ge r 2048)), (proj2 (N.ltb_ge r 65536)) by lia.
    cbn [map]. repeat f_equal; apply ascii_of_N_eq; unfold r; divmod.
Qed.

(** Bytes of a multi-byte encoding are not ASCII. *)
Lemma wf_rune_high l a :
  wf_rune l -> (128 <= decode_rune l)%N -> a ∈ l -> (128 <= N_of_ascii a)%N.
Proof.
  destruct 1; cbn [decode_rune map]; intros Hr Ha; [lia|..];
    rewrite ?elem_of_cons in Ha; set_solver by lia.
Qed.

Lemma wf_rune_ascii l : wf_rune l -> (decode_rune l < 128)%N -> exists a, l = [a] /\ N_of_ascii a = decode_rune l.
Proof.
  destruct 1; cbn [decode_rune map]; intros Hr; [by eauto|exfalso; divmod..].
Qed.

(** ** Runes of a string *)

Lemma runes_go_drop l s : runes_go (length l) (of_bytes l +:+ s) = runes_go 0 s.
Proof. induction l as [|a l IH]; [done|]. cbn [of_bytes length]. by rewrite str_app_cons. Qed.

Lemma runes_cons_inl l s :
  rune_len (of_bytes l +:+ s) = Some (length l) -> l <> [] ->
  runes (of_bytes l +:+ s) = inl l :: runes s.
Proof.
  destruct l as [|a l]; [done|]. intros Hr _. unfold runes. cbn [of_bytes] in *.
  rewrite str_app_cons in *. cbn [runes_go]. rewrite Hr. f_equal.
  - cbn [length take bytes_of]. by rewrite bytes_of_app, bytes_of_of, take_app_length.
  - cbn [length Nat.sub]. rewrite Nat.sub_0_r. apply runes_go_drop.
Qed.

(** Induction along the runes of a string. *)
Lemma runes_ind (P : string -> Prop) :
  P "" ->
  (forall l s, wf_rune l -> runes (of_bytes l +:+ s) = inl l :: runes s -> P s ->
     P (of_bytes l +:+ s)) ->
  (forall a s, runes (String a s) = inr a :: runes s -> P s -> P (String a s)) ->
  forall s, P s.
Proof.
  intros H0 H1 H2 s. remember (String.length s) as k eqn:Hk.
  revert s Hk. induction (lt_wf k) as [k _ IH]. intros s ->.
  destruct s as [|a s]; [done|].
  destruct (rune_len (String a s)) as [n|] eqn:Hr.
  - pose proof Hr as Hr0. apply rune_len_inv in Hr as (l & t & Heq & Hlen & Hl).
    rewrite Heq in *.
    assert (l <> []) by (by destruct Hl).
    assert (0 < length l) by (destruct l; simpl in *; [done|lia]).
    apply H1; [done| |].
    + apply runes_cons_inl; [by subst|done].
    + eapply IH; [|done]. rewrite str_length_app, length_of_bytes. lia.
  - apply H2.
    + unfold runes. cbn [runes_go]. by rewrite Hr.
    + eapply IH; [|done]. simpl. lia.
Qed.

(** ** Reading quoted literals back *)

Lemma cons_bytes_app l k r : cons_bytes (l ++ k) r = cons_bytes l (cons_bytes k r).
Proof. destruct r as [[s t]|]; [|done]. cbn. by rewrite of_bytes_app, str_app_assoc. Qed.

Lemma hex_val_digit n : (n < 16)%N -> hex_val (hex_digit n) = Some n.
Proof.
  intros Hn.
  assert (n ∈ [0;1;2;3;4;5;6;7;8;9;10;11;12;13;14;15]%N) as Hin
    by (rewrite !elem_of_cons; lia).
  repeat (apply elem_of_cons in Hin as [->|Hin]; [reflexivity|]). by apply elem_of_nil in Hin.
Qed.

Lemma hex_num_byte acc n l :
  (n < 256)%N -> hex_num acc (bytes_of (hex_byte n) ++ l) = hex_num (acc * 256 + n)%N l.
Proof.
  intros Hn. cbn [hex_byte bytes_of app hex_num].
  rewrite hex_val_digit by divmod. cbn [mbind option_bind hex_num].
  rewrite hex_val_digit by divmod. cbn [mbind option_bind hex_num]. f_equal. divmod.
Qed.

Lemma read_plain json a t :
  (32 <= N_of_ascii a)%N -> N_of_ascii a <> 34%N -> N_of_ascii a <> 92%N ->
  read_literal json (String a t) = cons_bytes [a] (read_literal json t).
Proof.
  intros H1 H2 H3. cbn [read_literal]. rewrite bool_decide_eq_false_2 by done.
  rewrite (proj2 (N.ltb_ge _ _)) by lia.
  rewrite bool_decide_eq_true_2; [done|]. by intros ->.
Qed.

Lemma read_simple json e n t :
  simple_escape json e = Some n ->
  read_literal json (String backslash (String e t))
  = cons_bytes [ascii_of_N n] (read_literal json t).
Proof.
  intros H. assert (e <> "x"%char /\ e <> "u"%char /\ e <> "U"%char) as (H1 & H2 & H3).
  { repeat split; intros ->; by destruct json. }
  transitivity (if bool_decide (e = "x"%char /\ json = false) then None
                else if bool_decide (e = "u"%char) then None
                else if bool_decide (e = "U"%char /\ json = false) then None
                else match simple_escape json e with
                     | Some n => cons_bytes [ascii_of_N n] (read_literal json t)
                     | None => None
                     end).
  - cbn [read_literal]. rewrite !(bool_decide_eq_false_2 (e = _ /\ _)) by tauto.
    by rewrite !(bool_decide_eq_false_2 (e = _)).
  - rewrite !(bool_decide_eq_false_2 (e = _ /\ _)) by tauto.
    rewrite !(bool_decide_eq_false_2 (e = _)) by done. by rewrite H.
Qed.

Lemma read_x n t :
  (n < 256)%N ->
  read_literal false (String backslash ("x" +:+ hex_byte n +:+ t))
  = cons_bytes [ascii_of_N n] (read_literal false t).
Proof.
  intros Hn. pose proof (hex_num_byte 0 n [] Hn) as Hx. cbn [hex_num] in Hx.
  transitivity (match hex_num 0 (bytes_of (hex_byte n) ++ []) with
                | Some n => cons_bytes [ascii_of_N n] (read_literal false t)
                | None => None
                end); [reflexivity|]. by rewrite Hx.
Qed.

Lemma cons_rune_valid r k :
  valid_point r -> cons_rune (Some r) k = cons_bytes (encode_rune r) k.
Proof. intros Hr. cbn [cons_rune]. by rewrite bool_decide_eq_true_2. Qed.

Lemma read_u json r t :
  (r < 65536)%N -> valid_point r ->
  read_literal json (String backslash ("u" +:+ hex_byte (r / 256) +:+ hex_byte (r mod 256) +:+ t))
  = cons_bytes (encode_rune r) (read_literal json t).
Proof.
  intros Hr Hv. rewrite <- cons_rune_valid by done.
  transitivity (cons_rune (hex_num 0 (bytes_of (hex_byte (r / 256))
                                      ++ (bytes_of (hex_byte (r mod 256)) ++ [])))
                  (read_literal json t)); [by destruct json|].
  rewrite !hex_num_byte by divmod. cbn [hex_num]. repeat f_equal. divmod.
Qed.

Lemma read_U r t :
  valid_point r ->
  read_literal false (String backslash ("U" +:+ hex_byte (r / 16777216)
    +:+ hex_byte (r / 65536 mod 256) +:+ hex_byte (r / 256 mod 256) +:+ hex_byte (r mod 256) +:+ t))
  = cons_bytes (encode_rune r) (read_literal false t).
Proof.
  intros Hv. rewrite <- cons_rune_valid by done. unfold valid_point in Hv.
  transitivity (cons_rune (hex_num 0 (bytes_of (hex_byte (r / 16777216))
                  ++ (bytes_of (hex_byte (r / 65536 mod 256))
                  ++ (bytes_of (hex_byte (r / 256 mod 256))
                  ++ (bytes_of (hex_byte (r mod 256)) ++ [])))))
                  (read_literal false t)); [reflexivity|].
  rewrite !hex_num_byte by divmod. cbn [hex_num]. repeat f_equal. divmod.
Qed.

Section Quote.

Context `{RT : GoRuntime}.

(** Runes whose escape a JSON string may contain. *)
Definition json_rune (x : list ascii + ascii) : bool :=
  match x with
  | inl l =>
      let r := decode_rune l in
      IsPrint r || bool_decide (r ∈ [8; 9; 10; 12; 13]%N) || (128 <=? r)%N && (r <? 65536)%N
  | inr _ => false
  end.

(** The shapes of an escape. *)
Inductive escape_view (l : list ascii) : string -> Prop :=
| ev_raw :
    (forall a, a ∈ l -> 32 <= N_of_ascii a /\ N_of_ascii a <> 34 /\ N_of_ascii a <> 92)%N ->
    json_rune (inl l) = true -> escape_view l (of_bytes l)
| ev_simple e :
    simple_escape false e = Some (decode_rune l) ->
    simple_escape true e = (if json_rune (inl l) then Some (decode_rune l) else None) ->
    (32 <= N_of_ascii e)%N -> l = [ascii_of_N (decode_rune l)] ->
    escape_view l (String backslash (String e ""))
| ev_hex :
    json_rune (inl l) = false -> (decode_rune l < 128)%N -> l = [ascii_of_N (decode_rune l)] ->
    escape_view l (String backslash ("x" +:+ hex_byte (decode_rune l)))
| ev_u :
    (decode_rune l < 65536)%N -> json_rune (inl l) = true ->
    escape_view l (String backslash ("u" +:+ hex_byte (decode_rune l / 256)
                                     +:+ hex_byte (decode_rune l mod 256)))
| ev_U :
    json_rune (inl l) = false ->
    escape_view l (String backslash ("U" +:+ hex_byte (decode_rune l / 16777216)
      +:+ hex_byte (decode_rune l / 65536 mod 256) +:+ hex_byte (decode_rune l / 256 mod 256)
      +:+ hex_byte (decode_rune l mod 256))).

(** For the 128 one-byte runes the shape is checked by computation. *)
Definition ascii_escape_ok (n : N) : bool :=
  let l := [ascii_of_N n] in
  let s := escape l in
  bool_decide (decode_rune l = n) &&
  (bool_decide (s = of_bytes l /\ (32 <= n /\ n <> 34 /\ n <> 92)%N) && json_rune (inl l)
   || match s with
      | String b (String e "") =>
          bool_decide (b = backslash /\ simple_escape false e = Some n
            /\ simple_escape true e = (if json_rune (inl l) then Some n else None)
            /\ (32 <= N_of_ascii e)%N)
      | _ => bool_decide (s = String backslash ("x" +:+ hex_byte n)) && negb (json_rune (inl l))
      end).

Lemma ascii_escape_all : forallb (fun n => ascii_escape_ok (N.of_nat n)) (seq 0 128) = true.
Proof. vm_compute. reflexivity. Qed.

Lemma escape_view_ascii l :
  wf_rune l -> (decode_rune l < 128)%N -> escape_view l (escape l).
Proof.
  intros Hl Hr. destruct (wf_rune_ascii l Hl Hr) as (a & -> & Ha).
  set (r := decode_rune [a]) in *.
  assert ([a] = [ascii_of_N r]) as Hla by (by rewrite <- Ha, ascii_N_embedding).
  pose proof ascii_escape_all as Hall. rewrite forallb_forall in Hall.
  specialize (Hall (N.to_nat r) ltac:(apply in_seq; lia)). rewrite N2Nat.id in Hall. unfold ascii_escape_ok in Hall. rewrite <- Hla in Hall.
  apply andb_true_iff in Hall as [_ Hall]. apply orb_true_iff in Hall as [Hall|Hall].
  - apply andb_true_iff in Hall as [Hs Hj]. apply bool_decide_eq_true in Hs as (Hs & Hb).
    rewrite Hs. apply ev_raw; [|done]. intros b ->%list_elem_of_singleton. by rewrite Ha.
  - destruct (escape [a]) as [|b [|e [|x s]]] eqn:Es.
    1,2,4: apply andb_true_iff in Hall as [Hs Hj]; apply bool_decide_eq_true in Hs;
      rewrite Hs; apply ev_hex; [by apply negb_true_iff|done|done].
    apply bool_decide_eq_true in Hall as (-> & H1 & H2 & H3). by apply ev_simple.
Qed.

Lemma escape_viewP l : wf_rune l -> escape_view l (escape l).
Proof.
  intros Hl. destruct (N.lt_ge_cases (decode_rune l) 128) as [Hr|Hr];
    [by apply escape_view_ascii|].
  unfold escape. set (r := decode_rune l) in *.
  rewrite (proj2 (N.eqb_neq r 34)), (proj2 (N.eqb_neq r 92)) by lia. cbn [orb].
  destruct (IsPrint r) eqn:Hp.
  { apply ev_raw.
    - intros a Ha. pose proof (wf_rune_high l a Hl Hr Ha). lia.
    - cbn [json_rune]. fold r. by rewrite Hp. }
  assert (json_rune (inl l) = (r <? 65536)%N) as Hj.
  { cbn [json_rune]. fold r. rewrite Hp, (proj2 (N.leb_le 128 r)) by done.
    rewrite bool_decide_eq_false_2; [done|]. rewrite !elem_of_cons, elem_of_nil. lia. }
  replace (_ || _) with false
    by (rewrite (proj2 (N.ltb_ge r 32)), (proj2 (N.eqb_neq r 127)) by lia; done).
  destruct (N.ltb_spec r 65536) as [Hs|Hs];
    [pose proof (ev_u l Hs Hj) as H|pose proof (ev_U l Hj) as H]; fold r in H.
  all: destruct r as [|p]; [lia|]; do 4 (destruct p as [p|p|]; try lia; try exact H).
Qed.

(** A JSON reader stops at an escape that is none of JSON's. *)
Lemma read_json_bad e t :
  simple_escape true e = None -> e <> "u"%char ->
  read_literal true (String backslash (String e t)) = None.
Proof.
  intros H Hu.
  transitivity (if bool_decide (e = "x"%char /\ true = false) then None
                else if bool_decide (e = "u"%char) then None
                else if bool_decide (e = "U"%char /\ true = false) then None
                else match simple_escape true e with
                     | Some n => cons_bytes [ascii_of_N n] (read_literal true t)
                     | None => None
                     end).
  - cbn [read_literal]. rewrite !(bool_decide_eq_false_2 (e = _ /\ _)) by (by intros []).
    by rewrite !(bool_decide_eq_false_2 (e = _)).
  - rewrite !(bool_decide_eq_false_2 (e = _ /\ _)) by (by intros []).
    rewrite !(bool_decide_eq_false_2 (e = _)) by done. by rewrite H.
Qed.

Lemma read_raw json l t :
  (forall a, a ∈ l -> 32 <= N_of_ascii a /\ N_of_ascii a <> 34 /\ N_of_ascii a <> 92)%N ->
  read_literal json (of_bytes l +:+ t) = cons_bytes l (read_literal json t).
Proof.
  induction l as [|a l IH]; intros Hl.
  - rewrite str_app_nil_l. by destruct (read_literal json t) as [[]|].
  - cbn [of_bytes]. rewrite str_app_cons.
    destruct (Hl a ltac:(set_solver)) as (? & ? & ?). rewrite read_plain by done.
    rewrite IH by set_solver. by rewrite <- cons_bytes_app.
Qed.

Lemma read_escape json l t :
  wf_rune l ->
  read_literal json (escape l +:+ t)
  = if json && negb (json_rune (inl l)) then None else cons_bytes l (read_literal json t).
Proof.
  intros Hl. pose proof (decode_rune_valid l Hl) as Hv. pose proof (encode_decode l Hl) as He.
  destruct (escape_viewP l Hl) as [Hraw Hj|e H1 H2 H3 Hla|Hj Hr Hla|Hr Hj|Hj].
  - rewrite Hj, andb_false_r. by apply read_raw.
  - rewrite !str_app_cons, str_app_nil_l. destruct json; [destruct (json_rune (inl l))|]; cbn [andb negb].
    + rewrite (read_simple true e _ t H2). by rewrite <- Hla.
    + apply read_json_bad; [done|]. intros ->. done.
    + rewrite (read_simple false e _ t H1). by rewrite <- Hla.
  - rewrite Hj, str_app_cons, !str_app_assoc. destruct json; [by apply (read_json_bad "x")|].
    rewrite read_x by lia. by rewrite <- Hla.
  - rewrite Hj, andb_false_r, str_app_cons, !str_app_assoc. by rewrite read_u, He.
  - rewrite Hj, str_app_cons, !str_app_assoc. destruct json; [by apply (read_json_bad "U")|].
    by rewrite read_U, He.
Qed.

Lemma read_quoted json s rest :
  read_literal json (foldr (fun x t => quote_rune x +:+ t) dq (runes s) +:+ rest)
  = if json && negb (forallb json_rune (runes s)) then None else Some (s, rest).
Proof.
  induction s as [|l s Hl Hr IH|a s Hr IH] using runes_ind.
  - by destruct json.
  - rewrite Hr. cbn [foldr quote_rune forallb]. rewrite str_app_assoc, read_escape, IH by done.
    by destruct json, (json_rune (inl l)), (forallb json_rune (runes s)).
  - rewrite Hr. cbn [foldr quote_rune forallb json_rune]. rewrite !str_app_assoc, str_app_cons.
    rewrite !str_app_assoc. destruct json; [by apply (read_json_bad "x")|].
    rewrite read_x, IH by (apply N_ascii_bounded). cbn [andb cons_bytes of_bytes].
    by rewrite ascii_N_embedding.
Qed.

(** The printed literal of any byte string, valid UTF-8 or not, is read back as that string
    by a reader of Go literals, and the reader stops exactly at its end whatever follows. *)
Lemma unquote_quote s rest : unquote false (quote s +:+ rest) = Some (s, rest).
Proof. apply (read_quoted false s rest). Qed.

(** A reader of JSON strings, such as Rego's, reads it back exactly if every escape is one
    of JSON's, and rejects it otherwise. *)
Lemma unquote_json_quote s rest :
  unquote true (quote s +:+ rest)
  = if forallb json_rune (runes s) then Some (s, rest) else None.
Proof.
  etransitivity; [apply (read_quoted true s rest)|]. by destruct (forallb json_rune (runes s)).
Qed.

Lemma quote_inj s t : quote s = quote t -> s = t.
Proof.
  intros H. pose proof (unquote_quote s "") as Hs. rewrite H, unquote_quote in Hs. congruence.
Qed.

(** ** No byte of a literal breaks the line *)

Definition no_newline (s : string) : Prop := ascii_of_N 10 ∉ bytes_of s.

Lemma no_newline_app s t : no_newline s -> no_newline t -> no_newline (s +:+ t).
Proof. unfold no_newline. rewrite bytes_of_app, elem_of_app. tauto. Qed.

Lemma no_newline_cons a s : a <> ascii_of_N 10 -> no_newline s -> no_newline (String a s).
Proof. unfold no_newline. cbn [bytes_of]. rewrite elem_of_cons. naive_solver. Qed.

Lemma hex_digit_high n : (48 <= N_of_ascii (hex_digit n))%N.
Proof.
  destruct n as [|p]; [vm_compute; discriminate|].
  do 4 (destruct p as [p|p|]; try (vm_compute; discriminate)).
Qed.

Lemma no_newline_hex n : no_newline (hex_byte n).
Proof.
  unfold no_newline. cbn [hex_byte bytes_of].
  rewrite !elem_of_cons, elem_of_nil. intros [H|[H|[]]];
    pose proof (hex_digit_high (n / 16)); pose proof (hex_digit_high (n mod 16));
    rewrite <- H in *; vm_compute in *; done.
Qed.

#[local] Hint Resolve no_newline_app no_newline_cons no_newline_hex : core.

Lemma no_newline_escape l : wf_rune l -> no_newline (escape l).
Proof.
  intros Hl. assert (no_newline "x" /\ no_newline "u" /\ no_newline "U") as (Hx & Hu & HU).
  { unfold no_newline. cbn [bytes_of]. rewrite !list_elem_of_singleton. done. }
  destruct (escape_viewP l Hl) as [Hraw Hj|e H1 H2 H3 Hla|Hj Hr Hla|Hr Hj|Hj]; eauto 10 with lia.
  - unfold no_newline. rewrite bytes_of_of. intros Ha. destruct (Hraw _ Ha) as (Hb & _).
    vm_compute in Hb. done.
  - apply no_newline_cons; [done|]. apply no_newline_cons; [|apply not_elem_of_nil].
    intros ->. vm_compute in H3. done.
Qed.

Lemma no_newline_quote s : no_newline (quote s).
Proof.
  assert (no_newline dq) as Hq by (unfold no_newline; cbn; rewrite list_elem_of_singleton; done).
  unfold quote. apply no_newline_app; [done|].
  induction s as [|l s Hl Hr IH|a s Hr IH] using runes_ind; [done|..]; rewrite Hr; cbn [foldr quote_rune].
  - apply no_newline_app; [by apply no_newline_escape|done].
  - apply no_newline_app; [|done]. apply no_newline_cons; [done|]. apply no_newline_cons; [done|]. auto.
Qed.

End Quote.

(** ** Trimming *)

(** Bytes that are part of no white space character. *)
Definition graphic (a : ascii) : bool := in_range 33 126 a.

Lemma space_len_graphic a l : graphic a = true -> space_len (a :: l) = 0.
Proof.
  intros Ha. unfold graphic in Ha. byte_bool. unfold space_len. cbn [take map].
  set (n := N_of_ascii a) in *.
  replace ((9 <=? n) && (n <=? 13) || (n =? 32))%N with false
    by (symmetry; rewrite !orb_false_iff, andb_false_iff, N.leb_gt, N.leb_gt, N.eqb_neq; lia).
  destruct (map N_of_ascii (take 2 l)) as [|b [|c t]]; [done|..];
    rewrite !(proj2 (N.eqb_neq n _)) by lia; reflexivity.
Qed.

Lemma space_len_last2 b a : (N_of_ascii a < 128)%N -> space_len [b; a] <> 2.
Proof.
  intros Ha. unfold space_len. cbn [take map]. destruct (_ || _); [done|].
  rewrite !(proj2 (N.eqb_neq (N_of_ascii a) _)) by lia. cbn [orb]. by rewrite andb_false_r.
Qed.

Lemma space_len_last3 c b a : (N_of_ascii a < 128)%N -> space_len [c; b; a] <> 3.
Proof.
  intros Ha. unfold space_len. cbn [take map]. destruct (_ || _); [done|].
  destruct (_ && _); [done|].
  rewrite !(proj2 (N.eqb_neq (N_of_ascii a) _)), (proj2 (N.leb_gt 128 (N_of_ascii a))) by lia.
  cbn [orb andb]. by rewrite !andb_false_r.
Qed.

Lemma space_len_rev_graphic a l : graphic a = true -> space_len_rev (a :: l) = 0.
Proof.
  intros Ha. unfold space_len_rev. cbn [take].
  rewrite (decide_False (P := space_len [a] = 1)) by (by rewrite space_len_graphic).
  assert (N_of_ascii a < 128)%N by (unfold graphic in Ha; byte_bool; lia).
  rewrite !decide_False; [done|..].
  - destruct l as [|b [|c l]]; intros [Hl Hs]; cbn in Hl; try lia. by apply space_len_last3 in Hs.
  - destruct l as [|b l]; intros [Hl Hs]; cbn in Hl; try lia. by apply space_len_last2 in Hs.
Qed.

(** A text that begins and ends with a graphic character. *)
Definition edged (l : list ascii) : Prop :=
  exists a b k k', l = a :: k /\ rev l = b :: k' /\ graphic a = true /\ graphic b = true.

Lemma trim_left_spaces k fuel l :
  k <= fuel -> (exists a l', l = a :: l' /\ graphic a = true) ->
  trim_with space_len fuel (replicate k " "%char ++ l) = l.
Proof.
  intros Hk (a & l' & -> & Ha). revert fuel Hk. induction k as [|k IH]; intros fuel Hk.
  - destruct fuel; [done|]. cbn [replicate app trim_with]. by rewrite space_len_graphic.
  - destruct fuel; [lia|]. cbn [replicate app trim_with].
    change (space_len (" "%char :: replicate k " "%char ++ a :: l')) with 1. apply IH. lia.
Qed.

Lemma TrimSpace_pad k s :
  edged (bytes_of s) -> TrimSpace (of_bytes (replicate k " "%char) +:+ s) = s.
Proof.
  intros (a & b & t & t' & Hl & Hr & Ha & Hb). unfold TrimSpace.
  rewrite bytes_of_app, bytes_of_of, str_length_app, length_of_bytes, length_replicate.
  rewrite trim_left_spaces; [|lia|by eauto].
  destruct (length (bytes_of s)) as [|n]; cbn [trim_with].
  - by rewrite rev_involutive, of_bytes_of.
  - rewrite Hr, space_len_rev_graphic, <- Hr by done. by rewrite rev_involutive, of_bytes_of.
Qed.

Lemma TrimSpace_id s : edged (bytes_of s) -> TrimSpace s = s.
Proof. apply (TrimSpace_pad 0). Qed.

Lemma edged_app l m k :
  (exists a t, l = a :: t /\ graphic a = true) -> (exists b t, rev k = b :: t /\ graphic b = true) ->
  edged (l ++ m ++ k).
Proof.
  intros (a & t & -> & Ha) (b & t' & Hk & Hb).
  exists a, b, (t ++ m ++ k), (t' ++ rev m ++ rev (a :: t)). repeat split; [|done..].
  rewrite !rev_app_distr, Hk, <- app_assoc. done.
Qed.

(** ** Splitting into lines *)

Lemma split_char_none c s : c ∉ bytes_of s -> split_char c s = [s].
Proof.
  induction s as [|a s IH]; [done|]. cbn [bytes_of split_char]. rewrite not_elem_of_cons.
  intros [Hc Hs]. rewrite bool_decide_eq_false_2 by done. by rewrite IH.
Qed.

Lemma split_char_app c s t :
  c ∉ bytes_of s -> split_char c (s +:+ String c t) = s :: split_char c t.
Proof.
  induction s as [|a s IH]; intros Hs.
  - rewrite str_app_nil_l. cbn [split_char]. by rewrite bool_decide_eq_true_2.
  - rewrite str_app_cons. cbn [bytes_of split_char] in *. rewrite not_elem_of_cons in Hs.
    destruct Hs as [Ha Hs]. rewrite bool_decide_eq_false_2 by done. by rewrite IH.
Qed.

(** Joining lines and splitting them again. *)
Lemma split_join c l :
  l <> [] -> Forall (fun s => c ∉ bytes_of s) l -> split_char c (join (String c "") l) = l.
Proof.
  intros Hne Hl. induction Hl as [|s l Hs Hl IH]; [done|].
  destruct l as [|s' l]; [by apply split_char_none|].
  change (join (String c "") (s :: s' :: l)) with (s +:+ String c (join (String c "") (s' :: l))).
  rewrite split_char_app by done. by rewrite IH.
Qed.

(** ** Texts without line breaks *)

Lemma no_newline_join sep l : no_newline sep -> Forall no_newline l -> no_newline (join sep l).
Proof.
  intros Hsep Hl. induction Hl as [|s l Hs Hl IH]; [apply not_elem_of_nil|].
  destruct l as [|s' l]; [done|].
  change (join sep (s :: s' :: l)) with (s +:+ sep +:+ join sep (s' :: l)).
  by repeat apply no_newline_app.
Qed.

Lemma no_newline_Z_digits fuel z acc : no_newline acc -> no_newline (Z_digits fuel z acc).
Proof.
  revert z acc. induction fuel as [|fuel IH]; intros z acc Hacc; cbn [Z_digits]; [done|].
  assert (no_newline (String (digit_char (Z.to_nat (z mod 10))) acc)).
  { apply no_newline_cons; [|done]. pose proof (Z.mod_pos_bound z 10).
    assert (Z.to_nat (z mod 10) ∈ seq 0 10) as Hin by (apply elem_of_seq; lia).
    cbn [seq] in Hin. repeat (apply elem_of_cons in Hin as [->|Hin]; [done|]).
    by apply elem_of_nil in Hin. }
  destruct (z <? 10)%Z; [done|by apply IH].
Qed.

Lemma no_newline_itoa z : no_newline (itoa z).
Proof.
  assert (no_newline "") by apply not_elem_of_nil. unfold itoa.
  destruct (z <? 0)%Z; [apply no_newline_cons; [done|]|]; by apply no_newline_Z_digits.
Qed.

Lemma prefix_app pre s : String.prefix pre (pre +:+ s) = true.
Proof.
  induction pre as [|a pre IH]; [by destruct s|]. rewrite str_app_cons. cbn [String.prefix].
  destruct (ascii_dec a a); [done|congruence].
Qed.

Lemma substring_all s : String.substring 0 (String.length s) s = s.
Proof. induction s as [|a s IH]; [done|]. cbn [String.substring String.length]. by rewrite IH. Qed.

Lemma substring_head s t : String.substring 0 (String.length s) (s +:+ t) = s.
Proof.
  induction s as [|a s IH]; [by destruct t|]. rewrite str_app_cons.
  cbn [String.substring String.length]. by rewrite IH.
Qed.

Lemma substring_skip pre s n :
  String.substring (String.length pre) n (pre +:+ s) = String.substring 0 n s.
Proof. induction pre as [|a pre IH]; [done|]. rewrite str_app_cons. apply IH. Qed.

Lemma strip_prefix_app pre s : strip_prefix pre (pre +:+ s) = Some s.
Proof.
  unfold strip_prefix. rewrite prefix_app, substring_skip, str_length_app. f_equal.
  replace (_ + _ - _) with (String.length s) by lia. apply substring_all.
Qed.

Lemma edged_label pre s :
  (exists a t, bytes_of pre = a :: t /\ graphic a = true) ->
  edged (bytes_of s) -> edged (bytes_of (pre +:+ s)).
Proof.
  intros Hp (a & b & k & k' & _ & Hr & _ & Hb). rewrite bytes_of_app.
  rewrite <- (app_nil_l (bytes_of s)). apply edged_app; eauto.
Qed.

Lemma split_line s t :
  no_newline s ->
  split_char (ascii_of_N 10) (s +:+ nl +:+ t) = s :: split_char (ascii_of_N 10) t.
Proof. apply split_char_app. Qed.

(** [has_suffix] and [String.prefix] as equations. *)
Lemma prefix_iff pre s : String.prefix pre s = true <-> exists t, s = pre +:+ t.
Proof.
  split.
  - revert s. induction pre as [|a pre IH]; intros s H; [by exists s|].
    destruct s as [|b s]; [done|]. cbn [String.prefix] in H. destruct (ascii_dec a b) as [<-|]; [|done].
    destruct (IH s H) as [t ->]. by exists t.
  - intros [t ->]. apply prefix_app.
Qed.

Lemma has_suffix_iff suf s : has_suffix suf s = true <-> exists t, s = t +:+ suf.
Proof.
  unfold has_suffix. rewrite prefix_iff. split; intros [t Ht].
  - exists (of_bytes (rev (bytes_of t))). rewrite <- (of_bytes_of s), <- (rev_involutive (bytes_of s)).
    rewrite <- (bytes_of_of (rev (bytes_of s))), Ht, bytes_of_app, bytes_of_of, rev_app_distr, rev_involutive.
    rewrite <- (of_bytes_of (of_bytes _ +:+ suf)), bytes_of_app, bytes_of_of. done.
  - exists (of_bytes (rev (bytes_of t))). subst s. rewrite bytes_of_app, rev_app_distr.
    rewrite <- (of_bytes_of (of_bytes _ +:+ _)), bytes_of_app, !bytes_of_of. done.
Qed.
