(* ===== verification/CompilerTypes.v ===== *)
(** * Policy definitions and their validation

    Models src/internal/policy/compiler/schema.go and validation.go: JSON policy
    definitions as [encoding/json] decodes them, and the validator that the policy compiler
    runs first. Decoded conditions hold no Go integers, only floats, so the branches of
    type switches on [int] and [int64] do not arise. *)

From Stdlib Require Import ZArith Lia SpecFloat Ascii.
From stdpp Require Import base list sets strings numbers.
From S2P Require Import Prelude Json GoText.

(** ** Definitions *)

Record DefaultsConfig : Type := mkDefaults {
  DefAction : string;
  RateLimit : Z
}.

(** [Enabled] is a pointer; a missing [conditions] member is the nil map, here empty. *)
Record RuleDefinition : Type := mkRule {
  RuleID : string;
  RuleKind : string;
  Priority : Z;
  Enabled : option bool;
  Conditions : jobject;
  RuleAction : string;
  Message : string
}.

Record PolicyDefinition : Type := mkPolicy {
  Schema : string;
  Version : string;
  PolicyName : string;
  Description : string;
  Rules : list RuleDefinition;
  Defaults : DefaultsConfig
}.

Definition IsEnabled (r : RuleDefinition) : bool := default true (Enabled r).

(** [RuleType] and [Action] are string types. *)
Definition RuleTypeCapability : string := "capability".
Definition RuleTypeBlocklist : string := "blocklist".
Definition RuleTypeRateLimit : string := "rate_limit".
Definition RuleTypeCustom : string := "custom".
Definition ActionDeny : string := "deny".

(** [Operator]: the known ones, by their text. *)
Inductive Operator : Type :=
| OpEquals | OpNotEquals | OpGreaterThan | OpGreaterEq | OpLessThan | OpLessEq
| OpContains | OpStartsWith | OpEndsWith | OpMatches | OpIn | OpNotIn.

Definition operators : list (string * Operator) :=
  [("eq", OpEquals); ("ne", OpNotEquals); ("gt", OpGreaterThan); ("gte", OpGreaterEq);
   ("lt", OpLessThan); ("lte", OpLessEq); ("contains", OpContains);
   ("startswith", OpStartsWith); ("endswith", OpEndsWith); ("matches", OpMatches);
   ("in", OpIn); ("not_in", OpNotIn)].

(** ** Validation *)

Definition is_letter (a : ascii) : bool := in_range 97 122 a || in_range 65 90 a.
Definition is_digit (a : ascii) : bool := in_range 48 57 a.

Fixpoint all_chars (p : ascii -> bool) (s : string) : bool :=
  match s with "" => true | String a s => p a && all_chars p s end.

(** The pattern [^[a-zA-Z][a-zA-Z0-9_-]*$]. *)
Definition isValidIdentifier (s : string) : bool :=
  match s with
  | "" => false
  | String a s =>
      is_letter a
      && all_chars (fun a => is_letter a || is_digit a || bool_decide (a = "_"%char)
                             || bool_decide (a = "-"%char)) s
  end.

Definition isValidOperator (op : string) : bool := bool_decide (is_Some (obj_get operators op)).

Definition validateCapabilityRule (conds : jobject) : result string unit :=
  match obj_get conds "tool" with
  | None => Err "capability rule requires 'tool' condition"
  | Some (JStr _) =>
      match obj_get conds "requires_capability" with
      | None => Err "capability rule requires 'requires_capability' condition"
      | Some (JStr _) => Ok tt
      | Some _ => Err "'requires_capability' must be a string"
      end
  | Some _ => Err "'tool' must be a string"
  end.

Fixpoint validate_strings (i : nat) (l : list jvalue) : result string unit :=
  match l with
  | [] => Ok tt
  | JStr _ :: l => validate_strings (S i) l
  | _ :: _ => Err ("'values[" +:+ itoa (Z.of_nat i) +:+ "]' must be a string")
  end.

Definition validateBlocklistRule (conds : jobject) : result string unit :=
  match obj_get conds "match_type" with
  | None => Err "blocklist rule requires 'match_type' condition"
  | Some (JStr mt) =>
      if negb (bool_decide (mt ∈ ["tool"; "agent"; "did"]))
      then Err "'match_type' must be one of: tool, agent, did"
      else
        match obj_get conds "values" with
        | None => Err "blocklist rule requires 'values' condition"
        | Some (JArr []) => Err "'values' must not be empty"
        | Some (JArr l) => validate_strings 0 l
        | Some _ => Err "'values' must be an array"
        end
  | Some _ => Err "'match_type' must be a string"
  end.

Definition float_zero : float64 := S754_zero false.

Definition validateRateLimitRule (conds : jobject) : result string unit :=
  match obj_get conds "limit" with
  | None => Err "rate_limit rule requires 'limit' condition"
  | Some (JNum l) =>
      if SFleb l float_zero then Err "'limit' must be positive"
      else
        match obj_get conds "window" with
        | None => Ok tt
        | Some (JStr w) =>
            if bool_decide (w ∈ ["session"; "minute"; "hour"]) then Ok tt
            else Err "'window' must be one of: session, minute, hour"
        | Some _ => Err "'window' must be a string"
        end
  | Some _ => Err "'limit' must be a number"
  end.

(** The loops over ['all'] and ['any']. *)
Definition validate_items (rec : jvalue -> result string unit) (what : string)
    : nat -> list jvalue -> result string unit :=
  fix loop (i : nat) (l : list jvalue) : result string unit :=
    match l with
    | [] => Ok tt
    | item :: l =>
        let place := what +:+ "[" +:+ itoa (Z.of_nat i) +:+ "]" in
        match item with
        | JObj _ =>
            match rec item with
            | Ok _ => loop (S i) l
            | Err e => Err (place +:+ ": " +:+ e)
            end
        | _ => Err ("'" +:+ place +:+ "' must be an object")
        end
    end.

Definition validate_array (rec : jvalue -> result string unit) (what : string) (v : jvalue)
    : result string unit :=
  match v with
  | JArr l => validate_items rec what 0 l
  | _ => Err ("'" +:+ what +:+ "' must be an array")
  end.

Definition validate_field (m : jobject) : result string unit :=
  match obj_get m "field" with
  | None => Ok tt
  | Some (JStr _) =>
      match obj_get m "op" with
      | None => Ok tt
      | Some (JStr op) =>
          if isValidOperator op then Ok tt else Err ("invalid operator: " +:+ op)
      | Some _ => Err "'op' must be a string"
      end
  | Some _ => Err "'field' must be a string"
  end.

(** The argument is the object of an expression; callers check that it is one. *)
Fixpoint validateExpression (expr : jvalue) : result string unit :=
  match expr with
  | JObj m =>
      _ ← on_key "all" (fun all => validate_array (fun v => validateExpression v) "all" all)
            (Ok tt) m;
      _ ← on_key "any" (fun any => validate_array (fun v => validateExpression v) "any" any)
            (Ok tt) m;
      _ ← on_key "not"
            (fun not =>
               match not with
               | JObj _ => wrap_err "not" (validateExpression not)
               | _ => Err "'not' must be an object"
               end) (Ok tt) m;
      validate_field m
  | _ => Err "expression must be an object"
  end.

Definition validateCustomRule (conds : jobject) : result string unit :=
  match conds with
  | [] => Err "custom rule requires at least one condition"
  | _ => validateExpression (JObj conds)
  end.

(** The [switch] of [validateRule]. *)
Definition validate_kind (r : RuleDefinition) : result string unit :=
  if bool_decide (RuleKind r = RuleTypeCapability) then validateCapabilityRule (Conditions r)
  else if bool_decide (RuleKind r = RuleTypeBlocklist) then validateBlocklistRule (Conditions r)
  else if bool_decide (RuleKind r = RuleTypeRateLimit) then validateRateLimitRule (Conditions r)
  else if bool_decide (RuleKind r = RuleTypeCustom) then validateCustomRule (Conditions r)
  else Err ("unknown rule type: " +:+ RuleKind r).

(** The validator's state is the set of rule identifiers seen. *)
Record Validator : Type := mkValidator { ruleIDs : list string }.

Definition NewValidator : Validator := mkValidator [].

Definition validateRule (r : RuleDefinition) (v : Validator) : Validator * result string unit :=
  if bool_decide (RuleID r = "") then (v, Err "id is required")
  else if negb (isValidIdentifier (RuleID r)) then
    (v, Err ("id must be a valid identifier: " +:+ RuleID r))
  else if bool_decide (RuleID r ∈ ruleIDs v) then
    (v, Err ("duplicate rule id: " +:+ RuleID r))
  else
    let v := mkValidator (RuleID r :: ruleIDs v) in
    if bool_decide (RuleKind r = "") then (v, Err "type is required") else (v, validate_kind r).

Fixpoint validate_rules (i : nat) (rules : list RuleDefinition) (v : Validator)
    : Validator * result string unit :=
  match rules with
  | [] => (v, Ok tt)
  | r :: rules =>
      match validateRule r v with
      | (v, Ok _) => validate_rules (S i) rules v
      | (v, Err e) => (v, Err ("rule[" +:+ itoa (Z.of_nat i) +:+ "]: " +:+ e))
      end
  end.

Definition Validate (def : PolicyDefinition) (v : Validator) : Validator * result string unit :=
  let v := mkValidator [] in
  if bool_decide (Version def = "") then (v, Err "version is required")
  else if bool_decide (PolicyName def = "") then (v, Err "name is required")
  else if negb (isValidIdentifier (PolicyName def)) then
    (v, Err ("name must be a valid identifier (alphanumeric and hyphens): " +:+ PolicyName def))
  else
    match Rules def with
    | [] => (v, Err "at least one rule is required")
    | rules => validate_rules 0 rules v
    end.

(** [toolRules]: the identifiers of the capability rules by tool, in order. *)
Fixpoint tool_rules (rules : list RuleDefinition) (acc : list (string * list string))
    : list (string * list string) :=
  match rules with
  | [] => acc
  | r :: rules =>
      if bool_decide (RuleKind r = RuleTypeCapability) then
        match obj_get (Conditions r) "tool" with
        | Some (JStr tool) =>
            tool_rules rules (obj_set acc tool (default [] (obj_get acc tool) ++ [RuleID r]))
        | _ => tool_rules rules acc
        end
      else tool_rules rules acc
  end.

(** [order] is the order in which the map of tools is iterated. *)
Definition ValidateWarnings (order : list (string * list string) -> list (string * list string))
    (def : PolicyDefinition) : list string :=
  omap (fun p : string * list string =>
          if decide (1 < length p.2)
          then Some ("multiple capability rules for tool '" +:+ p.1 +:+ "': " +:+ join ", " p.2)
          else None)
    (order (tool_rules (Rules def) [])).

(** ** What the validator accepts *)

(** Identifiers: a letter, then letters, digits, underscores and hyphens. *)
Definition letter (a : ascii) : Prop :=
  (97 <= N_of_ascii a <= 122 \/ 65 <= N_of_ascii a <= 90)%N.
Definition digit (a : ascii) : Prop := (48 <= N_of_ascii a <= 57)%N.

Definition identifier (s : string) : Prop :=
  exists a t, s = String a t /\ letter a /\
    forall b, b ∈ bytes_of t -> letter b \/ digit b \/ b = "_"%char \/ b = "-"%char.

(** Well-formed expressions: [all] and [any] are arrays of expressions, [not] is an expression,
    [field] is a string and then [op], if it is there, one of the twelve operators. Any other
    member may be anything. *)
Inductive wf_expr : jvalue -> Prop :=
| wf_expr_obj m :
    (forall k v, k ∈ ["all"; "any"] -> obj_get m k = Some v -> exists l, v = JArr l) ->
    (forall k l v, k ∈ ["all"; "any"] -> obj_get m k = Some (JArr l) -> v ∈ l -> wf_expr v) ->
    (forall v, obj_get m "not" = Some v -> wf_expr v) ->
    (forall v, obj_get m "field" = Some v -> exists f, v = JStr f) ->
    (forall v, obj_get m "field" <> None -> obj_get m "op" = Some v -> exists op, v = JStr op /\
       op ∈ ["eq"; "ne"; "gt"; "gte"; "lt"; "lte"; "contains"; "startswith"; "endswith"; "matches";
             "in"; "not_in"]) ->
    wf_expr (JObj m).

(** The well-formed conditions of each rule type. *)
Inductive wf_conditions : string -> jobject -> Prop :=
| wf_capability m tool cap :
    obj_get m "tool" = Some (JStr tool) -> obj_get m "requires_capability" = Some (JStr cap) ->
    wf_conditions RuleTypeCapability m
| wf_blocklist m mt values :
    obj_get m "match_type" = Some (JStr mt) -> mt ∈ ["tool"; "agent"; "did"] ->
    obj_get m "values" = Some (JArr (map JStr values)) -> values <> [] ->
    wf_conditions RuleTypeBlocklist m
| wf_rate_limit m f :
    obj_get m "limit" = Some (JNum f) -> SFleb f float_zero = false ->
    (forall w, obj_get m "window" = Some w ->
       exists t, w = JStr t /\ t ∈ ["session"; "minute"; "hour"]) ->
    wf_conditions RuleTypeRateLimit m
| wf_custom m :
    m <> [] -> wf_expr (JObj m) -> wf_conditions RuleTypeCustom m.

Definition wf_rule (r : RuleDefinition) : Prop :=
  identifier (RuleID r) /\ wf_conditions (RuleKind r) (Conditions r).

Lemma is_letter_iff a : is_letter a = true <-> letter a.
Proof. unfold is_letter, in_range, letter. rewrite orb_true_iff, !andb_true_iff, !N.leb_le. tauto. Qed.

Lemma is_digit_iff a : is_digit a = true <-> digit a.
Proof. unfold is_digit, in_range, digit. by rewrite andb_true_iff, !N.leb_le. Qed.

Lemma all_chars_iff p s : all_chars p s = true <-> forall b, b ∈ bytes_of s -> p b = true.
Proof.
  induction s as [|a s IH]; cbn [all_chars bytes_of]; [set_solver|].
  rewrite andb_true_iff, IH. set_solver.
Qed.

Lemma isValidIdentifier_iff s : isValidIdentifier s = true <-> identifier s.
Proof.
  unfold isValidIdentifier, identifier. destruct s as [|a t]; [naive_solver|].
  rewrite andb_true_iff, is_letter_iff, all_chars_iff.
  assert (forall b, is_letter b || is_digit b || bool_decide (b = "_"%char) || bool_decide (b = "-"%char)
      = true <-> letter b \/ digit b \/ b = "_"%char \/ b = "-"%char) as Hb.
  { intros b. rewrite !orb_true_iff, is_letter_iff, is_digit_iff, !bool_decide_eq_true. tauto. }
  setoid_rewrite Hb. naive_solver.
Qed.

Lemma isValidOperator_iff op :
  isValidOperator op = true <->
  op ∈ ["eq"; "ne"; "gt"; "gte"; "lt"; "lte"; "contains"; "startswith"; "endswith"; "matches";
        "in"; "not_in"].
Proof.
  unfold isValidOperator, operators. rewrite bool_decide_eq_true, !elem_of_cons, elem_of_nil. split.
  - intros [o Ho]. cbn in Ho. repeat case_bool_decide; first [tauto|done].
  - intros H. repeat destruct H as [->|H]; [by eexists..|done].
Qed.

Lemma validate_items_ok rec what i l :
  validate_items rec what i l = Ok tt <->
  forall v, v ∈ l -> (exists m, v = JObj m) /\ rec v = Ok tt.
Proof.
  revert i. induction l as [|x l IH]; intros i; cbn [validate_items]; [set_solver|].
  split.
  - intros H v. destruct x as [| | | | |m]; try done.
    destruct (rec (JObj m)) as [[]|] eqn:Hr; [|done]. rewrite IH in H.
    intros [->|Hv]%elem_of_cons; [by eauto|by apply H].
  - intros H. destruct (H x) as [[m ->] Hr]; [left|]. rewrite Hr. apply IH. intros v Hv. apply H. by right.
Qed.

Lemma validate_field_ok m :
  validate_field m = Ok tt <->
  (forall v, obj_get m "field" = Some v -> exists f, v = JStr f) /\
  (forall v, obj_get m "field" <> None -> obj_get m "op" = Some v ->
     exists op, v = JStr op /\ isValidOperator op = true).
Proof.
  unfold validate_field. split.
  - intros H. destruct (obj_get m "field") as [[]|]; try done. split; [naive_solver|].
    intros v _ Hv. rewrite Hv in H. destruct v; try done.
    destruct (isValidOperator _) eqn:Ho; [by eauto|done].
  - intros [Hf Ho]. destruct (obj_get m "field") as [v|]; [|done].
    destruct (Hf v eq_refl) as [f ->]. destruct (obj_get m "op") as [w|]; [|done].
    destruct (Ho w) as (op & -> & ->); done.
Qed.

Lemma validate_array_ok rec what v :
  validate_array rec what v = Ok tt <->
  exists l, v = JArr l /\ forall x, x ∈ l -> (exists m, x = JObj m) /\ rec x = Ok tt.
Proof.
  unfold validate_array. destruct v; try (split; [done|naive_solver]).
  rewrite validate_items_ok. naive_solver.
Qed.

(** The members that [validateExpression] looks at. *)
Lemma validateExpression_ok m :
  validateExpression (JObj m) = Ok tt <->
  (forall k v, k ∈ ["all"; "any"] -> obj_get m k = Some v ->
     exists l, v = JArr l /\ forall x, x ∈ l -> (exists m, x = JObj m) /\ validateExpression x = Ok tt) /\
  (forall v, obj_get m "not" = Some v -> (exists m, v = JObj m) /\ validateExpression v = Ok tt) /\
  validate_field m = Ok tt.
Proof.
  cbn [validateExpression]. rewrite !on_key_get. split.
  - intros ([] & H1 & ([] & H2 & ([] & H3 & H4)%bind_Ok)%bind_Ok)%bind_Ok. split_and!; [..|done].
    + intros k v [->|[->|[]%elem_of_nil]%elem_of_cons]%elem_of_cons Hv; rewrite Hv in *;
        by eapply validate_array_ok.
    + intros v Hv. rewrite Hv in H3. destruct v as [| | | | |n]; try done. split; [by eauto|].
      by destruct (validateExpression (JObj n)) as [[]|].
  - intros (Ha & Hn & Hf).
    assert (forall k, k ∈ ["all"; "any"] -> match obj_get m k with
      | Some v => validate_array (fun v => validateExpression v) k v | None => Ok tt end = Ok tt) as Hk.
    { intros k Hk. destruct (obj_get m k) as [v|] eqn:Hv; [|done].
      apply validate_array_ok. by eapply Ha. }
    rewrite (Hk "all"), (Hk "any") by set_solver. cbn [mbind result_bind].
    destruct (obj_get m "not") as [v|]; [|done].
    destruct (Hn v eq_refl) as [[n ->] ->]. done.
Qed.

Lemma wf_expr_object v : wf_expr v -> exists m, v = JObj m.
Proof. destruct 1. by eexists. Qed.

(** The validator accepts exactly the well-formed expressions. *)
Lemma validateExpression_wf v :
  (validateExpression v = Ok tt <-> wf_expr v) /\
  (forall l, v = JArr l -> forall x, x ∈ l -> validateExpression x = Ok tt <-> wf_expr x).
Proof.
  induction v as [|b|f|s|l IH|m IH] using jvalue_nested_ind.
  1-4: split; [split; [done|by inversion 1]|done].
  { split; [split; [done|by inversion 1]|]. intros l' [= <-] x Hx.
    rewrite list.Forall_forall in IH. by apply (IH x Hx). }
  split; [|done]. rewrite list.Forall_forall in IH.
  assert (forall k w, obj_get m k = Some w -> (validateExpression w = Ok tt <-> wf_expr w) /\
    (forall l, w = JArr l -> forall x, x ∈ l -> validateExpression x = Ok tt <-> wf_expr x)) as Hsub.
  { intros k w Hw. apply obj_get_In, list_elem_of_In in Hw. apply (IH _ Hw). }
  rewrite validateExpression_ok, validate_field_ok. split.
  - intros (Ha & Hn & Hf & Ho). constructor.
    + intros k v Hk Hv. destruct (Ha k v Hk Hv) as (l & -> & _). by eauto.
    + intros k l v Hk Hl Hv. destruct (Ha k _ Hk Hl) as (? & [= <-] & Hall).
      apply (proj2 (Hsub _ _ Hl) l eq_refl v Hv), Hall, Hv.
    + intros v Hv. apply (Hsub _ _ Hv), Hn, Hv.
    + done.
    + intros v H1 H2. destruct (Ho v H1 H2) as (op & -> & Hop). exists op. by rewrite <- isValidOperator_iff.
  - inversion 1 as [? Ha Hall Hn Hf Ho]; subst. split_and!; [| |done|].
    + intros k v Hk Hv. destruct (Ha k v Hk Hv) as [l ->]. exists l. split; [done|]. intros x Hx.
      pose proof (Hall k l x Hk Hv Hx) as Hw. split; [by apply wf_expr_object|].
      by apply (proj2 (Hsub _ _ Hv) l eq_refl x Hx).
    + intros v Hv. pose proof (Hn v Hv) as Hw. split; [by apply wf_expr_object|]. by apply (Hsub _ _ Hv).
    + intros v H1 H2. destruct (Ho v H1 H2) as (op & -> & Hop). exists op. by rewrite isValidOperator_iff.
Qed.

Lemma validate_strings_ok i l :
  validate_strings i l = Ok tt <-> exists values, l = map JStr values.
Proof.
  revert i. induction l as [|v l IH]; intros i; cbn [validate_strings].
  { split; [by exists []|done]. }
  destruct v; try (split; [done|intros ([|? ?] & Heq); simplify_eq/=]).
  rewrite IH. split.
  - intros (values & ->). by exists (s :: values).
  - intros ([|x values] & Heq); simplify_eq/=. by exists values.
Qed.

Lemma validateCapabilityRule_ok m :
  validateCapabilityRule m = Ok tt <->
  exists tool cap, obj_get m "tool" = Some (JStr tool)
                   /\ obj_get m "requires_capability" = Some (JStr cap).
Proof. unfold validateCapabilityRule. split; [intros; crush; eauto|intros (? & ? & -> & ->); done]. Qed.

Lemma validateBlocklistRule_ok m :
  validateBlocklistRule m = Ok tt <->
  exists mt values, obj_get m "match_type" = Some (JStr mt) /\ mt ∈ ["tool"; "agent"; "did"]
    /\ obj_get m "values" = Some (JArr (map JStr values)) /\ values <> [].
Proof.
  unfold validateBlocklistRule. split.
  - destruct (obj_get m "match_type") as [[| | |mt| |]|]; try done.
    case_bool_decide as Hmt; [|done]. cbn [negb].
    destruct (obj_get m "values") as [[| | | |[|v l]|]|]; try done.
    intros (values & Hl)%validate_strings_ok. exists mt, values. rewrite Hl.
    repeat split; [done..|]. by intros ->.
  - intros (mt & values & -> & Hmt & -> & Hne). rewrite bool_decide_eq_true_2 by done. cbn [negb].
    destruct values as [|s values]; [done|]. cbn [map]. apply validate_strings_ok. by exists (s :: values).
Qed.

Lemma validateRateLimitRule_ok m :
  validateRateLimitRule m = Ok tt <->
  exists f, obj_get m "limit" = Some (JNum f) /\ SFleb f float_zero = false
    /\ (forall w, obj_get m "window" = Some w ->
          exists t, w = JStr t /\ t ∈ ["session"; "minute"; "hour"]).
Proof.
  unfold validateRateLimitRule. split.
  - destruct (obj_get m "limit") as [[| |f| | |]|]; try done.
    destruct (SFleb f float_zero) eqn:Hf; [done|]. intros H. exists f. repeat split; [done|].
    intros w Hw. rewrite Hw in H. destruct w; try done. case_bool_decide; [by eauto|done].
  - intros (f & -> & -> & Hw). destruct (obj_get m "window") as [w|]; [|done].
    destruct (Hw w eq_refl) as (t & -> & Ht). by rewrite bool_decide_eq_true_2.
Qed.

Lemma validate_kind_ok r :
  validate_kind r = Ok tt <-> wf_conditions (RuleKind r) (Conditions r).
Proof.
  unfold validate_kind. split.
  - intros H. repeat (case_bool_decide as Hk; [rewrite Hk|clear Hk]); [..|done].
    + apply validateCapabilityRule_ok in H as (? & ? & ? & ?). by econstructor.
    + apply validateBlocklistRule_ok in H as (? & ? & ? & ? & ? & ?). by econstructor.
    + apply validateRateLimitRule_ok in H as (? & ? & ? & ?). by econstructor.
    + unfold validateCustomRule in H. destruct (Conditions r); [done|].
      constructor; [done|]. by apply validateExpression_wf.
  - destruct 1 as [m tool cap|m mt values|m f|m Hne He]; cbn.
    + apply validateCapabilityRule_ok. eauto.
    + apply validateBlocklistRule_ok. eauto 10.
    + apply validateRateLimitRule_ok. eauto.
    + unfold validateCustomRule. destruct m; [done|]. by apply validateExpression_wf.
Qed.

Lemma validateRule_ok r v :
  (validateRule r v).2 = Ok tt <-> wf_rule r /\ RuleID r ∉ ruleIDs v.
Proof.
  unfold validateRule, wf_rule. rewrite <- isValidIdentifier_iff. case_bool_decide as H1.
  { split; [done|]. rewrite H1. by intros [[? _] _]. }
  destruct (isValidIdentifier (RuleID r)); cbn [negb]; [|naive_solver].
  case_bool_decide as H2; [naive_solver|].
  case_bool_decide as H3; cbn [snd].
  - split; [done|]. intros [[_ Hw] _]. rewrite H3 in Hw. by inversion Hw.
  - rewrite validate_kind_ok. naive_solver.
Qed.

Lemma validateRule_ids r v :
  (validateRule r v).2 = Ok tt -> ruleIDs (validateRule r v).1 = RuleID r :: ruleIDs v.
Proof.
  unfold validateRule. intros H. repeat case_bool_decide; try done;
    by destruct (isValidIdentifier (RuleID r)).
Qed.

Lemma validate_rules_ok i rules v :
  (validate_rules i rules v).2 = Ok tt <->
  Forall wf_rule rules /\ NoDup (map RuleID rules)
  /\ (forall r, r ∈ rules -> RuleID r ∉ ruleIDs v).
Proof.
  revert i v. induction rules as [|r rules IH]; intros i v; cbn [validate_rules map].
  { split; [|done]. intros _. split_and!; [constructor|constructor|set_solver]. }
  rewrite list.Forall_cons, list.NoDup_cons.
  pose proof (validateRule_ok r v) as Hr. pose proof (validateRule_ids r v) as Hids.
  destruct (validateRule r v) as [v' [[]|e]]; cbn [fst snd] in *.
  - rewrite IH, Hids by done. destruct (proj1 Hr eq_refl) as [Hw Hn].
    assert (forall x, x ∈ rules -> RuleID x ∈ map RuleID rules) by (intros; by apply list_elem_of_fmap_2).
    split.
    + intros (H1 & H2 & H3). split_and!; [done..| |done|].
      * intros (x & Hx & Hin)%list_elem_of_fmap. apply (H3 x Hin). rewrite <- Hx. set_solver.
      * intros x [->|Hx]%elem_of_cons; [done|]. specialize (H3 x Hx). set_solver.
    + intros ((_ & H1) & (H2 & H3) & H4). split_and!; [done..|]. intros x Hx.
      rewrite elem_of_cons. intros [Heq|Hin]; [|by apply (H4 x); [set_solver|]].
      apply H2. rewrite <- Heq. auto.
  - split; [done|]. intros ((H1 & _) & _ & H3). exfalso.
    assert (Err (A := unit) e = Ok tt) by (apply Hr; split; [done|apply H3; set_solver]). done.
Qed.

Lemma Validate_ok_iff (def : PolicyDefinition) (v : Validator) :
  (Validate def v).2 = Ok tt <->
  Version def <> "" /\ identifier (PolicyName def) /\ Rules def <> []
  /\ NoDup (map RuleID (Rules def)) /\ Forall wf_rule (Rules def).
Proof.
  rewrite <- isValidIdentifier_iff. unfold Validate. case_bool_decide; [naive_solver|]. case_bool_decide as Hn.
  { rewrite Hn. naive_solver. }
  destruct (isValidIdentifier (PolicyName def)); cbn [negb]; [|naive_solver].
  destruct (Rules def) as [|r rules]; [naive_solver|]. rewrite validate_rules_ok. cbn [ruleIDs].
  set_solver.
Qed.

(** C21: The validator accepts exactly the definitions with a version, a name that is an
    identifier, and at least one rule, whose rules have distinct identifiers and well-formed
    conditions for their types (for custom rules, well-formed expressions at every depth); what
    an earlier validation left in the validator does not matter. *)
Theorem Validate_accepts (def : PolicyDefinition) (v : Validator) :
  (Validate def v).2 = Ok tt <->
  Version def <> "" /\ identifier (PolicyName def) /\ Rules def <> []
  /\ NoDup (map RuleID (Rules def)) /\ Forall wf_rule (Rules def).
Proof. apply Validate_ok_iff. Qed.
