(* ===== verification/CompilerExpr.v ===== *)
(** * The expression compiler

    Models src/internal/policy/compiler/expression.go, with [toStringSlice] of blocklist.go
    and [quoteSlice] of templates.go: conditions of custom rules, as decoded JSON, become
    lines of Rego. A call returns a text or an error, or panics: the assertion
    [field.(string)] is unchecked. The members of an object are in the order in which the
    one iteration over that map visits them. *)

From Stdlib Require Import ZArith Lia SpecFloat Ascii.
From stdpp Require Import base list sets strings numbers.
From S2P Require Import Prelude Json GoText CompilerTypes.

(** ** Literals *)

Section Expr.

Context `{RT : GoRuntime}.

Definition quoteString (s : string) : string := quote s.

Definition quoteSlice (items : list string) : string :=
  "[" +:+ join ", " (map quote items) +:+ "]".

(** [toStringSlice] from index [i] on. *)
Fixpoint strings_from (i : nat) (l : list jvalue) : result string (list string) :=
  match l with
  | [] => Ok []
  | JStr s :: l => rest ← strings_from (S i) l; Ok (s :: rest)
  | _ :: _ => Err ("values[" +:+ itoa (Z.of_nat i) +:+ "] must be a string")
  end.

Definition toStringSlice (v : jvalue) : result string (list string) :=
  match v with
  | JArr l => strings_from 0 l
  | _ => Err "values must be an array of strings"
  end.

Definition fieldPathToRego (path : string) : string :=
  if String.prefix "input." path then path else "input." +:+ path.

Fixpoint valueToRego (v : jvalue) : string :=
  match v with
  | JStr s => quote s
  | JBool b => if b then "true" else "false"
  | JNum f =>
      if SFeqb f (float_of_Z (int64_of_float f)) then itoa (int64_of_float f) else format_f f
  | JArr l => "[" +:+ join ", " (map valueToRego l) +:+ "]"
  | JNull => "null"
  | JObj _ => format_v v
  end.

Definition keywords : list string :=
  ["all"; "any"; "not"; "field"; "op"; "value"; "field_equals"; "field_in"; "field_matches";
   "tool_in"; "agent_in"].

(** The pattern [^[a-zA-Z][a-zA-Z0-9_.]*$]. *)
Definition isFieldPath (s : string) : bool :=
  if bool_decide (s ∈ keywords) then false
  else
    match s with
    | "" => false
    | String a s =>
        is_letter a
        && all_chars (fun a => is_letter a || is_digit a || bool_decide (a = "_"%char)
                               || bool_decide (a = "."%char)) s
    end.

(** ** Expressions *)

Definition cres : Type := outcome (result string string).
Definition done_ (s : string) : cres := Ret (Ok s).
Definition fail_ (e : string) : cres := Ret (Err e).

Definition indentation (indent : nat) : string := Repeat "    " indent.

(** Compiles the items of an array in order, up to the first error. *)
Definition compile_items (rec : jvalue -> cres) (what : string)
    : nat -> list jvalue -> outcome (result string (list string)) :=
  fix loop (i : nat) (l : list jvalue) : outcome (result string (list string)) :=
    match l with
    | [] => Ret (Ok [])
    | item :: l =>
        let place := what +:+ "[" +:+ itoa (Z.of_nat i) +:+ "]" in
        match item with
        | JObj _ =>
            match rec item with
            | Panic msg => Panic msg
            | Ret (Err e) => Ret (Err (place +:+ ": " +:+ e))
            | Ret (Ok cond) =>
                match loop (S i) l with
                | Ret (Ok conds) => Ret (Ok (cond :: conds))
                | r => r
                end
            end
        | _ => Ret (Err (place +:+ " must be an object"))
        end
    end.

Definition compile_array (rec : jvalue -> cres) (what : string)
    (text : list string -> string) (v : jvalue) : cres :=
  match v with
  | JArr items =>
      match compile_items rec what 0 items with
      | Ret (Ok conds) => done_ (text conds)
      | Ret (Err e) => fail_ e
      | Panic msg => Panic msg
      end
  | _ => fail_ ("'" +:+ what +:+ "' must be an array")
  end.

Definition compileAll (rec : jvalue -> cres) (all : jvalue) : cres :=
  compile_array rec "all" (join nl) all.

(** What [compileAny] returns; the text it first builds with alternatives is discarded. *)
Definition any_text (indent : nat) (conds : list string) : string :=
  indentation indent +:+ "# any: one of the following must be true" +:+ nl
    +:+ indentation indent
    +:+ join (nl +:+ indentation indent) (map (fun c => "(" +:+ TrimSpace c +:+ ")") conds).

Definition compileAny (rec : jvalue -> cres) (any : jvalue) (indent : nat) : cres :=
  compile_array rec "any" (any_text indent) any.

Definition compileNot (rec : jvalue -> cres) (not : jvalue) (indent : nat) : cres :=
  match not with
  | JObj _ =>
      match rec not with
      | Ret (Ok inner) => done_ (indentation indent +:+ "not " +:+ TrimSpace inner)
      | r => r
      end
  | _ => fail_ "'not' must be an object"
  end.

Definition compileDirectComparison (path : string) (value : jvalue) (indent : nat) : cres :=
  done_ (indentation indent +:+ fieldPathToRego path +:+ " == " +:+ valueToRego value).

Definition compileFieldEquals (v : jvalue) (indent : nat) : cres :=
  match v with
  | JObj m =>
      done_ (join nl (map (fun p : string * jvalue =>
        indentation indent +:+ fieldPathToRego p.1 +:+ " == " +:+ valueToRego p.2) m))
  | _ => fail_ "'field_equals' must be an object"
  end.

Definition in_line (indent : nat) (path : string) (values : list string) : string :=
  indentation indent +:+ fieldPathToRego path +:+ " in " +:+ quoteSlice values.

Fixpoint field_in_lines (indent : nat) (m : jobject) : result string (list string) :=
  match m with
  | [] => Ok []
  | (path, raw) :: m =>
      values ← toStringSlice raw;
      rest ← field_in_lines indent m;
      Ok (in_line indent path values :: rest)
  end.

Definition compileFieldIn (v : jvalue) (indent : nat) : cres :=
  match v with
  | JObj m => Ret (lines ← field_in_lines indent m; Ok (join nl lines))
  | _ => fail_ "'field_in' must be an object"
  end.

Fixpoint field_matches_lines (indent : nat) (m : jobject) : result string (list string) :=
  match m with
  | [] => Ok []
  | (path, JStr pattern) :: m =>
      rest ← field_matches_lines indent m;
      Ok ((indentation indent +:+ "regex.match(" +:+ quote pattern +:+ ", "
           +:+ fieldPathToRego path +:+ ")") :: rest)
  | (path, _) :: _ => Err ("pattern for '" +:+ path +:+ "' must be a string")
  end.

Definition compileFieldMatches (v : jvalue) (indent : nat) : cres :=
  match v with
  | JObj m => Ret (lines ← field_matches_lines indent m; Ok (join nl lines))
  | _ => fail_ "'field_matches' must be an object"
  end.

Definition compileFieldOp (field : string) (m : jobject) (indent : nat) : cres :=
  let ind := indentation indent in
  let path := fieldPathToRego field in
  let value := default JNull (obj_get m "value") in
  let infix op := done_ (ind +:+ path +:+ " " +:+ op +:+ " " +:+ valueToRego value) in
  let call f := done_ (ind +:+ f +:+ "(" +:+ path +:+ ", " +:+ valueToRego value +:+ ")") in
  match obj_get m "op" with
  | Some (JStr op) =>
      match obj_get operators op with
      | Some OpEquals => infix "=="
      | Some OpNotEquals => infix "!="
      | Some OpGreaterThan => infix ">"
      | Some OpGreaterEq => infix ">="
      | Some OpLessThan => infix "<"
      | Some OpLessEq => infix "<="
      | Some OpContains => call "contains"
      | Some OpStartsWith => call "startswith"
      | Some OpEndsWith => call "endswith"
      | Some OpMatches =>
          done_ (ind +:+ "regex.match(" +:+ valueToRego value +:+ ", " +:+ path +:+ ")")
      | Some OpIn => Ret (values ← toStringSlice value; Ok (in_line indent field values))
      | Some OpNotIn =>
          Ret (values ← toStringSlice value;
               Ok (ind +:+ "not " +:+ path +:+ " in " +:+ quoteSlice values))
      | None => fail_ ("unknown operator: " +:+ op)
      end
  | _ => fail_ "'op' is required for field operations"
  end.

(** The first member, in iteration order, whose key looks like a field path. *)
Fixpoint first_path (m : jobject) : option (string * jvalue) :=
  match m with
  | [] => None
  | (k, v) :: m => if isFieldPath k then Some (k, v) else first_path m
  end.

(** Everything but the logical operators. *)
Definition compileLeaf (m : jobject) (indent : nat) : cres :=
  match obj_get m "tool_in" with
  | Some v => Ret (values ← toStringSlice v;
                   Ok (indentation indent +:+ "input.request.tool in " +:+ quoteSlice values))
  | None =>
  match obj_get m "agent_in" with
  | Some v => Ret (values ← toStringSlice v;
                   Ok (indentation indent +:+ "input.agent.id in " +:+ quoteSlice values))
  | None =>
  match obj_get m "field_equals" with
  | Some v => compileFieldEquals v indent
  | None =>
  match obj_get m "field_in" with
  | Some v => compileFieldIn v indent
  | None =>
  match obj_get m "field_matches" with
  | Some v => compileFieldMatches v indent
  | None =>
  match obj_get m "field" with
  | Some (JStr field) => compileFieldOp field m indent
  | Some _ => Panic "interface conversion: interface {} is not string"
  | None =>
  match first_path m with
  | Some (k, v) => compileDirectComparison k v indent
  | None => fail_ ("unknown expression type: " +:+ format_v (JObj m))
  end end end end end end end.

(** The argument is the object of an expression; callers check that it is one. *)
Fixpoint compileExpr (expr : jvalue) (indent : nat) : cres :=
  match expr with
  | JObj m =>
      on_key "all" (fun all => compileAll (fun v => compileExpr v indent) all)
        (on_key "any" (fun any => compileAny (fun v => compileExpr v (S indent)) any indent)
          (on_key "not" (fun not => compileNot (fun v => compileExpr v 0) not indent)
            (compileLeaf m indent) m) m) m
  | _ => fail_ "expression must be an object"
  end.

(** [NewExpressionCompiler().Compile]. *)
Definition CompileExpression (m : jobject) : cres := compileExpr (JObj m) 1.

(** ** Validated expressions never panic *)

Definition returns {A} (r : outcome A) : Prop := exists a, r = Ret a.

Lemma returns_Ret {A} (a : A) : returns (Ret a).
Proof. by exists a. Qed.
#[local] Hint Resolve returns_Ret : core.

Lemma compileLeaf_returns m indent :
  validate_field m = Ok tt -> returns (compileLeaf m indent).
Proof.
  unfold compileLeaf, validate_field, compileFieldEquals, compileFieldIn, compileFieldMatches,
    compileFieldOp, compileDirectComparison, done_, fail_. intros H.
  repeat case_match; simplify_eq; auto.
Qed.

Lemma compile_items_returns rec what i l :
  (forall v, v ∈ l -> forall m, v = JObj m -> returns (rec v)) ->
  returns (compile_items rec what i l).
Proof.
  revert i. induction l as [|v l IH]; intros i Hrec; cbn [compile_items]; [auto|].
  destruct v as [| | | | |m]; auto.
  destruct (Hrec (JObj m) ltac:(set_solver) m eq_refl) as [r ->].
  destruct r as [cond|e]; [|auto].
  destruct (IH (S i)) as [r ->]; [set_solver|]. destruct r; auto.
Qed.

Lemma compile_array_returns rec what text v :
  (forall l, v = JArr l -> forall x, x ∈ l -> forall m, x = JObj m -> returns (rec x)) ->
  returns (compile_array rec what text v).
Proof.
  intros Hrec. unfold compile_array, done_, fail_. destruct v; auto.
  destruct (compile_items_returns rec what 0 l) as [r ->]; [by apply Hrec|]. destruct r; auto.
Qed.

Lemma validate_items_inv rec what i l :
  validate_items rec what i l = Ok tt -> forall v, v ∈ l -> rec v = Ok tt.
Proof.
  revert i. induction l as [|x l IH]; intros i H v Hv; [set_solver|]. cbn [validate_items] in H.
  destruct x as [| | | | |m]; try done. destruct (rec (JObj m)) as [[]|e] eqn:Hr; [|done].
  apply elem_of_cons in Hv as [->|Hv]; [done|]. by eapply IH.
Qed.

(** The parts of a valid expression are valid. *)
Lemma validateExpression_inv m :
  validateExpression (JObj m) = Ok tt ->
  (forall l, obj_get m "all" = Some (JArr l) -> forall v, v ∈ l -> validateExpression v = Ok tt)
  /\ (forall l, obj_get m "any" = Some (JArr l) -> forall v, v ∈ l -> validateExpression v = Ok tt)
  /\ (forall k, obj_get m "not" = Some (JObj k) -> validateExpression (JObj k) = Ok tt)
  /\ validate_field m = Ok tt.
Proof.
  intros H. cbn [validateExpression] in H. rewrite !on_key_get in H.
  apply bind_Ok in H as ([] & H1 & ([] & H2 & ([] & H3 & H4)%bind_Ok)%bind_Ok).
  split_and!; [..|done].
  - intros l Hl. rewrite Hl in H1. by eapply validate_items_inv.
  - intros l Hl. rewrite Hl in H2. by eapply validate_items_inv.
  - intros k Hk. rewrite Hk in H3. by destruct (validateExpression (JObj k)) as [[]|].
Qed.

Lemma compileExpr_returns v :
  (forall indent, validateExpression v = Ok tt -> returns (compileExpr v indent))
  /\ (forall l, v = JArr l -> forall x, x ∈ l ->
        forall indent, validateExpression x = Ok tt -> returns (compileExpr x indent)).
Proof.
  induction v as [|b|f|s|l IH|m IH] using jvalue_nested_ind.
  1-4: split; [done|naive_solver].
  { split; [done|]. intros l' [= <-] x Hx indent. rewrite list.Forall_forall in IH.
    by apply (proj1 (IH x Hx)). }
  split; [|done]. intros indent Hv.
  rewrite list.Forall_forall in IH.
  assert (forall k w, obj_get m k = Some w ->
    (forall indent, validateExpression w = Ok tt -> returns (compileExpr w indent))
    /\ (forall l, w = JArr l -> forall x, x ∈ l ->
          forall indent, validateExpression x = Ok tt -> returns (compileExpr x indent))) as Hsub.
  { intros k w Hw. apply obj_get_In, list_elem_of_In in Hw. apply (IH _ Hw). }
  destruct (validateExpression_inv m Hv) as (Hall & Hany & Hnot & Hfield).
  cbn [compileExpr]. rewrite !on_key_get.
  destruct (obj_get m "all") as [w|] eqn:Ew.
  { apply compile_array_returns. intros l -> x Hx k ->. apply (proj2 (Hsub _ _ Ew) l eq_refl); auto.
    by eapply Hall. }
  destruct (obj_get m "any") as [w|] eqn:Ew'.
  { apply compile_array_returns. intros l -> x Hx k ->. apply (proj2 (Hsub _ _ Ew') l eq_refl); auto.
    by eapply Hany. }
  destruct (obj_get m "not") as [w|] eqn:Ew''; [|by apply compileLeaf_returns].
  unfold compileNot, done_, fail_. destruct w as [| | | | |k]; auto.
  destruct (proj1 (Hsub _ _ Ew'') 0) as [r ->]; [by apply Hnot|]. destruct r; auto.
Qed.

(** ** The text of logical operators *)

(** The lines of a text without indentation. *)
Definition lines (s : string) : list string :=
  map TrimSpace (split_char (ascii_of_N 10) s).

Definition lines_of (r : cres) : option (list string) :=
  match r with Ret (Ok s) => Some (lines s) | _ => None end.

(** A comparison of a field with a truth value. *)
Definition field_is (p : string) (b : bool) : jvalue := JObj [(p, JBool b)].
Definition is_text (p : string) (b : bool) : string :=
  fieldPathToRego p +:+ " == " +:+ (if b then "true" else "false").

Lemma obj_get_one (p k : string) (v : jvalue) : p <> k -> obj_get [(p, v)] k = None.
Proof. intros H. cbn. by rewrite bool_decide_eq_false_2. Qed.

Lemma compile_field_is p b indent :
  isFieldPath p = true -> compileExpr (field_is p b) indent = done_ (indentation indent +:+ is_text p b).
Proof.
  intros Hp. assert (p ∉ keywords) as Hk.
  { intros Hk. unfold isFieldPath in Hp. by rewrite bool_decide_eq_true_2 in Hp. }
  assert (forall k, k ∈ keywords -> obj_get [(p, JBool b)] k = None) as Hnone.
  { intros k Hin. apply obj_get_one. by intros ->. }
  unfold field_is. cbn [compileExpr]. rewrite !on_key_get. unfold compileLeaf.
  rewrite !Hnone by (unfold keywords; set_solver). cbn [first_path]. by rewrite Hp.
Qed.

Lemma all_chars_elem p s a : all_chars p s = true -> a ∈ bytes_of s -> p a = true.
Proof.
  induction s as [|b s IH]; cbn [all_chars bytes_of]; [set_solver|].
  intros [Hb Hs]%andb_true_iff [->|Ha]%elem_of_cons; auto.
Qed.

Lemma field_path_chars p a :
  isFieldPath p = true -> a ∈ bytes_of (fieldPathToRego p) ->
  is_letter a || is_digit a || bool_decide (a = "_"%char) || bool_decide (a = "."%char) = true.
Proof.
  intros Hp Ha. assert (a ∈ bytes_of "input." ++ bytes_of p) as Hin.
  { unfold fieldPathToRego in Ha. destruct (String.prefix "input." p); [set_solver|].
    by rewrite bytes_of_app in Ha. }
  apply elem_of_app in Hin as [Hin|Hin].
  - cbn [bytes_of] in Hin.
    repeat (apply elem_of_cons in Hin as [->|Hin]; [reflexivity|]). set_solver.
  - unfold isFieldPath in Hp. destruct (bool_decide _); [done|]. destruct p as [|b p]; [done|].
    apply andb_true_iff in Hp as [Hb Hp]. cbn [bytes_of] in Hin.
    apply elem_of_cons in Hin as [->|Hin]; [by rewrite Hb|]. apply (all_chars_elem _ _ _ Hp Hin).
Qed.

Lemma is_text_no_newline p b : isFieldPath p = true -> no_newline (is_text p b).
Proof.
  intros Hp. apply no_newline_app.
  - intros Ha. apply field_path_chars in Ha; [|done]. by vm_compute in Ha.
  - destruct b; by apply (bool_decide_unpack _).
Qed.

Lemma fieldPathToRego_head p : exists t, bytes_of (fieldPathToRego p) = "i"%char :: t.
Proof.
  unfold fieldPathToRego. destruct (String.prefix "input." p) eqn:Hp; [|by rewrite bytes_of_app; eexists].
  destruct p as [|a p]; [done|]. cbn [String.prefix] in Hp.
  destruct (ascii_dec "i" a) as [<-|]; [|done]. by eexists.
Qed.

Lemma is_text_edged p b : edged (bytes_of (is_text p b)).
Proof.
  unfold is_text. rewrite !bytes_of_app. apply edged_app.
  - destruct (fieldPathToRego_head p) as [t ->]. by exists "i"%char, t.
  - destruct b; vm_compute; eauto.
Qed.

Lemma indentation_spaces n : indentation n = of_bytes (replicate (4 * n) " "%char).
Proof.
  unfold indentation. induction n as [|n IH]; [done|].
  replace (4 * S n) with (S (S (S (S (4 * n))))) by lia. cbn [Repeat]. rewrite IH. done.
Qed.

Lemma indentation_no_newline n : no_newline (indentation n).
Proof.
  rewrite indentation_spaces. unfold no_newline. rewrite bytes_of_of.
  intros [H _]%elem_of_replicate. done.
Qed.

(** A line by itself, and a line before others. *)
Lemma lines_one n s :
  no_newline s -> edged (bytes_of s) -> lines (indentation n +:+ s) = [s].
Proof.
  intros Hs He. unfold lines. rewrite split_char_none.
  - cbn [map]. by rewrite indentation_spaces, TrimSpace_pad.
  - apply no_newline_app; [apply indentation_no_newline|done].
Qed.

Lemma lines_cons n s t :
  no_newline s -> edged (bytes_of s) -> lines (indentation n +:+ s +:+ nl +:+ t) = s :: lines t.
Proof.
  intros Hs He. unfold lines. rewrite <- str_app_assoc.
  change (nl +:+ t) with (String (ascii_of_N 10) t). rewrite split_char_app.
  - cbn [map]. by rewrite indentation_spaces, TrimSpace_pad.
  - apply no_newline_app; [apply indentation_no_newline|done].
Qed.

Lemma edged_wrap pre s suf :
  (exists a t, bytes_of pre = a :: t /\ graphic a = true) ->
  (exists b t, rev (bytes_of suf) = b :: t /\ graphic b = true) ->
  edged (bytes_of (pre +:+ s +:+ suf)).
Proof. rewrite !bytes_of_app. apply edged_app. Qed.

Lemma compile_pair (what : string) text p q a b n :
  isFieldPath p = true -> isFieldPath q = true ->
  compile_array (fun v => compileExpr v n) what text (JArr [field_is p a; field_is q b])
  = done_ (text [indentation n +:+ is_text p a; indentation n +:+ is_text q b]).
Proof.
  intros Hp Hq. unfold compile_array. cbn [compile_items field_is].
  by rewrite !(compile_field_is _ _ _ Hp), !(compile_field_is _ _ _ Hq).
Qed.

Lemma TrimSpace_indented n p a : TrimSpace (indentation n +:+ is_text p a) = is_text p a.
Proof. rewrite indentation_spaces. apply TrimSpace_pad, is_text_edged. Qed.

Definition parens (s : string) : string := "(" +:+ s +:+ ")".

Lemma parens_line p a :
  isFieldPath p = true ->
  no_newline (parens (is_text p a)) /\ edged (bytes_of (parens (is_text p a))).
Proof.
  intros Hp. unfold parens. split.
  - apply no_newline_app; [|apply no_newline_app];
      [by apply (bool_decide_unpack _)|by apply is_text_no_newline|by apply (bool_decide_unpack _)].
  - apply edged_wrap; by eexists _, _.
Qed.

Lemma not_line p a :
  isFieldPath p = true ->
  no_newline ("not " +:+ is_text p a) /\ edged (bytes_of ("not " +:+ is_text p a)).
Proof.
  intros Hp. split.
  - apply no_newline_app; [by apply (bool_decide_unpack _)|by apply is_text_no_newline].
  - apply edged_label; [by eexists _, _|apply is_text_edged].
Qed.

Definition any_comment : string := "# any: one of the following must be true".

(** C30: Whatever a validated expression contains, compiling it returns, with a text or with
    an error: the unchecked type assertion on [field] is never reached with another type. *)
Theorem compileExpr_never_panics (m : jobject) (indent : nat)
    (Hv : validateExpression (JObj m) = Ok tt) :
  exists r, compileExpr (JObj m) indent = Ret r.
Proof. by apply (proj1 (compileExpr_returns (JObj m))). Qed.

Lemma compile_all_object v n :
  compileExpr (JObj [("all", v)]) n = compileAll (fun v => compileExpr v n) v.
Proof. reflexivity. Qed.

Lemma compile_any_object v n :
  compileExpr (JObj [("any", v)]) n = compileAny (fun v => compileExpr v (S n)) v n.
Proof. reflexivity. Qed.

Lemma compile_not_object v n :
  compileExpr (JObj [("not", v)]) n = compileNot (fun v => compileExpr v 0) v n.
Proof. reflexivity. Qed.

#[local] Hint Resolve is_text_no_newline is_text_edged : core.

(** An [any] of two comparisons becomes the same two conditions as their [all], each on
    a line of its own, which a Rego rule body joins by conjunction; only a comment and
    parentheses differ. *)
Theorem any_compiles_to_conjunction (p q : string) (a b : bool)
    (Hp : isFieldPath p = true) (Hq : isFieldPath q = true) :
  lines_of (CompileExpression [("all", JArr [field_is p a; field_is q b])])
    = Some [is_text p a; is_text q b]
  /\ lines_of (CompileExpression [("any", JArr [field_is p a; field_is q b])])
    = Some [any_comment; parens (is_text p a); parens (is_text q b)].
Proof.
  destruct (parens_line p a Hp), (parens_line q b Hq). unfold CompileExpression. split.
  - rewrite compile_all_object. unfold compileAll. rewrite compile_pair by done.
    unfold done_, lines_of. f_equal. cbn [join].
    by rewrite str_app_assoc, lines_cons, lines_one by auto.
  - rewrite compile_any_object. unfold compileAny. rewrite compile_pair by done.
    unfold done_, lines_of, any_text. f_equal. cbn [map join]. rewrite !TrimSpace_indented.
    fold (parens (is_text p a)) (parens (is_text q b)) any_comment.
    rewrite lines_cons; [|by apply (bool_decide_unpack _)|by eexists _, _, _, _].
    by rewrite !str_app_assoc, lines_cons, lines_one.
Qed.

(** A [not] around an [all] of two comparisons compiles to the same lines as the [all]
    of the negated first and the unnegated second one: only the first line is negated. *)
Theorem not_negates_first_line_only (p q : string) (a b : bool)
    (Hp : isFieldPath p = true) (Hq : isFieldPath q = true) :
  lines_of (CompileExpression [("not", JObj [("all", JArr [field_is p a; field_is q b])])])
    = Some ["not " +:+ is_text p a; is_text q b]
  /\ lines_of (CompileExpression [("all", JArr [JObj [("not", field_is p a)]; field_is q b])])
    = Some ["not " +:+ is_text p a; is_text q b].
Proof.
  destruct (not_line p a Hp). unfold CompileExpression. split.
  - rewrite compile_not_object. unfold compileNot. rewrite compile_all_object. unfold compileAll.
    rewrite compile_pair by done. unfold done_, lines_of. f_equal. cbn [join].
    change (indentation 0) with "". rewrite !str_app_nil_l, TrimSpace_id.
    + rewrite <- (str_app_assoc "not "), lines_cons by done. f_equal. apply (lines_one 0); auto.
    + destruct (is_text_edged p a) as (x & _ & k & _ & Hx & _ & Hg & _).
      destruct (is_text_edged q b) as (_ & y & _ & k' & _ & Hy & _ & Hg').
      apply edged_wrap; eauto.
  - rewrite compile_all_object. unfold compileAll, compile_array. cbn [compile_items].
    rewrite compile_not_object. unfold compileNot. cbn [field_is]. fold (field_is p a).
    rewrite !(compile_field_is _ _ _ Hp), !(compile_field_is _ _ _ Hq). unfold done_, lines_of.
    cbn [join]. f_equal. change (indentation 0) with "". rewrite str_app_nil_l, TrimSpace_id by auto.
    by rewrite !str_app_assoc, <- (str_app_assoc "not "), lines_cons, lines_one by auto.
Qed.

End Expr.

(** ** Witnesses *)

(** A runtime on which every rune is printable and an overflowing conversion gives the
    smallest integer. *)
#[export] Instance sample_runtime : GoRuntime :=
  mkGoRuntime (fun _ => true) (fun _ => "?") (fun _ => min_int64).

(** [{"not": {"any": [{"field": "agent.id", "op": "in", "value": ["a"]}]}}] *)
Definition sample_expr : jobject :=
  [("not", JObj [("any", JArr [JObj [("field", JStr "agent.id"); ("op", JStr "in");
                                     ("value", JArr [JStr "a"])]])])].

Lemma compileExpr_never_panics_witness :
  validateExpression (JObj sample_expr) = Ok tt
  /\ exists r, compileExpr (JObj sample_expr) 1 = Ret r.
Proof.
  split; [reflexivity|]. apply (compileExpr_never_panics sample_expr 1). reflexivity.
Defined.

(** Without validation the compiler panics on a field that is no string. *)
Example unvalidated_field_panics :
  exists msg, compileExpr (JObj [("field", JNum (float_of_Z 3))]) 1 = Panic msg.
Proof. by eexists. Qed.

(** A field without an operator passes validation and does not compile. *)
Example valid_expression_fails :
  validateExpression (JObj [("field", JStr "agent.id")]) = Ok tt
  /\ compileExpr (JObj [("field", JStr "agent.id")]) 1
     = fail_ "'op' is required for field operations".
Proof. split; reflexivity. Qed.

Lemma any_compiles_to_conjunction_witness :
  lines_of (CompileExpression
    [("any", JArr [field_is "identity.verified" true; field_is "agent.trusted" true])])
  = Some [any_comment; "(input.identity.verified == true)"; "(input.agent.trusted == true)"].
Proof.
  destruct (any_compiles_to_conjunction "identity.verified" "agent.trusted" true true
              eq_refl eq_refl) as [_ H].
  rewrite H. reflexivity.
Defined.

Lemma not_negates_first_line_only_witness :
  lines_of (CompileExpression [("not", JObj [("all",
    JArr [field_is "identity.verified" true; field_is "agent.trusted" true])])])
  = Some ["not input.identity.verified == true"; "input.agent.trusted == true"].
Proof.
  destruct (not_negates_first_line_only "identity.verified" "agent.trusted" true true
              eq_refl eq_refl) as [H _].
  rewrite H. reflexivity.
Defined.

(** A number below half a millionth is compared as zero. *)
Example small_number_prints_as_zero :
  valueToRego (JNum (float_div (float_of_Z 1) (float_of_Z 10000000))) = "0.000000".
Proof. vm_compute. reflexivity. Qed.

(** The keys of [field_equals] are not checked: they reach the code as they are. *)
Example field_equals_key_is_code :
  CompileExpression [("field_equals", JObj [("agent.id" +:+ nl +:+ "}" +:+ nl +:+ "allow", JBool true)])]
  = done_ ("    input.agent.id" +:+ nl +:+ "}" +:+ nl +:+ "allow == true").
Proof. reflexivity. Qed.
