(* ===== verification/Compiler.v ===== *)
(** * The policy compiler

    Models src/internal/policy/compiler: templates.go, capability.go, blocklist.go,
    ratelimit.go, custom.go and compiler.go. A validated policy definition becomes one Rego
    module: a header, helper functions, and the rendered rules by type. Executing a parsed
    template into a buffer does not fail. OPA, which compiles the generated module as a
    last check, the time stamp and the iteration order of Go maps are members of
    [CompileEnv]. *)

From Stdlib Require Import ZArith Lia SpecFloat Ascii.
From stdpp Require Import base list sets strings numbers.
From S2P Require Import Prelude Json GoText CompilerTypes CompilerExpr.

(** ** Rule identifiers and placeholders *)

(** [sanitizeRuleID] after the replacement of hyphens: [started] says that the builder is
    not empty. Other characters, digits at the start included, are dropped. *)
Fixpoint keep_identifier (started : bool) (s : string) : string :=
  match s with
  | "" => ""
  | String a s =>
      if is_letter a || bool_decide (a = "_"%char) then String a (keep_identifier true s)
      else if started && is_digit a then String a (keep_identifier true s)
      else keep_identifier started s
  end.

Definition sanitizeRuleID (id : string) : string :=
  keep_identifier false (ReplaceAll id "-" "_").

(** [values] in iteration order. *)
Definition replacePlaceholders (template : string) (values : list (string * string)) : string :=
  foldl (fun result p => ReplaceAll result ("%{" +:+ p.1 +:+ "}") p.2) template values.

Record CompileResult : Type := mkCompileResult {
  Modules : list (string * string);
  Warnings : list string;
  Source : PolicyDefinition
}.

(** What a run of the compiler meets. [PrepareModules] is OPA compiling the modules, [None]
    when it succeeds. *)
Record CompileEnv : Type := mkCompileEnv {
  Timestamp : string;
  placeholder_order : string -> list (string * string) -> list (string * string);
  tools_order : list (string * list string) -> list (string * list string);
  PrepareModules : list (string * string) -> option string
}.

(** ** Lemmas on identifiers *)

(** Names that Rego accepts. *)
Definition ident_char (a : ascii) : bool := is_letter a || is_digit a || bool_decide (a = "_"%char).
Definition rego_ident (s : string) : bool :=
  match s with
  | "" => false
  | String a s => (is_letter a || bool_decide (a = "_"%char)) && all_chars ident_char s
  end.

(** Hyphens become underscores. *)
Fixpoint underscored (s : string) : string :=
  match s with
  | "" => ""
  | String a s => String (if bool_decide (a = "-"%char) then "_"%char else a) (underscored s)
  end.

Lemma ReplaceAll_hyphens s : ReplaceAll s "-" "_" = underscored s.
Proof.
  unfold ReplaceAll. induction s as [|a s IH]; [done|]. cbn [replace_go underscored String.prefix].
  destruct (ascii_dec "-" a) as [<-|Ha].
  - rewrite bool_decide_eq_true_2 by done. destruct s; cbn [String.length Nat.sub]; by rewrite IH.
  - rewrite bool_decide_eq_false_2 by done. by rewrite IH.
Qed.

Lemma keep_started s : all_chars ident_char (keep_identifier true s) = true.
Proof.
  induction s as [|a s IH]; [done|]. cbn [keep_identifier]. unfold ident_char in *.
  destruct (is_letter a || bool_decide (a = "_"%char)) eqn:Ha; cbn [all_chars andb].
  - rewrite IH. destruct (is_letter a), (is_digit a), (bool_decide (a = "_"%char)); done.
  - destruct (is_digit a) eqn:Hd; [|done]. cbn [all_chars]. rewrite IH, Hd.
    by destruct (is_letter a).
Qed.

Lemma keep_start s : keep_identifier false s = "" \/ rego_ident (keep_identifier false s) = true.
Proof.
  induction s as [|a s IH]; [by left|]. cbn [keep_identifier].
  destruct (is_letter a || bool_decide (a = "_"%char)) eqn:Ha; cbn [andb]; [|done].
  right. cbn [rego_ident]. by rewrite Ha, keep_started.
Qed.

Lemma keep_ident started s :
  all_chars ident_char s = true -> started = true -> keep_identifier started s = s.
Proof.
  intros Hs ->. induction s as [|a s IH]; [done|]. cbn [all_chars keep_identifier] in *.
  apply andb_true_iff in Hs as [Ha Hs]. rewrite IH by done. unfold ident_char in Ha.
  by destruct (is_letter a), (is_digit a), (bool_decide (a = "_"%char)).
Qed.

Lemma keep_rego_ident s : rego_ident s = true -> keep_identifier false s = s.
Proof.
  destruct s as [|a s]; [done|]. cbn [rego_ident keep_identifier]. intros [-> Hs]%andb_true_iff.
  by rewrite keep_ident.
Qed.

Lemma underscored_chars s :
  all_chars (fun a => is_letter a || is_digit a || bool_decide (a = "_"%char)
                      || bool_decide (a = "-"%char)) s = true ->
  all_chars ident_char (underscored s) = true.
Proof.
  induction s as [|a s IH]; [done|]. cbn [all_chars underscored]. intros [Ha Hs]%andb_true_iff.
  rewrite IH by done. rewrite andb_true_r. destruct (decide (a = "-"%char)) as [->|Hne]; [done|].
  rewrite (bool_decide_eq_false_2 (a = "-"%char)) in * by done. by rewrite orb_false_r in Ha.
Qed.

Lemma underscored_ident s : isValidIdentifier s = true -> rego_ident (underscored s) = true.
Proof.
  destruct s as [|a s]; [done|]. cbn [isValidIdentifier underscored rego_ident].
  intros [Ha Hs]%andb_true_iff. rewrite underscored_chars by done. rewrite andb_true_r.
  destruct (decide (a = "-"%char)) as [->|Hne]; [done|].
  rewrite bool_decide_eq_false_2 by done. by rewrite Ha.
Qed.

Lemma underscored_id s : all_chars ident_char s = true -> underscored s = s.
Proof.
  induction s as [|a s IH]; [done|]. cbn [all_chars underscored]. intros [Ha Hs]%andb_true_iff.
  rewrite IH by done. case_bool_decide as H; [|done]. subst. done.
Qed.

Lemma sanitize_valid id : isValidIdentifier id = true -> sanitizeRuleID id = underscored id.
Proof.
  intros H. unfold sanitizeRuleID. rewrite ReplaceAll_hyphens.
  by apply keep_rego_ident, underscored_ident.
Qed.

Lemma rego_ident_chars s : rego_ident s = true -> all_chars ident_char s = true.
Proof.
  destruct s as [|a s]; [done|]. cbn [rego_ident all_chars]. intros [Ha Hs]%andb_true_iff.
  rewrite Hs, andb_true_r. unfold ident_char.
  by destruct (is_letter a), (is_digit a), (bool_decide (a = "_"%char)).
Qed.

(** The sanitized form of any rule or policy identifier is empty or a name of the Rego
    grammar (letters, digits and underscores, no digit first); a valid identifier keeps every
    character, with underscores for hyphens, and sanitizing twice changes nothing more. *)
Theorem sanitizeRuleID_identifier (id : string) :
  (sanitizeRuleID id = "" \/ rego_ident (sanitizeRuleID id) = true)
  /\ (isValidIdentifier id = true ->
      rego_ident (sanitizeRuleID id) = true /\ sanitizeRuleID id = underscored id)
  /\ sanitizeRuleID (sanitizeRuleID id) = sanitizeRuleID id.
Proof.
  split_and!.
  - apply keep_start.
  - intros H. rewrite sanitize_valid by done. split; [by apply underscored_ident|done].
  - unfold sanitizeRuleID at 1. rewrite ReplaceAll_hyphens.
    destruct (keep_start (ReplaceAll id "-" "_")) as [He|Hr]; fold (sanitizeRuleID id) in *.
    + by rewrite He.
    + rewrite underscored_id by (by apply rego_ident_chars). by apply keep_rego_ident.
Qed.

(** Two valid identifiers get the same Rego name exactly when they differ at most in
    hyphens and underscores, which the validator's test for duplicates does not exclude. *)
Theorem sanitizeRuleID_collisions (x y : string)
    (Hx : isValidIdentifier x = true) (Hy : isValidIdentifier y = true) :
  sanitizeRuleID x = sanitizeRuleID y <-> underscored x = underscored y.
Proof. by rewrite !sanitize_valid. Qed.

Section Compiler.

Context `{RT : GoRuntime}.
Context (env : CompileEnv).

(** ** Templates *)

Definition RenderHeader (policyName description : string) : result string string :=
  Ok ("# Auto-generated from JSON policy: " +:+ policyName +:+ "
# Description: " +:+ description +:+ "
# Generated at: " +:+ Timestamp env +:+ "
# DO NOT EDIT - changes will be overwritten

package mcp.policy

import rego.v1
").

Definition RenderCapability (ruleID tool capability message : string) : result string string :=
  Ok ("
# Rule: " +:+ ruleID +:+ " (capability)
# Tool: " +:+ tool +:+ " requires capability: " +:+ capability +:+ "

" +:+ ruleID +:+ "_check if {
    input.request.tool == " +:+ quoteString tool +:+ "
    required := " +:+ quoteString capability +:+ "
    some cap in input.agent.capabilities
    capability_matches(cap, required)
}

violations[msg] if {
    input.request.tool == " +:+ quoteString tool +:+ "
    not " +:+ ruleID +:+ "_check
    msg := " +:+ quoteString message +:+ "
}
").

(** The [if]-chain of the template. *)
Definition match_path (matchType : string) : string :=
  if bool_decide (matchType = "tool") then "input.request.tool"
  else if bool_decide (matchType = "agent") then "input.agent.id"
  else "input.identity.did".

Definition RenderBlocklist (ruleID matchType : string) (values : list string) (message : string)
    : result string string :=
  Ok ("
# Rule: " +:+ ruleID +:+ " (blocklist)
# Blocks " +:+ matchType +:+ ": " +:+ format_strings values +:+ "

" +:+ ruleID +:+ "_blocked if {
    " +:+ match_path matchType +:+ " in " +:+ quoteSlice values +:+ "
}

blocked if {
    " +:+ ruleID +:+ "_blocked
}

violations[msg] if {
    " +:+ ruleID +:+ "_blocked
    msg := " +:+ quoteString message +:+ "
}
").

(** The agents a limit applies to: a pattern wins over an identifier. *)
Definition agent_condition (agentID agentPattern : string) : string :=
  if bool_decide (agentPattern <> "")
  then "regex.match(" +:+ quoteString agentPattern +:+ ", input.agent.id)"
  else if bool_decide (agentID <> "") then "input.agent.id == " +:+ quoteString agentID
  else "true".

Definition RenderRateLimit (ruleID agentID agentPattern : string) (limit : Z)
    (window message : string) : result string string :=
  Ok ("
# Rule: " +:+ ruleID +:+ " (rate_limit)
# Limit: " +:+ itoa limit +:+ " per " +:+ window +:+ "

" +:+ ruleID +:+ "_exceeded if {
    " +:+ agent_condition agentID agentPattern +:+ "
    input.session.request_count >= " +:+ itoa limit +:+ "
}

rate_limit_ok if {
    not " +:+ ruleID +:+ "_exceeded
}

violations[msg] if {
    " +:+ ruleID +:+ "_exceeded
    msg := " +:+ quoteString message +:+ "
}
").

Definition RenderCustom (ruleID description conditions action message : string)
    : result string string :=
  Ok ("
# Rule: " +:+ ruleID +:+ " (custom)
# " +:+ description +:+ "

" +:+ ruleID +:+ "_match if {
" +:+ conditions +:+ "
}

" +:+ (if bool_decide (action = ActionDeny) then "
violations[msg] if {
    " +:+ ruleID +:+ "_match
    msg := " +:+ quoteString message +:+ "
}
" else "
allow if {
    " +:+ ruleID +:+ "_match
}
") +:+ "
").

Definition helperFunctions : string := "
# Helper: Check if granted capability matches required capability
capability_matches(granted, required) if {
    granted == required
}

capability_matches(granted, required) if {
    granted == " +:+ dq +:+ "*" +:+ dq +:+ "
}

capability_matches(granted, required) if {
    endswith(granted, " +:+ dq +:+ ":*" +:+ dq +:+ ")
    prefix := trim_suffix(granted, " +:+ dq +:+ "*" +:+ dq +:+ ")
    startswith(required, prefix)
}

# Default rules (can be overridden by policy rules)
default capability_check := true
default blocked := false
default rate_limit_ok := true
".

(** ** One rule of each type *)

Definition or_default (s d : string) : string := if bool_decide (s = "") then d else s.

Definition capability_values (tool capability : string) : list (string * string) :=
  [("agent.id", "' + input.agent.id + '"); ("tool", tool); ("required", capability)].

Definition compileCapability (r : RuleDefinition) : result string string :=
  match obj_get (Conditions r) "tool" with
  | Some (JStr tool) =>
      match obj_get (Conditions r) "requires_capability" with
      | Some (JStr capability) =>
          let message :=
            or_default (Message r)
              ("Agent '%s' lacks capability '" +:+ capability +:+ "' for tool '" +:+ tool +:+ "'") in
          let message :=
            replacePlaceholders message
              (placeholder_order env (RuleID r) (capability_values tool capability)) in
          wrap_err ("rule " +:+ RuleID r)
            (RenderCapability (sanitizeRuleID (RuleID r)) tool capability message)
      | _ => Err ("rule " +:+ RuleID r +:+ ": 'requires_capability' must be a string")
      end
  | _ => Err ("rule " +:+ RuleID r +:+ ": 'tool' must be a string")
  end.

Definition compileBlocklist (r : RuleDefinition) : result string string :=
  match obj_get (Conditions r) "match_type" with
  | Some (JStr matchType) =>
      match obj_get (Conditions r) "values" with
      | Some raw =>
          values ← wrap_err ("rule " +:+ RuleID r) (toStringSlice raw);
          wrap_err ("rule " +:+ RuleID r)
            (RenderBlocklist (sanitizeRuleID (RuleID r)) matchType values
               (or_default (Message r) (matchType +:+ " is blocked by policy")))
      | None => Err ("rule " +:+ RuleID r +:+ ": 'values' is required")
      end
  | _ => Err ("rule " +:+ RuleID r +:+ ": 'match_type' must be a string")
  end.

(** [toInt]; the nil of a missing member is not a number. *)
Definition toInt (v : option jvalue) : result string Z :=
  match v with
  | Some (JNum f) => Ok (int64_of_float f)
  | _ => Err "'limit' must be a number"
  end.

(** [m[k].(string)], the empty string when that fails. *)
Definition string_member (m : jobject) (k : string) : string :=
  match obj_get m k with Some (JStr s) => s | _ => "" end.

Definition compileRateLimit (r : RuleDefinition) : result string string :=
  limit ← wrap_err ("rule " +:+ RuleID r) (toInt (obj_get (Conditions r) "limit"));
  let window :=
    match obj_get (Conditions r) "window" with Some (JStr w) => w | _ => "session" end in
  wrap_err ("rule " +:+ RuleID r)
    (RenderRateLimit (sanitizeRuleID (RuleID r)) (string_member (Conditions r) "agent_id")
       (string_member (Conditions r) "agent_pattern") limit window
       (or_default (Message r)
          ("Rate limit exceeded (" +:+ itoa limit +:+ " per " +:+ window +:+ ")"))).

Definition compileCustom (r : RuleDefinition) : outcome (result string string) :=
  match CompileExpression (Conditions r) with
  | Panic msg => Panic msg
  | Ret conds =>
      Ret (conditions ← wrap_err ("rule " +:+ RuleID r) conds;
           wrap_err ("rule " +:+ RuleID r)
             (RenderCustom (sanitizeRuleID (RuleID r))
                (match Conditions r with
                 | [] => ""
                 | m => "Conditions: " +:+ format_v (JObj m)
                 end)
                conditions (RuleAction r)
                (or_default (Message r)
                   ("Custom policy rule '" +:+ RuleID r +:+ "' matched"))))
  end.

(** ** The loops over rules *)

(** A loop that skips disabled rules, appends what each rule renders to and a line break,
    and returns at the first error. *)
Fixpoint compile_rules (one : RuleDefinition -> outcome (result string string))
    (rules : list RuleDefinition) (builder : string) : outcome (result string string) :=
  match rules with
  | [] => Ret (Ok builder)
  | r :: rules =>
      if negb (IsEnabled r) then compile_rules one rules builder
      else
        match one r with
        | Ret (Ok rendered) => compile_rules one rules (builder +:+ rendered +:+ nl)
        | res => res
        end
  end.

Definition no_warnings (r : outcome (result string string))
    : outcome (result string (string * list string)) :=
  match r with
  | Ret (Ok s) => Ret (Ok (s, []))
  | Ret (Err e) => Ret (Err e)
  | Panic msg => Panic msg
  end.

Definition CompileCapabilityRules (rules : list RuleDefinition) (policyName : string)
    : outcome (result string (string * list string)) :=
  no_warnings (compile_rules (fun r => Ret (compileCapability r)) rules "").

Definition CompileBlocklistRules (rules : list RuleDefinition) (policyName : string)
    : outcome (result string (string * list string)) :=
  no_warnings (compile_rules (fun r => Ret (compileBlocklist r)) rules "").

Definition CompileRateLimitRules (rules : list RuleDefinition) (policyName : string)
    (defaultLimit : Z) : outcome (result string (string * list string)) :=
  no_warnings (compile_rules (fun r => Ret (compileRateLimit r)) rules "").

Definition CompileCustomRules (rules : list RuleDefinition) (policyName : string)
    : outcome (result string (string * list string)) :=
  no_warnings (compile_rules compileCustom rules "").

(** ** Compile *)

(** The enabled rules of each type, in order; a type without rules has no entry. *)
Fixpoint group_rules (rules : list RuleDefinition)
    (grouped : list (string * list RuleDefinition)) : list (string * list RuleDefinition) :=
  match rules with
  | [] => grouped
  | r :: rules =>
      if IsEnabled r
      then group_rules rules
             (obj_set grouped (RuleKind r) (default [] (obj_get grouped (RuleKind r)) ++ [r]))
      else group_rules rules grouped
  end.

Definition groupRulesByType (rules : list RuleDefinition)
    : list (string * list RuleDefinition) := group_rules rules [].

(** One of the four blocks of [Compile]: nothing for a type that has no rules. *)
Definition compile_group (what kind : string)
    (f : list RuleDefinition -> outcome (result string (string * list string)))
    (grouped : list (string * list RuleDefinition)) (acc : string * list string)
    : outcome (result string (string * list string)) :=
  match obj_get grouped kind with
  | None => Ret (Ok acc)
  | Some rules =>
      match f rules with
      | Panic msg => Panic msg
      | Ret (Err e) => Ret (Err ("compile " +:+ what +:+ " rules: " +:+ e))
      | Ret (Ok (content, warnings)) => Ret (Ok (acc.1 +:+ content, acc.2 ++ warnings))
      end
  end.

Definition and_then {A B} (r : outcome (result string A))
    (f : A -> outcome (result string B)) : outcome (result string B) :=
  match r with
  | Panic msg => Panic msg
  | Ret (Err e) => Ret (Err e)
  | Ret (Ok a) => f a
  end.

(** [validateGeneratedRego]: the error names the first module in iteration order. *)
Definition validateGeneratedRego (modules : list (string * string)) : result string unit :=
  match PrepareModules env modules with
  | None => Ok tt
  | Some err =>
      match modules with
      | [] => Err err
      | (name, content) :: _ =>
          Err ("module " +:+ name +:+ ": " +:+ err +:+ nl +:+ nl +:+ "Generated Rego:" +:+ nl
               +:+ content)
      end
  end.

Definition default_limit (d : DefaultsConfig) : Z :=
  if (RateLimit d =? 0)%Z then 1000%Z else RateLimit d.

(** The text of the module and the warnings of the four types. *)
Definition compile_module (def : PolicyDefinition)
    : outcome (result string (string * list string)) :=
  let grouped := groupRulesByType (Rules def) in
  and_then
    (Ret (header ← wrap_err "render header" (RenderHeader (PolicyName def) (Description def));
          Ok (header +:+ helperFunctions, ValidateWarnings (tools_order env) def)))
    (fun acc =>
  and_then (compile_group "capability" RuleTypeCapability
              (fun rs => CompileCapabilityRules rs (PolicyName def)) grouped acc) (fun acc =>
  and_then (compile_group "blocklist" RuleTypeBlocklist
              (fun rs => CompileBlocklistRules rs (PolicyName def)) grouped acc) (fun acc =>
  and_then (compile_group "rate limit" RuleTypeRateLimit
              (fun rs => CompileRateLimitRules rs (PolicyName def) (default_limit (Defaults def)))
              grouped acc) (fun acc =>
  compile_group "custom" RuleTypeCustom (fun rs => CompileCustomRules rs (PolicyName def))
    grouped acc)))).

Definition module_name (name : string) : string := "json_" +:+ sanitizeRuleID name +:+ ".rego".

(** [Compile]; [v] is the compiler's validator. *)
Definition Compile (def : PolicyDefinition) (v : Validator)
    : Validator * outcome (result string CompileResult) :=
  match Validate def v with
  | (v, Err e) => (v, Ret (Err ("validation failed: " +:+ e)))
  | (v, Ok _) =>
      (v, and_then (compile_module def) (fun acc =>
            let modules := [(module_name (PolicyName def), acc.1)] in
            match wrap_err "generated Rego validation failed" (validateGeneratedRego modules) with
            | Err e => Ret (Err e)
            | Ok _ => Ret (Ok (mkCompileResult modules acc.2 def))
            end))
  end.

(** ** The module as a function of the enabled rules *)

Definition selected (kind : string) (rules : list RuleDefinition) : list RuleDefinition :=
  filter (fun r => IsEnabled r = true /\ RuleKind r = kind) rules.

Definition texts (one : RuleDefinition -> outcome (result string string))
    (rules : list RuleDefinition) : string :=
  foldr (fun r s => match one r with Ret (Ok t) => t +:+ nl +:+ s | _ => s end) "" rules.

(** The module a definition compiles to when nothing fails. *)
Definition module_text (def : PolicyDefinition) : string :=
  match RenderHeader (PolicyName def) (Description def) with Ok h => h | Err _ => "" end
  +:+ helperFunctions
  +:+ texts (fun r => Ret (compileCapability r)) (selected RuleTypeCapability (Rules def))
  +:+ texts (fun r => Ret (compileBlocklist r)) (selected RuleTypeBlocklist (Rules def))
  +:+ texts (fun r => Ret (compileRateLimit r)) (selected RuleTypeRateLimit (Rules def))
  +:+ texts compileCustom (selected RuleTypeCustom (Rules def)).

Lemma group_rules_get rules grouped k :
  obj_get (group_rules rules grouped) k =
  match selected k rules with
  | [] => obj_get grouped k
  | l => Some (default [] (obj_get grouped k) ++ l)
  end.
Proof.
  unfold selected. revert grouped. induction rules as [|r rules IH]; intros grouped; [done|].
  cbn [group_rules]. rewrite filter_cons. destruct (IsEnabled r) eqn:He.
  - rewrite IH. destruct (decide (RuleKind r = k)) as [Hk|Hk].
    + rewrite decide_True by done. rewrite Hk, obj_get_set_eq. cbn [default id].
      destruct (filter _ rules); [done|]. by rewrite <- app_assoc.
    + rewrite decide_False by naive_solver. by rewrite obj_get_set_ne.
  - rewrite decide_False by naive_solver. apply IH.
Qed.

Lemma groupRulesByType_get rules k :
  obj_get (groupRulesByType rules) k =
  match selected k rules with [] => None | l => Some l end.
Proof. unfold groupRulesByType. rewrite group_rules_get. by destruct (selected k rules). Qed.

Lemma selected_elem k rules r :
  r ∈ selected k rules <-> r ∈ rules /\ IsEnabled r = true /\ RuleKind r = k.
Proof. unfold selected. rewrite list_elem_of_filter. tauto. Qed.

Definition compiles (one : RuleDefinition -> outcome (result string string))
    (r : RuleDefinition) : Prop := exists t, one r = Ret (Ok t).

Lemma compile_rules_ok one rules b :
  Forall (fun r => IsEnabled r = true /\ compiles one r) rules ->
  compile_rules one rules b = Ret (Ok (b +:+ texts one rules)).
Proof.
  intros Hall. revert b. induction Hall as [|r rules [He [t Ht]] _ IH]; intros b.
  - cbn. by rewrite str_app_nil_r.
  - cbn [compile_rules texts foldr]. rewrite He, Ht. cbn [negb].
    by rewrite IH, !str_app_assoc.
Qed.

(** An error of a loop is the error of one of the rules. *)
Lemma compile_rules_err one rules b e :
  compile_rules one rules b = Ret (Err e) ->
  exists r, r ∈ rules /\ IsEnabled r = true /\ one r = Ret (Err e).
Proof.
  revert b. induction rules as [|r rules IH]; intros b; cbn [compile_rules]; [done|].
  destruct (IsEnabled r) eqn:He; cbn [negb].
  - destruct (one r) as [[t|e']|msg] eqn:Ho; [|intros [= ->]|done].
    + intros (x & Hx & ?)%IH. exists x. set_solver.
    + exists r. set_solver.
  - intros (x & Hx & ?)%IH. exists x. set_solver.
Qed.

Lemma compile_group_ok what kind one f rules acc :
  (forall rs, f rs = no_warnings (compile_rules one rs "")) ->
  Forall (compiles one) (selected kind rules) ->
  compile_group what kind f (groupRulesByType rules) acc
  = Ret (Ok (acc.1 +:+ texts one (selected kind rules), acc.2)).
Proof.
  intros Hf Hall. unfold compile_group. rewrite groupRulesByType_get.
  destruct (selected kind rules) as [|r rs] eqn:Hs.
  { cbn. rewrite str_app_nil_r. by destruct acc. }
  rewrite Hf, compile_rules_ok.
  - cbn [no_warnings]. by rewrite str_app_nil_l, app_nil_r.
  - rewrite list.Forall_forall in Hall |- *. intros x Hx. split; [|auto].
    rewrite <- Hs in Hx. by apply selected_elem in Hx as (_ & ? & _).
Qed.

(** ** Validated rules of the declarative types compile *)

Lemma strings_from_map i l : strings_from i (map JStr l) = Ok l.
Proof.
  revert i. induction l as [|s l IH]; intros i; cbn [map strings_from]; [done|].
  by rewrite IH.
Qed.

Lemma wf_capability_compiles r :
  wf_rule r -> RuleKind r = RuleTypeCapability -> compiles (fun r => Ret (compileCapability r)) r.
Proof.
  intros [_ Hw] Hk. rewrite Hk in Hw. inversion Hw as [m tool cap Ht Hc| | |]; subst.
  unfold compiles, compileCapability. rewrite Ht, Hc. by eexists.
Qed.

Lemma wf_blocklist_compiles r :
  wf_rule r -> RuleKind r = RuleTypeBlocklist -> compiles (fun r => Ret (compileBlocklist r)) r.
Proof.
  intros [_ Hw] Hk. rewrite Hk in Hw. inversion Hw as [|m mt values Hm _ Hv _| |]; subst.
  unfold compiles, compileBlocklist. rewrite Hm, Hv. cbn [toStringSlice].
  rewrite strings_from_map. by eexists.
Qed.

Lemma wf_rate_limit_compiles r :
  wf_rule r -> RuleKind r = RuleTypeRateLimit -> compiles (fun r => Ret (compileRateLimit r)) r.
Proof.
  intros [_ Hw] Hk. rewrite Hk in Hw. inversion Hw as [| |m f Hf _ _|]; subst.
  unfold compiles, compileRateLimit. rewrite Hf. by eexists.
Qed.

(** A validated custom rule never panics. *)
Lemma wf_custom_returns r :
  wf_rule r -> RuleKind r = RuleTypeCustom -> exists res, compileCustom r = Ret res.
Proof.
  intros [_ Hw] Hk. rewrite Hk in Hw. inversion Hw as [| | |m Hne He]; subst.
  unfold compileCustom, CompileExpression.
  apply validateExpression_wf in He.
  destruct (proj1 (compileExpr_returns (JObj (Conditions r))) 1 He) as [res ->]. by eexists.
Qed.

Lemma selected_forall (P : RuleDefinition -> Prop) kind rules :
  (forall r, wf_rule r -> RuleKind r = kind -> P r) -> Forall wf_rule rules ->
  Forall P (selected kind rules).
Proof.
  intros HP Hw. rewrite list.Forall_forall in Hw |- *.
  intros r (Hr & _ & Hk)%selected_elem. auto.
Qed.

(** Up to the custom rules nothing fails. *)
Lemma compile_module_custom def :
  Forall wf_rule (Rules def) ->
  exists pre,
    compile_module def
    = compile_group "custom" RuleTypeCustom (fun rs => CompileCustomRules rs (PolicyName def))
        (groupRulesByType (Rules def)) (pre, ValidateWarnings (tools_order env) def)
    /\ module_text def = pre +:+ texts compileCustom (selected RuleTypeCustom (Rules def)).
Proof.
  intros Hw. unfold compile_module.
  pose proof (selected_forall _ _ _ wf_capability_compiles Hw) as H1.
  pose proof (selected_forall _ _ _ wf_blocklist_compiles Hw) as H2.
  pose proof (selected_forall _ _ _ wf_rate_limit_compiles Hw) as H3.
  cbn [RenderHeader wrap_err mbind result_bind and_then].
  rewrite (compile_group_ok "capability" _ (fun r => Ret (compileCapability r))) by done.
  cbn [and_then fst snd].
  rewrite (compile_group_ok "blocklist" _ (fun r => Ret (compileBlocklist r))) by done.
  cbn [and_then fst snd].
  rewrite (compile_group_ok "rate limit" _ (fun r => Ret (compileRateLimit r))) by done.
  cbn [and_then fst snd]. eexists. split; [reflexivity|].
  unfold module_text, RenderHeader. by rewrite !str_app_assoc.
Qed.

Lemma compile_module_ok def :
  Forall wf_rule (Rules def) ->
  Forall (compiles compileCustom) (selected RuleTypeCustom (Rules def)) ->
  compile_module def = Ret (Ok (module_text def, ValidateWarnings (tools_order env) def)).
Proof.
  intros Hw Hc. destruct (compile_module_custom def Hw) as (pre & -> & ->).
  by rewrite (compile_group_ok "custom" _ compileCustom).
Qed.

Lemma compile_rules_returns one rules b :
  (forall r, r ∈ rules -> exists res, one r = Ret res) ->
  exists res, compile_rules one rules b = Ret res.
Proof.
  revert b. induction rules as [|r rules IH]; intros b Hone; cbn [compile_rules]; [by eexists|].
  destruct (negb (IsEnabled r)); [apply IH; set_solver|].
  destruct (Hone r ltac:(set_solver)) as [[t|e] ->]; [|by eexists]. apply IH. set_solver.
Qed.

Lemma compile_rules_all one rules b t :
  compile_rules one rules b = Ret (Ok t) ->
  forall r, r ∈ rules -> IsEnabled r = true -> compiles one r.
Proof.
  revert b. induction rules as [|x rules IH]; intros b H r Hin He; [set_solver|].
  cbn [compile_rules] in H. apply elem_of_cons in Hin as [<-|Hin].
  - rewrite He in H. cbn [negb] in H. unfold compiles.
    destruct (one r) as [[]|]; [by eexists|done..].
  - destruct (negb (IsEnabled x)); [by eapply IH|].
    destruct (one x) as [[]|]; [by eapply IH|done..].
Qed.

Lemma compile_module_err def :
  Forall wf_rule (Rules def) ->
  ~ Forall (compiles compileCustom) (selected RuleTypeCustom (Rules def)) ->
  exists r e, r ∈ selected RuleTypeCustom (Rules def) /\ compileCustom r = Ret (Err e)
    /\ compile_module def = Ret (Err ("compile custom rules: " +:+ e)).
Proof.
  intros Hw Hc. destruct (compile_module_custom def Hw) as (pre & -> & _).
  pose proof (selected_forall _ _ _ wf_custom_returns Hw) as Hret.
  unfold compile_group. rewrite groupRulesByType_get.
  destruct (selected RuleTypeCustom (Rules def)) as [|r0 rs] eqn:Hs; [by destruct Hc|].
  rewrite <- Hs in *. unfold CompileCustomRules.
  rewrite list.Forall_forall in Hret.
  destruct (compile_rules_returns compileCustom (selected RuleTypeCustom (Rules def)) "")
    as [[t|e] Hr]; [auto|..]; rewrite Hr; cbn [no_warnings].
  - exfalso. apply Hc, list.Forall_forall. intros r Hin.
    apply (compile_rules_all _ _ _ _ Hr r Hin). by apply selected_elem in Hin as (_ & ? & _).
  - apply compile_rules_err in Hr as (r & Hin & _ & Ho). eauto.
Qed.

#[local] Instance compiles_dec one r : Decision (compiles one r).
Proof.
  unfold compiles. destruct (one r) as [[t|e]|msg]; [left; by exists t|right; by intros [? ?]..].
Defined.

Lemma Compile_ok_iff (def : PolicyDefinition) (v : Validator) (res : CompileResult) :
  (Compile def v).2 = Ret (Ok res) <->
  (Validate def v).2 = Ok tt
  /\ Forall (compiles compileCustom) (selected RuleTypeCustom (Rules def))
  /\ PrepareModules env [(module_name (PolicyName def), module_text def)] = None
  /\ res = mkCompileResult [(module_name (PolicyName def), module_text def)]
             (ValidateWarnings (tools_order env) def) def.
Proof.
  unfold Compile. pose proof (Validate_ok_iff def v) as Hv.
  destruct (Validate def v) as [v' [[]|e]]; cbn [fst snd] in *; [|naive_solver].
  destruct (proj1 Hv eq_refl) as (_ & _ & _ & _ & Hw).
  destruct (decide (Forall (compiles compileCustom) (selected RuleTypeCustom (Rules def)))) as [Hc|Hc].
  - rewrite compile_module_ok by done. cbn [and_then fst snd]. unfold validateGeneratedRego.
    destruct (PrepareModules env _); cbn [wrap_err]; naive_solver.
  - destruct (compile_module_err def Hw Hc) as (r & e & _ & _ & ->). naive_solver.
Qed.

(** C16: Compiling succeeds exactly when the definition is valid, every enabled custom rule
    compiles and OPA accepts the module; the result is then one module made of the header,
    the helpers and the text of each enabled rule, by type and in order, under the sanitized
    name of the policy. *)
Theorem Compile_succeeds_iff (def : PolicyDefinition) (v : Validator) (res : CompileResult) :
  (Compile def v).2 = Ret (Ok res) <->
  (Validate def v).2 = Ok tt
  /\ Forall (compiles compileCustom) (selected RuleTypeCustom (Rules def))
  /\ PrepareModules env [(module_name (PolicyName def), module_text def)] = None
  /\ res = mkCompileResult [(module_name (PolicyName def), module_text def)]
             (ValidateWarnings (tools_order env) def) def.
Proof. apply Compile_ok_iff. Qed.

(** No policy definition makes the compiler panic, and when it reports an error the
    definition is invalid, an enabled custom rule does not compile, or OPA rejects the
    generated module: valid capability, blocklist and rate limit rules never fail. *)
Theorem Compile_errors (def : PolicyDefinition) (v : Validator) :
  match (Compile def v).2 with
  | Panic _ => False
  | Ret (Ok _) => True
  | Ret (Err e) =>
      (Validate def v).2 <> Ok tt
      \/ (exists r e', r ∈ selected RuleTypeCustom (Rules def) /\ compileCustom r = Ret (Err e')
                       /\ e = "compile custom rules: " +:+ e')
      \/ PrepareModules env [(module_name (PolicyName def), module_text def)] <> None
  end.
Proof.
  unfold Compile. pose proof (Validate_ok_iff def v) as Hv.
  destruct (Validate def v) as [v' [[]|e]]; cbn [fst snd] in *; [|by left].
  destruct (proj1 Hv eq_refl) as (_ & _ & _ & _ & Hw).
  destruct (decide (Forall (compiles compileCustom) (selected RuleTypeCustom (Rules def)))) as [Hc|Hc].
  - rewrite compile_module_ok by done. cbn [and_then fst snd]. unfold validateGeneratedRego.
    destruct (PrepareModules env _); cbn [wrap_err]; [by right; right|done].
  - destruct (compile_module_err def Hw Hc) as (r & e & ? & ? & ->). right. left. eauto.
Qed.

(** The definition without its disabled rules. *)
Definition without_disabled (def : PolicyDefinition) : PolicyDefinition :=
  mkPolicy (Schema def) (Version def) (PolicyName def) (Description def)
    (filter (fun r => IsEnabled r = true) (Rules def)) (Defaults def).

Lemma selected_without_disabled kind rules :
  selected kind (filter (fun r => IsEnabled r = true) rules) = selected kind rules.
Proof.
  unfold selected. rewrite list.list_filter_filter. apply list.list_filter_iff. tauto.
Qed.

Lemma module_text_without_disabled def : module_text (without_disabled def) = module_text def.
Proof.
  unfold module_text. cbn [without_disabled Rules PolicyName Description].
  by rewrite !selected_without_disabled.
Qed.

Lemma NoDup_map_filter {A B} (f : A -> B) (P : A -> Prop) `{!forall x, Decision (P x)} l :
  NoDup (map f l) -> NoDup (map f (filter P l)).
Proof.
  induction l as [|x l IH]; [done|]. cbn [map]. rewrite filter_cons, list.NoDup_cons.
  intros [Hx Hl]. destruct (decide (P x)); [|auto]. cbn [map]. apply list.NoDup_cons. split; [|auto].
  intros (y & Hy & Hin)%list_elem_of_fmap. apply Hx. rewrite Hy.
  apply list_elem_of_fmap_2. by apply list_elem_of_filter in Hin as [_ ?].
Qed.

Lemma Validate_without_disabled def v :
  (Validate def v).2 = Ok tt -> Rules (without_disabled def) <> [] ->
  (Validate (without_disabled def) v).2 = Ok tt.
Proof.
  rewrite !Validate_ok_iff. intros (H1 & H2 & _ & H4 & H5) Hne. split_and!; [done..| |].
  - cbn [without_disabled Rules]. by apply NoDup_map_filter.
  - rewrite list.Forall_forall in H5 |- *. intros r [_ Hr]%list_elem_of_filter. auto.
Qed.

(** Disabled rules leave no trace: without them a policy that compiles still does, to
    the same module, as long as an enabled rule is left. *)
Theorem disabled_rules_ignored (def : PolicyDefinition) (v : Validator) (res : CompileResult)
    (Hres : (Compile def v).2 = Ret (Ok res)) (Hne : Rules (without_disabled def) <> []) :
  exists res', (Compile (without_disabled def) v).2 = Ret (Ok res') /\ Modules res' = Modules res.
Proof.
  apply Compile_ok_iff in Hres as (Hv & Hc & Hp & ->).
  eexists. split; [apply Compile_ok_iff; split_and!; [|..|reflexivity]|].
  - by apply Validate_without_disabled.
  - cbn [without_disabled Rules]. by rewrite selected_without_disabled.
  - by rewrite module_text_without_disabled.
  - cbn [Modules]. by rewrite module_text_without_disabled.
Qed.

(** ** Data of a policy stays inside literals and comments *)

(** The lines of a module that are neither empty nor comments. *)
Definition is_code (line : string) : bool :=
  negb (bool_decide (line = "")) && negb (String.prefix "#" line).
Definition code_lines (s : string) : list string :=
  filter (fun l => is_code l = true) (split_char (ascii_of_N 10) s).

Lemma code_lines_join ls :
  ls <> [] -> Forall no_newline ls ->
  code_lines (join nl ls) = filter (fun l => is_code l = true) ls.
Proof. intros Hne Hls. unfold code_lines, nl. by rewrite split_join. Qed.

Lemma ident_char_code a : ident_char a = true -> a <> "#"%char /\ a <> ascii_of_N 10.
Proof. intros H. split; intros ->; done. Qed.

Lemma all_chars_no_newline s : all_chars ident_char s = true -> no_newline s.
Proof. intros Hs Ha. apply (all_chars_elem _ _ _ Hs), ident_char_code in Ha. naive_solver. Qed.

Lemma rego_ident_no_newline s : rego_ident s = true -> no_newline s.
Proof. intros H. by apply all_chars_no_newline, rego_ident_chars. Qed.

Lemma rego_ident_is_code s t : rego_ident s = true -> is_code (s +:+ t) = true.
Proof.
  intros H. apply rego_ident_chars in H as Hc. destruct s as [|a s]; [done|].
  apply andb_true_iff in Hc as [[Ha _]%ident_char_code _]. rewrite str_app_cons. unfold is_code.
  rewrite bool_decide_eq_false_2 by done. cbn [String.prefix].
  destruct (ascii_dec "#" a); [congruence|done].
Qed.

(** Line by line: no line break in any part. *)
Ltac no_breaks :=
  repeat match goal with
         | |- Forall _ (_ :: _) => constructor
         | |- Forall _ [] => constructor
         | |- no_newline (_ +:+ _) => apply no_newline_app
         | |- no_newline _ => first [assumption | apply no_newline_quote | apply no_newline_itoa
                                    | by auto
                                    | by apply rego_ident_no_newline
                                    | by apply (bool_decide_unpack _)]
         end.

Ltac code_filter Hid :=
  repeat (rewrite list.filter_cons;
          first [rewrite (decide_True (P := is_code _ = true)) by reflexivity
                |rewrite (decide_False (P := is_code _ = true)) by (intros ?; discriminate)
                |rewrite (decide_True (P := is_code _ = true)) by (by apply rego_ident_is_code)]);
  rewrite ?list.filter_nil.

Lemma RenderCapability_code id tool cap msg t :
  rego_ident id = true -> no_newline tool -> no_newline cap ->
  RenderCapability id tool cap msg = Ok t ->
  code_lines t =
  [id +:+ "_check if {";
   "    input.request.tool == " +:+ quote tool;
   "    required := " +:+ quote cap;
   "    some cap in input.agent.capabilities";
   "    capability_matches(cap, required)";
   "}";
   "violations[msg] if {";
   "    input.request.tool == " +:+ quote tool;
   "    not " +:+ id +:+ "_check";
   "    msg := " +:+ quote msg;
   "}"].
Proof.
  intros Hid Htool Hcap [= <-].
  transitivity (code_lines (join nl
    [""; "# Rule: " +:+ id +:+ " (capability)";
     "# Tool: " +:+ tool +:+ " requires capability: " +:+ cap; "";
     id +:+ "_check if {"; "    input.request.tool == " +:+ quote tool;
     "    required := " +:+ quote cap; "    some cap in input.agent.capabilities";
     "    capability_matches(cap, required)"; "}"; ""; "violations[msg] if {";
     "    input.request.tool == " +:+ quote tool; "    not " +:+ id +:+ "_check";
     "    msg := " +:+ quote msg; "}"; ""])).
  - f_equal. cbn [join]. rewrite !str_app_assoc. reflexivity.
  - rewrite code_lines_join by (done || no_breaks). code_filter Hid. reflexivity.
Qed.

Lemma no_newline_quoteSlice values : no_newline (quoteSlice values).
Proof.
  unfold quoteSlice. apply no_newline_app; [by apply (bool_decide_unpack _)|].
  apply no_newline_app; [|by apply (bool_decide_unpack _)].
  apply no_newline_join; [by apply (bool_decide_unpack _)|].
  apply list.Forall_fmap, list.Forall_forall. intros. apply no_newline_quote.
Qed.

Lemma no_newline_format_strings values :
  Forall no_newline values -> no_newline (format_strings values).
Proof.
  intros H. unfold format_strings. apply no_newline_app; [by apply (bool_decide_unpack _)|].
  apply no_newline_app; [|by apply (bool_decide_unpack _)].
  apply no_newline_join; [by apply (bool_decide_unpack _)|done].
Qed.

Lemma no_newline_match_path mt : no_newline (match_path mt).
Proof. unfold match_path. repeat case_bool_decide; by apply (bool_decide_unpack _). Qed.

#[local] Hint Resolve no_newline_quoteSlice no_newline_format_strings no_newline_match_path : core.

Lemma RenderBlocklist_code id mt values msg t :
  rego_ident id = true -> no_newline mt -> Forall no_newline values ->
  RenderBlocklist id mt values msg = Ok t ->
  code_lines t =
  [id +:+ "_blocked if {";
   "    " +:+ match_path mt +:+ " in " +:+ quoteSlice values;
   "}";
   "blocked if {";
   "    " +:+ id +:+ "_blocked";
   "}";
   "violations[msg] if {";
   "    " +:+ id +:+ "_blocked";
   "    msg := " +:+ quote msg;
   "}"].
Proof.
  intros Hid Hmt Hvalues [= <-].
  transitivity (code_lines (join nl
    [""; "# Rule: " +:+ id +:+ " (blocklist)";
     "# Blocks " +:+ mt +:+ ": " +:+ format_strings values; "";
     id +:+ "_blocked if {"; "    " +:+ match_path mt +:+ " in " +:+ quoteSlice values; "}"; "";
     "blocked if {"; "    " +:+ id +:+ "_blocked"; "}"; ""; "violations[msg] if {";
     "    " +:+ id +:+ "_blocked"; "    msg := " +:+ quote msg; "}"; ""])).
  - f_equal. cbn [join]. rewrite !str_app_assoc. reflexivity.
  - rewrite code_lines_join by (done || no_breaks). code_filter Hid. reflexivity.
Qed.

Lemma no_newline_agent_condition id pattern : no_newline (agent_condition id pattern).
Proof.
  unfold agent_condition. repeat case_bool_decide; no_breaks.
Qed.
#[local] Hint Resolve no_newline_agent_condition : core.

Lemma RenderRateLimit_code id agent pattern limit window msg t :
  rego_ident id = true -> no_newline window ->
  RenderRateLimit id agent pattern limit window msg = Ok t ->
  code_lines t =
  [id +:+ "_exceeded if {";
   "    " +:+ agent_condition agent pattern;
   "    input.session.request_count >= " +:+ itoa limit;
   "}";
   "rate_limit_ok if {";
   "    not " +:+ id +:+ "_exceeded";
   "}";
   "violations[msg] if {";
   "    " +:+ id +:+ "_exceeded";
   "    msg := " +:+ quote msg;
   "}"].
Proof.
  intros Hid Hw [= <-].
  transitivity (code_lines (join nl
    [""; "# Rule: " +:+ id +:+ " (rate_limit)";
     "# Limit: " +:+ itoa limit +:+ " per " +:+ window; "";
     id +:+ "_exceeded if {"; "    " +:+ agent_condition agent pattern;
     "    input.session.request_count >= " +:+ itoa limit; "}"; "";
     "rate_limit_ok if {"; "    not " +:+ id +:+ "_exceeded"; "}"; ""; "violations[msg] if {";
     "    " +:+ id +:+ "_exceeded"; "    msg := " +:+ quote msg; "}"; ""])).
  - f_equal. cbn [join]. rewrite !str_app_assoc. reflexivity.
  - rewrite code_lines_join by (done || no_breaks). code_filter Hid. reflexivity.
Qed.

Lemma wf_rule_ident r : wf_rule r -> rego_ident (sanitizeRuleID (RuleID r)) = true.
Proof. intros [H%isValidIdentifier_iff _]. rewrite sanitize_valid by done. by apply underscored_ident. Qed.

(** C18: The code of a valid capability rule is fixed but for its name and three quoted
    literals: as long as tool and capability contain no line break, nothing in the policy
    can add to it, whatever the message is. *)
Theorem capability_code_confined (r : RuleDefinition) (tool cap t : string)
    (Hw : wf_rule r)
    (Htool : obj_get (Conditions r) "tool" = Some (JStr tool))
    (Hcap : obj_get (Conditions r) "requires_capability" = Some (JStr cap))
    (Hnl : no_newline tool /\ no_newline cap) (Ht : compileCapability r = Ok t) :
  let id := sanitizeRuleID (RuleID r) in
  exists msg, code_lines t =
  [id +:+ "_check if {";
   "    input.request.tool == " +:+ quote tool;
   "    required := " +:+ quote cap;
   "    some cap in input.agent.capabilities";
   "    capability_matches(cap, required)";
   "}";
   "violations[msg] if {";
   "    input.request.tool == " +:+ quote tool;
   "    not " +:+ id +:+ "_check";
   "    msg := " +:+ quote msg;
   "}"].
Proof.
  unfold compileCapability in Ht. rewrite Htool, Hcap in Ht. eexists.
  eapply RenderCapability_code; [by apply wf_rule_ident|apply Hnl|apply Hnl|exact Ht].
Qed.

(** The code of a valid rate limit rule is fixed but for its name, its quoted agent
    condition, the truncated limit and the quoted message. *)
Theorem rate_limit_code_confined (r : RuleDefinition) (f : float64) (t : string)
    (Hw : wf_rule r) (Hk : RuleKind r = RuleTypeRateLimit)
    (Hf : obj_get (Conditions r) "limit" = Some (JNum f)) (Ht : compileRateLimit r = Ok t) :
  let id := sanitizeRuleID (RuleID r) in
  exists msg, code_lines t =
  [id +:+ "_exceeded if {";
   "    " +:+ agent_condition (string_member (Conditions r) "agent_id")
                (string_member (Conditions r) "agent_pattern");
   "    input.session.request_count >= " +:+ itoa (int64_of_float f);
   "}";
   "rate_limit_ok if {";
   "    not " +:+ id +:+ "_exceeded";
   "}";
   "violations[msg] if {";
   "    " +:+ id +:+ "_exceeded";
   "    msg := " +:+ quote msg;
   "}"].
Proof.
  unfold compileRateLimit in Ht. rewrite Hf in Ht. cbn [toInt wrap_err mbind result_bind] in Ht.
  eexists. eapply RenderRateLimit_code; [by apply wf_rule_ident| |exact Ht].
  destruct Hw as [_ Hw]. rewrite Hk in Hw. inversion Hw as [| |m f' _ _ Hwin|]; subst.
  destruct (obj_get (Conditions r) "window") as [w|]; [|by apply (bool_decide_unpack _)].
  destruct (Hwin w eq_refl) as (x & -> & Hx).
  repeat (apply elem_of_cons in Hx as [->|Hx]; [by apply (bool_decide_unpack _)|]).
  by apply elem_of_nil in Hx.
Qed.

(** C31: What [quoteString] prints (and the code generator prints with it the tools, capabilities,
    messages, patterns, blocked values and compared strings of a policy, but not what goes into
    comments, nor the keys of [field_equals] and its siblings, see [comment_injection] and
    [CompilerExpr.field_equals_key_is_code]) is a literal on one line that a Go reader reads back
    exactly, stopping at its end whatever follows; Rego, whose strings are those of JSON, reads
    back the same string, or rejects the literal when the string holds a character whose Go
    escape JSON does not have. *)
Theorem quoteString_roundtrip (s rest : string) :
  unquote false (quoteString s +:+ rest) = Some (s, rest)
  /\ unquote true (quoteString s +:+ rest)
     = (if forallb json_rune (runes s) then Some (s, rest) else None)
  /\ no_newline (quoteString s).
Proof.
  split_and!; [apply unquote_quote|apply unquote_json_quote|apply no_newline_quote].
Qed.

End Compiler.

(** ** Witnesses *)

Definition sample_env : CompileEnv :=
  mkCompileEnv "2026-01-01T00:00:00Z" (fun _ values => values) (fun tools => tools) (fun _ => None).

Definition cap_rule (id tool cap message : string) : RuleDefinition :=
  mkRule id "capability" 0 None [("tool", JStr tool); ("requires_capability", JStr cap)]
    "deny" message.

Definition limit_rule (id : string) (limit : float64) : RuleDefinition :=
  mkRule id "rate_limit" 0 None [("limit", JNum limit); ("agent_pattern", JStr "support-.*")]
    "deny" "".

Definition off_rule : RuleDefinition :=
  mkRule "off" "blocklist" 0 (Some false)
    [("match_type", JStr "tool"); ("values", JArr [JStr "rm"])] "deny" "".

Definition sample_policy : PolicyDefinition :=
  mkPolicy "" "1.0" "example-policy" "two rules"
    [cap_rule "need-read" "lookup" "read:customers" "no"; off_rule;
     limit_rule "calls" (float_of_Z 500)]
    (mkDefaults "deny" 1000).

Lemma sanitizeRuleID_collisions_witness : sanitizeRuleID "a-b" = sanitizeRuleID "a_b".
Proof. by apply (sanitizeRuleID_collisions "a-b" "a_b"). Defined.

Definition sample_result : CompileResult :=
  mkCompileResult [("json_example_policy.rego", module_text sample_env sample_policy)] []
    sample_policy.

Lemma disabled_rules_ignored_witness :
  exists res', (Compile sample_env (without_disabled sample_policy) NewValidator).2 = Ret (Ok res')
    /\ Modules res' = Modules sample_result.
Proof.
  apply (disabled_rules_ignored sample_env sample_policy NewValidator sample_result).
  - vm_compute. reflexivity.
  - vm_compute. discriminate.
Defined.

Lemma sample_cap_wf : wf_rule (cap_rule "need-read" "lookup" "read:customers" "no").
Proof. split; [by apply isValidIdentifier_iff|]. by eapply wf_capability. Qed.

Lemma no_newline_lookup : no_newline "lookup".
Proof. by apply (bool_decide_unpack _). Qed.

Lemma no_newline_read : no_newline "read:customers".
Proof. by apply (bool_decide_unpack _). Qed.

Lemma capability_code_confined_witness :
  exists t msg,
    compileCapability sample_env (cap_rule "need-read" "lookup" "read:customers" "no") = Ok t
    /\ In ("    msg := " +:+ quote msg) (code_lines t).
Proof.
  eexists. destruct (capability_code_confined sample_env
    (cap_rule "need-read" "lookup" "read:customers" "no") "lookup" "read:customers" _
    sample_cap_wf eq_refl eq_refl
    (conj no_newline_lookup no_newline_read) eq_refl) as [msg Hmsg].
  exists msg. split; [reflexivity|]. rewrite Hmsg. do 9 right. by left.
Defined.

Lemma sample_limit_wf (f : float64) : SFleb f float_zero = false -> wf_rule (limit_rule "calls" f).
Proof. intros Hf. split; [by apply isValidIdentifier_iff|]. by eapply wf_rate_limit. Qed.

(** A limit between zero and one is valid; it becomes the limit zero, which every request
    exceeds. *)
Definition half : float64 := float_div (float_of_Z 1) (float_of_Z 2).

Lemma rate_limit_code_confined_witness :
  exists t, compileRateLimit (limit_rule "calls" half) = Ok t
    /\ In "    input.session.request_count >= 0" (code_lines t).
Proof.
  eexists. destruct (rate_limit_code_confined (limit_rule "calls" half) half _
    (sample_limit_wf half eq_refl) eq_refl eq_refl eq_refl) as [msg Hmsg].
  split; [reflexivity|]. rewrite Hmsg. do 2 right. left. vm_compute. reflexivity.
Defined.

(** ** Where the generated text is not what the policy says *)

Definition code_of (r : result string string) : list string :=
  match r with Ok t => code_lines t | Err _ => [] end.

(** A line break in a tool name ends the comment it is printed in: a valid policy gets a
    line of code of its choice into the module. *)
Theorem comment_injection :
  let r := cap_rule "x" ("a" +:+ nl +:+ "allow if { true }" +:+ nl +:+ "#") "c" "m" in
  wf_rule r /\ "allow if { true }" ∈ code_of (compileCapability sample_env r).
Proof.
  split; [split; [by apply isValidIdentifier_iff|by eapply wf_capability]|].
  refine (bool_decide_eq_true_1 (_ ∈ _) _). vm_compute. reflexivity.
Qed.

(** The placeholder of the agent is replaced by text that would be code outside a string,
    but the message is quoted afterwards; the default message keeps its verb. *)
Theorem agent_placeholder_not_interpolated :
  "    msg := " +:+ quote "denied for ' + input.agent.id + '"
    ∈ code_of (compileCapability sample_env (cap_rule "x" "a" "c" "denied for %{agent.id}"))
  /\ "    msg := " +:+ quote "Agent '%s' lacks capability 'c' for tool 'a'"
    ∈ code_of (compileCapability sample_env (cap_rule "x" "a" "c" "")).
Proof. split; refine (bool_decide_eq_true_1 (_ ∈ _) _); vm_compute; reflexivity. Qed.

(** The iteration order of a map of three entries shows in the module. *)
Theorem placeholder_order_matters :
  let r := cap_rule "x" "%{required}" "c" "%{tool}" in
  compileCapability (mkCompileEnv "" (fun _ l => l) (fun l => l) (fun _ => None)) r
  <> compileCapability (mkCompileEnv "" (fun _ l => rev l) (fun l => l) (fun _ => None)) r.
Proof. vm_compute. discriminate. Qed.

Lemma str_app_regroup (a b c d e : string) :
  a +:+ (b +:+ c +:+ d) +:+ e = (a +:+ b) +:+ c +:+ (d +:+ e).
Proof. by rewrite !str_app_assoc. Qed.

Lemma helperFunctions_default :
  exists pre post, helperFunctions = pre +:+ "default capability_check := true" +:+ post.
Proof.
  exists (String.substring 0 401 helperFunctions), (String.substring 433 56 helperFunctions).
  vm_compute. reflexivity.
Qed.

(** The same default rules are part of every module, so two compiled policies always
    define them twice, and policies/capability.rego defines the first with another value. *)
Theorem defaults_in_every_module (def : PolicyDefinition) (env : CompileEnv) :
  exists pre post, module_text env def = pre +:+ "default capability_check := true" +:+ post.
Proof.
  destruct helperFunctions_default as (pre & post & Hh). unfold module_text. rewrite Hh.
  rewrite str_app_regroup. by eexists _, _.
Qed.
