(* ===== verification/Sha256.v ===== *)
(** * SHA-256

    The standard library's [crypto/sha256.Sum256] (FIPS 180-4) over byte strings,
    executable, for the cache key of src/internal/policy/cache.go. *)

From Stdlib Require Import ZArith NArith Lia Ascii.
From stdpp Require Import base list strings numbers.
From S2P Require Import Prelude Json.

Local Open Scope N_scope.

Definition w32 (n : N) : N := n mod 2 ^ 32.
Definition add32 (a b : N) : N := w32 (a + b).
Definition rotr (k n : N) : N := N.lor (N.shiftr n k) (w32 (N.shiftl n (32 - k))).
Definition not32 (n : N) : N := N.lxor n (2 ^ 32 - 1).

Definition ch (x y z : N) : N := N.lxor (N.land x y) (N.land (not32 x) z).
Definition maj (x y z : N) : N := N.lxor (N.lxor (N.land x y) (N.land x z)) (N.land y z).
Definition big_sigma0 (x : N) : N := N.lxor (N.lxor (rotr 2 x) (rotr 13 x)) (rotr 22 x).
Definition big_sigma1 (x : N) : N := N.lxor (N.lxor (rotr 6 x) (rotr 11 x)) (rotr 25 x).
Definition small_sigma0 (x : N) : N := N.lxor (N.lxor (rotr 7 x) (rotr 18 x)) (N.shiftr x 3).
Definition small_sigma1 (x : N) : N := N.lxor (N.lxor (rotr 17 x) (rotr 19 x)) (N.shiftr x 10).

(** The constants are the first 32 bits of the fractional parts of roots of the first
    primes: cube roots for the rounds, square roots for the initial value. *)
Definition is_prime (n : N) : bool :=
  forallb (fun d => negb (n mod N.of_nat d =? 0)) (seq 2 (N.to_nat (N.sqrt n) - 1)).

Definition primes (k : nat) : list N := take k (List.filter is_prime (map N.of_nat (seq 2 320))).

(** The integer cube root, bit by bit from bit [n - 1] down. *)
Fixpoint cbrt (n : nat) (acc x : N) : N :=
  match n with
  | O => acc
  | S n =>
      let cand := acc + N.shiftl 1 (N.of_nat n) in
      if cand * cand * cand <=? x then cbrt n cand x else cbrt n acc x
  end.

Definition round_constants : list N :=
  Eval vm_compute in map (fun q => w32 (cbrt 36 0 (N.shiftl q 96))) (primes 64).

Definition initial_hash : list N :=
  Eval vm_compute in map (fun q => w32 (N.sqrt (N.shiftl q 64))) (primes 8).

(** Big-endian bytes of a word of [n] bytes. *)
Fixpoint be_bytes (n : nat) (x : N) : list N :=
  match n with
  | O => []
  | S n => (N.shiftr x (8 * N.of_nat n) mod 256) :: be_bytes n x
  end.

Fixpoint words (l : list N) : list N :=
  match l with
  | a :: b :: c :: d :: l => (a * 2 ^ 24 + b * 2 ^ 16 + c * 2 ^ 8 + d) :: words l
  | _ => []
  end.

(** Padding: 0x80, zeros up to 56 mod 64, the length in bits as 8 bytes. *)
Definition pad (m : list N) : list N :=
  let len := N.of_nat (length m) in
  let zeros := N.to_nat ((119 - len mod 64) mod 64) in
  m ++ [0x80] ++ replicate zeros 0 ++ be_bytes 8 (8 * len).

(** The message schedule: the list holds the words so far, latest first. *)
Fixpoint extend (n : nat) (ws : list N) : list N :=
  match n with
  | O => ws
  | S n =>
      let at_ i := default 0 (ws !! i) in
      extend n (add32 (add32 (small_sigma1 (at_ 1%nat)) (at_ 6%nat))
                      (add32 (small_sigma0 (at_ 14%nat)) (at_ 15%nat)) :: ws)
  end.

Definition round (h : list N) (kw : N * N) : list N :=
  match h with
  | [a; b; c; d; e; f; g; hh] =>
      let t1 := add32 (add32 (add32 hh (big_sigma1 e)) (add32 (ch e f g) kw.1)) kw.2 in
      let t2 := add32 (big_sigma0 a) (maj a b c) in
      [add32 t1 t2; a; b; c; add32 d t1; e; f; g]
  | _ => h
  end.

Definition compress (h : list N) (block : list N) : list N :=
  let ws := reverse (extend 48 (reverse (words block))) in
  zip_with add32 h (foldl round h (zip round_constants ws)).

Fixpoint blocks (n : nat) (l : list N) : list (list N) :=
  match n with
  | O => []
  | S n => take 64 l :: blocks n (drop 64 l)
  end.

Definition sha256_words (m : list N) : list N :=
  let p := pad m in foldl compress initial_hash (blocks (length p / 64)%nat p).

(** [sha256.Sum256]: the 32 bytes of the digest. *)
Definition Sum256 (s : string) : list ascii :=
  map ascii_of_N (mjoin (map (be_bytes 4) (sha256_words (map N_of_ascii (bytes_of s))))).

(** The digest has 32 bytes. *)
Lemma round_length h kw : length h = 8%nat -> length (round h kw) = 8%nat.
Proof. unfold round. intros H. by repeat case_match. Qed.

Lemma compress_length h b : length h = 8%nat -> length (compress h b) = 8%nat.
Proof.
  intros Hh. unfold compress. rewrite length_zip_with, Hh.
  assert (Hf : forall l (g : list N), length g = 8%nat -> length (foldl round g l) = 8%nat).
  { induction l as [|kw l IH]; intros g Hg; simpl; [done|]. by apply IH, round_length. }
  rewrite Hf by done. reflexivity.
Qed.

Lemma sha256_words_length m : length (sha256_words m) = 8%nat.
Proof.
  unfold sha256_words. generalize (blocks (length (pad m) / 64) (pad m)).
  assert (Hf : forall l (g : list N), length g = 8%nat -> length (foldl compress g l) = 8%nat).
  { induction l as [|b l IH]; intros g Hg; simpl; [done|]. by apply IH, compress_length. }
  intros l. by apply Hf.
Qed.

Lemma Sum256_length s : length (Sum256 s) = 32%nat.
Proof.
  unfold Sum256. rewrite length_map.
  pose proof (sha256_words_length (map N_of_ascii (bytes_of s))) as H.
  revert H. generalize (sha256_words (map N_of_ascii (bytes_of s))). intros ws.
  do 8 (destruct ws as [|? ws]; [done|]). by destruct ws.
Qed.

(** Test vectors of FIPS 180-4. *)
Example Sum256_abc :
  hex_encode (Sum256 "abc") = "ba7816bf8f01cfea414140de5dae2223b00361a396177a9cb410ff61f20015ad".
Proof. vm_compute. reflexivity. Qed.

Example Sum256_empty :
  hex_encode (Sum256 "") = "e3b0c44298fc1c149afbf4c8996fb92427ae41e4649b934ca495991b7852b855".
Proof. vm_compute. reflexivity. Qed.

Example Sum256_two_blocks :
  hex_encode (Sum256 "abcdbcdecdefdefgefghfghighijhijkijkljklmklmnlmnomnopnopq")
  = "248d6a61d20638b8e5c026930c3e6039a33ce45964ff2167f6ecedd419db06c1".
Proof. vm_compute. reflexivity. Qed.
