(* ===== verification/PolicyTypes.v ===== *)
(** * Policy input and decisions

    The data of src/internal/policy/types.go, the input builder, and the JSON object
    the engine hands to OPA ([structToMap] of src/internal/policy/engine.go). Field
    names that several structs share carry the struct's name first. *)

From Stdlib Require Import ZArith Lia.
From stdpp Require Import base list gmap strings numbers.
From S2P Require Import Prelude Json.

Record AgentContext : Type := mkAgentContext {
  Agent_ID : string;
  Agent_Name : string;
  Agent_Capabilities : slice string;
  Model : string;
  Publisher : string;
  Tags : slice string
}.

Record RequestContext : Type := mkRequestContext {
  Request_Method : string;
  Request_Tool : string;
  Request_Arguments : option jobject;   (* [None]: a nil map *)
  Intent : string
}.

Record SessionContext : Type := mkSessionContext {
  Session_ID : string;
  Session_RequestCount : Z;
  StartedAt : Time;
  CumulativeReads : Z;
  CumulativeWrites : Z
}.

Record IdentityContext : Type := mkIdentityContext {
  Verified : bool;
  Identity_DID : string;
  SignatureAlg : string;
  IssuedAt : Time;
  HasLogProof : bool
}.

Record EnvironmentContext : Type := mkEnvironmentContext {
  Timestamp : Time;
  Env_SourceIP : string;
  Environment : string;
  ProxyRegion : string
}.

Record PolicyInput : Type := mkPolicyInput {
  Agent : AgentContext;
  Request : RequestContext;
  Session : SessionContext;
  Identity : IdentityContext;
  EnvContext : EnvironmentContext
}.

Record PolicyObligation : Type := mkPolicyObligation {
  Action : string;
  Params : list (string * string)
}.

Record PolicyDecision : Type := mkPolicyDecision {
  Allow : bool;
  Violations : slice string;
  MatchedRule : string;
  Obligations : slice PolicyObligation
}.

Record EvaluationResult : Type := mkEvaluationResult {
  Decision : PolicyDecision;
  Input : PolicyInput;
  EvalTime : Duration;
  CacheHit : bool;
  CacheTier : string;
  Result_PolicyMode : string
}.

(** ** InputBuilder *)

(** The zero [time.Time]; its instant is a parameter of nothing, so 0 stands for it. *)
Definition zero_time : Time := 0%Z.

Definition zero_agent : AgentContext := mkAgentContext "" "" None "" "" None.
Definition zero_request : RequestContext := mkRequestContext "" "" None "".
Definition zero_session : SessionContext := mkSessionContext "" 0 zero_time 0 0.
Definition zero_identity : IdentityContext := mkIdentityContext false "" "" zero_time false.

Definition NewInputBuilder (now : Time) : PolicyInput :=
  {| Agent := zero_agent; Request := zero_request; Session := zero_session;
     Identity := zero_identity;
     EnvContext := {| Timestamp := now; Env_SourceIP := ""; Environment := "";
                      ProxyRegion := "" |} |}.

Definition WithAgent (id name : string) (capabilities : slice string)
    (i : PolicyInput) : PolicyInput :=
  {| Agent := mkAgentContext id name capabilities "" "" None; Request := Request i;
     Session := Session i; Identity := Identity i; EnvContext := EnvContext i |}.

Definition WithAgentDetails (model publisher : string) (tags : slice string)
    (i : PolicyInput) : PolicyInput :=
  {| Agent := mkAgentContext (Agent_ID (Agent i)) (Agent_Name (Agent i))
                (Agent_Capabilities (Agent i)) model publisher tags;
     Request := Request i; Session := Session i; Identity := Identity i;
     EnvContext := EnvContext i |}.

Definition WithRequest (method tool : string) (arguments : option jobject)
    (i : PolicyInput) : PolicyInput :=
  {| Agent := Agent i; Request := mkRequestContext method tool arguments "";
     Session := Session i; Identity := Identity i; EnvContext := EnvContext i |}.

Definition WithSession (id : string) (requestCount : Z) (startedAt : Time)
    (i : PolicyInput) : PolicyInput :=
  {| Agent := Agent i; Request := Request i;
     Session := mkSessionContext id requestCount startedAt 0 0;
     Identity := Identity i; EnvContext := EnvContext i |}.

Definition WithIdentity (verified : bool) (did : string) (i : PolicyInput) : PolicyInput :=
  {| Agent := Agent i; Request := Request i; Session := Session i;
     Identity := mkIdentityContext verified did "" zero_time false;
     EnvContext := EnvContext i |}.

Definition WithEnvironment (sourceIP environment region : string)
    (i : PolicyInput) : PolicyInput :=
  {| Agent := Agent i; Request := Request i; Session := Session i; Identity := Identity i;
     EnvContext := {| Timestamp := Timestamp (EnvContext i); Env_SourceIP := sourceIP;
                      Environment := environment; ProxyRegion := region |} |}.

(** ** The JSON object of an input *)

Definition json_strings (s : slice string) : jvalue :=
  match s with None => JNull | Some l => JArr (map JStr l) end.

Definition json_int (z : Z) : jvalue := JNum (float_of_Z z).

(** Runtime policy data; a nil map is [None], a map the list of its entries. *)
Record PolicyData : Type := mkPolicyData {
  ToolCapabilities : option (list (string * string));
  RateLimits : option (list (string * Z));
  BlockedTools : slice string;
  BlockedAgents : slice string;
  BlockedDIDs : slice string;
  AllowedDIDs : slice string;
  TrustedPublishers : slice string;
  IdentityRequiredTools : slice string;
  PIITools : slice string;
  BlockedModelsForPII : slice string
}.

(** A map with string keys. *)
Definition json_map {A} (f : A -> jvalue) (m : option (list (string * A))) : jvalue :=
  match m with None => JNull | Some l => coerce (JObj (map (fun p => (p.1, f p.2)) l)) end.

(** [PolicyDataFromStruct]: marshal and unmarshal; neither can fail on this type. *)
Definition PolicyDataFromStruct (pd : PolicyData) : result string jobject :=
  let strings s := coerce (json_strings s) in
  Ok [("tool_capabilities", json_map JStr (ToolCapabilities pd));
      ("rate_limits", json_map json_int (RateLimits pd));
      ("blocked_tools", strings (BlockedTools pd));
      ("blocked_agents", strings (BlockedAgents pd));
      ("blocked_dids", strings (BlockedDIDs pd));
      ("allowed_dids", strings (AllowedDIDs pd));
      ("trusted_publishers", strings (TrustedPublishers pd));
      ("identity_required_tools", strings (IdentityRequiredTools pd));
      ("pii_tools", strings (PIITools pd));
      ("blocked_models_for_pii", strings (BlockedModelsForPII pd))].

Section ToMap.

(** [time.Time.MarshalJSON]: the wall clock and its zone are the environment's; it
    fails for years outside 0..9999. *)
Context (time_json : Time -> result string string).

(** [structToMap]: marshal and unmarshal; ints become [float64], nil slices and maps
    become [null], strings become valid UTF-8. *)
Definition structToMap (i : PolicyInput) : result string jobject :=
  started ← time_json (StartedAt (Session i));
  issued ← time_json (IssuedAt (Identity i));
  stamp ← time_json (Timestamp (EnvContext i));
  let a := Agent i in let r := Request i in let s := Session i in
  let d := Identity i in let e := EnvContext i in
  let str x := JStr (coerce_utf8 x) in
  Ok [("agent", JObj [("id", str (Agent_ID a)); ("name", str (Agent_Name a));
         ("capabilities", coerce (json_strings (Agent_Capabilities a)));
         ("model", str (Model a)); ("publisher", str (Publisher a));
         ("tags", coerce (json_strings (Tags a)))]);
      ("request", JObj [("method", str (Request_Method r)); ("tool", str (Request_Tool r));
         ("arguments", match Request_Arguments r with
                       | None => JNull | Some m => coerce (JObj m) end);
         ("intent", str (Intent r))]);
      ("session", JObj [("id", str (Session_ID s));
         ("request_count", json_int (Session_RequestCount s)); ("started_at", JStr started);
         ("cumulative_reads", json_int (CumulativeReads s));
         ("cumulative_writes", json_int (CumulativeWrites s))]);
      ("identity", JObj [("verified", JBool (Verified d)); ("did", str (Identity_DID d));
         ("signature_alg", str (SignatureAlg d)); ("issued_at", JStr issued);
         ("has_log_proof", JBool (HasLogProof d))]);
      ("context", JObj [("timestamp", JStr stamp); ("source_ip", str (Env_SourceIP e));
         ("environment", str (Environment e)); ("proxy_region", str (ProxyRegion e))])].

End ToMap.
