(* ===== verification/Cache.v ===== *)
(** * The decision cache

    Models src/internal/policy/cache.go: a map from keys to decisions with an expiry,
    a bound on the number of entries, and counters. Clock readings and the order of
    Go's map iteration are arguments; the theorems hold for all of them. *)

From Stdlib Require Import ZArith Lia.
From stdpp Require Import base list gmap strings numbers.
From S2P Require Import Prelude Json Sha256 PolicyTypes.

Record cacheEntry : Type := mkEntry {
  decision : PolicyDecision;
  expiresAt : Time
}.

Record DecisionCache : Type := mkCache {
  l2Cache : gmap string cacheEntry;
  l2TTL : Duration;
  maxEntries : Z;
  enabled : bool;
  l1Hits : Z;
  l2Hits : Z;
  misses : Z;
  evicted : Z
}.

Record CacheConfig : Type := mkCacheConfig {
  Cfg_Enabled : bool;
  TTL : Duration;
  MaxEntries : Z
}.

Definition NewDecisionCache (cfg : CacheConfig) : DecisionCache :=
  {| l2Cache := ∅;
     l2TTL := if (TTL cfg =? 0)%Z then (5 * Minute)%Z else TTL cfg;
     maxEntries := if (MaxEntries cfg =? 0)%Z then 10000%Z else MaxEntries cfg;
     enabled := Cfg_Enabled cfg; l1Hits := 0; l2Hits := 0; misses := 0; evicted := 0 |}.

Definition set_cache (m : gmap string cacheEntry) (ev : Z) (c : DecisionCache) : DecisionCache :=
  {| l2Cache := m; l2TTL := l2TTL c; maxEntries := maxEntries c; enabled := enabled c;
     l1Hits := l1Hits c; l2Hits := l2Hits c; misses := misses c; evicted := ev |}.

Definition count_get (hit : bool) (c : DecisionCache) : DecisionCache :=
  {| l2Cache := l2Cache c; l2TTL := l2TTL c; maxEntries := maxEntries c;
     enabled := enabled c; l1Hits := l1Hits c;
     l2Hits := if hit then wrap64 (l2Hits c + 1) else l2Hits c;
     misses := if hit then misses c else wrap64 (misses c + 1); evicted := evicted c |}.

(** [Get]: the decision with its tier on a hit. *)
Definition Get (key : string) (now : Time) (c : DecisionCache)
    : DecisionCache * option (PolicyDecision * string) :=
  if enabled c then
    match l2Cache c !! key with
    | Some e =>
        if (now <? expiresAt e)%Z then (count_get true c, Some (decision e, "L2"))
        else (count_get false c, None)
    | None => (count_get false c, None)
    end
  else (c, None).

(** Deleting every entry past its expiry, each counted as evicted: the loop of
    [cleanup] and the first one of [evictOldest]. *)
Definition expired (now : Time) (e : cacheEntry) : bool := (now >? expiresAt e)%Z.

Definition drop_expired (now : Time) (c : DecisionCache) : DecisionCache :=
  let kept := filter (fun p => expired now p.2 = false) (l2Cache c) in
  set_cache kept
    (wrap64 (evicted c + (Z.of_nat (size (l2Cache c)) - Z.of_nat (size kept)))) c.

(** The second loop of [evictOldest] over the keys in iteration order; a key that is
    no longer in the map is not produced by the iteration. *)
Fixpoint evict_loop (toRemove removed : Z) (order : list string) (c : DecisionCache)
    : DecisionCache :=
  match order with
  | [] => c
  | key :: order =>
      match l2Cache c !! key with
      | None => evict_loop toRemove removed order c
      | Some _ =>
          let c := set_cache (delete key (l2Cache c)) (wrap64 (evicted c + 1)) c in
          if (removed + 1 >=? toRemove)%Z then c
          else evict_loop toRemove (removed + 1) order c
      end
  end.

Definition evictOldest (now : Time) (order : list string) (c : DecisionCache) : DecisionCache :=
  let c := drop_expired now c in
  if (Z.of_nat (size (l2Cache c)) >=? maxEntries c)%Z
  then evict_loop (Z.quot (maxEntries c) 10) 0 order c
  else c.

(** [Set]: [tevict] and [tset] are the clock readings of the eviction and of the
    new entry. *)
Definition Set_ (key : string) (d : PolicyDecision) (order : list string)
    (tevict tset : Time) (c : DecisionCache) : DecisionCache :=
  if enabled c then
    let c := if (Z.of_nat (size (l2Cache c)) >=? maxEntries c)%Z
             then evictOldest tevict order c else c in
    set_cache (<[key := {| decision := d; expiresAt := tset + l2TTL c |}]> (l2Cache c))
      (evicted c) c
  else c.

Definition Invalidate (c : DecisionCache) : DecisionCache :=
  if enabled c then set_cache ∅ (evicted c) c else c.

(** [cleanup], which [cleanupLoop] runs on every tick. *)
Definition cleanup (now : Time) (c : DecisionCache) : DecisionCache := drop_expired now c.

Definition cleanupLoop (ticks : list Time) (c : DecisionCache) : DecisionCache :=
  foldl (fun c now => cleanup now c) c ticks.

Definition hashString (s : string) : string := hex_encode (Sum256 s).

(** [ComputeKey]. *)
Definition ComputeKey (input : PolicyInput) : string :=
  let caps := sort_strings (elems (Agent_Capabilities (Agent input))) in
  let capsHash := hashString (join "," caps) in
  Agent_ID (Agent input) +:+ ":" +:+ Request_Tool (Request input) +:+ ":" +:+
  String.substring 0 8 capsHash.

Record CacheStats : Type := mkCacheStats {
  Stats_L1Hits : Z;
  Stats_L2Hits : Z;
  Stats_Misses : Z;
  Stats_Entries : Z;
  Stats_HitRate : float64;
  Stats_Evicted : Z
}.

Definition Stats (c : DecisionCache) : CacheStats :=
  let total := wrap64 (wrap64 (l1Hits c + l2Hits c) + misses c) in
  {| Stats_L1Hits := l1Hits c; Stats_L2Hits := l2Hits c; Stats_Misses := misses c;
     Stats_Entries := Z.of_nat (size (l2Cache c));
     Stats_HitRate := if (total >? 0)%Z
       then float_div (float_of_Z (wrap64 (l1Hits c + l2Hits c))) (float_of_Z total)
       else float_of_Z 0;
     Stats_Evicted := evicted c |}.

(** ** Histories *)

Inductive cop : Type :=
| OGet (key : string) (now : Time)
| OSet (key : string) (d : PolicyDecision) (order : list string) (tevict tset : Time)
| OInvalidate
| OCleanup (now : Time).

Definition apply_op (c : DecisionCache) (o : cop) : DecisionCache :=
  match o with
  | OGet key now => (Get key now c).1
  | OSet key d order te ts => Set_ key d order te ts c
  | OInvalidate => Invalidate c
  | OCleanup now => cleanup now c
  end.

Definition run (ops : list cop) (c : DecisionCache) : DecisionCache := foldl apply_op c ops.

(** What a history says a key holds: the last [Set] of it that no [Invalidate] and no
    later [Set] of the same key has undone. *)
Definition last_set (ops : list cop) (key : string) (d : PolicyDecision) (tset : Time) : Prop :=
  exists pre order te post,
    ops = pre ++ OSet key d order te tset :: post /\
    Forall (fun o => match o with
                     | OSet k _ _ _ _ => k <> key
                     | OInvalidate => False
                     | _ => True end) post.

(** Iteration visits every key of the map. *)
Definition covers (c : DecisionCache) (order : list string) : Prop :=
  forall k, is_Some (l2Cache c !! k) -> k ∈ order.

(** Every [Set] of the history evicts in an order that covers the map it finds. *)
Fixpoint iterates (ops : list cop) (c : DecisionCache) : Prop :=
  match ops with
  | [] => True
  | o :: ops =>
      match o with
      | OSet _ _ order te _ => covers (drop_expired te c) order
      | _ => True
      end /\ iterates ops (apply_op c o)
  end.

(** ** Lemmas *)

Definition same_cfg (c c' : DecisionCache) : Prop :=
  l2TTL c' = l2TTL c /\ maxEntries c' = maxEntries c /\ enabled c' = enabled c.

#[export] Instance same_cfg_refl : Reflexive same_cfg.
Proof. intros c. done. Qed.

#[export] Instance same_cfg_trans : Transitive same_cfg.
Proof. unfold same_cfg. intros ???. naive_solver congruence. Qed.

Lemma drop_expired_cfg now c : same_cfg c (drop_expired now c).
Proof. done. Qed.

Lemma evict_loop_cfg n r order c : same_cfg c (evict_loop n r order c).
Proof.
  revert r c. induction order as [|k order IH]; intros r c; simpl; [done|].
  case_match; [|apply IH]. case_match; [done|]. etrans; [|apply IH]. done.
Qed.

Lemma evictOldest_cfg now order c : same_cfg c (evictOldest now order c).
Proof.
  unfold evictOldest. case_match; [|apply drop_expired_cfg].
  etrans; [apply (drop_expired_cfg now)|apply evict_loop_cfg].
Qed.

Lemma apply_op_cfg c o : same_cfg c (apply_op c o).
Proof.
  destruct o; simpl; [..|done].
  - unfold Get. by repeat case_match.
  - unfold Set_. case_match; [|done]. simpl. case_match; [|done].
    etrans; [apply evictOldest_cfg|]. done.
  - unfold Invalidate. by case_match.
Qed.

Lemma run_cfg ops c : same_cfg c (run ops c).
Proof.
  unfold run. revert c. induction ops as [|o ops IH]; intros c; simpl; [done|].
  etrans; [apply apply_op_cfg|apply IH].
Qed.

Lemma drop_expired_subseteq now c : l2Cache (drop_expired now c) ⊆ l2Cache c.
Proof. apply map_filter_subseteq. Qed.

Lemma evict_loop_subseteq n r order c : l2Cache (evict_loop n r order c) ⊆ l2Cache c.
Proof.
  revert r c. induction order as [|k order IH]; intros r c; simpl; [done|].
  case_match; [|apply IH].
  case_match; simpl; [apply delete_subseteq|].
  etrans; [apply IH|]. apply delete_subseteq.
Qed.

Lemma evictOldest_subseteq now order c : l2Cache (evictOldest now order c) ⊆ l2Cache c.
Proof.
  unfold evictOldest. case_match; [|apply drop_expired_subseteq].
  etrans; [apply evict_loop_subseteq|apply drop_expired_subseteq].
Qed.

(** One round of the eviction loop removes at least one entry. *)
Lemma evict_loop_size n r order c k :
  k ∈ order -> is_Some (l2Cache c !! k) ->
  size (l2Cache (evict_loop n r order c)) < size (l2Cache c).
Proof.
  revert r c. induction order as [|k' order IH]; intros r c Hk Hs;
    [by apply not_elem_of_nil in Hk|]. simpl.
  destruct (l2Cache c !! k') as [e|] eqn:He.
  - assert (size (l2Cache c) = S (size (delete k' (l2Cache c))))
      by (by eapply map_size_delete_Some).
    case_match; simpl; [lia|].
    pose proof (map_subseteq_size _ _ (evict_loop_subseteq n (r + 1) order
      (set_cache (delete k' (l2Cache c)) (wrap64 (evicted c + 1)) c))) as Hsz.
    simpl in Hsz. lia.
  - apply IH; [|done]. apply elem_of_cons in Hk as [->|]; [|done].
    rewrite He in Hs. by destruct Hs.
Qed.

Lemma covers_check (c : DecisionCache) order :
  bool_decide (Forall (fun p => p.1 ∈ order) (map_to_list (l2Cache c))) = true ->
  covers c order.
Proof.
  intros H%bool_decide_eq_true k [e He].
  apply elem_of_map_to_list in He. rewrite list.Forall_forall in H. by apply (H (k, e)).
Qed.

Lemma covers_nonempty (c : DecisionCache) order :
  covers c order -> 0 < size (l2Cache c) -> exists k, k ∈ order /\ is_Some (l2Cache c !! k).
Proof.
  intros Hc Hs. destruct (map_choose (l2Cache c)) as (k & e & He).
  { intros He. rewrite He, map_size_empty in Hs. lia. }
  exists k. split; [apply Hc|]; by eexists.
Qed.

(** Eviction makes room. *)
Lemma evictOldest_room now order c :
  covers (drop_expired now c) order ->
  (Z.of_nat (size (l2Cache c)) <= Z.max 1 (maxEntries c))%Z ->
  (Z.of_nat (size (l2Cache (evictOldest now order c))) < Z.max 1 (maxEntries c))%Z.
Proof.
  intros Hcov Hle. unfold evictOldest.
  pose proof (map_subseteq_size _ _ (drop_expired_subseteq now c)) as Hsz.
  destruct (Z.geb_spec (Z.of_nat (size (l2Cache (drop_expired now c))))
                       (maxEntries (drop_expired now c))) as [Hge|Hlt]; [|simpl in *; lia].
  destruct (decide (0 < size (l2Cache (drop_expired now c)))) as [Hpos|Hz].
  - destruct (covers_nonempty _ _ Hcov Hpos) as (k & Hk & Hs).
    pose proof (evict_loop_size (Z.quot (maxEntries (drop_expired now c)) 10) 0 order
      (drop_expired now c) k Hk Hs). lia.
  - pose proof (map_subseteq_size _ _ (evict_loop_subseteq
      (Z.quot (maxEntries (drop_expired now c)) 10) 0 order (drop_expired now c))).
    assert (maxEntries (drop_expired now c) = maxEntries c) by done. lia.
Qed.

Lemma size_insert_le (m : gmap string cacheEntry) k e : size (<[k := e]> m) <= S (size m).
Proof.
  destruct (m !! k) eqn:E.
  - rewrite map_size_insert_Some by done. lia.
  - by rewrite map_size_insert_None.
Qed.

Lemma apply_op_bound c o :
  match o with OSet _ _ order te _ => covers (drop_expired te c) order | _ => True end ->
  (Z.of_nat (size (l2Cache c)) <= Z.max 1 (maxEntries c))%Z ->
  (Z.of_nat (size (l2Cache (apply_op c o))) <= Z.max 1 (maxEntries c))%Z.
Proof.
  intros Hcov Hle. destruct o; simpl in *.
  - unfold Get. by repeat case_match.
  - unfold Set_. case_match; [|done]. simpl.
    destruct (Z.geb_spec (Z.of_nat (size (l2Cache c))) (maxEntries c)) as [Hge|Hlt].
    + pose proof (evictOldest_room tevict order c Hcov Hle).
      pose proof (size_insert_le (l2Cache (evictOldest tevict order c)) key
        {| decision := d; expiresAt := tset + l2TTL (evictOldest tevict order c) |}). lia.
    + pose proof (size_insert_le (l2Cache c) key
        {| decision := d; expiresAt := tset + l2TTL c |}). lia.
  - unfold Invalidate. case_match; simpl; [rewrite map_size_empty; lia|done].
  - etrans; [|exact Hle]. apply inj_le, map_subseteq_size, drop_expired_subseteq.
Qed.

Lemma run_bound ops c :
  iterates ops c -> (Z.of_nat (size (l2Cache c)) <= Z.max 1 (maxEntries c))%Z ->
  (Z.of_nat (size (l2Cache (run ops c))) <= Z.max 1 (maxEntries c))%Z.
Proof.
  unfold run. revert c. induction ops as [|o ops IH]; intros c Hit Hle; simpl in *; [done|].
  destruct Hit as [Hcov Hit]. pose proof (apply_op_bound c o Hcov Hle) as Hb.
  destruct (apply_op_cfg c o) as (_ & Hm & _). rewrite <- Hm. apply IH; [done|]. by rewrite Hm.
Qed.

(** The entry a history leaves under a key. *)
Lemma last_set_snoc ops o key d ts :
  last_set ops key d ts ->
  match o with OSet k _ _ _ _ => k <> key | OInvalidate => False | _ => True end ->
  last_set (ops ++ [o]) key d ts.
Proof.
  intros (pre & order & te & post & -> & Hpost) Ho.
  exists pre, order, te, (post ++ [o]). rewrite <- app_assoc. split; [done|].
  apply Forall_app. split; [done|]. by constructor.
Qed.

Lemma run_snoc ops o c : run (ops ++ [o]) c = apply_op (run ops c) o.
Proof. unfold run. by rewrite foldl_app. Qed.

(** A disabled cache stays empty. *)
Lemma run_disabled ops c :
  enabled c = false -> l2Cache c = ∅ -> l2Cache (run ops c) = ∅.
Proof.
  unfold run. revert c. induction ops as [|o ops IH]; intros c Hen Hem; [done|].
  simpl. apply IH; destruct o; simpl; unfold Get, Set_, Invalidate; rewrite ?Hen; auto.
  simpl. rewrite Hem. apply map_filter_empty.
Qed.

Lemma run_entry cfg ops key e :
  l2Cache (run ops (NewDecisionCache cfg)) !! key = Some e ->
  exists ts, last_set ops key (decision e) ts /\
             expiresAt e = (ts + l2TTL (NewDecisionCache cfg))%Z.
Proof.
  destruct (enabled (NewDecisionCache cfg)) eqn:Hen0.
  2: { by rewrite run_disabled, lookup_empty. }
  revert key e. induction ops as [|o ops IH] using rev_ind; intros key e.
  { cbn. by rewrite lookup_empty. }
  rewrite run_snoc. set (c := run ops (NewDecisionCache cfg)) in *.
  destruct (run_cfg ops (NewDecisionCache cfg)) as (Httl & _ & Hen).
  fold c in Httl, Hen. rewrite Hen0 in Hen.
  assert (Hold : l2Cache c !! key = Some e ->
    match o with OSet k _ _ _ _ => k <> key | OInvalidate => False | _ => True end ->
    exists ts, last_set (ops ++ [o]) key (decision e) ts /\
               expiresAt e = (ts + l2TTL (NewDecisionCache cfg))%Z).
  { intros He Ho. destruct (IH _ _ He) as (ts & Hl & Hx). eauto using last_set_snoc. }
  destruct o as [k now|k d order te ts| |now]; simpl in *.
  - unfold Get. rewrite Hen. repeat case_match; simpl; auto.
  - unfold Set_. rewrite Hen. simpl.
    set (c1 := if (_ >=? _)%Z then _ else c).
    assert (Hsub : l2Cache c1 ⊆ l2Cache c /\ l2TTL c1 = l2TTL c).
    { unfold c1. destruct (_ >=? _)%Z; [|by split].
      split; [apply evictOldest_subseteq|apply evictOldest_cfg]. }
    destruct Hsub as [Hsub Ht].
    intros [[<- <-]|[Hne He]]%lookup_insert_Some.
    + exists ts. simpl. rewrite Ht, Httl. split; [|done]. exists ops, order, te, []. by split.
    + apply Hold; [|done]. by eapply lookup_weaken.
  - unfold Invalidate. rewrite Hen. simpl. by rewrite lookup_empty.
  - intros He. apply Hold; [|done]. eapply lookup_weaken; [exact He|].
    apply drop_expired_subseteq.
Qed.

(** Eviction never touches a key outside the map, so [Set] always leaves its entry. *)
Lemma Set_lookup key d order te ts c :
  enabled c = true ->
  l2Cache (Set_ key d order te ts c) !! key =
    Some {| decision := d; expiresAt := ts + l2TTL c |}.
Proof.
  intros Hen. unfold Set_. rewrite Hen. simpl. rewrite lookup_insert_eq. do 2 f_equal.
  destruct (_ >=? _)%Z; [|done]. f_equal. apply evictOldest_cfg.
Qed.

(** ** Properties *)

(** C28: The cache never outgrows its bound. Whatever sequence of gets, sets,
    invalidations and cleanups is run, at whatever clock readings, and in whatever
    order Go's map iteration visits the keys, the number of entries is at most
    [maxEntries] (one entry for a bound below one). *)
Theorem cache_bounded (cfg : CacheConfig) (ops : list cop)
    (Hiter : iterates ops (NewDecisionCache cfg)) :
  (Z.of_nat (size (l2Cache (run ops (NewDecisionCache cfg))))
     <= Z.max 1 (maxEntries (NewDecisionCache cfg)))%Z.
Proof. apply run_bound; [done|]. simpl. rewrite map_size_empty. lia. Qed.

(** C29: A hit is always fresh and genuine: the decision returned for a key at [now] is
    the one of the last [Set] of that key, made after the last [Invalidate], and less
    than the time to live has passed since it. *)
Theorem cache_hit_sound (cfg : CacheConfig) (ops : list cop) (key tier : string)
    (now : Time) (d : PolicyDecision)
    (Hhit : (Get key now (run ops (NewDecisionCache cfg))).2 = Some (d, tier)) :
  tier = "L2" /\
  exists tset, last_set ops key d tset /\
               (now < tset + l2TTL (NewDecisionCache cfg))%Z.
Proof.
  unfold Get in Hhit. destruct (enabled _); [|done].
  destruct (l2Cache _ !! key) as [e|] eqn:He; [|done].
  destruct (Z.ltb_spec now (expiresAt e)) as [Hlt|]; [|done].
  injection Hhit as <- <-. split; [done|].
  destruct (run_entry cfg ops key e He) as (ts & Hl & Hx).
  exists ts. split; [done|]. by rewrite <- Hx.
Qed.

(** A decision stored in an enabled cache is found again, by any reading of the
    clock before its expiry, however full the cache was when it was stored. *)
Theorem cache_set_get (c : DecisionCache) (key : string) (d : PolicyDecision)
    (order : list string) (tevict tset now : Time)
    (Hen : enabled c = true) (Hnow : (now < tset + l2TTL c)%Z) :
  (Get key now (Set_ key d order tevict tset c)).2 = Some (d, "L2").
Proof.
  unfold Get. destruct (apply_op_cfg c (OSet key d order tevict tset)) as (_ & _ & Hen').
  simpl in Hen'. rewrite Hen', Hen, Set_lookup by done. simpl.
  by rewrite (proj2 (Z.ltb_lt _ _) Hnow).
Qed.

(** The key of an input does not depend on the order in which the agent lists its
    capabilities, nor on any part of the input but the agent, the tool and the
    capabilities. *)
Theorem ComputeKey_canonical (i1 i2 : PolicyInput)
    (Hid : Agent_ID (Agent i1) = Agent_ID (Agent i2))
    (Htool : Request_Tool (Request i1) = Request_Tool (Request i2))
    (Hcaps : elems (Agent_Capabilities (Agent i1)) ≡ₚ elems (Agent_Capabilities (Agent i2))) :
  ComputeKey i1 = ComputeKey i2.
Proof. unfold ComputeKey. by rewrite Hid, Htool, (sort_strings_Perm _ _ Hcaps). Qed.

(** Inputs of the concrete cases below. *)
Definition sample_input (id tool : string) (caps : list string) : PolicyInput :=
  WithRequest "tools/call" tool None
    (WithAgent id "" (Some caps) (NewInputBuilder 0)).

Definition allow_decision : PolicyDecision := mkPolicyDecision true None "ok" None.
Definition deny_decision : PolicyDecision := mkPolicyDecision false (Some ["no"]) "" None.

(** Keys of different agents and tools collide, because the separator may occur
    inside an agent identifier or a tool name: agent [a:b] calling [c] and agent [a]
    calling [b:c] have one key, and so share one cached decision. *)
Theorem ComputeKey_separator_collision :
  let i1 := sample_input "a:b" "c" [] in
  let i2 := sample_input "a" "b:c" [] in
  ComputeKey i1 = ComputeKey i2 /\
  Agent_ID (Agent i1) <> Agent_ID (Agent i2) /\
  Request_Tool (Request i1) <> Request_Tool (Request i2) /\
  forall c d order te ts now, enabled c = true -> (now < ts + l2TTL c)%Z ->
    (Get (ComputeKey i2) now (Set_ (ComputeKey i1) d order te ts c)).2 = Some (d, "L2").
Proof.
  assert (Hk : ComputeKey (sample_input "a:b" "c" []) = ComputeKey (sample_input "a" "b:c" []))
    by (vm_compute; reflexivity).
  cbv zeta. split; [done|]. split; [done|]. split; [done|].
  intros c d order te ts now Hen Hnow. rewrite <- Hk. unfold Get.
  destruct (apply_op_cfg c (OSet (ComputeKey (sample_input "a:b" "c" [])) d order te ts))
    as (_ & _ & Hen').
  simpl in Hen'. rewrite Hen', Hen, Set_lookup by done. cbn [expiresAt].
  by rewrite (proj2 (Z.ltb_lt _ _) Hnow).
Qed.

(** Eviction keeps iteration order, not age: in a full cache of ten live entries
    the one written last can be the one removed, while the oldest stays. *)
Theorem evictOldest_may_drop_newest :
  let keys := ["k0"; "k1"; "k2"; "k3"; "k4"; "k5"; "k6"; "k7"; "k8"; "k9"] in
  let cfg := {| Cfg_Enabled := true; TTL := 1000; MaxEntries := 10 |} in
  let ops := imap (fun i k => OSet k allow_decision [] 0 (Z.of_nat i)) keys in
  let c := run ops (NewDecisionCache cfg) in
  let c' := Set_ "new" allow_decision (reverse keys) 100 100 c in
  l2Cache c !! "k9" <> None /\ l2Cache c' !! "k9" = None /\ l2Cache c' !! "k0" <> None /\
  evicted c' = 1%Z.
Proof. vm_compute. by repeat split. Qed.

(** ** Witnesses *)

Definition small_cfg : CacheConfig := {| Cfg_Enabled := true; TTL := 100; MaxEntries := 2 |}.

Definition small_history : list cop :=
  [OSet "a" allow_decision [] 0 0; OSet "b" deny_decision ["a"] 1 1;
   OSet "c" allow_decision ["b"; "a"] 2 2; OGet "c" 3].

Lemma cache_bounded_witness :
  iterates small_history (NewDecisionCache small_cfg) /\
  (Z.of_nat (size (l2Cache (run small_history (NewDecisionCache small_cfg)))) <= 2)%Z.
Proof.
  assert (H : iterates small_history (NewDecisionCache small_cfg)).
  { split; [|split; [|split; [|done]]]; apply covers_check; vm_compute; reflexivity. }
  split; [exact H|]. exact (cache_bounded small_cfg small_history H).
Defined.

Lemma cache_hit_sound_witness :
  (Get "c" 50 (run small_history (NewDecisionCache small_cfg))).2 =
    Some (allow_decision, "L2") /\
  exists tset, last_set small_history "c" allow_decision tset /\ (50 < tset + 100)%Z.
Proof.
  assert (H : (Get "c" 50 (run small_history (NewDecisionCache small_cfg))).2 =
                Some (allow_decision, "L2")) by (vm_compute; reflexivity).
  split; [exact H|].
  destruct (cache_hit_sound small_cfg small_history "c" "L2" 50 allow_decision H)
    as [_ (ts & Hl & Ht)].
  exists ts. split; [exact Hl|exact Ht].
Defined.

Lemma cache_set_get_witness :
  (Get "a" 60 (Set_ "a" deny_decision [] 0 10 (NewDecisionCache small_cfg))).2 =
    Some (deny_decision, "L2").
Proof.
  apply (cache_set_get (NewDecisionCache small_cfg) "a" deny_decision [] 0 10 60);
    [reflexivity|]. vm_compute. reflexivity.
Defined.

Lemma ComputeKey_canonical_witness :
  ComputeKey (sample_input "a" "t" ["x"; "y"]) = ComputeKey (sample_input "a" "t" ["y"; "x"]).
Proof.
  apply (ComputeKey_canonical (sample_input "a" "t" ["x"; "y"]) (sample_input "a" "t" ["y"; "x"]));
    [reflexivity|reflexivity|]. simpl. constructor.
Defined.
