(* ===== verification/Engine.v ===== *)
(** * The policy engine

    Models src/internal/policy/engine.go: loading and recompiling policies, the
    evaluation of a request with the decision cache in front of it, the parsing of
    OPA's answer and the statistics. OPA itself is the class [OPA]; the clock readings
    of one call and the order of map iteration are the record [Env]. *)

From Stdlib Require Import ZArith Lia.
From stdpp Require Import base list gmap strings numbers.
From S2P Require Import Prelude Json Sha256 PolicyTypes Cache.

(** What the engine uses of github.com/open-policy-agent/opa: [rego.New(...)] with
    modules and an optional store followed by [PrepareForEval], and [Eval] of a prepared
    query. [Eval] may read the clock, and panics on the zero query. A result set is the
    list of its results, each the list of its expressions' values. *)
Class OPA : Type := {
  Query : Type;
  zero_query : Query;
  PrepareForEval : list (string * string) -> option jobject -> result string Query;
  Eval : Query -> jobject -> Time -> outcome (result string (list (list jvalue)))
}.

Record Env : Type := mkEnv {
  AtStart : Time;
  AtGet : Time;
  AtEval : Time;
  AtEnd : Time;
  AtEvict : Time;
  AtSet : Time;
  Iteration : list string
}.

Record EngineConfig : Type := mkEngineConfig {
  Engine_Mode : string;
  Engine_Enabled : bool;
  Engine_CacheConfig : CacheConfig
}.

Record EngineStats : Type := mkEngineStats {
  Evaluations : Z;
  EvalErrors : Z;
  AvgEvalTimeMs : float64;
  EngineCacheStats : CacheStats
}.

(** ** Parsing OPA's answer *)

Definition type_name (v : jvalue) : string :=
  match v with
  | JNull => "<nil>" | JBool _ => "bool" | JNum _ => "json.Number" | JStr _ => "string"
  | JArr _ => "[]interface {}" | JObj _ => "map[string]interface {}"
  end.

(** The value a missing key has, [nil], fails every assertion as [JNull] does. *)
Definition member (m : jobject) (k : string) : jvalue := default JNull (obj_get m k).

(** [append] in a loop starting from a nil slice. *)
Definition append_all {A} (l : list A) : slice A :=
  match l with [] => None | _ => Some l end.

Definition parseParams (v : jvalue) : list (string * string) :=
  match as_object v with
  | Some params => omap (fun p => s ← as_string p.2; Some (p.1, s)) params
  | None => []
  end.

Definition parseObligation (o : jvalue) : option PolicyObligation :=
  oblMap ← as_object o;
  Some {| Action := default "" (as_string (member oblMap "action"));
          Params := parseParams (member oblMap "params") |}.

Definition parseDecision (value : jvalue) : result string PolicyDecision :=
  match as_object value with
  | None => Err ("unexpected decision type: " +:+ type_name value)
  | Some decisionMap =>
      Ok {| Allow := default false (as_bool (member decisionMap "allow"));
            Violations := append_all
              (omap as_string (default [] (as_array (member decisionMap "violations"))));
            MatchedRule := default "" (as_string (member decisionMap "matched_rule"));
            Obligations := append_all
              (omap parseObligation (default [] (as_array (member decisionMap "obligations")))) |}
  end.

Definition no_result : PolicyDecision :=
  {| Allow := false; Violations := Some ["No policy decision returned"];
     MatchedRule := "no_result"; Obligations := None |}.

Definition policy_disabled : PolicyDecision :=
  {| Allow := true; Violations := None; MatchedRule := "policy_disabled"; Obligations := None |}.

(** ** Average evaluation time *)

Definition updateAvg (avg d : Z) : Z :=
  if (avg =? 0)%Z then d
  else Z.quot (wrap64 (wrap64 (avg * (100 - 10)) + wrap64 (d * 10))) 100.

Section Engine.

Context `{O : OPA}.
Context (time_json : Time -> result string string).

Record Engine : Type := mkEngine {
  query : Query;
  modules : list (string * string);      (* nil and empty alike *)
  policyData : jobject;
  cache : DecisionCache;
  mode : string;
  enabled : bool;
  evaluations : Z;
  evalErrors : Z;
  avgEvalTimeNs : Z
}.

Definition NewEngine (cfg : EngineConfig) : Engine :=
  {| query := zero_query; modules := []; policyData := [];
     cache := NewDecisionCache (Engine_CacheConfig cfg);
     mode := if bool_decide (Engine_Mode cfg = "") then "enforce" else Engine_Mode cfg;
     enabled := Engine_Enabled cfg; evaluations := 0; evalErrors := 0; avgEvalTimeNs := 0 |}.

Definition with_policy (q : Query) (ms : list (string * string)) (data : jobject)
    (c : DecisionCache) (e : Engine) : Engine :=
  {| query := q; modules := ms; policyData := data; cache := c; mode := mode e;
     enabled := enabled e; evaluations := evaluations e; evalErrors := evalErrors e;
     avgEvalTimeNs := avgEvalTimeNs e |}.

Definition with_cache (c : DecisionCache) (e : Engine) : Engine :=
  with_policy (query e) (modules e) (policyData e) c e.

Definition count_error (e : Engine) : Engine :=
  {| query := query e; modules := modules e; policyData := policyData e; cache := cache e;
     mode := mode e; enabled := enabled e; evaluations := evaluations e;
     evalErrors := wrap64 (evalErrors e + 1); avgEvalTimeNs := avgEvalTimeNs e |}.

(** [updateAvgEvalTime] and the counter before it. *)
Definition count_evaluation (d : Duration) (e : Engine) : Engine :=
  {| query := query e; modules := modules e; policyData := policyData e; cache := cache e;
     mode := mode e; enabled := enabled e; evaluations := wrap64 (evaluations e + 1);
     evalErrors := evalErrors e; avgEvalTimeNs := updateAvg (avgEvalTimeNs e) d |}.

(** [compileWithData]: the query is replaced only when compilation succeeds. *)
Definition store_of (data : jobject) : option jobject :=
  match data with [] => None | _ => Some data end.

Definition compileWithData (e : Engine) : Engine * result string unit :=
  match wrap_err "failed to compile policies"
          (PrepareForEval (modules e) (store_of (policyData e))) with
  | Ok q => (with_policy q (modules e) (policyData e) (cache e) e, Ok tt)
  | Err msg => (e, Err msg)
  end.

Definition LoadPolicies (ms : list (string * string)) (e : Engine) : Engine * result string unit :=
  compileWithData (with_policy (query e) ms (policyData e) (cache e) e).

Definition SetPolicyData (data : jobject) (e : Engine) : Engine * result string unit :=
  let e := with_policy (query e) (modules e) data (Invalidate (cache e)) e in
  match modules e with
  | [] => (e, Ok tt)
  | _ => compileWithData e
  end.

(** [evaluatePolicy] after it has read [e.query]. *)
Definition runQuery (q : Query) (input : PolicyInput) (now : Time)
    : outcome (result string PolicyDecision) :=
  match wrap_err "failed to convert input" (structToMap time_json input) with
  | Err msg => Ret (Err msg)
  | Ok inputMap =>
      res ← Eval q inputMap now;
      match wrap_err "evaluation error" res with
      | Err msg => Ret (Err msg)
      | Ok [] => Ret (Ok no_result)
      | Ok ([] :: _) => Panic "index out of range"
      | Ok ((v :: _) :: _) => Ret (wrap_err "failed to parse decision" (parseDecision v))
      end
  end.

Definition evaluatePolicy (e : Engine) (input : PolicyInput) (now : Time)
    : outcome (result string PolicyDecision) := runQuery (query e) input now.

Definition mk_result (env : Env) (e : Engine) (input : PolicyInput) (d : PolicyDecision)
    (hit : bool) (tier : string) : EvaluationResult :=
  {| Decision := d; Input := input; EvalTime := time_sub (AtEnd env) (AtStart env); CacheHit := hit; CacheTier := tier;
     Result_PolicyMode := mode e |}.

Definition Evaluate (env : Env) (input : PolicyInput) (e : Engine)
    : Engine * outcome (result string EvaluationResult) :=
  if enabled e then
    let cacheKey := ComputeKey input in
    let '(c, got) := Cache.Get cacheKey (AtGet env) (cache e) in
    let e := with_cache c e in
    match got with
    | Some (cached, tier) => (e, Ret (Ok (mk_result env e input cached true tier)))
    | None =>
        match evaluatePolicy e input (AtEval env) with
        | Panic msg => (e, Panic msg)
        | Ret (Err msg) =>
            (count_error e, Ret (Err ("policy evaluation failed: " +:+ msg)))
        | Ret (Ok d) =>
            let result := mk_result env e input d false "" in
            let e := count_evaluation (EvalTime result) e in
            let e := with_cache (Set_ cacheKey d (Iteration env) (AtEvict env) (AtSet env)
                                   (cache e)) e in
            (e, Ret (Ok result))
        end
    end
  else (e, Ret (Ok (mk_result env e input policy_disabled false ""))).

Definition IsAllowed (env : Env) (input : PolicyInput) (e : Engine)
    : Engine * outcome (result string (bool * EvaluationResult)) :=
  let '(e', r) := Evaluate env input e in
  (e', match r with
       | Panic msg => Panic msg
       | Ret (Err msg) => Ret (Err msg)
       | Ret (Ok res) =>
           if bool_decide (mode e' = "audit") then Ret (Ok (true, res))
           else Ret (Ok (Allow (Decision res), res))
       end).

Definition IsReady (e : Engine) : bool :=
  if enabled e then negb (bool_decide (modules e = [])) else true.

Definition Mode (e : Engine) : string := mode e.

Definition EngineStatsOf (e : Engine) : EngineStats :=
  {| Evaluations := evaluations e; EvalErrors := evalErrors e;
     AvgEvalTimeMs := float_div (float_of_Z (avgEvalTimeNs e)) (float_of_Z 1000000);
     EngineCacheStats := Stats (cache e) |}.

(** ** Histories *)

Inductive eop : Type :=
| ELoad (ms : list (string * string))
| EData (data : jobject)
| EEvaluate (env : Env) (input : PolicyInput).

Definition apply_eop (e : Engine) (o : eop) : Engine :=
  match o with
  | ELoad ms => (LoadPolicies ms e).1
  | EData data => (SetPolicyData data e).1
  | EEvaluate env input => (Evaluate env input e).1
  end.

Definition erun (ops : list eop) (e : Engine) : Engine := foldl apply_eop e ops.

(** The evaluation of a history that a decision served from the cache at [now] comes
    from: an input with this key was evaluated to it by the policies then in force,
    later than the last change of the policy data, and less than the time to live ago. *)
Definition justified (cfg : EngineConfig) (ops : list eop) (key : string)
    (d : PolicyDecision) (now : Time) : Prop :=
  exists pre env input post,
    ops = pre ++ EEvaluate env input :: post /\
    ComputeKey input = key /\
    evaluatePolicy (erun pre (NewEngine cfg)) input (AtEval env) = Ret (Ok d) /\
    (now < AtSet env + l2TTL (cache (NewEngine cfg)))%Z /\
    Forall (fun o => match o with EData _ => False | _ => True end) post.

(** ** Lemmas *)

(** Operations that never run change nothing but the policy and the cache. *)
Lemma compileWithData_frame e :
  cache (compileWithData e).1 = cache e /\ mode (compileWithData e).1 = mode e /\
  enabled (compileWithData e).1 = enabled e /\
  modules (compileWithData e).1 = modules e /\ policyData (compileWithData e).1 = policyData e.
Proof. unfold compileWithData. by case_match. Qed.

Lemma SetPolicyData_cache data e :
  cache (SetPolicyData data e).1 = Invalidate (cache e).
Proof.
  unfold SetPolicyData. simpl. case_match; [done|]. by rewrite (proj1 (compileWithData_frame _)).
Qed.

Lemma cache_Get_cfg key now c : same_cfg c (Cache.Get key now c).1.
Proof. apply (apply_op_cfg c (OGet key now)). Qed.

Lemma Get_l2Cache key now c : l2Cache (Cache.Get key now c).1 = l2Cache c.
Proof. unfold Cache.Get. by repeat case_match. Qed.

(** The cache of an engine is the state of a cache history. *)
Lemma Evaluate_cache env input e :
  cache (Evaluate env input e).1 = cache e \/
  cache (Evaluate env input e).1 = (Cache.Get (ComputeKey input) (AtGet env) (cache e)).1 \/
  exists d, evaluatePolicy e input (AtEval env) = Ret (Ok d) /\
    cache (Evaluate env input e).1 =
      Set_ (ComputeKey input) d (Iteration env) (AtEvict env) (AtSet env)
        (Cache.Get (ComputeKey input) (AtGet env) (cache e)).1.
Proof.
  unfold Evaluate. destruct (enabled e); [|by left]. right.
  destruct (Cache.Get _ _ _) as [c got]. destruct got as [[d tier]|]; [by left|].
  change (evaluatePolicy (with_cache c e) input (AtEval env))
    with (evaluatePolicy e input (AtEval env)).
  destruct (evaluatePolicy e input (AtEval env)) as [[d|msg]|msg]; [right|by left..].
  by exists d.
Qed.

Lemma apply_eop_cache_cfg e o : same_cfg (cache e) (cache (apply_eop e o)).
Proof.
  destruct o as [ms|data|env input]; simpl.
  - unfold LoadPolicies. by rewrite (proj1 (compileWithData_frame _)).
  - rewrite SetPolicyData_cache. apply (apply_op_cfg (cache e) OInvalidate).
  - destruct (Evaluate_cache env input e) as [->|[->|(d & _ & ->)]];
      [done|apply cache_Get_cfg|].
    etrans; [apply (cache_Get_cfg (ComputeKey input) (AtGet env))|].
    apply (apply_op_cfg _ (OSet (ComputeKey input) d (Iteration env) (AtEvict env) (AtSet env))).
Qed.

Lemma erun_snoc ops o e : erun (ops ++ [o]) e = apply_eop (erun ops e) o.
Proof. unfold erun. by rewrite foldl_app. Qed.

Lemma erun_cache_cfg ops e : same_cfg (cache e) (cache (erun ops e)).
Proof.
  unfold erun. revert e. induction ops as [|o ops IH]; intros e; simpl; [done|].
  etrans; [apply apply_eop_cache_cfg|apply IH].
Qed.

Lemma apply_eop_mode e o : mode (apply_eop e o) = mode e /\ enabled (apply_eop e o) = enabled e.
Proof.
  destruct o as [ms|data|env input]; simpl.
  - unfold LoadPolicies.
    destruct (compileWithData_frame (with_policy (query e) ms (policyData e) (cache e) e))
      as (_ & -> & -> & _). done.
  - unfold SetPolicyData. simpl. case_match; [done|].
    match goal with |- context [compileWithData ?x] =>
      destruct (compileWithData_frame x) as (_ & -> & -> & _) end. done.
  - unfold Evaluate. destruct (enabled e) eqn:He; [|done].
    destruct (Cache.Get _ _ _) as [c got]. repeat case_match; done.
Qed.

Lemma erun_mode ops e : mode (erun ops e) = mode e /\ enabled (erun ops e) = enabled e.
Proof.
  unfold erun. revert e. induction ops as [|o ops IH]; intros e; simpl; [done|].
  destruct (apply_eop_mode e o) as [<- <-]. apply IH.
Qed.

Lemma justified_snoc cfg ops o key d now :
  justified cfg ops key d now -> (forall data, o <> EData data) ->
  justified cfg (ops ++ [o]) key d now.
Proof.
  intros (pre & env & input & post & -> & Hk & He & Ht & Hp) Ho.
  exists pre, env, input, (post ++ [o]). rewrite <- app_assoc.
  split; [done|]. split; [done|]. split; [done|]. split; [done|].
  apply Forall_app. split; [done|]. constructor; [|done]. destruct o; [done| |done]. by destruct (Ho data).
Qed.

(** [Set] leaves the other entries as they were or removes them. *)
Lemma Set_other key d order te ts c k e :
  l2Cache (Set_ key d order te ts c) !! k = Some e -> k <> key -> l2Cache c !! k = Some e.
Proof.
  unfold Set_. destruct (Cache.enabled c); [|done]. simpl.
  intros [[??]|[_ He]]%lookup_insert_Some Hne; [congruence|].
  destruct (_ >=? _)%Z; [|done]. eapply lookup_weaken; [exact He|apply evictOldest_subseteq].
Qed.

Lemma erun_entry cfg ops key entry now :
  Cache.enabled (cache (NewEngine cfg)) = true ->
  l2Cache (cache (erun ops (NewEngine cfg))) !! key = Some entry ->
  (now < expiresAt entry)%Z -> justified cfg ops key (decision entry) now.
Proof.
  intros Hen0. revert key entry. induction ops as [|o ops IH] using rev_ind; intros key entry.
  { cbn. by rewrite lookup_empty. }
  rewrite erun_snoc. destruct (erun_cache_cfg ops (NewEngine cfg)) as (Httl & _ & Hen).
  rewrite Hen0 in Hen. set (e := erun ops (NewEngine cfg)) in *.
  intros Hl Hnow.
  assert (Hold : l2Cache (cache e) !! key = Some entry -> (forall data, o <> EData data) ->
                 justified cfg (ops ++ [o]) key (decision entry) now).
  { intros H1 H2. by apply justified_snoc; [apply IH|]. }
  destruct o as [ms|data|env input]; simpl in Hl.
  - apply Hold; [|done]. revert Hl. unfold LoadPolicies.
    by rewrite (proj1 (compileWithData_frame _)).
  - revert Hl. rewrite SetPolicyData_cache. unfold Invalidate. rewrite Hen. simpl.
    by rewrite lookup_empty.
  - destruct (Evaluate_cache env input e) as [Hc|[Hc|(d & Hd & Hc)]]; rewrite Hc in Hl;
      [by apply Hold|rewrite Get_l2Cache in Hl; by apply Hold|].
    destruct (cache_Get_cfg (ComputeKey input) (AtGet env) (cache e)) as (Ht1 & _ & He1).
    destruct (decide (key = ComputeKey input)) as [->|Hne].
    + rewrite Set_lookup in Hl by congruence. simplify_eq Hl. intros <-.
      exists ops, env, input, []. split; [done|]. split; [done|]. split; [done|].
      split; [|done]. simpl in Hnow. rewrite Ht1, Httl in Hnow. exact Hnow.
    + apply Set_other in Hl; [|done]. rewrite Get_l2Cache in Hl. by apply Hold.
Qed.

(** What a successful evaluation returned. *)
Lemma Evaluate_result env input e res :
  (Evaluate env input e).2 = Ret (Ok res) -> enabled e = true ->
  (CacheHit res = false /\
   evaluatePolicy e input (AtEval env) = Ret (Ok (Decision res))) \/
  (CacheHit res = true /\
   (Cache.Get (ComputeKey input) (AtGet env) (cache e)).2 = Some (Decision res, CacheTier res)).
Proof.
  intros Hr Hen. unfold Evaluate in Hr. rewrite Hen in Hr.
  destruct (Cache.Get _ _ _) as [c got]. destruct got as [[d tier]|]; simpl in *.
  { right. by simplify_eq. }
  left. change (evaluatePolicy (with_cache c e) input (AtEval env))
    with (evaluatePolicy e input (AtEval env)) in Hr.
  destruct (evaluatePolicy e input (AtEval env)) as [[d|msg]|msg]; by simplify_eq/=.
Qed.

Lemma Get_hit key now c d tier :
  (Cache.Get key now c).2 = Some (d, tier) ->
  Cache.enabled c = true /\
  exists entry, l2Cache c !! key = Some entry /\ decision entry = d /\ (now < expiresAt entry)%Z.
Proof.
  unfold Cache.Get. destruct (Cache.enabled c); [|done].
  destruct (l2Cache c !! key) as [entry|]; [|done].
  destruct (Z.ltb_spec now (expiresAt entry)); [|done]. simpl. intros [= <- <-].
  split; [done|]. by exists entry.
Qed.

(** Evaluations leave the policy in force alone. *)
Definition is_evaluation (o : eop) : Prop :=
  match o with EEvaluate _ _ => True | _ => False end.

Lemma erun_query ops e : Forall is_evaluation ops -> query (erun ops e) = query e.
Proof.
  intros H. revert e. induction H as [|o ops Ho _ IH]; intros e; [done|].
  unfold erun in *. simpl. rewrite IH. destruct o as [| |env input]; [done..|]. simpl.
  unfold Evaluate. destruct (enabled e); [|done].
  destruct (Cache.Get _ _ _) as [c got]. by repeat case_match.
Qed.

Lemma evaluatePolicy_query e1 e2 input now :
  query e1 = query e2 -> evaluatePolicy e1 input now = evaluatePolicy e2 input now.
Proof. intros H. unfold evaluatePolicy. by rewrite H. Qed.

(** Where a decision comes from. *)
Lemma Evaluate_provenance cfg ops env input res :
  Engine_Enabled cfg = true ->
  (Evaluate env input (erun ops (NewEngine cfg))).2 = Ret (Ok res) ->
  (CacheHit res = false /\
   evaluatePolicy (erun ops (NewEngine cfg)) input (AtEval env) = Ret (Ok (Decision res))) \/
  (CacheHit res = true /\ justified cfg ops (ComputeKey input) (Decision res) (AtGet env)).
Proof.
  intros Hen Hres.
  destruct (Evaluate_result _ _ _ _ Hres) as [H|[Hhit Hget]]; [|by left|right].
  { by rewrite (proj2 (erun_mode ops _)). }
  split; [done|]. apply Get_hit in Hget as (Hcen & entry & Hl & Hd & Ht).
  rewrite <- Hd. apply erun_entry; [|done|done].
  destruct (erun_cache_cfg ops (NewEngine cfg)) as (_ & _ & <-). exact Hcen.
Qed.

Lemma Evaluate_mode env input e res :
  (Evaluate env input e).2 = Ret (Ok res) -> Result_PolicyMode res = mode e.
Proof.
  unfold Evaluate. destruct (enabled e); [|by intros [= <-]].
  destruct (Cache.Get _ _ _) as [c [[d tier]|]]; simpl; [by intros [= <-]|].
  destruct (evaluatePolicy _ _ _) as [[d|msg]|msg]; simpl; [|done..]. by intros [= <-].
Qed.

(** What OPA must have answered for an evaluation to allow. *)
Definition opa_allows (e : Engine) (input : PolicyInput) (now : Time) : Prop :=
  exists inputMap m vs rs, structToMap time_json input = Ok inputMap /\
    Eval (query e) inputMap now = Ret (Ok ((JObj m :: vs) :: rs)) /\
    obj_get m "allow" = Some (JBool true).

Lemma evaluatePolicy_allows e input now d :
  evaluatePolicy e input now = Ret (Ok d) -> Allow d = true -> opa_allows e input now.
Proof.
  unfold evaluatePolicy, runQuery, opa_allows. intros H Ha.
  destruct (structToMap time_json input) as [im|]; [|done]. cbn in H.
  destruct (Eval (query e) im now) as [[rs|]|] eqn:HE; [|done..].
  destruct rs as [|[|v vs] rs]; simplify_eq/=.
  unfold parseDecision in H. destruct v as [| | | | |m]; [done..|]. cbn in H.
  injection H as <-. cbn in Ha. unfold member in Ha.
  destruct (obj_get m "allow") as [[|[]| | | |]|] eqn:E; try discriminate Ha.
  by exists im, m, vs, rs.
Qed.

(** ** Properties *)

(** C10: No decision is invented. In every state the engine can reach by loading
    policies, changing policy data and evaluating, a decision it returns was either
    computed now by the policies in force, or comes from the cache, and then an input
    with the same key was evaluated to exactly this decision, after the last change of
    the policy data and less than the cache's time to live ago. *)
Theorem Evaluate_justified (cfg : EngineConfig) (ops : list eop) (env : Env)
    (input : PolicyInput) (res : EvaluationResult)
    (Hen : Engine_Enabled cfg = true)
    (Hres : (Evaluate env input (erun ops (NewEngine cfg))).2 = Ret (Ok res)) :
  (CacheHit res = false /\
   evaluatePolicy (erun ops (NewEngine cfg)) input (AtEval env) = Ret (Ok (Decision res))) \/
  (CacheHit res = true /\ justified cfg ops (ComputeKey input) (Decision res) (AtGet env)).
Proof. by apply Evaluate_provenance. Qed.

(** C22: Where the policy's answer is a function of the cache key, the cache is
    transparent: after loading policies, every evaluation returns the decision that a
    fresh evaluation of the loaded policies gives, whatever was evaluated before. *)
Theorem cache_transparent (cfg : EngineConfig) (ms : list (string * string))
    (evals : list eop) (env : Env) (input : PolicyInput) (res : EvaluationResult)
    (Hen : Engine_Enabled cfg = true)
    (Hevals : Forall is_evaluation evals)
    (Hkey : forall i1 i2 t1 t2, ComputeKey i1 = ComputeKey i2 ->
       evaluatePolicy (erun [ELoad ms] (NewEngine cfg)) i1 t1 =
       evaluatePolicy (erun [ELoad ms] (NewEngine cfg)) i2 t2)
    (Hres : (Evaluate env input (erun (ELoad ms :: evals) (NewEngine cfg))).2 = Ret (Ok res)) :
  evaluatePolicy (erun [ELoad ms] (NewEngine cfg)) input (AtEval env) = Ret (Ok (Decision res)).
Proof.
  set (e0 := erun [ELoad ms] (NewEngine cfg)) in *.
  change (erun (ELoad ms :: evals) (NewEngine cfg)) with (erun evals e0) in Hres.
  destruct (Evaluate_result _ _ _ _ Hres) as [[_ Hev]|[_ Hget]].
  { rewrite (proj2 (erun_mode evals _)). by etrans; [apply (erun_mode [ELoad ms])|]. }
  { rewrite <- Hev. apply evaluatePolicy_query. by rewrite erun_query. }
  apply Get_hit in Hget as (Hcen & entry & Hl & Hd & Ht).
  destruct (erun_entry cfg (ELoad ms :: evals) (ComputeKey input) entry (AtGet env))
    as (pre & env' & i' & post & Heq & Hk & Hev & _ & _); [|done|done|].
  { destruct (erun_cache_cfg (ELoad ms :: evals) (NewEngine cfg)) as (_ & _ & <-). exact Hcen. }
  destruct pre as [|o pre]; [done|]. injection Heq as <- ->.
  apply Forall_app in Hevals as [Hpre _]. rewrite Hd in Hev. rewrite <- Hev.
  etrans; [by apply Hkey|]. apply evaluatePolicy_query. symmetry. by apply (erun_query pre e0).
Qed.

(** Changing the policy data takes effect at once: the next evaluation never comes
    from the cache. When the recompilation succeeds it runs the stored modules against
    the new data, and when it fails the previous query stays in force. *)
Theorem SetPolicyData_takes_effect (data : jobject) (e : Engine) (env : Env)
    (input : PolicyInput) :
  let '(e', r) := SetPolicyData data e in
  (forall res, (Evaluate env input e').2 = Ret (Ok res) -> CacheHit res = false) /\
  match r with
  | Ok _ => modules e <> [] -> PrepareForEval (modules e) (store_of data) = Ok (query e')
  | Err _ => query e' = query e /\ modules e <> []
  end.
Proof.
  destruct (SetPolicyData data e) as [e' r] eqn:E. split.
  - intros res Hres. destruct (enabled e') eqn:Hen.
    2: { unfold Evaluate in Hres. rewrite Hen in Hres. by simplify_eq/=. }
    destruct (Evaluate_result _ _ _ _ Hres Hen) as [[H _]|[_ Hget]]; [done|].
    apply Get_hit in Hget as (Hcen & entry & Hl & _).
    pose proof (SetPolicyData_cache data e) as Hc. rewrite E in Hc. simpl in Hc.
    rewrite Hc in Hl, Hcen. unfold Invalidate in *.
    destruct (Cache.enabled (cache e)) eqn:?; simpl in *; [|congruence].
    by rewrite lookup_empty in Hl.
  - unfold SetPolicyData in E. simpl in E. destruct (modules e) as [|m ms].
    { by simplify_eq/=. }
    unfold compileWithData in E. simpl in E.
    destruct (PrepareForEval (m :: ms) (store_of data)); by simplify_eq/=.
Qed.

(** Loading policies that do not compile reports the error and leaves what is
    evaluated unchanged: every evaluation then behaves as it did before. *)
Theorem LoadPolicies_failure (ms : list (string * string)) (e e' : Engine) (msg : string)
    (Hload : LoadPolicies ms e = (e', Err msg)) (env : Env) (input : PolicyInput) :
  (Evaluate env input e').2 = (Evaluate env input e).2 /\
  exists err, PrepareForEval ms (store_of (policyData e)) = Err err.
Proof.
  unfold LoadPolicies, compileWithData in Hload. simpl in Hload.
  destruct (PrepareForEval ms (store_of (policyData e))) as [q|err] eqn:Hp; simplify_eq/=.
  split; [|by exists err]. unfold Evaluate. simpl. destruct (enabled e); [|done].
  destruct (Cache.Get _ _ _) as [c [[d tier]|]]; [done|].
  unfold evaluatePolicy, runQuery. simpl. by repeat case_match.
Qed.

(** [IsAllowed] answers [true] in enforce mode exactly for the decisions that
    allow, in audit mode for every decision, and never when the evaluation failed. *)
Theorem IsAllowed_spec (env : Env) (input : PolicyInput) (e : Engine) (b : bool)
    (res : EvaluationResult) :
  (IsAllowed env input e).2 = Ret (Ok (b, res)) <->
  (Evaluate env input e).2 = Ret (Ok res) /\
  b = (bool_decide (mode e = "audit") || Allow (Decision res)).
Proof.
  assert (Hm : mode (Evaluate env input e).1 = mode e)
    by apply (apply_eop_mode e (EEvaluate env input)).
  unfold IsAllowed. destruct (Evaluate env input e) as [e' [[r|m]|m]]; simpl in *;
    [|naive_solver..].
  rewrite Hm. case_bool_decide; simpl; naive_solver.
Qed.

End Engine.

(** Parsing OPA's answer fails closed: the parsed decision allows exactly when the
    answer is an object whose [allow] member is the boolean [true], so a missing, null,
    string or numeric [allow] denies, and an answer that is no object is an error. *)
Theorem parseDecision_fail_closed (v : jvalue) :
  match parseDecision v with
  | Ok d => Allow d = true <-> exists m, v = JObj m /\ obj_get m "allow" = Some (JBool true)
  | Err _ => forall m, v <> JObj m
  end.
Proof.
  unfold parseDecision. destruct v as [| | | | |m]; simpl; [done..|].
  unfold member. destruct (obj_get m "allow") as [[|b| | | |]|] eqn:E; simpl;
    split; intros H; simplify_eq/=; try naive_solver.
Qed.

(** The moving average of evaluation times never overflows and stays between the
    old average and the new sample, as long as both are below a hundredth of the
    largest [int64] (about three years). *)
Theorem updateAvg_between (avg d : Z)
    (Havg : (0 < avg <= max_int64 / 100)%Z) (Hd : (0 <= d <= max_int64 / 100)%Z) :
  (Z.min avg d <= updateAvg avg d <= Z.max avg d)%Z.
Proof.
  unfold updateAvg. destruct (Z.eqb_spec avg 0) as [->|_]; [lia|].
  assert (max_int64 / 100 = 92233720368547758)%Z as Hm by reflexivity.
  rewrite (wrap64_id (avg * (100 - 10))), (wrap64_id (d * 10)), wrap64_id
    by (unfold_int; lia).
  rewrite Z.quot_div_nonneg by lia. split.
  - apply Z.div_le_lower_bound; lia.
  - apply Z.div_le_upper_bound; lia.
Qed.

(** ** Concrete runs *)

(** An [OPA] whose modules are named by what they decide: ["allow"], ["deny"], or
    ["rate"], which allows while the session's request count is below ten (the shape of
    src/policies/rate_limit.rego with a limit of ten). Preparing no module fails, and
    the zero query panics. *)
Definition rate_ok (input : jobject) : bool :=
  match obj_get input "session" with
  | Some (JObj s) =>
      match obj_get s "request_count" with
      | Some (JNum n) => SpecFloat.SFltb n (float_of_Z 10)
      | _ => false
      end
  | _ => false
  end.

Definition sample_eval (m : string) (input : jobject) : bool :=
  if bool_decide (m = "rate") then rate_ok input else bool_decide (m = "allow").

#[local] Instance sample_opa : OPA := {|
  Query := option string;
  zero_query := None;
  PrepareForEval ms _ :=
    match ms with
    | [] => Err "no modules"
    | (_, m) :: _ => if bool_decide (m = "broken") then Err "parse error" else Ok (Some m)
    end;
  Eval q input _ :=
    match q with
    | None => Panic "nil pointer dereference"
    | Some m => Ret (Ok [[JObj [("allow", JBool (sample_eval m input))]]])
    end
|}.

Definition sample_time (t : Time) : result string string := Ok (itoa t).

Definition sample_env (t : Time) : Env := mkEnv t t t t t t [].

Definition sample_cfg : EngineConfig :=
  {| Engine_Mode := "enforce"; Engine_Enabled := true;
     Engine_CacheConfig := {| Cfg_Enabled := true; TTL := 100; MaxEntries := 10 |} |}.

Definition uncached_cfg : EngineConfig :=
  {| Engine_Mode := "enforce"; Engine_Enabled := true;
     Engine_CacheConfig := {| Cfg_Enabled := false; TTL := 100; MaxEntries := 10 |} |}.

(** The [n]th request of a session. *)
Definition nth_request (n : Z) : PolicyInput :=
  WithSession "s" n 0 (sample_input "agent" "tool" ["read:*"]).

Definition allowed (r : outcome (result string EvaluationResult)) : option bool :=
  match r with Ret (Ok res) => Some (Allow (Decision res)) | _ => None end.

(** A cached decision outlives the rate limit that should end it. With a policy that
    allows fewer than ten requests of a session, the hundredth request is allowed
    because the first one was and the key ignores the request count; without the cache
    it is denied. *)
Theorem cache_defeats_rate_limit :
  let ops := [ELoad [("policy.rego", "rate")]; EEvaluate (sample_env 1) (nth_request 1)] in
  allowed (Evaluate sample_time (sample_env 2) (nth_request 100)
             (erun sample_time ops (NewEngine sample_cfg))).2 = Some true /\
  allowed (Evaluate sample_time (sample_env 2) (nth_request 100)
             (erun sample_time ops (NewEngine uncached_cfg))).2 = Some false.
Proof. vm_compute. by split. Qed.

(** Loading new policies does not invalidate the cache: after a policy that denies
    everything has been loaded successfully, a decision of the replaced policy is still
    served. *)
Theorem LoadPolicies_keeps_stale_decisions :
  let ops := [ELoad [("policy.rego", "allow")]; EEvaluate (sample_env 1) (nth_request 1)] in
  let '(e, r) := LoadPolicies [("policy.rego", "deny")]
                   (erun sample_time ops (NewEngine sample_cfg)) in
  r = Ok tt /\
  allowed (Evaluate sample_time (sample_env 2) (nth_request 1) e).2 = Some true /\
  (evaluatePolicy sample_time e (nth_request 1) 2) =
    Ret (Ok {| Allow := false; Violations := None; MatchedRule := ""; Obligations := None |}).
Proof. vm_compute. by repeat split. Qed.

(** An engine whose only load failed still reports that it is ready, and an
    evaluation of it panics. *)
Theorem IsReady_after_failed_load :
  let '(e, r) := LoadPolicies [("policy.rego", "broken")] (NewEngine sample_cfg) in
  is_ok r = false /\ IsReady e = true /\
  (Evaluate sample_time (sample_env 1) (nth_request 1) e).2 = Panic "nil pointer dereference".
Proof. vm_compute. by repeat split. Qed.

(** ** Witnesses *)

Definition warm_ops : list eop :=
  [ELoad [("policy.rego", "allow")]; EEvaluate (sample_env 1) (nth_request 1)].

Definition warm_result : EvaluationResult :=
  {| Decision := {| Allow := true; Violations := None; MatchedRule := ""; Obligations := None |};
     Input := nth_request 2; EvalTime := 0; CacheHit := true; CacheTier := "L2";
     Result_PolicyMode := "enforce" |}.

Lemma warm_hit :
  (Evaluate sample_time (sample_env 5) (nth_request 2)
     (erun sample_time warm_ops (NewEngine sample_cfg))).2 = Ret (Ok warm_result).
Proof. vm_compute. reflexivity. Qed.

Lemma Evaluate_justified_witness :
  CacheHit warm_result = true /\
  justified sample_time sample_cfg warm_ops (ComputeKey (nth_request 2))
    (Decision warm_result) 5.
Proof.
  destruct (Evaluate_justified sample_time sample_cfg warm_ops (sample_env 5) (nth_request 2)
              warm_result) as [[H _]|H]; [reflexivity|exact warm_hit|discriminate H|exact H].
Defined.

(** The ["allow"] policy ignores its input. *)
Lemma allow_ignores_input i t :
  evaluatePolicy sample_time
    (erun sample_time [ELoad [("policy.rego", "allow")]] (NewEngine sample_cfg)) i t =
  Ret (Ok {| Allow := true; Violations := None; MatchedRule := ""; Obligations := None |}).
Proof. reflexivity. Qed.

Lemma cache_transparent_witness :
  evaluatePolicy sample_time
    (erun sample_time [ELoad [("policy.rego", "allow")]] (NewEngine sample_cfg))
    (nth_request 2) 5 = Ret (Ok (Decision warm_result)).
Proof.
  apply (cache_transparent sample_time sample_cfg [("policy.rego", "allow")]
    [EEvaluate (sample_env 1) (nth_request 1)] (sample_env 5) (nth_request 2) warm_result);
    [reflexivity|repeat constructor| |exact warm_hit].
  intros i1 i2 t1 t2 _. rewrite !allow_ignores_input. reflexivity.
Defined.

Lemma LoadPolicies_failure_witness :
  exists e', LoadPolicies [("policy.rego", "broken")]
      (erun sample_time warm_ops (NewEngine sample_cfg)) =
    (e', Err "failed to compile policies: parse error") /\
  (Evaluate sample_time (sample_env 5) (nth_request 2) e').2 = Ret (Ok warm_result).
Proof.
  eexists. split; [reflexivity|]. rewrite <- warm_hit.
  apply (LoadPolicies_failure sample_time [("policy.rego", "broken")] _ _
    "failed to compile policies: parse error"). reflexivity.
Defined.

Lemma updateAvg_between_witness : (100 <= updateAvg 200 100 <= 200)%Z.
Proof. apply (updateAvg_between 200 100); vm_compute; split; discriminate || reflexivity. Defined.
