(* ===== verification/EngineConc.v ===== *)
(** * The policy engine under interleaving

    The operations of src/internal/policy/engine.go cut at the points where another goroutine
    can run: [Evaluate] looks into the cache, reads the query under [mu], evaluates, and fills
    the cache; [LoadPolicies] and [SetPolicyData] hold [mu] from the test of the modules to
    the end of the compilation, and read the policy data under [dataMu] in between. A critical
    section of the cache, of [dataMu] or of the read lock is one step, because nothing else
    happens in it. The counters of the engine are updated without a lock; here each update is
    one step, so the updates that a data race can lose are not modelled. *)

From Stdlib Require Import ZArith Lia.
From stdpp Require Import base list gmap sets strings numbers relations.
From S2P Require Import Prelude Json PolicyTypes Cache Engine.

Section EngineConc.

Context `{O : OPA}.
Context (time_json : Time -> result string string).

(** Where a goroutine stands. *)
Inductive pc : Type :=
(* Evaluate *)
| EStart (env : Env) (input : PolicyInput)
| EQuery (env : Env) (input : PolicyInput)               (* not in the cache *)
| EEval (env : Env) (input : PolicyInput) (q : Query)    (* query read *)
| ESet (env : Env) (input : PolicyInput) (d : PolicyDecision)
| ERet (r : outcome (result string EvaluationResult))
(* LoadPolicies *)
| LStart (ms : list (string * string))
(* SetPolicyData *)
| SStart (data : jobject)
| SInvalidate
| SLock
(* compileWithData, mu held: read the data, compile and assign *)
| CRead
| CInstall (data : jobject)
| URet (r : result string unit).

(** One step of a goroutine: the engine, whether [mu] is locked for writing, and its next
    point; [None] when it has returned or waits for [mu]. *)
Definition pstep (e : Engine) (mu : bool) (p : pc) : option (Engine * bool * pc) :=
  match p with
  | EStart env input =>
      if enabled e then
        let '(c, got) := Cache.Get (ComputeKey input) (AtGet env) (cache e) in
        Some (with_cache c e, mu,
              match got with
              | Some (d, tier) => ERet (Ret (Ok (mk_result env e input d true tier)))
              | None => EQuery env input
              end)
      else Some (e, mu, ERet (Ret (Ok (mk_result env e input policy_disabled false ""))))
  | EQuery env input => if mu then None else Some (e, mu, EEval env input (query e))
  | EEval env input q =>
      Some (match runQuery time_json q input (AtEval env) with
            | Panic msg => (e, mu, ERet (Panic msg))
            | Ret (Err msg) =>
                (count_error e, mu, ERet (Ret (Err ("policy evaluation failed: " +:+ msg))))
            | Ret (Ok d) =>
                (count_evaluation (time_sub (AtEnd env) (AtStart env)) e, mu, ESet env input d)
            end)
  | ESet env input d =>
      Some (with_cache (Set_ (ComputeKey input) d (Iteration env) (AtEvict env) (AtSet env) (cache e)) e,
            mu, ERet (Ret (Ok (mk_result env e input d false ""))))
  | LStart ms =>
      if mu then None
      else Some (with_policy (query e) ms (policyData e) (cache e) e, true, CRead)
  | SStart data => Some (with_policy (query e) (modules e) data (cache e) e, mu, SInvalidate)
  | SInvalidate => Some (with_cache (Invalidate (cache e)) e, mu, SLock)
  | SLock =>
      if mu then None
      else match modules e with
           | [] => Some (e, false, URet (Ok tt))
           | _ => Some (e, true, CRead)
           end
  | CRead => Some (e, mu, CInstall (policyData e))
  | CInstall data =>
      Some (match wrap_err "failed to compile policies"
                    (PrepareForEval (modules e) (store_of data)) with
            | Ok q => (with_policy q (modules e) (policyData e) (cache e) e, false, URet (Ok tt))
            | Err msg => (e, false, URet (Err msg))
            end)
  | ERet _ | URet _ => None
  end.

Record cstate : Type := mkCstate {
  eng : Engine;
  locked : bool;
  threads : list pc
}.

(** Goroutine [i] moves. *)
Inductive cstep (i : nat) : cstate -> cstate -> Prop :=
| cstep_move st p e' mu' p' :
    threads st !! i = Some p -> pstep (eng st) (locked st) p = Some (e', mu', p') ->
    cstep i st (mkCstate e' mu' (<[i := p']> (threads st))).

Definition step (st st' : cstate) : Prop := exists i, cstep i st st'.

(** A schedule; picking a goroutine that cannot move does nothing. *)
Definition run_pick (st : cstate) (i : nat) : cstate :=
  match threads st !! i with
  | Some p => match pstep (eng st) (locked st) p with
              | Some (e', mu', p') => mkCstate e' mu' (<[i := p']> (threads st))
              | None => st
              end
  | None => st
  end.

Definition run (sched : list nat) (st : cstate) : cstate := foldl run_pick st sched.

(** The calls, each at its start. *)
Definition call_of (o : eop) : pc :=
  match o with
  | EEvaluate env input => EStart env input
  | ELoad ms => LStart ms
  | EData data => SStart data
  end.

Definition start (e : Engine) (calls : list eop) : cstate := mkCstate e false (map call_of calls).

Definition returned (p : pc) : bool := match p with ERet _ | URet _ => true | _ => false end.
Definition quiescent (st : cstate) : Prop := Forall (fun p => returned p = true) (threads st).

(** Holding [mu], and what is left to do. *)
Definition holds (p : pc) : Z := match p with CRead | CInstall _ => 1 | _ => 0 end%Z.

Definition rank (p : pc) : Z :=
  match p with
  | EStart _ _ => 4 | EQuery _ _ => 3 | EEval _ _ _ => 2 | ESet _ _ _ => 1
  | LStart _ => 3 | SStart _ => 5 | SInvalidate => 4 | SLock => 3 | CRead => 2 | CInstall _ => 1
  | ERet _ | URet _ => 0
  end%Z.

Definition work (st : cstate) : Z := zsum rank (threads st).

(** ** A call alone *)

(** The call of [p] run to its end with nothing in between. *)
Fixpoint alone (fuel : nat) (e : Engine) (mu : bool) (p : pc) : Engine * bool * pc :=
  match fuel with
  | 0 => (e, mu, p)
  | S fuel => match pstep e mu p with
              | Some (e', mu', p') => alone fuel e' mu' p'
              | None => (e, mu, p)
              end
  end.

(** What the sequential operation returns. *)
Definition returns (o : eop) (e : Engine) : pc :=
  match o with
  | EEvaluate env input => ERet (Evaluate time_json env input e).2
  | ELoad ms => URet (LoadPolicies ms e).2
  | EData data => URet (SetPolicyData data e).2
  end.

Lemma alone_returned fuel e mu p : pstep e mu p = None -> alone fuel e mu p = (e, mu, p).
Proof. intros H. destruct fuel; simpl; [done|]. by rewrite H. Qed.

Lemma alone_step n e mu p e' mu' p' :
  pstep e mu p = Some (e', mu', p') -> alone (S n) e mu p = alone n e' mu' p'.
Proof. intros H. cbn [alone]. by rewrite H. Qed.

Lemma lock_step e : modules e <> [] -> pstep e false SLock = Some (e, true, CRead).
Proof. cbn. by destruct (modules e). Qed.

Lemma install_alone n e :
  alone (S (S n)) e true CRead = ((compileWithData e).1, false, URet (compileWithData e).2).
Proof.
  unfold compileWithData. cbn [alone pstep].
  by destruct (wrap_err _ (PrepareForEval _ _)) as [q|msg]; rewrite alone_returned.
Qed.

(** The steps are the engine. A call that runs with nothing in between, on an engine whose
    lock is free, ends after at most five steps with the lock free again, leaves the engine
    exactly as the sequential operation does and returns the same. *)
Theorem alone_is_sequential (e : Engine) (o : eop) :
  alone 5 e false (call_of o) = (apply_eop time_json e o, false, returns o e).
Proof.
  destruct o as [ms|data|env input]; cbn [call_of returns apply_eop].
  - exact (install_alone 2 (with_policy (query e) ms (policyData e) (cache e) e)).
  - unfold SetPolicyData. set (e1 := with_policy (query e) (modules e) data (Invalidate (cache e)) e).
    assert (alone 5 e false (SStart data) = alone 3 e1 false SLock) as -> by done.
    destruct (decide (modules e1 = [])) as [Hm|Hm].
    + cbn [alone pstep]. by rewrite Hm.
    + rewrite (alone_step 2 e1 false SLock e1 true CRead) by (by apply lock_step).
      rewrite (install_alone 0). clearbody e1. by destruct (modules e1).
  - unfold Evaluate. cbn [alone pstep]. destruct (enabled e) eqn:He; [|done].
    destruct (Cache.Get _ _ _) as [c [[d tier]|]]; [done|]. cbn [pstep].
    unfold evaluatePolicy. change (query (with_cache c e)) with (query e).
    by destruct (runQuery time_json (query e) input (AtEval env)) as [[d|msg]|msg].
Qed.

(** ** Every call returns *)

Lemma rank_nonneg p : (0 <= rank p)%Z.
Proof. destruct p; simpl; lia. Qed.

Lemma holds_nonneg p : (0 <= holds p)%Z.
Proof. destruct p; simpl; lia. Qed.

Lemma pstep_rank e mu p e' mu' p' : pstep e mu p = Some (e', mu', p') -> (rank p' < rank p)%Z.
Proof.
  destruct p; cbn; intros H; repeat case_match; simplify_eq/=; lia.
Qed.

(** A step gives the lock or takes it when the thread does. *)
Lemma pstep_holds e mu p e' mu' p' :
  pstep e mu p = Some (e', mu', p') -> (holds p = 1%Z -> mu = true) ->
  (holds p' - holds p = (if mu' then 1 else 0) - (if mu then 1 else 0))%Z.
Proof.
  destruct p; cbn; intros H Hh; repeat case_match; simplify_eq/=; try lia; by rewrite Hh.
Qed.

Definition lock_ok (st : cstate) : Prop :=
  zsum holds (threads st) = if locked st then 1%Z else 0%Z.

Lemma zsum_member (f : pc -> Z) (l : list pc) i p :
  (forall p, (0 <= f p)%Z) -> l !! i = Some p -> (f p <= zsum f l)%Z.
Proof.
  intros Hf. revert i. induction l as [|q l IH]; intros [|i] Hi; simplify_eq/=.
  - pose proof (zsum_nonneg f l Hf). lia.
  - specialize (IH _ Hi). specialize (Hf q). lia.
Qed.

Lemma lock_step_ok i st st' : lock_ok st -> cstep i st st' -> lock_ok st'.
Proof.
  unfold lock_ok. intros Hl H. revert Hl. destruct H as [st p e' mu' p' Hi Hp]. intros Hl.
  cbn [threads locked].
  rewrite (zsum_insert _ _ _ _ _ Hi). apply pstep_holds in Hp; [lia|].
  intros Hh. pose proof (zsum_member holds _ _ _ holds_nonneg Hi). destruct (locked st); [done|lia].
Qed.

Lemma start_lock e calls : lock_ok (start e calls).
Proof.
  unfold lock_ok. cbn. induction calls as [|o calls IH]; [done|]. cbn. rewrite IH.
  by destruct o.
Qed.

Lemma step_work st st' : step st st' -> (work st' < work st)%Z.
Proof.
  intros [i [? p e' mu' p' Hi Hp]]. unfold work. cbn [threads].
  rewrite (zsum_insert _ _ _ _ _ Hi). apply pstep_rank in Hp. lia.
Qed.

(** The holder of the lock can move, and without a holder everybody can. *)
Lemma pstep_moves e mu p : returned p = false -> mu = false \/ holds p = 1%Z -> is_Some (pstep e mu p).
Proof.
  intros Hr Hm. destruct p as [env input|env input|env input q|env input d| |ms|data| | | |data|];
    cbn in *; try done; try (destruct Hm as [->|]; [|done]; by eauto); try by eauto.
  - destruct (enabled e); [|by eauto]. destruct (Cache.Get _ _ _) as [c got]. by eauto.
  - destruct Hm as [->|]; [|done]. case_match; by eauto.
Qed.

Lemma some_thread (f : pc -> Z) (l : list pc) :
  (0 < zsum f l)%Z -> exists i p, l !! i = Some p /\ (0 < f p)%Z.
Proof.
  unfold zsum. induction l as [|p l IH]; cbn; [lia|]. intros H. destruct (decide (0 < f p)%Z).
  - by exists 0, p.
  - destruct IH as (i & q & Hi & Hq); [lia|]. by exists (S i), q.
Qed.

Lemma some_call_moves st : lock_ok st -> quiescent st \/ exists st', step st st'.
Proof.
  intros Hl. destruct (decide (Forall (fun p => returned p = true) (threads st))) as [H|H]; [by left|].
  right. assert (exists i p, threads st !! i = Some p /\ returned p = false
                   /\ (locked st = false \/ holds p = 1%Z)) as (i & p & Hi & Hr & Hm).
  { unfold lock_ok in Hl. destruct (locked st).
    - destruct (some_thread holds (threads st)) as (i & p & Hi & Hp); [lia|].
      exists i, p. split; [done|]. destruct p; simpl in *; try lia; auto.
    - apply not_Forall_Exists in H; [|intros x; apply _].
      apply Exists_exists in H as (p & [i Hi]%list_elem_of_lookup & Hr).
      exists i, p. split; [done|]. split; [by apply not_true_is_false|by left]. }
  destruct (pstep_moves (eng st) (locked st) p Hr Hm) as [[[e' mu'] p'] Hp].
  eexists. exists i. by econstructor.
Qed.

Lemma start_work e calls : (work (start e calls) <= 5 * Z.of_nat (length calls))%Z.
Proof.
  unfold work, zsum. cbn [start threads].
  induction calls as [|o calls IH]; cbn -[Z.of_nat Z.mul]; [lia|]. destruct o; cbn [call_of rank]; lia.
Qed.

(** C26: Every call returns. Whatever the scheduler does with any number of concurrent
    evaluations, loads and data changes, they make together at most five steps a call, and as long as a
    call has not returned some goroutine can move: there is no deadlock. *)
Theorem calls_return (e : Engine) (calls : list eop) (n : nat) (st : cstate)
    (Hrun : nsteps step n (start e calls) st) :
  (Z.of_nat n <= 5 * Z.of_nat (length calls))%Z /\ (quiescent st \/ exists st', step st st').
Proof.
  split.
  - enough (Z.of_nat n + work st <= work (start e calls))%Z.
    { pose proof (start_work e calls). pose proof (zsum_nonneg rank (threads st) rank_nonneg).
      unfold work in *. lia. }
    clear -Hrun. induction Hrun as [|n st1 st2 st3 H12 _ IH]; [lia|].
    apply step_work in H12. lia.
  - apply some_call_moves. pose proof (start_lock e calls) as Hl.
    clear -Hrun Hl. induction Hrun as [|n st1 st2 st3 [i H12] _ IH]; [done|].
    apply IH. by eapply lock_step_ok.
Qed.

(** ** Where decisions come from *)

(** A step that does not empty the cache. *)
Definition keeping (st st' : cstate) : Prop :=
  exists i, cstep i st st' /\ threads st !! i <> Some SInvalidate.

Lemma keeping_step st st' : keeping st st' -> step st st'.
Proof. intros (i & H & _). by exists i. Qed.

Lemma keeping_steps st st' : rtc keeping st st' -> rtc step st st'.
Proof. induction 1; [done|]. eapply rtc_l; [by apply keeping_step|done]. Qed.

Section Provenance.

Context (e0 : Engine) (calls : list eop).

Definition reach : cstate -> Prop := rtc step (start e0 calls).

(** Call [i] found [q] in force when it read the query, at some moment of the run before [st]. *)
Definition read_query (st : cstate) (i : nat) (env : Env) (input : PolicyInput) (q : Query) : Prop :=
  exists st1, reach st1 /\ rtc step st1 st /\
    threads st1 !! i = Some (EQuery env input) /\ locked st1 = false /\ query (eng st1) = q.

(** Call [i] evaluates [input], and the query it read decided so. *)
Definition computed (st : cstate) (i : nat) (env : Env) (input : PolicyInput) (d : PolicyDecision)
    : Prop :=
  calls !! i = Some (EEvaluate env input) /\
  exists q, read_query st i env input q /\ runQuery time_json q input (AtEval env) = Ret (Ok d).

(** Call [j] was about to store decision [d] in [st1]. *)
Definition storing (st1 : cstate) (j : nat) (env : Env) (input : PolicyInput) (d : PolicyDecision)
    : Prop :=
  reach st1 /\ computed st1 j env input d /\ threads st1 !! j = Some (ESet env input d).

(** A cache entry is what a call, which has returned, stored since the cache was last emptied. *)
Definition stored (st : cstate) (key : string) (en : cacheEntry) : Prop :=
  exists j env input st1, ComputeKey input = key /\ storing st1 j env input (decision en) /\
    rtc keeping st1 st /\ expiresAt en = (AtSet env + l2TTL (cache e0))%Z /\
    exists r, threads st !! j = Some (ERet r).

(** What a result of call [i] is worth: it was computed for its input by a query that was in
    force when the call read it; or, at the moment [st2] when the call looked into the cache,
    another call had stored it for an input with the same key, less than the time to live ago,
    and the cache was not emptied in between. *)
Definition sound (st : cstate) (i : nat) (res : EvaluationResult) : Prop :=
  exists env, calls !! i = Some (EEvaluate env (Input res)) /\
    if CacheHit res
    then exists j env' input' st1 st2,
      j <> i /\ ComputeKey input' = ComputeKey (Input res) /\
      storing st1 j env' input' (Decision res) /\ rtc keeping st1 st2 /\ rtc step st2 st /\
      threads st2 !! i = Some (EStart env (Input res)) /\
      (AtGet env < AtSet env' + l2TTL (cache e0))%Z
    else computed st i env (Input res) (Decision res).

Definition point_ok (st : cstate) (i : nat) (p : pc) : Prop :=
  match p with
  | EStart env input | EQuery env input => calls !! i = Some (EEvaluate env input)
  | EEval env input q => calls !! i = Some (EEvaluate env input) /\ read_query st i env input q
  | ESet env input d => computed st i env input d
  | ERet (Ret (Ok res)) => sound st i res
  | _ => True
  end.

Record all_ok (st : cstate) : Prop := {
  ao_reach : reach st;
  ao_enabled : enabled (eng st) = true;
  ao_cfg : same_cfg (cache e0) (cache (eng st));
  ao_off : Cache.enabled (cache (eng st)) = false -> l2Cache (cache (eng st)) = ∅;
  ao_cache : forall key en, l2Cache (cache (eng st)) !! key = Some en -> stored st key en;
  ao_points : forall i p, threads st !! i = Some p -> point_ok st i p
}.

Lemma read_query_later st st' i env input q :
  step st st' -> read_query st i env input q -> read_query st' i env input q.
Proof. intros Hs (st1 & H1 & H2 & H). exists st1. split; [done|]. split; [|done]. by eapply rtc_r. Qed.

Lemma computed_later st st' i env input d :
  step st st' -> computed st i env input d -> computed st' i env input d.
Proof. intros Hs [H (q & Hq & Hr)]. split; [done|]. exists q. eauto using read_query_later. Qed.

Lemma sound_later st st' i res : step st st' -> sound st i res -> sound st' i res.
Proof.
  intros Hs (env & Hc & H). exists env. split; [done|]. destruct (CacheHit res).
  - destruct H as (j & env' & input' & st1 & st2 & ? & ? & ? & ? & ? & ? & ?).
    exists j, env', input', st1, st2. split_and!; try done. by eapply rtc_r.
  - by eapply computed_later.
Qed.

Lemma point_ok_later st st' i p : step st st' -> point_ok st i p -> point_ok st' i p.
Proof.
  intros Hs. destruct p as [| | | |[[res|]|]| | | | | | |]; cbn; try done.
  - intros [? ?]. eauto using read_query_later.
  - by apply computed_later.
  - by apply sound_later.
Qed.

(** An entry survives the steps that do not empty the cache. *)
Lemma stored_later st st' key en : keeping st st' -> stored st key en -> stored st' key en.
Proof.
  intros Hk (j & env & input & st1 & Hkey & Hst & Hr & He & r & Hj).
  exists j, env, input, st1. split; [done|]. split; [done|]. split; [by eapply rtc_r|].
  split; [done|]. exists r. destruct Hk as (i & Hc & _). revert Hj. clear Hr.
  destruct Hc as [st p e' mu' p' Hi Hp]. cbn [threads]. intros Hj.
  destruct (decide (i = j)) as [->|Hne]; [|by rewrite list_lookup_insert_ne].
  rewrite Hi in Hj. by injection Hj as ->.
Qed.

(** The cache after a step: its configuration stays, and an entry that was not there before is
    the one that this step stores. *)
Lemma pstep_cache e mu p e' mu' p' :
  pstep e mu p = Some (e', mu', p') ->
  same_cfg (cache e) (cache e') /\ enabled e' = enabled e /\
  (Cache.enabled (cache e) = false -> l2Cache (cache e) = ∅ -> l2Cache (cache e') = ∅) /\
  (p = SInvalidate -> Cache.enabled (cache e) = true -> l2Cache (cache e') = ∅) /\
  forall key en, l2Cache (cache e') !! key = Some en ->
    l2Cache (cache e) !! key = Some en \/
    exists env input, p = ESet env input (decision en) /\ key = ComputeKey input /\
      expiresAt en = (AtSet env + l2TTL (cache e))%Z /\ exists r, p' = ERet r.
Proof.
  intros H. assert (forall c, same_cfg c c) as Hrefl by done.
  destruct p as [env input|env input|env input q|env input d| |ms|data| | | |data|]; cbn in H; try done.
  - destruct (enabled e) eqn:He; [|by simplify_eq/=; split_and!; auto].
    pose proof (cache_Get_cfg (ComputeKey input) (AtGet env) (cache e)) as Hcfg.
    pose proof (Get_l2Cache (ComputeKey input) (AtGet env) (cache e)) as Hl2.
    destruct (Cache.Get _ _ _) as [c got]. injection H as <- <- <-. cbn in *. rewrite Hl2. split_and!; auto. done.
  - destruct mu; [done|]. simplify_eq. split_and!; auto. done.
  - destruct (runQuery _ _ _ _) as [[|]|]; simplify_eq/=; split_and!; auto; done.
  - injection H as <- <- <-. cbn. split_and!; auto; [..|done|].
    + apply (apply_op_cfg (cache e) (OSet (ComputeKey input) d (Iteration env) (AtEvict env) (AtSet env))).
    + intros Hoff. unfold Set_. by rewrite Hoff.
    + intros key en Hen. destruct (decide (key = ComputeKey input)) as [->|Hne];
        [|left; by eapply Set_other].
      destruct (Cache.enabled (cache e)) eqn:Hc; [|left; unfold Set_ in Hen; by rewrite Hc in Hen].
      right. rewrite Set_lookup in Hen by done. injection Hen as <-. cbn. eauto 10.
  - destruct mu; [done|]. simplify_eq. cbn. split_and!; auto. done.
  - simplify_eq. cbn. split_and!; auto. done.
  - injection H as <- <- <-. cbn. split_and!; auto.
    + apply (apply_op_cfg (cache e) OInvalidate).
    + intros Hoff. unfold Invalidate. by rewrite Hoff.
    + intros _ Hon. unfold Invalidate. by rewrite Hon.
    + intros key en. unfold Invalidate. destruct (Cache.enabled (cache e)); [|by left].
      cbn. by rewrite lookup_empty.
  - destruct mu; [done|]. destruct (modules e); simplify_eq; split_and!; auto; done.
  - simplify_eq. split_and!; auto. done.
  - destruct (wrap_err _ _); simplify_eq/=; split_and!; auto; done.
Qed.

(** What the goroutine that moved can say afterwards. *)
Lemma pstep_point st i p e' mu' p' st' :
  all_ok st -> threads st !! i = Some p -> pstep (eng st) (locked st) p = Some (e', mu', p') ->
  step st st' -> point_ok st' i p'.
Proof.
  intros Hok Hi H Hs. pose proof (ao_points st Hok i p Hi) as Hp.
  destruct p as [env input|env input|env input q|env input d| |ms|data| | | |data|]; cbn in H, Hp; try done.
  - rewrite (ao_enabled st Hok) in H.
    pose proof (Get_hit (ComputeKey input) (AtGet env) (cache (eng st))) as Hget.
    destruct (Cache.Get _ _ _) as [c [[d tier]|]]; injection H as <- <- <-; [|done].
    destruct (Hget d tier eq_refl) as (_ & en & Hl & <- & Ht).
    destruct (ao_cache st Hok _ _ Hl) as (j & env' & input' & st1 & Hkey & Hst & Hr & He & r & Hj).
    cbn. exists env. split; [done|]. cbn. exists j, env', input', st1, st. split_and!; try done.
    + intros ->. congruence.
    + by apply rtc_once.
    + by rewrite <- He.
  - destruct (locked st) eqn:Hl; [done|]. injection H as <- <- <-. split; [done|].
    exists st. split_and!; [apply Hok|by apply rtc_once|done..].
  - destruct Hp as [Hc Hq]. destruct (runQuery time_json q input (AtEval env)) as [[d|msg]|msg] eqn:Hr;
      injection H as <- <- <-; cbn; try done.
    split; [done|]. exists q. eauto using read_query_later.
  - injection H as <- <- <-. cbn. exists env. split; [apply Hp|]. cbn. by eapply computed_later.
  - destruct (locked st); [done|]. by simplify_eq.
  - by simplify_eq.
  - by simplify_eq.
  - destruct (locked st); [done|]. destruct (modules _); by simplify_eq.
  - by simplify_eq.
  - destruct (wrap_err _ _); by simplify_eq.
Qed.

Lemma step_ok st st' : all_ok st -> step st st' -> all_ok st'.
Proof.
  intros Hok Hs. pose proof Hok as [Hr Hen Hcfg Hoff Hca Hpt]. pose proof Hs as [i Hc].
  destruct Hc as [st p e' mu' p' Hi Hp].
  destruct (pstep_cache _ _ _ _ _ _ Hp) as (Hcfg' & Hen' & Hoff' & Hinv & Hnew).
  pose proof (pstep_point _ _ _ _ _ _ _ Hok Hi Hp Hs) as Hpoint.
  assert (Cache.enabled (cache e') = Cache.enabled (cache (eng st))) as Hon by apply Hcfg'.
  split; cbn [eng threads].
  - by eapply rtc_r.
  - by rewrite Hen'.
  - by etrans.
  - rewrite Hon. intros H. by apply Hoff', Hoff.
  - intros key en Hl.
    assert (p = SInvalidate \/ p <> SInvalidate) as [->|Hne] by (destruct p; by (left + right)).
    { assert (l2Cache (cache e') = ∅) as He.
      { destruct (Cache.enabled (cache (eng st))) eqn:E; [by apply Hinv|by apply Hoff', Hoff]. }
      by rewrite He, lookup_empty in Hl. }
    assert (keeping st (mkCstate e' mu' (<[i := p']> (threads st)))) as Hk.
    { exists i. split; [by econstructor|]. rewrite Hi. congruence. }
    destruct (Hnew key en Hl) as [Hold|(env & input & -> & -> & He & r & ->)].
    { eapply stored_later; [exact Hk|by apply Hca]. }
    exists i, env, input, st. split; [done|]. split; [|split; [by apply rtc_once|]].
    { split; [done|]. split; [by apply (Hpt i _ Hi)|done]. }
    split.
    { rewrite He. by destruct Hcfg as (-> & _). }
    exists r. cbn. apply list_lookup_insert_eq. by eapply lookup_lt_Some.
  - intros j q Hj. destruct (decide (i = j)) as [<-|Hne].
    + rewrite list_lookup_insert_eq in Hj by (by eapply lookup_lt_Some). by simplify_eq.
    + rewrite list_lookup_insert_ne in Hj by done. eapply point_ok_later; [exact Hs|by apply Hpt].
Qed.

Lemma reachable_ok st :
  enabled e0 = true -> l2Cache (cache e0) = ∅ -> reach st -> all_ok st.
Proof.
  intros Hen Hcold Hr. assert (all_ok (start e0 calls)) as Hok.
  { split; cbn; [by apply rtc_refl|done|done|done| |].
    - intros key en. by rewrite Hcold, lookup_empty.
    - intros i p Hi. rewrite list_lookup_fmap in Hi. apply fmap_Some in Hi as (o & Ho & ->). by destruct o. }
  revert Hok. induction Hr as [|st1 st2 st3 H12 _ IH]; [done|]. intros Hok. apply IH. by eapply step_ok.
Qed.

(** Without loads and data changes the query stays. *)
Definition evaluates (p : pc) : Prop :=
  match p with EStart _ _ | EQuery _ _ | EEval _ _ _ | ESet _ _ _ | ERet _ => True | _ => False end.

Lemma pstep_evaluates e mu p e' mu' p' :
  evaluates p -> pstep e mu p = Some (e', mu', p') -> evaluates p' /\ query e' = query e.
Proof. destruct p; cbn; intros Hp H; try done; repeat case_match; by simplify_eq/=. Qed.

Lemma evaluations_keep_query st : Forall is_evaluation calls -> reach st -> query (eng st) = query e0.
Proof.
  intros Hev Hr.
  assert (Forall evaluates (threads (start e0 calls)) /\ query (eng (start e0 calls)) = query e0) as H.
  { split; [|done]. cbn. apply list.Forall_fmap. eapply list.Forall_impl; [exact Hev|]. by intros []. }
  enough (Forall evaluates (threads st) /\ query (eng st) = query e0) as [_ Hq] by done.
  unfold reach in Hr. revert H. generalize (start e0 calls), Hr. clear Hr. intros st0 Hr.
  induction Hr as [|st1 st2 st3 [i H12] _ IH]; [done|]. intros [Hf Hq]. apply IH.
  destruct H12 as [st p e' mu' p' Hi Hp]. cbn in *.
  destruct (pstep_evaluates _ _ _ _ _ _ (Forall_lookup_1 _ _ _ _ Hf Hi) Hp) as [Hp' Hq'].
  split; [by apply Forall_insert|congruence].
Qed.

End Provenance.

Lemma returned_sound e calls st i res :
  enabled e = true -> l2Cache (cache e) = ∅ -> rtc step (start e calls) st ->
  threads st !! i = Some (ERet (Ret (Ok res))) -> sound e calls st i res.
Proof.
  intros Hen Hcold Hrun Hi. exact (ao_points _ _ _ (reachable_ok e calls st Hen Hcold Hrun) i _ Hi).
Qed.

(** What was computed in a run of evaluations, the first query computed. *)
Lemma computed_first_query e calls st i env input d :
  Forall is_evaluation calls -> computed e calls st i env input d ->
  runQuery time_json (query e) input (AtEval env) = Ret (Ok d).
Proof.
  intros Hev [_ (q & (st1 & Hr & _ & _ & _ & <-) & Hd)].
  by rewrite (evaluations_keep_query e calls st1 Hev Hr) in Hd.
Qed.

(** C11: No decision is invented, whatever runs concurrently. An engine with an empty cache is
    called by any number of goroutines that evaluate, load policies and change data. Every
    result that call [i] returns was computed for its own input by the query that was in force
    at the moment of the run when this call read it; or it comes from the cache, and then another
    call had computed it, in the same way, for an input with the same key, and had stored it
    before call [i] looked, less than the time to live ago and with no emptying of the cache in
    between. When nothing but evaluations runs, as in the proxy once it has started, the query in
    force is at every moment the one the engine started with. *)
Theorem concurrent_results_sound (e : Engine) (calls : list eop) (st : cstate) (i : nat)
    (res : EvaluationResult)
    (Hen : enabled e = true) (Hcold : l2Cache (cache e) = ∅)
    (Hrun : rtc step (start e calls) st)
    (Hres : threads st !! i = Some (ERet (Ret (Ok res)))) :
  sound e calls st i res /\
  (Forall is_evaluation calls ->
     forall st', rtc step (start e calls) st' -> query (eng st') = query e).
Proof.
  split; [by apply returned_sound|]. intros Hev st'. by apply evaluations_keep_query.
Qed.

(** ** What is in force in the end *)

(** A writer that has changed something and has not read the data to compile yet. *)
Definition pending (p : pc) : Prop :=
  match p with SInvalidate | SLock | CRead => True | _ => False end.

(** The query in force is the one that modules and data compile to, if they do. *)
Definition compiled_from (ms : list (string * string)) (data : jobject) (q : Query) : Prop :=
  match PrepareForEval ms (store_of data) with
  | Ok q' => q = q'
  | Err _ => True
  end.

(** The query in force is the one that the current modules and data compile to, if they do. An
    engine without modules does not compile when its data change: its query is the initial one,
    or was compiled when the modules were removed. *)
Definition without_modules (e : Engine) : Prop :=
  query e = zero_query \/ exists data, compiled_from [] data (query e).

Definition in_force (e : Engine) : Prop :=
  match modules e with
  | [] => without_modules e
  | ms => compiled_from ms (policyData e) (query e)
  end.

Lemma in_force_without e : in_force e -> modules e = [] -> without_modules e.
Proof. unfold in_force. intros H Hm. by rewrite Hm in H. Qed.

(** What a compilation leaves. *)
Lemma compiled_in_force e ms data q :
  modules e = ms -> policyData e = data -> query e = q -> compiled_from ms data q -> in_force e.
Proof.
  intros Hm <- <- Hc. unfold in_force, without_modules. rewrite Hm. destruct ms; [|done].
  right. by eexists.
Qed.

(** Without a writer at work, an engine without modules is as it says. *)
Definition unlocked_ok (st : cstate) : Prop :=
  locked st = false -> modules (eng st) = [] -> without_modules (eng st).

Definition settling (st : cstate) : Prop :=
  Exists pending (threads st) \/
  ((forall data, CInstall data ∈ threads st -> data = policyData (eng st)) /\
   ((exists data, CInstall data ∈ threads st) \/ in_force (eng st))).

Lemma pending_other (ths : list pc) i p p' :
  ths !! i = Some p -> Exists pending ths -> ~ pending p \/ pending p' ->
  Exists pending (<[i := p']> ths).
Proof.
  intros Hi Hex Hor. apply Exists_exists in Hex as (r & [j Hj]%list_elem_of_lookup & Hr).
  apply Exists_exists. destruct (decide (i = j)) as [->|Hne].
  - destruct Hor as [Hno|Hyes]; [congruence|]. exists p'. split; [|done].
    apply list_elem_of_lookup. exists j. apply list_lookup_insert_eq. by eapply lookup_lt_Some.
  - exists r. split; [|done]. apply list_elem_of_lookup. exists j. by rewrite list_lookup_insert_ne.
Qed.

Lemma becomes_pending (ths : list pc) i p p' :
  ths !! i = Some p -> pending p' -> Exists pending (<[i := p']> ths).
Proof.
  intros Hi Hp. apply Exists_exists. exists p'. split; [|done]. apply list_elem_of_lookup. exists i.
  apply list_lookup_insert_eq. by eapply lookup_lt_Some.
Qed.

(** Two goroutines do not hold the lock at once. *)
Lemma holds_unique st i j p q :
  lock_ok st -> threads st !! i = Some p -> threads st !! j = Some q ->
  holds p = 1%Z -> holds q = 1%Z -> i = j.
Proof.
  unfold lock_ok. intros Hl Hi Hj Hp Hq. destruct (decide (i = j)) as [|Hne]; [done|]. exfalso.
  assert (<[i := URet (Ok tt)]> (threads st) !! j = Some q) as Hj'
    by (by rewrite list_lookup_insert_ne).
  pose proof (zsum_member holds _ _ _ holds_nonneg Hj') as H.
  rewrite (zsum_insert _ _ _ _ _ Hi) in H. cbn in H. destruct (locked st); lia.
Qed.

(** A step of a goroutine that neither writes nor will. *)
Lemma settling_reader st i p e' mu' p' :
  settling st -> threads st !! i = Some p ->
  query e' = query (eng st) -> modules e' = modules (eng st) -> policyData e' = policyData (eng st) ->
  ~ pending p -> (forall d, p <> CInstall d) -> (forall d, p' <> CInstall d) ->
  settling (mkCstate e' mu' (<[i := p']> (threads st))).
Proof.
  intros [Hs|[Hd Hs]] Hi Hq Hm Hpd Hn Hp Hp'; [left; eapply pending_other; eauto|right].
  cbn [eng threads]. split.
  - intros data [j Hj]%list_elem_of_lookup. rewrite Hpd. apply Hd.
    destruct (decide (i = j)) as [->|Hne].
    + rewrite list_lookup_insert_eq in Hj by (by eapply lookup_lt_Some). injection Hj as Hj.
      by destruct (Hp' data).
    + rewrite list_lookup_insert_ne in Hj by done. apply list_elem_of_lookup. by exists j.
  - destruct Hs as [[data [j Hj]%list_elem_of_lookup]|Hs].
    + left. exists data. apply list_elem_of_lookup. exists j.
      rewrite list_lookup_insert_ne; [done|]. intros ->. rewrite Hi in Hj. injection Hj as ->.
      by destruct (Hp data).
    + right. unfold in_force, without_modules in *. by rewrite Hq, Hm, Hpd.
Qed.

(** Where the lock holder moves, no other goroutine is compiling. *)
Lemma only_install st i p p' data :
  lock_ok st -> threads st !! i = Some p -> (holds p = 1%Z \/ locked st = false) ->
  CInstall data ∈ <[i := p']> (threads st) -> p' = CInstall data.
Proof.
  intros Hl Hi Hp [j Hj]%list_elem_of_lookup. destruct (decide (i = j)) as [->|Hne].
  - rewrite list_lookup_insert_eq in Hj by (by eapply lookup_lt_Some). congruence.
  - rewrite list_lookup_insert_ne in Hj by done. destruct Hp as [Hp|Hp].
    + by destruct (Hne (holds_unique st i j p _ Hl Hi Hj Hp eq_refl)).
    + pose proof (zsum_member holds _ _ _ holds_nonneg Hj) as H. unfold lock_ok in Hl.
      rewrite Hp in Hl. cbn in H. lia.
Qed.

Ltac reader_step Hs Hi :=
  eapply settling_reader; [exact Hs|exact Hi|done|done|done|by intros []|done|done].

Lemma unlocked_step st st' : unlocked_ok st -> step st st' -> unlocked_ok st'.
Proof.
  intros Hu [i H]. destruct H as [st p e' mu' p' Hi Hp]. unfold unlocked_ok in *. cbn [locked eng].
  destruct p as [env input|env input|env input q|env input d| |ms|data| | | |data|]; cbn in Hp; try done;
    try (intros Hm' Hm; repeat case_match; simplify_eq/=; by auto).
  intros -> Hm. destruct (wrap_err "failed to compile policies" _) as [q|msg] eqn:Hw; simplify_eq/=;
    destruct (PrepareForEval _ _) as [q'|m'] eqn:Hq; simplify_eq/=; rewrite Hm in Hq;
    right; exists data; unfold compiled_from; cbn; by rewrite Hq.
Qed.

Lemma settling_step st st' :
  lock_ok st -> unlocked_ok st -> settling st -> step st st' -> settling st'.
Proof.
  intros Hl Hu Hs [i H]. destruct H as [st p e' mu' p' Hi Hp].
  assert (forall x, pending x -> settling (mkCstate e' mu' (<[i := x]> (threads st)))) as Hpend
    by (intros x Hx; left; by eapply becomes_pending).
  destruct p as [env input|env input|env input q|env input d| |ms|data| | | |data|]; cbn in Hp; try done.
  - repeat case_match; simplify_eq; reader_step Hs Hi.
  - destruct (locked st); [done|]. simplify_eq. reader_step Hs Hi.
  - repeat case_match; simplify_eq; reader_step Hs Hi.
  - simplify_eq. reader_step Hs Hi.
  - destruct (locked st); [done|]. simplify_eq. by apply Hpend.
  - simplify_eq. by apply Hpend.
  - simplify_eq. by apply Hpend.
  - destruct (locked st) eqn:Hlk; [done|]. destruct (modules (eng st)) as [|m ms] eqn:Hm; simplify_eq.
    + right. cbn [eng threads]. split; [|right; unfold in_force; rewrite Hm; by apply Hu]. intros data Hd.
      by discriminate (only_install _ _ _ _ _ Hl Hi (or_intror Hlk) Hd).
    + by apply Hpend.
  - simplify_eq. right. cbn [eng threads]. split.
    + intros data Hd. pose proof (only_install _ _ _ _ _ Hl Hi (or_introl eq_refl) Hd). congruence.
    + left. eexists. apply list_elem_of_lookup. exists i. apply list_lookup_insert_eq.
      by eapply lookup_lt_Some.
  - destruct Hs as [Hs|[Hd _]].
    { left. eapply pending_other; [exact Hi|exact Hs|left; by intros []]. }
    assert (data = policyData (eng st)) as -> by (apply Hd, list_elem_of_lookup; by exists i).
    right. cbn [eng threads]. split.
    + intros data Hd'. pose proof (only_install _ _ _ _ _ Hl Hi (or_introl eq_refl) Hd') as ->.
      by (repeat case_match; simplify_eq).
    + right. destruct (PrepareForEval (modules (eng st)) _) as [q|msg] eqn:Hq; simplify_eq/=;
        (eapply compiled_in_force; [done..|]); unfold compiled_from; cbn; by rewrite Hq.
Qed.

Lemma reachable_settling e calls st :
  in_force e -> rtc step (start e calls) st -> lock_ok st /\ unlocked_ok st /\ settling st.
Proof.
  intros He Hr.
  assert (settling (start e calls)) as Hs.
  { right. split; [|by right]. intros data Hd. cbn in Hd. apply list_elem_of_fmap in Hd as (o & Ho & _).
    by destruct o. }
  assert (unlocked_ok (start e calls)) as Hu by (intros _; by apply in_force_without).
  pose proof (start_lock e calls) as Hl. revert Hl Hu Hs.
  induction Hr as [|st1 st2 st3 H12 _ IH]; [done|]. intros Hl Hu Hs. apply IH.
  - destruct H12 as [i H12]. by eapply lock_step_ok.
  - by eapply unlocked_step.
  - by eapply settling_step.
Qed.

(** The condition that the next theorem puts on the engine at the start holds in sequence. *)
Lemma apply_in_force e o : in_force e -> in_force (apply_eop time_json e o).
Proof.
  assert (forall e, in_force (compileWithData e).1) as Hc.
  { intros e'. unfold compileWithData. destruct (PrepareForEval _ _) as [q|msg] eqn:Hq; cbn;
      (eapply compiled_in_force; [done..|]); unfold compiled_from; cbn; by rewrite Hq. }
  intros He. destruct o as [ms|data|env input]; cbn [apply_eop].
  - apply Hc.
  - unfold SetPolicyData. cbn. destruct (modules e) as [|m ms] eqn:Hm.
    + unfold in_force, without_modules in *. cbn. rewrite Hm in *. exact He.
    + apply Hc.
  - unfold in_force, without_modules in *.
    assert (modules (Evaluate time_json env input e).1 = modules e /\
      policyData (Evaluate time_json env input e).1 = policyData e /\
      query (Evaluate time_json env input e).1 = query e) as (-> & -> & ->); [|exact He].
    unfold Evaluate. destruct (enabled e); [|done].
    destruct (Cache.Get _ _ _) as [c got]. by repeat case_match.
Qed.

Lemma erun_in_force cfg ops : in_force (erun time_json ops (NewEngine cfg)).
Proof.
  unfold erun. assert (in_force (NewEngine cfg)) as H by (by left). revert H.
  generalize (NewEngine cfg). induction ops as [|o ops IH]; intros e He; [done|].
  cbn. by apply IH, apply_in_force.
Qed.

(** C12: Concurrent changes settle on the latest policies. Whatever the schedule of any number
    of evaluations, loads and data changes, when all have returned the query in force is the
    one that the modules and the policy data then stored compile to; only where these do not
    compile can an older query remain. (Where there are no modules, a change of the data
    compiles nothing, and the query is the initial one or the one compiled when they were
    removed.) The condition on the engine at the start holds after any sequence of operations on
    a new one ([erun_in_force]). *)
Theorem concurrent_changes_settle (e : Engine) (calls : list eop) (st : cstate)
    (Hforce : in_force e) (Hrun : rtc step (start e calls) st) (Hquiet : quiescent st) :
  in_force (eng st).
Proof.
  destruct (reachable_settling e calls st Hforce Hrun) as (_ & _ & [Hs|[_ [[data Hd]|Hs]]]); [..|done].
  - apply Exists_exists in Hs as (p & Hp & Hpend).
    pose proof (proj1 (Forall_forall _ _) Hquiet p Hp). by destruct p.
  - by discriminate (proj1 (Forall_forall _ _) Hquiet _ Hd).
Qed.

End EngineConc.

(** ** Concrete schedules *)

(** An OPA whose only policy denies what the policy data lists as frozen. *)
#[local] Instance listing_opa : OPA := {|
  Query := option jobject;
  zero_query := None;
  PrepareForEval ms store :=
    match ms with [] => Err "no modules" | _ => Ok (Some (default [] store)) end;
  Eval q input _ :=
    match q with
    | None => Panic "nil pointer dereference"
    | Some data => Ret (Ok [[JObj [("allow", JBool (match obj_get data "frozen" with Some _ => false | None => true end))]]])
    end
|}.

Definition serving : Engine := erun sample_time [ELoad [("policy.rego", "frozen")]] (NewEngine sample_cfg).

(** A request, a change of the data that freezes everything, and the same request again. *)
Definition freeze_calls : list eop :=
  [EEvaluate (sample_env 1) (nth_request 1); EData [("frozen", JBool true)];
   EEvaluate (sample_env 5) (nth_request 2)].

(** The data changes while the first request is being evaluated. *)
Definition overtaken : list nat := [0; 0; 1; 1; 1; 1; 1; 0; 0; 2].

Definition result_of (p : option pc) : option bool :=
  match p with Some (ERet r) => allowed r | _ => None end.

Lemma run_reachable `{O : OPA} tj sched st : rtc (step tj) st (run tj sched st).
Proof.
  unfold run. revert st. induction sched as [|i sched IH]; intros st; cbn; [done|].
  etrans; [|apply IH]. unfold run_pick. destruct (threads st !! i) as [p|] eqn:Hi; [|done].
  destruct (pstep tj (eng st) (locked st) p) as [[[e' mu'] p']|] eqn:Hp; [|done].
  apply rtc_once. exists i. by econstructor.
Qed.

Lemma quiescent_iff `{O : OPA} (st : cstate) : forallb returned (threads st) = true <-> quiescent st.
Proof. unfold quiescent. rewrite forallb_forall, Forall_forall. by setoid_rewrite list_elem_of_In. Qed.

(** A change of the policy data can be undone by a request that was under way. Its decision is
    cached after the cache was emptied, so when all calls have returned, and the new data are
    in force and deny everything, a request made after the change is still allowed, and so is
    every other with its key until the entry expires. *)
Theorem stale_after_data_change :
  let st := run sample_time overtaken (start serving freeze_calls) in
  quiescent st /\
  result_of (threads st !! 2) = Some true /\
  allowed (Evaluate sample_time (sample_env 9) (nth_request 3) (eng st)).2 = Some true /\
  match evaluatePolicy sample_time (eng st) (nth_request 3) 9 with
  | Ret (Ok d) => Allow d = false
  | _ => False
  end.
Proof. split; [apply quiescent_iff|]; vm_compute; by repeat split. Qed.

(** ** Witnesses *)

Definition freeze_end : cstate := run sample_time overtaken (start serving freeze_calls).

Lemma serving_in_force : in_force serving.
Proof. reflexivity. Qed.

Lemma concurrent_changes_settle_witness : in_force (eng freeze_end) /\ modules (eng freeze_end) <> [].
Proof.
  split; [|vm_compute; discriminate].
  apply (concurrent_changes_settle sample_time serving freeze_calls freeze_end).
  - exact serving_in_force.
  - apply run_reachable.
  - apply quiescent_iff. vm_compute. reflexivity.
Defined.

Definition stale_result : EvaluationResult :=
  match threads freeze_end !! 2 with
  | Some (ERet (Ret (Ok res))) => res
  | _ => warm_result
  end.

Lemma concurrent_results_sound_witness :
  sound sample_time serving freeze_calls freeze_end 2 stale_result /\ CacheHit stale_result = true.
Proof.
  split; [|vm_compute; reflexivity].
  apply (concurrent_results_sound sample_time serving freeze_calls freeze_end 2).
  - reflexivity.
  - reflexivity.
  - apply run_reachable.
  - unfold stale_result.
    assert (match threads freeze_end !! 2 with Some (ERet (Ret (Ok _))) => true | _ => false end = true)
      as H by (vm_compute; reflexivity).
    by destruct (threads freeze_end !! 2) as [[| | | |[[res|]|]| | | | | | |]|].
Defined.

Lemma calls_return_witness :
  exists n, (Z.of_nat n <= 15)%Z /\ nsteps (step sample_time) n (start serving freeze_calls) freeze_end.
Proof.
  destruct (proj1 (rtc_nsteps _ _) (run_reachable sample_time overtaken (start serving freeze_calls)))
    as [n Hn].
  exists n. split; [|exact Hn].
  exact (proj1 (calls_return sample_time serving freeze_calls n freeze_end Hn)).
Defined.
