(* ===== verification/Rego.v ===== *)
(** * The policies of the repository

    Models policies/main.rego, capability.rego, rate_limit.rego and blocklist.rego: one
    definition per rule, on the members of the input that the rules read and on the policy
    data. A Rego expression has a value or is undefined ([option]); a body succeeds when its
    expressions are defined and not [false]; the bodies of a rule are alternatives, and two
    different values of one rule are an error. OPA's [sprintf] is an argument. The rules are
    proved equivalent to the specification [authorized], and the tests of
    policies/capability_test.rego are examples at the end. *)

From Stdlib Require Import ZArith Lia SpecFloat Ascii.
From stdpp Require Import base list strings numbers sorting.
From S2P Require Import Prelude Json GoText PolicyTypes Cache Engine.

(** ** Values *)

(** OPA's order of values: null, booleans, numbers, strings, arrays, objects. *)
Definition rank (v : jvalue) : nat :=
  match v with
  | JNull => 0 | JBool _ => 1 | JNum _ => 2 | JStr _ => 3 | JArr _ => 4 | JObj _ => 5
  end.

Definition then_cmp (c d : comparison) : comparison := match c with Eq => d | _ => c end.

Definition bool_compare (a b : bool) : comparison :=
  match a, b with false, true => Lt | true, false => Gt | _, _ => Eq end.

(** JSON has no NaN, so every two numbers compare. *)
Definition num_compare (a b : float64) : comparison := default Eq (SFcompare a b).

Section Lexicographic.

Context {A B : Type} (cmp : A -> B -> comparison).

(** Element by element, then by length. *)
Fixpoint lex (l : list A) (m : list B) : comparison :=
  match l, m with
  | [], [] => Eq
  | [], _ :: _ => Lt
  | _ :: _, [] => Gt
  | a :: l, b :: m => then_cmp (cmp a b) (lex l m)
  end.

End Lexicographic.

(** [compare] on values whose objects have their members in key order. *)
Fixpoint compare_sorted (v w : jvalue) : comparison :=
  match v, w with
  | JBool a, JBool b => bool_compare a b
  | JNum a, JNum b => num_compare a b
  | JStr a, JStr b => String.compare a b
  | JArr l, JArr m => lex compare_sorted l m
  | JObj l, JObj m =>
      lex (fun p q => then_cmp (String.compare p.1 q.1) (compare_sorted p.2 q.2)) l m
  | _, _ => Nat.compare (rank v) (rank w)
  end.

(** Members in key order, at every depth. *)
Fixpoint sort_members (v : jvalue) : jvalue :=
  match v with
  | JArr l => JArr (map sort_members l)
  | JObj m => JObj (merge_sort key_le (map (fun p => (p.1, sort_members p.2)) m))
  | _ => v
  end.

Definition rego_compare (v w : jvalue) : comparison :=
  compare_sorted (sort_members v) (sort_members w).

Definition rego_eq (v w : jvalue) : bool :=
  match rego_compare v w with Eq => true | _ => false end.
Definition rego_lt (v w : jvalue) : bool :=
  match rego_compare v w with Lt => true | _ => false end.

(** An expression as a condition: defined and not [false]. *)
Definition holds (e : option jvalue) : bool :=
  match e with None | Some (JBool false) => false | Some _ => true end.

(** [base[key]] for a string. *)
Definition index (base : option jvalue) (key : string) : option jvalue :=
  match base with Some (JObj m) => obj_get m key | _ => None end.

(** What [some x in c] and [x in c] range over. *)
Definition elements_of (c : option jvalue) : list jvalue :=
  match c with
  | Some (JArr l) => l
  | Some (JObj m) => map snd m
  | _ => []
  end.

Definition is_in (x : jvalue) (c : option jvalue) : bool := existsb (rego_eq x) (elements_of c).

(** The values of the bodies of a rule or function, which must not differ, or the default. *)
Definition rule_conflict : string :=
  "eval_conflict_error: complete rules must not produce multiple outputs".
Definition conflict : string :=
  "eval_conflict_error: functions must not produce multiple outputs for same inputs".

Definition complete (err : string) (bodies : list (option jvalue)) (dflt : option jvalue)
    : result string (option jvalue) :=
  match omap id bodies with
  | [] => Ok dflt
  | v :: vs => if forallb (rego_eq v) vs then Ok (Some v) else Err err
  end.

(** ** Input *)

(** The members of [input] that the policies read; an input of the proxy always has them. *)
Record RegoInput : Type := mkRegoInput {
  input_agent_id : string;
  input_agent_capabilities : jvalue;
  input_request_tool : string;
  input_session_request_count : jvalue;
  input_identity_verified : jvalue;
  input_identity_did : string
}.

Definition view (input : jobject) : option RegoInput :=
  agent ← obj_get input "agent" ≫= as_object;
  request ← obj_get input "request" ≫= as_object;
  session ← obj_get input "session" ≫= as_object;
  identity ← obj_get input "identity" ≫= as_object;
  id ← obj_get agent "id" ≫= as_string;
  caps ← obj_get agent "capabilities";
  tool ← obj_get request "tool" ≫= as_string;
  count ← obj_get session "request_count";
  verified ← obj_get identity "verified";
  did ← obj_get identity "did" ≫= as_string;
  Some (mkRegoInput id caps tool count verified did).

(** ** Rules *)

Section Rules.

Context (sprintf : string -> list jvalue -> option string).
Context (data : jobject) (input : RegoInput).

(** *** capability.rego *)

Definition required_capability (tool : string) : option jvalue :=
  index (obj_get data "tool_capabilities") tool.

(** [trim_suffix(granted, "*")]. *)
Definition trim_star (s : string) : string :=
  if has_suffix "*" s then String.substring 0 (String.length s - 1) s else s.

(** The three bodies; a builtin on a value of another type is undefined. *)
Definition capability_matches (granted required : jvalue) : bool :=
  rego_eq granted required
  || match granted, required with
     | JStr g, JStr r => has_suffix ":*" g && String.prefix (trim_star g) r
     | _, _ => false
     end
  || rego_eq granted (JStr "*").

Definition capability_check : bool :=
  negb (holds (required_capability (input_request_tool input)))
  || match required_capability (input_request_tool input) with
     | Some required =>
         existsb (fun cap => capability_matches cap required)
           (elements_of (Some (input_agent_capabilities input)))
     | None => false
     end.

(** *** rate_limit.rego *)

Definition limit_of (key : string) : option jvalue := index (obj_get data "rate_limits") key.

Definition when {A} (b : bool) (e : option A) : option A := if b then e else None.

Definition get_rate_limit (agent_id : string) : result string (option jvalue) :=
  complete conflict
    [limit_of agent_id;
     when (negb (holds (limit_of agent_id))) (limit_of "default");
     when (negb (holds (limit_of agent_id)) && negb (holds (limit_of "default")))
       (Some (JNum (float_of_Z 1000)))] None.

Definition rate_limit_ok : result string bool :=
  limit ← get_rate_limit (input_agent_id input);
  v ← match limit with
      | Some limit =>
          complete rule_conflict
            [when (rego_lt (input_session_request_count input) limit) (Some (JBool true));
             when (negb (rego_lt (input_session_request_count input) limit)) (Some (JBool false))]
            (Some (JBool true))
      | None => complete rule_conflict [] (Some (JBool true))
      end;
  Ok (holds v).

(** *** blocklist.rego *)

Definition blocked_tool : bool := is_in (JStr (input_request_tool input)) (obj_get data "blocked_tools").
Definition blocked_agent : bool := is_in (JStr (input_agent_id input)) (obj_get data "blocked_agents").
Definition blocked_did : bool :=
  holds (Some (input_identity_verified input))
  && is_in (JStr (input_identity_did input)) (obj_get data "blocked_dids").

Definition blocked : bool := blocked_tool || blocked_agent || blocked_did.

(** *** main.rego *)

(** A body is evaluated from its first expression on, and only as long as they succeed. *)
Definition allow : result string bool :=
  if capability_check then
    ok ← rate_limit_ok;
    Ok (ok && negb blocked)
  else Ok false.

(** The [else] chain, each condition evaluated when the ones before it have failed. *)
Definition matched_rule : result string string :=
  if blocked then Ok "blocked"
  else
    ok ← rate_limit_ok;
    if negb ok then Ok "rate_limit_exceeded"
    else if negb capability_check then Ok "missing_capability"
    else
      allowed ← allow;
      Ok (if (allowed : bool) then "allowed" else "default_deny").

(** The bodies of [violations], one message each if the body succeeds. *)
Definition capability_violation : option string :=
  required ← required_capability (input_request_tool input);
  when (negb capability_check)
    (sprintf "Agent '%s' lacks capability '%s' required for tool '%s'"
       [JStr (input_agent_id input); required; JStr (input_request_tool input)]).

Definition rate_limit_violation (ok : bool) (limit : option jvalue) : option string :=
  limit ← limit;
  when (negb ok)
    (sprintf "Agent '%s' exceeded rate limit (%d/%d requests in session)"
       [JStr (input_agent_id input); input_session_request_count input; limit]).

Definition blocklist_violations : list (option string) :=
  [when blocked_tool
     (sprintf "Tool '%s' is blocked by policy" [JStr (input_request_tool input)]);
   when blocked_agent
     (sprintf "Agent '%s' is blocked by policy" [JStr (input_agent_id input)]);
   when blocked_did
     (sprintf "DID '%s' is blocked by policy" [JStr (input_identity_did input)])].

Definition violation_bodies (ok : bool) (limit : option jvalue) : list (option string) :=
  capability_violation :: rate_limit_violation ok limit :: blocklist_violations.

Definition violation_messages : result string (list string) :=
  ok ← rate_limit_ok;
  limit ← get_rate_limit (input_agent_id input);
  Ok (omap id (violation_bodies ok limit)).

(** [violations[msg] if] without [contains] defines the members of an object, each with
    the value [true]. *)
Definition violations : result string jvalue :=
  msgs ← violation_messages;
  Ok (JObj (foldl (fun m msg => obj_set m msg (JBool true)) [] msgs)).

Definition decision : result string jvalue :=
  allowed ← allow;
  vs ← violations;
  rule ← matched_rule;
  Ok (JObj [("allow", JBool allowed); ("violations", vs); ("matched_rule", JStr rule)]).

End Rules.

(** ** Specification *)

(** A granted capability gives a required one: the same, a wildcard of its kind, or the
    wildcard for all. *)
Inductive grants : jvalue -> jvalue -> Prop :=
| grants_same g r : rego_compare g r = Eq -> grants g r
| grants_kind p t : grants (JStr (p +:+ ":*")) (JStr (p +:+ ":" +:+ t))
| grants_all r : grants (JStr "*") r.

(** The limit that applies to an agent. *)
Inductive limit_for (data : jobject) (agent : string) : jvalue -> Prop :=
| limit_own l :
    index (obj_get data "rate_limits") agent = Some l -> limit_for data agent l
| limit_default l :
    index (obj_get data "rate_limits") agent = None ->
    index (obj_get data "rate_limits") "default" = Some l -> limit_for data agent l
| limit_fallback :
    index (obj_get data "rate_limits") agent = None ->
    index (obj_get data "rate_limits") "default" = None ->
    limit_for data agent (JNum (float_of_Z 1000)).

Definition listed (data : jobject) (list : string) (s : string) : Prop :=
  JStr s ∈ elements_of (obj_get data list).

(** What the policies demand of a request. *)
Record authorized (data : jobject) (i : RegoInput) : Prop := {
  au_capability : forall required,
    index (obj_get data "tool_capabilities") (input_request_tool i) = Some required ->
    required <> JBool false ->
    exists cap, cap ∈ elements_of (Some (input_agent_capabilities i)) /\ grants cap required;
  au_rate : exists limit, limit_for data (input_agent_id i) limit
              /\ rego_compare (input_session_request_count i) limit = Lt;
  au_tool : ~ listed data "blocked_tools" (input_request_tool i);
  au_agent : ~ listed data "blocked_agents" (input_agent_id i);
  au_did : holds (Some (input_identity_verified i)) = true ->
             ~ listed data "blocked_dids" (input_identity_did i)
}.

(** Policy data whose limits are no [false]: on others the rules contradict each other. *)
Definition limits_ok (data : jobject) (agent : string) : Prop :=
  match index (obj_get data "rate_limits") agent with
  | Some l => l <> JBool false
  | None => index (obj_get data "rate_limits") "default" <> Some (JBool false)
  end.

(** ** The rules implement the specification *)

Lemma compare_string a b : rego_compare (JStr a) (JStr b) = String.compare a b.
Proof. done. Qed.

Lemma string_compare_eq a b : String.compare a b = Eq <-> a = b.
Proof.
  split; [apply String.compare_eq_iff|]. intros <-. induction a as [|c a IH]; [done|].
  cbn. unfold Ascii.compare. by rewrite N.compare_refl.
Qed.

Lemma rego_eq_str s v : rego_eq (JStr s) v = true <-> v = JStr s.
Proof.
  unfold rego_eq, rego_compare. split.
  - destruct v as [| | |t| |]; try done. cbn. destruct (String.compare s t) eqn:E; [|done..].
    by apply string_compare_eq in E as ->.
  - intros ->. cbn. by rewrite (proj2 (string_compare_eq s s) eq_refl).
Qed.

Lemma rego_eq_str_r s v : rego_eq v (JStr s) = true <-> v = JStr s.
Proof.
  unfold rego_eq, rego_compare. split.
  - destruct v as [| | |t| |]; try done. cbn. destruct (String.compare t s) eqn:E; [|done..].
    by apply string_compare_eq in E as ->.
  - intros ->. cbn. by rewrite (proj2 (string_compare_eq s s) eq_refl).
Qed.

Lemma is_in_listed data list s : is_in (JStr s) (obj_get data list) = true <-> listed data list s.
Proof.
  unfold is_in, listed. rewrite existsb_exists. split.
  - intros (v & Hv & ->%rego_eq_str). by apply list_elem_of_In.
  - intros Hv. exists (JStr s). by rewrite <- list_elem_of_In, rego_eq_str.
Qed.

Lemma holds_iff v : holds (Some v) = true <-> v <> JBool false.
Proof. destruct v as [|[]| | | |]; naive_solver. Qed.

Lemma trim_star_kind p : trim_star (p +:+ ":*") = p +:+ ":".
Proof.
  unfold trim_star. rewrite (proj2 (has_suffix_iff "*" (p +:+ ":*"))).
  2:{ exists (p +:+ ":"). by rewrite str_app_assoc. }
  rewrite str_length_app. cbn [String.length].
  replace (String.length p + 2 - 1) with (String.length (p +:+ ":"))
    by (rewrite str_length_app; cbn; lia).
  change (p +:+ ":*") with (p +:+ (":" +:+ "*")). rewrite <- str_app_assoc. apply substring_head.
Qed.

Lemma capability_matches_iff g r : capability_matches g r = true <-> grants g r.
Proof.
  unfold capability_matches. rewrite !orb_true_iff. split.
  - intros [[H|H]|H].
    + apply grants_same. unfold rego_eq in H. by destruct (rego_compare g r).
    + destruct g as [| | |g| |], r as [| | |r| |]; try done.
      apply andb_true_iff in H as [[p ->]%has_suffix_iff Hp].
      rewrite trim_star_kind in Hp. apply prefix_iff in Hp as [t ->].
      rewrite str_app_assoc. apply grants_kind.
    + apply rego_eq_str_r in H as ->. apply grants_all.
  - intros H. destruct H as [g r H|p t|r].
    + left. left. unfold rego_eq. by rewrite H.
    + left. right. apply andb_true_iff. split; [apply has_suffix_iff; by exists p|].
      rewrite trim_star_kind, prefix_iff. exists t. by rewrite str_app_assoc.
    + right. by apply rego_eq_str_r.
Qed.

Section Correct.

Context (data : jobject) (i : RegoInput).

Lemma capability_check_iff :
  capability_check data i = true <->
  forall required, required_capability data (input_request_tool i) = Some required ->
    required <> JBool false ->
    exists cap, cap ∈ elements_of (Some (input_agent_capabilities i)) /\ grants cap required.
Proof.
  unfold capability_check. destruct (required_capability data _) as [r|]; [|naive_solver].
  rewrite orb_true_iff, negb_true_iff, existsb_exists.
  assert (holds (Some r) = false <-> r = JBool false) as Hr.
  { rewrite <- not_true_iff_false, holds_iff. split; [|naive_solver].
    intros H. destruct r as [|[]| | | |]; try done; by destruct H. }
  rewrite Hr. split.
  - intros [->|(cap & Hin%list_elem_of_In & Hm%capability_matches_iff)] required [= <-] Hne; [done|].
    by exists cap.
  - intros H. destruct (holds (Some r)) eqn:Hh; [|left; by apply Hr]. right.
    destruct (H r eq_refl ltac:(by apply holds_iff)) as (cap & Hin & Hg).
    exists cap. split; [by apply list_elem_of_In|by apply capability_matches_iff].
Qed.

Lemma rego_eq_false l : holds (Some l) = true -> rego_eq (JBool false) l = false.
Proof. by destruct l as [|[]| | | |]. Qed.

(** The limit rules agree exactly on data without a [false] limit. *)
Lemma get_rate_limit_cases agent :
  (limits_ok data agent /\ exists l, get_rate_limit data agent = Ok (Some l)
     /\ forall l', limit_for data agent l' <-> l' = l)
  \/ (~ limits_ok data agent /\ get_rate_limit data agent = Err conflict).
Proof.
  unfold get_rate_limit, limit_of, limits_ok.
  assert (forall agent l', limit_for data agent l' <->
     match index (obj_get data "rate_limits") agent, index (obj_get data "rate_limits") "default" with
     | Some l, _ => l' = l
     | None, Some l => l' = l
     | None, None => l' = JNum (float_of_Z 1000)
     end) as Hl.
  { intros ag l'. split; [intros []; repeat case_match; naive_solver|].
    destruct (index _ ag) eqn:E1; [intros ->; by constructor|].
    destruct (index _ "default") eqn:E2; intros ->; [by apply limit_default|by apply limit_fallback]. }
  destruct (index _ agent) as [l|] eqn:E.
  - destruct (holds (Some l)) eqn:Hh.
    + left. split; [by apply holds_iff|]. exists l. cbn. split; [done|]. intros l'. by rewrite Hl, E.
    + right. assert (l = JBool false) as -> by (by destruct l as [|[]| | | |]).
      split; [by intros []|]. cbn.
      destruct (index _ "default") as [d|]; [|done]. destruct (holds (Some d)) eqn:Hd; cbn.
      * by rewrite rego_eq_false.
      * by assert (d = JBool false) as -> by (by destruct d as [|[]| | | |]).
  - cbn. destruct (index _ "default") as [d|] eqn:E'.
    + destruct (holds (Some d)) eqn:Hd.
      * left. split; [intros [= ->]; done|]. exists d. split; [done|]. intros l'. by rewrite Hl, E.
      * right. assert (d = JBool false) as -> by (by destruct d as [|[]| | | |]). split; [naive_solver|done].
    + left. split; [done|]. exists (JNum (float_of_Z 1000)). split; [done|]. intros l'. by rewrite Hl, E.
Qed.

Lemma rate_limit_ok_cases :
  (limits_ok data (input_agent_id i) /\ exists l, get_rate_limit data (input_agent_id i) = Ok (Some l)
     /\ rate_limit_ok data i = Ok (rego_lt (input_session_request_count i) l)
     /\ (rego_lt (input_session_request_count i) l = true <->
         exists limit, limit_for data (input_agent_id i) limit
           /\ rego_compare (input_session_request_count i) limit = Lt))
  \/ (~ limits_ok data (input_agent_id i) /\ get_rate_limit data (input_agent_id i) = Err conflict
      /\ rate_limit_ok data i = Err conflict).
Proof.
  unfold rate_limit_ok.
  destruct (get_rate_limit_cases (input_agent_id i)) as [(Hok & l & -> & Hl)|(Hno & ->)]; [left|by right].
  split; [done|]. exists l. split; [done|]. split.
  - cbn. by destruct (rego_lt _ l).
  - unfold rego_lt. split.
    + intros H. exists l. split; [by apply Hl|]. by destruct (rego_compare _ l).
    + intros (l' & ->%Hl & ->). done.
Qed.

Lemma not_blocked_iff :
  blocked data i = false <->
  ~ listed data "blocked_tools" (input_request_tool i) /\
  ~ listed data "blocked_agents" (input_agent_id i) /\
  (holds (Some (input_identity_verified i)) = true -> ~ listed data "blocked_dids" (input_identity_did i)).
Proof.
  unfold blocked, blocked_tool, blocked_agent, blocked_did.
  rewrite !orb_false_iff, andb_false_iff, <- !not_true_iff_false, !is_in_listed.
  destruct (holds _); naive_solver.
Qed.

(** [allow] decides the specification. *)
Lemma allow_cases :
  match allow data i with
  | Ok b => b = true <-> authorized data i
  | Err e => ~ limits_ok data (input_agent_id i) /\ e = conflict
  end.
Proof.
  unfold allow. destruct (capability_check data i) eqn:Hc.
  2:{ split; [done|]. intros [H1 _ _ _ _]. apply capability_check_iff in H1. congruence. }
  destruct rate_limit_ok_cases as [(Hok & l & _ & -> & Hl)|(Hno & _ & ->)]; [|done].
  cbn. rewrite andb_true_iff, negb_true_iff, Hl, not_blocked_iff. split.
  - intros [H2 (H3 & H4 & H5)]. split; [by apply capability_check_iff|done..].
  - by intros [H1 H2 H3 H4 H5].
Qed.

Lemma authorized_not_blocked : authorized data i -> blocked data i = false.
Proof. intros [_ _ H3 H4 H5]. by apply not_blocked_iff. Qed.

End Correct.

(** ** Properties *)

(** C6: The policies of the repository implement their specification: on every input and
    every policy data the decision is an object whose [allow] is true exactly when the
    request is authorized (a capability that grants the required one, fewer requests than the
    limit that applies, neither tool nor agent nor verified DID on a list), except that a
    limit of [false], and nothing else, makes the evaluation fail. *)
Theorem decision_implements_spec (sprintf : string -> list jvalue -> option string)
    (data : jobject) (i : RegoInput) :
  match decision sprintf data i with
  | Ok v => limits_ok data (input_agent_id i) /\
      exists m, v = JObj m /\ exists b, obj_get m "allow" = Some (JBool b)
        /\ (b = true <-> authorized data i)
  | Err e => ~ limits_ok data (input_agent_id i) /\ e = conflict
  end.
Proof.
  pose proof (allow_cases data i) as Ha. unfold decision, violations, violation_messages.
  destruct (rate_limit_ok_cases data i) as [(Hok & l & Hl & Hr & _)|(Hno & _ & Hr)].
  - assert (exists rule, matched_rule data i = Ok rule) as [rule ->].
    { unfold matched_rule. rewrite Hr. destruct (allow data i) as [b|e]; [|by destruct Ha].
      cbn. repeat case_match; by eexists. }
    rewrite Hr, Hl. destruct (allow data i) as [b|e]; [|by destruct Ha].
    cbn. split; [done|]. eexists. split; [done|]. exists b. split; [done|]. apply Ha.
  - destruct (allow data i) as [b|e]; [|exact Ha]. by rewrite Hr.
Qed.

(** The rule that is reported explains the decision: it is [allowed] exactly for
    authorized requests, otherwise it names a demand that is not met, and the last
    alternative, [default_deny], is never reached. *)
Theorem matched_rule_explains (data : jobject) (i : RegoInput) (rule : string)
    (Hrule : matched_rule data i = Ok rule) :
  (rule = "allowed" /\ authorized data i)
  \/ (~ authorized data i /\
      ((rule = "blocked" /\ blocked data i = true)
       \/ (rule = "rate_limit_exceeded" /\ rate_limit_ok data i = Ok false)
       \/ (rule = "missing_capability" /\ capability_check data i = false))).
Proof.
  pose proof (allow_cases data i) as Ha. pose proof (authorized_not_blocked data i) as Hb.
  unfold matched_rule in Hrule. unfold allow in Ha, Hrule.
  destruct (blocked data i); [injection Hrule as <-; right; naive_solver|].
  destruct (rate_limit_ok data i) as [ok|e]; [|done]. cbn in Ha, Hrule.
  destruct ok, (capability_check data i); cbn in *; injection Hrule as <-; naive_solver.
Qed.

Lemma omap_id_nil {A} (l : list (option A)) : omap id l = [] <-> Forall (fun o => o = None) l.
Proof.
  induction l as [|[m|] l IH]; cbn.
  - split; [constructor|done].
  - split; [done|]. intros H. by inversion H.
  - rewrite IH. split; [by constructor|]. intros H. by inversion H.
Qed.

(** A reason for every denial: with a [sprintf] that formats, there is a violation
    message exactly when the request is not authorized. *)
Theorem violations_iff_denied (sprintf : string -> list jvalue -> option string)
    (data : jobject) (i : RegoInput) (msgs : list string)
    (Hsprintf : forall f l, is_Some (sprintf f l))
    (Hmsgs : violation_messages sprintf data i = Ok msgs) :
  msgs = [] <-> authorized data i.
Proof.
  pose proof (allow_cases data i) as Ha. unfold violation_messages in Hmsgs.
  destruct (rate_limit_ok_cases data i) as [(_ & l & Hl & Hr & _)|(_ & Hl & Hr)];
    rewrite Hr in Hmsgs; [|done]. rewrite Hl in Hmsgs. cbn [mbind result_bind] in Hmsgs.
  assert (allow data i = Ok (capability_check data i && rego_lt (input_session_request_count i) l
                             && negb (blocked data i))) as Hallow.
  { unfold allow. rewrite Hr. by destruct (capability_check data i). }
  rewrite Hallow in Ha. rewrite <- Ha. clear Ha Hallow.
  assert (msgs = omap id (violation_bodies sprintf data i
            (rego_lt (input_session_request_count i) l) (Some l))) as -> by congruence.
  assert (forall b f args, when b (sprintf f args) = None <-> b = false) as Hw.
  { intros b f args. destruct (Hsprintf f args) as [m Hm]. destruct b; cbn; rewrite ?Hm; naive_solver. }
  rewrite omap_id_nil. unfold violation_bodies, rate_limit_violation, blocklist_violations, capability_violation.
  rewrite !Forall_cons, !Hw. unfold blocked.
  assert (mbind (fun required => when (negb (capability_check data i))
              (sprintf "Agent '%s' lacks capability '%s' required for tool '%s'"
                 [JStr (input_agent_id i); required; JStr (input_request_tool i)]))
            (required_capability data (input_request_tool i)) = None
          <-> capability_check data i = true) as ->.
  { destruct (required_capability data _) as [r|] eqn:E; cbn [mbind option_bind].
    - by rewrite Hw, negb_false_iff.
    - unfold capability_check. by rewrite E. }
  cbn [mbind option_bind]. rewrite Hw, Forall_nil.
  rewrite !andb_true_iff, !negb_true_iff, !orb_false_iff, negb_false_iff. tauto.
Qed.

(** The messages are lost: [violations] is an object, not a set, so the engine reads no
    violation from any decision of these policies; neither the client nor the audit log is
    ever told a reason beyond the rule. *)
Theorem shipped_violations_lost (sprintf : string -> list jvalue -> option string)
    (data : jobject) (i : RegoInput) (v : jvalue) (d : PolicyDecision)
    (Hv : decision sprintf data i = Ok v) (Hd : parseDecision v = Ok d) :
  PolicyTypes.Violations d = None /\ (PolicyTypes.Allow d = true <-> authorized data i).
Proof.
  pose proof (decision_implements_spec sprintf data i) as H. rewrite Hv in H.
  unfold decision, violations in Hv. destruct (allow data i) as [b|]; [|done].
  destruct (violation_messages sprintf data i) as [ms|]; [|done].
  destruct (matched_rule data i) as [r|]; [|done]. injection Hv as <-.
  injection Hd as <-. split; [done|].
  destruct H as (_ & m & [= <-] & b' & [= <-] & Hb). exact Hb.
Qed.

(** ** The input of the proxy, and OPA *)

(** What the policies read of the input that the engine builds. *)
Definition rego_input_of (p : PolicyInput) : RegoInput :=
  mkRegoInput (coerce_utf8 (Agent_ID (Agent p))) (coerce (json_strings (Agent_Capabilities (Agent p))))
    (coerce_utf8 (Request_Tool (Request p))) (json_int (Session_RequestCount (Session p)))
    (JBool (Verified (Identity p))) (coerce_utf8 (Identity_DID (Identity p))).

Lemma view_structToMap time_json p m :
  structToMap time_json p = Ok m -> view m = Some (rego_input_of p).
Proof.
  unfold structToMap. destruct (time_json (StartedAt _)), (time_json (IssuedAt _)),
    (time_json (PolicyTypes.Timestamp _)); try done.
  by intros [= <-].
Qed.

(** An OPA that evaluates the query on these modules as the rules above say; [shipped] is
    the content of the files. *)
Class RunsPolicies `{O : OPA} (shipped : list (string * string))
    (sprintf : string -> list jvalue -> option string) : Prop :=
  eval_shipped (store : option jobject) (q : Query) (m : jobject) (i : RegoInput) (now : Time) :
    PrepareForEval shipped store = Ok q -> view m = Some i ->
    match decision sprintf (default [] store) i with
    | Ok v => Eval q m now = Ret (Ok [[v]])
    | Err _ => exists e, Eval q m now = Ret (Err e)
    end.

Section Opa.

Context `{O : OPA} (shipped : list (string * string)).
Context (sprintf : string -> list jvalue -> option string) `{!RunsPolicies shipped sprintf}.
Context (time_json : Time -> result string string).

(** With these policies OPA's consent means authorization. *)
Lemma opa_allows_authorized (e : Engine) (data : jobject) (input : PolicyInput) (now : Time) :
  PrepareForEval shipped (store_of data) = Ok (query e) ->
  opa_allows time_json e input now -> authorized data (rego_input_of input).
Proof.
  intros Hq (im & m & vs & rs & Him & Heval & Hallow).
  pose proof (eval_shipped _ _ im _ now Hq (view_structToMap _ _ _ Him)) as H.
  replace (default [] (store_of data)) with data in H by (by destruct data).
  pose proof (decision_implements_spec sprintf data (rego_input_of input)) as Hd.
  destruct (decision sprintf data (rego_input_of input)) as [v|e'].
  - rewrite Heval in H. injection H as Hv _ _. destruct Hd as (_ & m' & -> & b & Hb & Hauth).
    injection Hv as <-. apply Hauth. congruence.
  - destruct H as [e'' He]. congruence.
Qed.

End Opa.

(** ** The tests of policies/capability_test.rego *)

Definition no_format (f : string) (args : list jvalue) : option string := Some f.

Definition test_data (capabilities limits : jobject) (tools agents dids : list string) : jobject :=
  [("tool_capabilities", JObj capabilities); ("rate_limits", JObj limits);
   ("blocked_tools", JArr (map JStr tools)); ("blocked_agents", JArr (map JStr agents));
   ("blocked_dids", JArr (map JStr dids))].

Definition test_input (agent : string) (capabilities : list string) (tool : string) (count : Z)
    (did : option string) : RegoInput :=
  mkRegoInput agent (JArr (map JStr capabilities)) tool (json_int count)
    (JBool (match did with Some _ => true | None => false end)) (default "" did).

Definition customers : jobject := [("customer_lookup", JStr "read:customers")].
Definition thousand : jobject := [("default", json_int 1000)].

Example test_allow_exact_capability_match :
  allow (test_data customers thousand [] [] [])
    (test_input "test-agent" ["read:customers"] "customer_lookup" 0 None) = Ok true.
Proof. reflexivity. Qed.

Example test_allow_wildcard_capability_match :
  allow (test_data customers thousand [] [] [])
    (test_input "test-agent" ["read:*"] "customer_lookup" 0 None) = Ok true.
Proof. reflexivity. Qed.

Example test_allow_super_admin_wildcard :
  allow (test_data [("admin_panel", JStr "admin:*")] thousand [] [] [])
    (test_input "admin-agent" ["*"] "admin_panel" 0 None) = Ok true.
Proof. reflexivity. Qed.

Example test_deny_missing_capability :
  allow (test_data customers thousand [] [] [])
    (test_input "test-agent" ["read:tickets"] "customer_lookup" 0 None) = Ok false.
Proof. reflexivity. Qed.

Example test_deny_blocked_agent :
  allow (test_data customers thousand [] ["blocked-agent"] [])
    (test_input "blocked-agent" ["read:customers"] "customer_lookup" 0 None) = Ok false.
Proof. reflexivity. Qed.

Example test_deny_blocked_tool :
  allow (test_data [("database_drop", JStr "admin:database")] thousand ["database_drop"] [] [])
    (test_input "test-agent" ["admin:*"] "database_drop" 0 None) = Ok false.
Proof. reflexivity. Qed.

Example test_deny_rate_limit_exceeded :
  allow (test_data customers thousand [] [] [])
    (test_input "test-agent" ["read:customers"] "customer_lookup" 1000 None) = Ok false.
Proof. reflexivity. Qed.

Example test_agent_specific_rate_limit :
  allow (test_data customers [("limited-agent", json_int 100); ("default", json_int 1000)] [] [] [])
    (test_input "limited-agent" ["read:customers"] "customer_lookup" 100 None) = Ok false.
Proof. reflexivity. Qed.

Example test_allow_unmapped_tool :
  allow (test_data [] thousand [] [] []) (test_input "test-agent" [] "unknown_tool" 0 None) = Ok true.
Proof. reflexivity. Qed.

Example test_violations_on_capability_deny :
  violation_messages no_format (test_data customers thousand [] [] [])
    (test_input "test-agent" [] "customer_lookup" 0 None)
  = Ok ["Agent '%s' lacks capability '%s' required for tool '%s'"].
Proof. reflexivity. Qed.

Example test_violations_on_rate_limit :
  violation_messages no_format (test_data customers thousand [] [] [])
    (test_input "test-agent" ["read:customers"] "customer_lookup" 1000 None)
  = Ok ["Agent '%s' exceeded rate limit (%d/%d requests in session)"].
Proof. reflexivity. Qed.

Example test_deny_blocked_did :
  allow (test_data customers thousand [] [] ["did:key:z6MkBadActor"])
    (test_input "test-agent" ["read:customers"] "customer_lookup" 0 (Some "did:key:z6MkBadActor"))
  = Ok false.
Proof. reflexivity. Qed.

(** ** Where the policies do not do what they mean to *)

(** A limit given as a string never limits, and a limit of [false] makes every evaluation
    fail. *)
Example odd_limits :
  allow (test_data customers [("default", JStr "5")] [] [] [])
    (test_input "a" ["*"] "customer_lookup" 1000000 None) = Ok true /\
  allow (test_data customers [("default", JBool false)] [] [] [])
    (test_input "a" ["*"] "customer_lookup" 0 None) = Err conflict.
Proof. split; reflexivity. Qed.

(** ** Witnesses *)

Definition denied_input : RegoInput :=
  test_input "test-agent" ["read:tickets"] "customer_lookup" 1000 None.

Definition customer_data : jobject := test_data customers thousand [] [] [].

Lemma matched_rule_explains_witness :
  ("rate_limit_exceeded" = "allowed" /\ authorized customer_data denied_input)
  \/ (~ authorized customer_data denied_input /\
      (("rate_limit_exceeded" = "blocked" /\ blocked customer_data denied_input = true)
       \/ ("rate_limit_exceeded" = "rate_limit_exceeded"
           /\ rate_limit_ok customer_data denied_input = Ok false)
       \/ ("rate_limit_exceeded" = "missing_capability"
           /\ capability_check customer_data denied_input = false))).
Proof. apply (matched_rule_explains customer_data denied_input "rate_limit_exceeded"). reflexivity. Defined.

Lemma violations_iff_denied_witness :
  ["Agent '%s' lacks capability '%s' required for tool '%s'";
   "Agent '%s' exceeded rate limit (%d/%d requests in session)"] = [] <->
  authorized customer_data denied_input.
Proof.
  apply (violations_iff_denied no_format).
  - intros f l. eexists. reflexivity.
  - reflexivity.
Defined.

Definition denied_value : jvalue :=
  match decision no_format customer_data denied_input with Ok v => v | Err _ => JNull end.

Lemma shipped_violations_lost_witness :
  exists d, parseDecision denied_value = Ok d /\ PolicyTypes.Violations d = None
            /\ (PolicyTypes.Allow d = true <-> authorized customer_data denied_input).
Proof.
  eexists. split; [vm_compute; reflexivity|].
  apply (shipped_violations_lost no_format customer_data denied_input denied_value); reflexivity.
Defined.
