(* ===== verification/Router.v ===== *)
(** * The message router

    Models src/internal/router: types.go (requests, the method registry, the pooled
    request contexts and the request identifiers), parser.go (validation of JSON-RPC
    messages and extraction of their parameters), response.go (error responses) and
    router.go (dispatch, policy enforcement, forwarding, auditing).

    github.com/goccy/go-json is the class [GoJson]. The three callbacks of the router run
    in a state of type [W], which the router does not look at; [traced] instruments any
    router so that its calls become a list of events. What one call reads from its
    surroundings (clock, random bytes, objects left in the [sync.Pool]s) is [RouteEnv]. *)

From Stdlib Require Import ZArith Lia Ascii.
From stdpp Require Import base list gmap strings numbers.
From S2P Require Import Prelude Json Session.

(** ** State with panics *)

Definition M (W A : Type) : Type := W -> W * outcome A.

#[export] Instance M_ret {W} : MRet (M W) := fun A a w => (w, Ret a).
#[export] Instance M_bind {W} : MBind (M W) := fun A B f m w =>
  match m w with
  | (w', Ret a) => f a w'
  | (w', Panic msg) => (w', Panic msg)
  end.

Definition lift {W A} (o : outcome A) : M W A := fun w => (w, o).

(** ** Requests and responses *)

(** [interface{}] identifiers are [JNull] when [nil]; a nil [RawMessage] is [None]. *)
Record Request : Type := mkRequest {
  JSONRPC : string;
  Req_ID : jvalue;
  Req_Method : string;
  Params : option string
}.

Record MetaParams : Type := mkMetaParams { AgentFacts : string }.

Record ToolCallParams : Type := mkToolCallParams {
  Call_Name : string;
  Call_Arguments : option jobject;
  Call_Meta : option MetaParams
}.

Record ResourceReadParams : Type := mkResourceReadParams {
  URI : string;
  Read_Meta : option MetaParams
}.

Record PolicyViolationData : Type := mkPolicyViolationData {
  Data_RequestID : string;
  Data_AgentID : string;
  Data_Tool : string;
  RequiredCapability : string;
  AgentCapabilities : slice string;
  Data_Violations : slice string;
  Data_PolicyMode : string;
  Data_Timestamp : string
}.

(** The [Data interface{}] of an error: absent, a violation, or a map. *)
Inductive error_data : Type :=
| NoData
| ViolationData (d : PolicyViolationData)
| MapData (m : jobject).

Record Error : Type := mkError {
  Err_Code : Z;
  Err_Message : string;
  Data : error_data
}.

Record Response : Type := mkResponse {
  Resp_JSONRPC : string;
  Resp_ID : jvalue;
  Result : option jvalue;
  Resp_Error : option Error
}.

Record ParseError : Type := mkParseError { Code : Z; Message : string }.

Definition CodeParseError : Z := -32700.
Definition CodeInvalidRequest : Z := -32600.
Definition CodeMethodNotFound : Z := -32601.
Definition CodeInvalidParams : Z := -32602.
Definition CodeInternalError : Z := -32603.
Definition CodePolicyViolation : Z := -32001.
Definition CodeIdentityError : Z := -32002.
Definition CodeRateLimited : Z := -32003.
Definition CodeUpstreamError : Z := -32004.

(** What the router uses of goccy/go-json. [Unmarshal] into a struct keeps the fields
    that the message does not mention, so it takes the target's previous value. *)
Class GoJson : Type := {
  unmarshal_Request : string -> Request -> result string Request;
  unmarshal_ToolCallParams : string -> result string ToolCallParams;
  unmarshal_ResourceReadParams : string -> result string ResourceReadParams;
  unmarshal_object : string -> result string (list (string * string));
  unmarshal_MetaParams : string -> result string MetaParams;
  json_Marshal : Response -> result string string;
  json_Encode : Response -> result string string
}.

(** ** Method registry *)

Inductive HandlerType : Type := HandlerPassthrough | HandlerFullEnforce | HandlerFilter.
Inductive LogLevel : Type := LogNone | LogMetadata | LogFull.

#[export] Instance HandlerType_eq : EqDecision HandlerType.
Proof. solve_decision. Defined.
#[export] Instance LogLevel_eq : EqDecision LogLevel.
Proof. solve_decision. Defined.

Record MethodConfig : Type := mkMethodConfig {
  Handler : HandlerType;
  Log_Level : LogLevel;
  Description : string
}.

Definition MethodRegistry : list (string * MethodConfig) :=
  [("tools/call", mkMethodConfig HandlerFullEnforce LogFull "Invoke a tool");
   ("tools/list", mkMethodConfig HandlerFilter LogMetadata "List available tools");
   ("resources/read", mkMethodConfig HandlerFullEnforce LogFull "Read a resource");
   ("resources/list", mkMethodConfig HandlerFilter LogMetadata "List available resources");
   ("resources/subscribe",
      mkMethodConfig HandlerFullEnforce LogFull "Subscribe to resource updates");
   ("prompts/get", mkMethodConfig HandlerPassthrough LogMetadata "Get a prompt template");
   ("prompts/list", mkMethodConfig HandlerPassthrough LogMetadata "List available prompts");
   ("initialize", mkMethodConfig HandlerPassthrough LogMetadata "Initialize MCP session");
   ("ping", mkMethodConfig HandlerPassthrough LogNone "Health check ping");
   ("notifications/initialized",
      mkMethodConfig HandlerPassthrough LogNone "Client initialization complete");
   ("notifications/cancelled", mkMethodConfig HandlerPassthrough LogMetadata "Request cancelled")].

Definition method_config (method : string) : MethodConfig :=
  match obj_get MethodRegistry method with
  | Some cfg => cfg
  | None => mkMethodConfig HandlerPassthrough LogMetadata "Unknown method"
  end.

Definition handlerTypeName (h : HandlerType) : string :=
  match h with
  | HandlerPassthrough => "passthrough"
  | HandlerFullEnforce => "enforce"
  | HandlerFilter => "filter"
  end.

(** ** Request contexts *)

Record RequestContext : Type := mkReqCtx {
  Ctx_Request : option Request;
  RequestID : string;
  Ctx_Method : string;
  Tool : string;
  ResourceURI : string;
  Arguments : option jobject;
  Config : MethodConfig;
  ReceivedAt : Time;
  AgentFactsToken : string
}.

(** Assignments to the fields of a request. *)
Definition set_JSONRPC (v : string) (req : Request) : Request :=
  mkRequest v (Req_ID req) (Req_Method req) (Params req).
Definition set_ID (v : jvalue) (req : Request) : Request :=
  mkRequest (JSONRPC req) v (Req_Method req) (Params req).
Definition set_Method (v : string) (req : Request) : Request :=
  mkRequest (JSONRPC req) (Req_ID req) v (Params req).
Definition set_Params (v : option string) (req : Request) : Request :=
  mkRequest (JSONRPC req) (Req_ID req) (Req_Method req) v.

(** [GetRequest]: [pooled] is whatever object the pool hands out. *)
Definition GetRequest (pooled : Request) : Request :=
  let req := set_JSONRPC "" pooled in
  let req := set_ID JNull req in
  let req := set_Method "" req in
  set_Params None req.

(** [PutRequest]: the object as it goes back to the pool. *)
Definition PutRequest (req : Request) : Request := set_Params None (set_ID JNull req).

(** [crypto/rand.Read] of a buffer of the given length. *)
Definition Rand : Type := nat -> result string (list ascii).

(** [s[:n]] panics when [n] exceeds the length. *)
Definition slice_to (n : nat) (s : string) : outcome string :=
  if decide (n <= String.length s) then Ret (String.substring 0 n s)
  else Panic "slice bounds out of range".

(** [randomHex]; the two branches of the source differ in where the buffer comes from. *)
Definition randomHex (n : nat) (rand : Rand) : outcome string :=
  let byteLen := Nat.div (n + 1) 2 in
  match rand byteLen with
  | Err e => Panic ("crypto/rand failed: " +:+ e)
  | Ok b => slice_to n (hex_encode b)
  end.

Definition generateRequestID (rand : Rand) : outcome string :=
  s ← randomHex 8 rand; Ret ("req_" +:+ s).

(** [NewRequestContextAt]: the fields of the pooled context are all overwritten. *)
Definition NewRequestContextAt (pooled : RequestContext) (req : Request) (receivedAt : Time)
    (rand : Rand) : outcome RequestContext :=
  id ← generateRequestID rand;
  Ret {| Ctx_Request := Some req; RequestID := id; Ctx_Method := Req_Method req; Tool := "";
         ResourceURI := ""; Arguments := None; Config := method_config (Req_Method req);
         ReceivedAt := receivedAt; AgentFactsToken := "" |}.

(** [Release]: the context and the request as they go back to their pools. *)
Definition Release (ctx : RequestContext) : RequestContext * option Request :=
  ({| Ctx_Request := None; RequestID := RequestID ctx; Ctx_Method := Ctx_Method ctx;
      Tool := Tool ctx; ResourceURI := ResourceURI ctx; Arguments := None;
      Config := Config ctx; ReceivedAt := ReceivedAt ctx;
      AgentFactsToken := AgentFactsToken ctx |},
   PutRequest <$> Ctx_Request ctx).

Definition with_details (tool uri : string) (args : option jobject) (token : string)
    (ctx : RequestContext) : RequestContext :=
  {| Ctx_Request := Ctx_Request ctx; RequestID := RequestID ctx; Ctx_Method := Ctx_Method ctx;
     Tool := tool; ResourceURI := uri; Arguments := args; Config := Config ctx;
     ReceivedAt := ReceivedAt ctx; AgentFactsToken := token |}.

(** ** Parser *)

Definition maxMethodLength : nat := 256.

Definition is_letter (a : ascii) : bool := in_range 97 122 a || in_range 65 90 a.

(** The character class after the first letter: letters, digits, underscore, slash. *)
Definition is_method_char (a : ascii) : bool :=
  is_letter a || in_range 48 57 a || in_range 95 95 a || in_range 47 47 a.

(** [methodPattern.MatchString]. *)
Definition methodPattern (s : string) : bool :=
  match bytes_of s with
  | [] => false
  | a :: l => is_letter a && forallb is_method_char l
  end.

(** The enforced methods, and that they are all audited. *)
Lemma enforced_iff m :
  Handler (method_config m) = HandlerFullEnforce <->
  m = "tools/call" \/ m = "resources/read" \/ m = "resources/subscribe".
Proof.
  split; [|by intros [->|[->| ->]]]. unfold method_config.
  destruct (obj_get MethodRegistry m) as [cfg|] eqn:E; [|done].
  apply obj_get_In in E. simpl in E.
  repeat destruct E as [E|E]; simplify_eq; simpl; naive_solver.
Qed.

Lemma enforced_logged m :
  Handler (method_config m) = HandlerFullEnforce -> Log_Level (method_config m) <> LogNone.
Proof. by intros [->|[->| ->]]%enforced_iff. Qed.

Section Router.

Context `{J : GoJson}.

Definition invalid (code : Z) (msg : string) {A} : result ParseError A := Err (mkParseError code msg).

Definition Parse (pooled : Request) (data : string) : result ParseError Request :=
  if bool_decide (data = "") then invalid CodeParseError "Empty message"
  else
    match unmarshal_Request data (GetRequest pooled) with
    | Err e => invalid CodeParseError ("Invalid JSON: " +:+ e)
    | Ok req =>
        if negb (bool_decide (JSONRPC req = "2.0")) then
          invalid CodeInvalidRequest
            ("Invalid JSON-RPC version: expected '2.0', got '" +:+ JSONRPC req +:+ "'")
        else if bool_decide (Req_Method req = "") then
          invalid CodeInvalidRequest "Missing 'method' field"
        else if bool_decide (maxMethodLength < String.length (Req_Method req)) then
          invalid CodeInvalidRequest "Method name too long"
        else if negb (methodPattern (Req_Method req)) then
          invalid CodeInvalidRequest "Invalid method name format"
        else if String.prefix "rpc." (Req_Method req) then
          invalid CodeInvalidRequest "Method names starting with 'rpc.' are reserved"
        else Ok req
    end.

Definition ParseToolCall (req : Request) : result ParseError ToolCallParams :=
  match Params req with
  | None => invalid CodeInvalidParams "Missing 'params' for tools/call"
  | Some raw =>
      match unmarshal_ToolCallParams raw with
      | Err e => invalid CodeInvalidParams ("Invalid tools/call params: " +:+ e)
      | Ok params =>
          if bool_decide (Call_Name params = "") then
            invalid CodeInvalidParams "Missing 'name' in tools/call params"
          else Ok params
      end
  end.

Definition ParseResourceRead (req : Request) : result ParseError ResourceReadParams :=
  match Params req with
  | None => invalid CodeInvalidParams "Missing 'params' for resources/read"
  | Some raw =>
      match unmarshal_ResourceReadParams raw with
      | Err e => invalid CodeInvalidParams ("Invalid resources/read params: " +:+ e)
      | Ok params =>
          if bool_decide (URI params = "") then
            invalid CodeInvalidParams "Missing 'uri' in resources/read params"
          else Ok params
      end
  end.

Definition ExtractMeta (params : option string) : result string (option MetaParams) :=
  match params with
  | None => Ok None
  | Some raw =>
      match unmarshal_object raw with
      | Err _ => Ok None
      | Ok m =>
          match obj_get m "_meta" with
          | None => Ok None
          | Some metaRaw =>
              match unmarshal_MetaParams metaRaw with
              | Err e => Err ("invalid _meta field: " +:+ e)
              | Ok meta => Ok (Some meta)
              end
          end
      end
  end.

Definition IsNotification (req : Request) : bool :=
  match Req_ID req with JNull => true | _ => false end.
Definition IsRequest (req : Request) : bool := negb (IsNotification req).

(** ** Responses *)

Definition Success (id result : jvalue) : Response :=
  {| Resp_JSONRPC := "2.0"; Resp_ID := id; Result := Some result; Resp_Error := None |}.

Definition ErrorWithData (id : jvalue) (code : Z) (message : string) (data : error_data)
    : Response :=
  {| Resp_JSONRPC := "2.0"; Resp_ID := id; Result := None;
     Resp_Error := Some {| Err_Code := code; Err_Message := message; Data := data |} |}.

Definition Error_ (id : jvalue) (code : Z) (message : string) : Response :=
  ErrorWithData id code message NoData.

Definition ParseErrorResponse (message : string) : Response := Error_ JNull CodeParseError message.
Definition InvalidRequest (id : jvalue) (message : string) : Response :=
  Error_ id CodeInvalidRequest message.
Definition MethodNotFound (id : jvalue) (method : string) : Response :=
  Error_ id CodeMethodNotFound ("Method not found: " +:+ method).
Definition InvalidParams (id : jvalue) (message : string) : Response :=
  Error_ id CodeInvalidParams message.
Definition InternalError (id : jvalue) (message : string) : Response :=
  Error_ id CodeInternalError message.
Definition UpstreamError (id : jvalue) (message : string) : Response :=
  Error_ id CodeUpstreamError message.
Definition FromParseError (e : ParseError) (id : jvalue) : Response :=
  Error_ id (Code e) (Message e).

Definition PolicyViolation (id : jvalue) (ctx : RequestContext) (agentID : string)
    (capabilities violations : slice string) (policyMode timestamp : string) : Response :=
  let data :=
    {| Data_RequestID := RequestID ctx; Data_AgentID := agentID; Data_Tool := Tool ctx;
       RequiredCapability := ""; AgentCapabilities := capabilities;
       Data_Violations := violations; Data_PolicyMode := policyMode;
       Data_Timestamp := timestamp |} in
  let message := match elems violations with [] => "Policy violation" | v :: _ => v end in
  ErrorWithData id CodePolicyViolation message (ViolationData data).

Definition IdentityError (id : jvalue) (errorCode message : string) : Response :=
  ErrorWithData id CodeIdentityError message (MapData [("error_code", JStr errorCode)]).

Definition RateLimited (id : jvalue) (agentID : string) (limit current : Z) : Response :=
  ErrorWithData id CodeRateLimited "Rate limit exceeded"
    (MapData [("agent_id", JStr agentID); ("limit", JNum (float_of_Z limit));
              ("current", JNum (float_of_Z current))]).

Definition newline : ascii := "010"%char.

(** [Marshal]: encode into a pooled buffer, drop one trailing newline, copy. *)
Definition strip_newline (data : string) : string :=
  match reverse (bytes_of data) with
  | a :: l => if bool_decide (a = newline) then of_bytes (reverse l) else data
  | [] => data
  end.

Definition Marshal (resp : Response) : result string string :=
  data ← json_Encode resp; Ok (strip_newline data).

Definition MustMarshal (resp : Response) : outcome string :=
  match json_Marshal resp with Ok s => Ret s | Err e => Panic e end.

(** ** Router *)

(** [router.PolicyDecision], not the one of the policy package. *)
Record PolicyDecision : Type := mkDecision {
  Allow : bool;
  Violations : slice string;
  MatchedRule : string;
  PolicyMode : string
}.

(** Go's [([]byte, error)]: [None] is a nil slice, a nil error. *)
Definition reply : Type := option string * option string.

Section World.

Context {W : Type}.

Record Router : Type := mkRouter {
  policyEvaluator :
    option (Session.Session -> RequestContext -> M W (option PolicyDecision * option string));
  upstreamSender : option (string -> M W reply);
  auditLogger :
    option (Session.Session -> RequestContext -> option PolicyDecision -> option string ->
            Duration -> M W unit)
}.

Record RouteEnv : Type := mkRouteEnv {
  RouteStart : Time;
  RouteEnd : Time;
  (** [time.Now().UTC().Format(time.RFC3339Nano)] in [PolicyViolation] *)
  ViolationTime : string;
  RandSource : Rand;
  PooledRequest : Request;
  PooledContext : RequestContext
}.

Definition NewRouter : Router :=
  {| policyEvaluator := None; upstreamSender := None; auditLogger := None |}.

(** [response, err := Marshal(resp)] and [data, _ := Marshal(resp)]. *)
Definition marshal_reply (resp : Response) : reply :=
  match Marshal resp with Ok s => (Some s, None) | Err e => (None, Some e) end.
Definition marshal_data (resp : Response) : option string := (marshal_reply resp).1.

Definition extractRequestDetails (req : Request) (ctx : RequestContext)
    : result ParseError RequestContext :=
  let token meta := match meta with Some m => AgentFacts m | None => AgentFactsToken ctx end in
  if bool_decide (Req_Method req = "tools/call") then
    params ← ParseToolCall req;
    Ok (with_details (Call_Name params) (ResourceURI ctx) (Call_Arguments params)
          (token (Call_Meta params)) ctx)
  else if bool_decide (Req_Method req = "resources/read") then
    params ← ParseResourceRead req;
    Ok (with_details (Tool ctx) (URI params) (Arguments ctx) (token (Read_Meta params)) ctx)
  else Ok ctx.

Definition forward (r : Router) (message : string) : M W reply :=
  match upstreamSender r with
  | Some send => send message
  | None => mret (Some message, None)
  end.

Definition handlePassthrough (r : Router) (message : string) : M W reply := forward r message.

(** [reqCtx.Request.ID] *)
Definition ctx_id (ctx : RequestContext) : jvalue :=
  match Ctx_Request ctx with Some req => Req_ID req | None => JNull end.

Definition no_policy : PolicyDecision :=
  {| Allow := true; Violations := None; MatchedRule := "no_policy"; PolicyMode := "disabled" |}.

Definition forward_enforced (r : Router) (ctx : RequestContext) (message : string)
    (decision : PolicyDecision) : M W (option string * option PolicyDecision * option string) :=
  res ← forward r message;
  match res with
  | (_, Some err) =>
      mret (marshal_data (UpstreamError (ctx_id ctx) err), Some decision, None)
  | (response, None) => mret (response, Some decision, None)
  end.

Definition handleEnforce (r : Router) (env : RouteEnv) (sess : Session.Session)
    (ctx : RequestContext) (message : string)
    : M W (option string * option PolicyDecision * option string) :=
  match policyEvaluator r with
  | None => forward_enforced r ctx message no_policy
  | Some evaluate =>
      res ← evaluate sess ctx;
      match res with
      | (decision, Some _) =>
          mret (marshal_data (InternalError (ctx_id ctx) "Policy evaluation failed"),
                decision, None)
      | (None, None) => lift (Panic "nil pointer dereference")
      | (Some decision, None) =>
          if negb (Allow decision) && bool_decide (PolicyMode decision = "enforce") then
            mret (marshal_data (PolicyViolation (ctx_id ctx) ctx (Session.AgentID sess)
                    (Session.Capabilities sess) (Violations decision) (PolicyMode decision)
                    (ViolationTime env)),
                  Some decision, None)
          else forward_enforced r ctx message decision
      end
  end.

Definition filter_decision : PolicyDecision :=
  {| Allow := true; Violations := None; MatchedRule := "passthrough"; PolicyMode := "filter" |}.

Definition handleFilter (r : Router) (message : string)
    : M W (option string * option PolicyDecision * option string) :=
  res ← forward r message;
  mret (res.1, Some filter_decision, res.2).

Definition dispatch (r : Router) (env : RouteEnv) (sess : Session.Session)
    (ctx : RequestContext) (message : string)
    : M W (option string * option PolicyDecision * option string) :=
  match Handler (Config ctx) with
  | HandlerPassthrough =>
      res ← handlePassthrough r message; mret (res.1, None, res.2)
  | HandlerFullEnforce => handleEnforce r env sess ctx message
  | HandlerFilter => handleFilter r message
  end.

Definition audit (r : Router) (sess : Session.Session) (ctx : RequestContext)
    (decision : option PolicyDecision) (response : option string) (latency : Duration)
    : M W unit :=
  match auditLogger r with
  | Some logger =>
      if bool_decide (Log_Level (Config ctx) = LogNone) then mret tt
      else logger sess ctx decision response latency
  | None => mret tt
  end.

(** The token of [_meta], when it can be read, replaces the one of the typed parameters. *)
Definition with_meta (req : Request) (ctx : RequestContext) : RequestContext :=
  match ExtractMeta (Params req) with
  | Ok (Some meta) =>
      with_details (Tool ctx) (ResourceURI ctx) (Arguments ctx) (AgentFacts meta) ctx
  | _ => ctx
  end.

(** What follows the handler: the audit callback, then the reply. *)
Definition finish (r : Router) (env : RouteEnv) (sess : Session.Session) (ctx : RequestContext)
    (res : option string * option PolicyDecision * option string) : M W reply :=
  let '(response, decision, err) := res in
  _ ← audit r sess ctx decision response (time_sub (RouteEnd env) (RouteStart env));
  mret (response, err).

Definition Route (r : Router) (env : RouteEnv) (sess : Session.Session) (message : string)
    : M W reply :=
  match Parse (PooledRequest env) message with
  | Err e => mret (marshal_reply (FromParseError e JNull))
  | Ok req =>
      ctx ← lift (NewRequestContextAt (PooledContext env) req (RouteStart env) (RandSource env));
      match extractRequestDetails req ctx with
      | Err e => mret (marshal_reply (FromParseError e (Req_ID req)))
      | Ok ctx =>
          let ctx := with_meta req ctx in
          dispatch r env sess ctx message ≫= finish r env sess ctx
      end
  end.

(** [ParseAndValidate] returns the request and its context also on the second error. *)
Definition ParseAndValidate (env : RouteEnv) (message : string)
    : outcome (option (Request * RequestContext) * option ParseError) :=
  match Parse (PooledRequest env) message with
  | Err e => Ret (None, Some e)
  | Ok req =>
      ctx ← NewRequestContextAt (PooledContext env) req (RouteStart env) (RandSource env);
      match extractRequestDetails req ctx with
      | Err e => Ret (Some (req, ctx), Some e)
      | Ok ctx => Ret (Some (req, ctx), None)
      end
  end.

Definition BuildErrorResponse (id : jvalue) (code : Z) (message : string)
    : result string string :=
  json_Marshal (Error_ id code message).

End World.

Arguments Router W : clear implicits.

(** ** Traces *)

Inductive event : Type :=
| EvPolicy (ctx : RequestContext) (decision : option PolicyDecision) (err : option string)
| EvUpstream (message : string) (answer : reply)
| EvAudit (ctx : RequestContext) (decision : option PolicyDecision) (response : option string)
    (latency : Duration).

(** The same router, with every completed call of a callback appended to a log. *)
Definition traced {W} (r : Router W) : Router (W * list event) :=
  let log {A} (m : M W A) (ev : A -> event) : M (W * list event) A := fun '(w, tr) =>
    match m w with
    | (w', Ret a) => ((w', tr ++ [ev a]), Ret a)
    | (w', Panic msg) => ((w', tr), Panic msg)
    end in
  {| policyEvaluator :=
       (fun f sess ctx => log (f sess ctx) (fun p => EvPolicy ctx p.1 p.2)) <$> policyEvaluator r;
     upstreamSender := (fun f msg => log (f msg) (EvUpstream msg)) <$> upstreamSender r;
     auditLogger :=
       (fun f sess ctx d resp lat => log (f sess ctx d resp lat) (fun _ => EvAudit ctx d resp lat))
         <$> auditLogger r |}.

(** ** Lemmas: tracing *)

(** What one call of a callback adds to the log. *)
Definition up_events {W} (r : Router W) (msg : string) (o : outcome reply) : list event :=
  match upstreamSender r, o with
  | Some _, Ret a => [EvUpstream msg a]
  | _, _ => []
  end.

Lemma forward_traced {W} (r : Router W) msg w tr :
  forward (traced r) msg (w, tr) =
    let '(w', o) := forward r msg w in ((w', tr ++ up_events r msg o), o).
Proof.
  unfold forward, up_events. simpl. destruct (upstreamSender r) as [send|]; simpl.
  - destruct (send msg w) as [w' [a|m]]; [done|]. by rewrite app_nil_r.
  - unfold mret, M_ret. by rewrite app_nil_r.
Qed.

Lemma up_events_cases {W} (r : Router W) msg o :
  up_events r msg o = [] \/ exists a, up_events r msg o = [EvUpstream msg a].
Proof. unfold up_events. repeat case_match; naive_solver. Qed.

(** The calls a handler may make: at most one evaluation, only for enforced methods,
    then at most one forwarding of the message as it came; a forwarding after an
    evaluation needs a decision that allows or does not enforce, and an enforced method
    is not forwarded without an evaluation when there is an evaluator. *)
Record mediated {W} (r : Router W) (ctx : RequestContext) (msg : string)
    (pol up : list event) : Prop := {
  med_up : up = [] \/ exists a, up = [EvUpstream msg a];
  med_pol : pol = [] \/ exists d err, pol = [EvPolicy ctx d err];
  med_enforced : pol <> [] -> Handler (Config ctx) = HandlerFullEnforce;
  med_guard : up <> [] -> Handler (Config ctx) = HandlerFullEnforce ->
    policyEvaluator r <> None ->
    exists d, pol = [EvPolicy ctx (Some d) None] /\
              (Allow d = true \/ PolicyMode d <> "enforce")
}.

Lemma forward_enforced_traced {W} (r : Router W) ctx msg d w tr :
  exists up, (up = [] \/ exists a, up = [EvUpstream msg a]) /\
  forward_enforced (traced r) ctx msg d (w, tr) =
    let '(w', o) := forward_enforced r ctx msg d w in ((w', tr ++ up), o).
Proof.
  unfold forward_enforced, mbind, M_bind. rewrite forward_traced.
  destruct (forward r msg w) as [w' o]. exists (up_events r msg o).
  split; [apply up_events_cases|]. destruct o as [[resp [err|]]|m]; done.
Qed.

Lemma handleEnforce_traced {W} (r : Router W) env sess ctx msg w tr :
  Handler (Config ctx) = HandlerFullEnforce ->
  exists pol up, mediated r ctx msg pol up /\
  handleEnforce (traced r) env sess ctx msg (w, tr) =
    let '(w', o) := handleEnforce r env sess ctx msg w in ((w', tr ++ pol ++ up), o).
Proof.
  intros Hh. unfold handleEnforce. cbn [traced policyEvaluator].
  destruct (policyEvaluator r) as [f|] eqn:Hf; cbn.
  2: { destruct (forward_enforced_traced r ctx msg no_policy w tr) as (up & Hup & ->).
       exists [], up. split; [|done]. split; naive_solver. }
  unfold mbind, M_bind. destruct (f sess ctx w) as [w1 [[d err]|m]].
  2: { exists [], []. split; [split; naive_solver|]. by rewrite !app_nil_r. }
  destruct err as [err|].
  { exists [EvPolicy ctx d (Some err)], []. split; [split; naive_solver|]. by destruct d. }
  destruct d as [d|].
  2: { exists [EvPolicy ctx None None], []. split; [split; naive_solver|]. done. }
  destruct (negb (Allow d) && bool_decide (PolicyMode d = "enforce")) eqn:Hd.
  { exists [EvPolicy ctx (Some d) None], []. split; [split; naive_solver|]. done. }
  destruct (forward_enforced_traced r ctx msg d w1 (tr ++ [EvPolicy ctx (Some d) None]))
    as (up & Hup & Heq).
  exists [EvPolicy ctx (Some d) None], up. split.
  - split; [done|naive_solver|done|]. intros _ _ _. exists d. split; [done|].
    destruct (Allow d); [by left|right]. simpl in Hd. by apply bool_decide_eq_false in Hd.
  - cbn. rewrite Heq. destruct (forward_enforced r ctx msg d w1). by rewrite <- app_assoc.
Qed.

Lemma dispatch_traced {W} (r : Router W) env sess ctx msg w tr :
  exists pol up, mediated r ctx msg pol up /\
  dispatch (traced r) env sess ctx msg (w, tr) =
    let '(w', o) := dispatch r env sess ctx msg w in ((w', tr ++ pol ++ up), o).
Proof.
  unfold dispatch. destruct (Handler (Config ctx)) eqn:Hh.
  2: { by apply handleEnforce_traced. }
  1: unfold handlePassthrough. 2: unfold handleFilter.
  all: unfold mbind, M_bind; rewrite forward_traced; destruct (forward r msg w) as [w' o];
    exists [], (up_events r msg o); (split; [split; [apply up_events_cases|by left|done|congruence]|]);
    by destruct o.
Qed.

Lemma audit_traced {W} (r : Router W) sess ctx d resp lat w tr :
  exists aud, (aud = [] \/ aud = [EvAudit ctx d resp lat]) /\
    (Log_Level (Config ctx) = LogNone \/ auditLogger r = None -> aud = []) /\
    (forall w', audit r sess ctx d resp lat w = (w', Ret tt) ->
       Log_Level (Config ctx) <> LogNone -> auditLogger r <> None ->
       aud = [EvAudit ctx d resp lat]) /\
    audit (traced r) sess ctx d resp lat (w, tr) =
      let '(w', o) := audit r sess ctx d resp lat w in ((w', tr ++ aud), o).
Proof.
  unfold audit. cbn [traced auditLogger]. destruct (auditLogger r) as [f|]; cbn.
  2: { exists []. rewrite app_nil_r. naive_solver. }
  case_bool_decide as Hl; [exists []; cbn; rewrite app_nil_r; naive_solver|].
  destruct (f sess ctx d resp lat w) as [w' [[]|m]] eqn:E.
  - exists [EvAudit ctx d resp lat]. naive_solver.
  - exists []. rewrite app_nil_r. naive_solver.
Qed.

Definition is_audit (ev : event) : bool := match ev with EvAudit _ _ _ _ => true | _ => false end.

Lemma mediated_no_audit {W} (r : Router W) ctx msg pol up :
  mediated r ctx msg pol up -> filter is_audit pol ++ filter is_audit up = [].
Proof. by intros [[->|[? ->]] [->|(? & ? & ->)] _ _]. Qed.

(** The context in which a message is handled, when it gets that far. *)
Definition handled (env : RouteEnv) (message : string) (req : Request) (ctx : RequestContext)
    : Prop :=
  Parse (PooledRequest env) message = Ok req /\
  exists ctx0 ctx1,
    NewRequestContextAt (PooledContext env) req (RouteStart env) (RandSource env) = Ret ctx0 /\
    extractRequestDetails req ctx0 = Ok ctx1 /\ ctx = with_meta req ctx1.

(** What stays fixed from the request to the context. *)
Lemma handled_ctx env message req ctx :
  handled env message req ctx ->
  Ctx_Request ctx = Some req /\ Ctx_Method ctx = Req_Method req /\
  Config ctx = method_config (Req_Method req) /\ ReceivedAt ctx = RouteStart env.
Proof.
  intros [_ (ctx0 & ctx1 & H0 & H1 & ->)]. unfold NewRequestContextAt, mbind, outcome_bind in H0.
  destruct (generateRequestID _); simplify_eq/=.
  unfold extractRequestDetails, mbind, result_bind in H1. unfold with_meta.
  repeat case_match; simplify_eq/=; done.
Qed.

(** A message is handled in one way. *)
Lemma handled_functional env message req1 ctx1 req2 ctx2 :
  handled env message req1 ctx1 -> handled env message req2 ctx2 -> req1 = req2 /\ ctx1 = ctx2.
Proof.
  intros [Hp1 (c0 & c1 & Hc1 & He1 & ->)] [Hp2 (c0' & c1' & Hc2 & He2 & ->)].
  rewrite Hp1 in Hp2. injection Hp2 as <-. rewrite Hc1 in Hc2. injection Hc2 as <-.
  rewrite He1 in He2. by injection He2 as <-.
Qed.

Lemma Route_handled {W} (r : Router W) env sess message req ctx w :
  handled env message req ctx ->
  Route r env sess message w =
    (dispatch r env sess ctx message ≫= finish r env sess ctx) w.
Proof.
  intros (Hp & ctx0 & ctx1 & H0 & H1 & ->). unfold Route. rewrite Hp.
  unfold mbind at 1, M_bind at 1. unfold lift. rewrite H0. simpl. by rewrite H1.
Qed.

(** A message that is not handled is answered without any callback. *)
Lemma Route_unhandled {W} (r : Router W) env sess message :
  (exists req ctx, handled env message req ctx) \/
  (forall req ctx, ~ handled env message req ctx) /\
  exists o, forall w, Route r env sess message w = (w, o) /\
    Route (traced r) env sess message (w, []) = ((w, []), o).
Proof.
  destruct (Parse (PooledRequest env) message) as [req|e] eqn:Hp.
  2: { right. split; [intros req ctx [? _]; congruence|]. unfold Route. rewrite Hp. by eexists. }
  destruct (NewRequestContextAt (PooledContext env) req (RouteStart env) (RandSource env))
    as [ctx0|m] eqn:H0.
  2: { right. split; [intros req' ctx (? & ? & ? & ? & ? & ?); congruence|].
       unfold Route. rewrite Hp. unfold mbind, M_bind, lift. rewrite H0. by eexists. }
  destruct (extractRequestDetails req ctx0) as [ctx1|e] eqn:H1.
  { left. exists req, (with_meta req ctx1). split; [done|]. by exists ctx0, ctx1. }
  right. split; [intros req' ctx (? & ? & ? & ? & ? & ?); congruence|].
  unfold Route. rewrite Hp. unfold mbind, M_bind, lift. rewrite H0, H1. by eexists.
Qed.

(** The calls of one message: evaluation, forwarding, audit, in this order. *)
Lemma Route_traced {W} (r : Router W) env sess message req ctx w :
  handled env message req ctx ->
  exists pol up aud, mediated r ctx message pol up /\
    (aud = [] \/ exists d resp lat, aud = [EvAudit ctx d resp lat]) /\
    Route (traced r) env sess message (w, []) =
      let '(w', o) := Route r env sess message w in ((w', pol ++ up ++ aud), o).
Proof.
  intros Hh. rewrite !(Route_handled _ _ _ _ _ _ _ Hh).
  destruct (dispatch_traced r env sess ctx message w []) as (pol & up & Hm & Hd).
  unfold mbind, M_bind. rewrite Hd. simpl.
  destruct (dispatch r env sess ctx message w) as [w1 [[[resp d] err]|m]].
  2: { exists pol, up, []. rewrite app_nil_r. naive_solver. }
  destruct (audit_traced r sess ctx d resp (time_sub (RouteEnd env) (RouteStart env)) w1
              (pol ++ up)) as (aud & Ha & _ & _ & Heq).
  unfold finish, mbind, M_bind. rewrite Heq. exists pol, up, aud. split; [done|]. split; [naive_solver|].
  destruct (audit r sess ctx d resp _ w1) as [w2 [[]|m]]; by rewrite <- app_assoc.
Qed.

(** The end of a call adds no forwarding. *)
Lemma finish_no_upstream {W} (r : Router W) env sess ctx res w tr m a :
  In (EvUpstream m a) (finish (traced r) env sess ctx res (w, tr)).1.2 ->
  In (EvUpstream m a) tr.
Proof.
  destruct res as [[resp d] err]. unfold finish, mbind, M_bind.
  destruct (audit_traced r sess ctx d resp (time_sub (RouteEnd env) (RouteStart env)) w tr)
    as (aud & Ha & _ & _ & ->).
  destruct (audit r sess ctx d resp _ w) as [w' [[]|msg]]; simpl;
    (intros [H|H]%in_app_or; [done|]); destruct Ha as [->| ->]; simpl in H; naive_solver.
Qed.

(** When the message of an enforced method was forwarded, the evaluator had been called
    in the state in which routing began, and said so. *)
Lemma forwarded_evaluated {W} (r : Router W) env sess message req ctx evaluate w m a :
  handled env message req ctx ->
  Handler (method_config (Req_Method req)) = HandlerFullEnforce ->
  policyEvaluator r = Some evaluate ->
  In (EvUpstream m a) (Route (traced r) env sess message (w, [])).1.2 ->
  exists w1 d, evaluate sess ctx w = (w1, Ret (Some d, None)) /\
    (Allow d = true \/ PolicyMode d <> "enforce").
Proof.
  intros Hh Hhandler Hev Hin.
  destruct (handled_ctx _ _ _ _ Hh) as (_ & _ & Hcfg & _).
  rewrite (Route_handled _ _ _ _ _ _ _ Hh) in Hin. unfold mbind at 1, M_bind at 1 in Hin.
  unfold dispatch in Hin. rewrite Hcfg, Hhandler in Hin.
  unfold handleEnforce in Hin. cbn [traced policyEvaluator] in Hin. rewrite Hev in Hin.
  cbn -[finish] in Hin. unfold mbind at 1, M_bind at 1 in Hin.
  destruct (evaluate sess ctx w) as [w1 [[d err]|msg]] eqn:E; [|by destruct Hin].
  destruct err as [err|].
  { exfalso. cbn -[finish] in Hin. assert (Hq : In (EvUpstream m a) [EvPolicy ctx d (Some err)]).
    { destruct d; cbn -[finish] in Hin; by apply finish_no_upstream in Hin. }
    simpl in Hq. naive_solver. }
  destruct d as [d|]; cbn -[finish] in Hin; [|naive_solver].
  exists w1, d. split; [done|].
  destruct (Allow d); [by left|right]. cbn -[finish] in Hin. intros Hm.
  rewrite bool_decide_true in Hin by done. cbn -[finish] in Hin. apply finish_no_upstream in Hin.
  simpl in Hin. naive_solver.
Qed.

(** ** Lemmas: parsing *)

Definition zero_Request : Request := mkRequest "" JNull "" None.

Lemma GetRequest_zero pooled : GetRequest pooled = zero_Request.
Proof. reflexivity. Qed.

(** A dot is no method character, so the test for the reserved prefix never fires. *)
Lemma methodPattern_no_rpc s : methodPattern s = true -> String.prefix "rpc." s = false.
Proof.
  unfold methodPattern. intros H. destruct (String.prefix "rpc." s) eqn:E; [|done]. exfalso.
  do 4 (destruct s as [|? s]; [discriminate E|]; simpl in E; case_match; [subst|discriminate E]).
  discriminate H.
Qed.

(** What [Parse] demands of a decoded request. *)
Definition acceptable (req : Request) : Prop :=
  JSONRPC req = "2.0" /\ Req_Method req <> "" /\
  String.length (Req_Method req) <= maxMethodLength /\ methodPattern (Req_Method req) = true.

Lemma Parse_Ok pooled data req :
  Parse pooled data = Ok req <->
  data <> "" /\ unmarshal_Request data zero_Request = Ok req /\ acceptable req.
Proof.
  unfold Parse, acceptable, invalid. rewrite GetRequest_zero. split.
  - intros H. repeat case_match; simplify_eq;
      repeat match goal with
        | H : negb _ = false |- _ => apply negb_false_iff in H
        | H : bool_decide _ = true |- _ => apply bool_decide_eq_true in H
        | H : bool_decide _ = false |- _ => apply bool_decide_eq_false in H end.
    split; [done|]. split; [done|]. split; [done|]. split; [done|]. split; [lia|done].
  - intros (Hd & Hu & Hj & Hm & Hl & Hp). rewrite bool_decide_false, Hu by done.
    rewrite bool_decide_true, bool_decide_false, bool_decide_false, Hp by (done || lia).
    simpl. by rewrite methodPattern_no_rpc.
Qed.

(** ** Properties *)

(** C3: Complete mediation. Whatever the callbacks do, a message that reaches the
    upstream server is forwarded byte for byte as it came and at most once, it parsed
    as a valid request, and if its method is an enforced one and an evaluator is set,
    then the policy was evaluated first, for that method, without error, to a decision
    that allows or whose mode is not enforce. *)
Theorem complete_mediation {W} (r : Router W) (env : RouteEnv) (sess : Session.Session)
    (message : string) (w : W) (pre post : list event) (m : string) (a : reply)
    (Htr : (Route (traced r) env sess message (w, [])).1.2 = pre ++ EvUpstream m a :: post) :
  m = message /\
  (forall m' a', ~ In (EvUpstream m' a') (pre ++ post)) /\
  exists req, Parse (PooledRequest env) message = Ok req /\
    (Handler (method_config (Req_Method req)) = HandlerFullEnforce ->
     policyEvaluator r <> None ->
     exists ctx d, pre = [EvPolicy ctx (Some d) None] /\ Ctx_Method ctx = Req_Method req /\
       (Allow d = true \/ PolicyMode d <> "enforce")).
Proof.
  destruct (Route_unhandled r env sess message) as [(req & ctx & Hh)|(_ & o & Hu)].
  2: { destruct (Hu w) as [_ Ht]. rewrite Ht in Htr. by destruct pre. }
  destruct (Route_traced r env sess message req ctx w Hh)
    as (pol & up & aud & [Hup Hpol _ Hg] & Haud & Heq).
  rewrite Heq in Htr. destruct (Route r env sess message w) as [w' o]. simpl in Htr.
  destruct (handled_ctx _ _ _ _ Hh) as (_ & Hcm & Hcfg & _).
  destruct Hup as [->|[a' ->]].
  { exfalso. assert (In (EvUpstream m a) (pol ++ aud)) as Hin.
    { simpl in Htr. rewrite Htr. apply in_or_app. right. by left. }
    apply in_app_or in Hin. destruct Hpol as [->|(? & ? & ->)],
      Haud as [->|(? & ? & ? & ->)]; simpl in Hin; naive_solver. }
  assert (pre = pol /\ EvUpstream m a = EvUpstream message a' /\ post = aud) as (-> & [= -> ->] & ->).
  { destruct Hpol as [->|(? & ? & ->)], Haud as [->|(? & ? & ? & ->)];
      destruct pre as [|? [|? [|? pre]]]; simplify_eq/=; try done; by destruct pre. }
  split; [done|]. split.
  { intros m' a'' Hin. apply in_app_or in Hin.
    destruct Hpol as [->|(? & ? & ->)], Haud as [->|(? & ? & ? & ->)]; simpl in Hin; naive_solver. }
  exists req. split; [apply Hh|]. intros He Hev. rewrite <- Hcfg in He.
  destruct (Hg ltac:(done) He Hev) as (d & -> & Hd). by exists ctx, d.
Qed.

(** C8: A denial in enforce mode blocks the request: nothing is sent upstream, the
    response is the policy violation (-32001) of the request with the request's own id,
    and the audit log is told of exactly this decision and response. *)
Theorem denied_is_blocked {W} (r : Router W) (env : RouteEnv) (sess : Session.Session)
    (message : string) (req : Request) (ctx : RequestContext) (d : PolicyDecision)
    (evaluate : Session.Session -> RequestContext ->
                M W (option PolicyDecision * option string))
    (log : Session.Session -> RequestContext -> option PolicyDecision -> option string ->
           Duration -> M W unit) (w w1 w2 : W)
    (Hh : handled env message req ctx)
    (Hhandler : Handler (method_config (Req_Method req)) = HandlerFullEnforce)
    (Hev : policyEvaluator r = Some evaluate) (Hlog : auditLogger r = Some log)
    (Hd : evaluate sess ctx w = (w1, Ret (Some d, None)))
    (Hdeny : Allow d = false) (Hmode : PolicyMode d = "enforce")
    (Haudit : log sess ctx (Some d)
       (marshal_data (PolicyViolation (Req_ID req) ctx (Session.AgentID sess)
          (Session.Capabilities sess) (Violations d) "enforce" (ViolationTime env)))
       (time_sub (RouteEnd env) (RouteStart env)) w1 = (w2, Ret tt)) :
  let resp := PolicyViolation (Req_ID req) ctx (Session.AgentID sess)
                (Session.Capabilities sess) (Violations d) "enforce" (ViolationTime env) in
  Resp_ID resp = Req_ID req /\ Err_Code <$> Resp_Error resp = Some CodePolicyViolation /\
  Route (traced r) env sess message (w, []) =
    ((w2, [EvPolicy ctx (Some d) None;
           EvAudit ctx (Some d) (marshal_data resp)
             (time_sub (RouteEnd env) (RouteStart env))]),
     Ret (marshal_data resp, None)).
Proof.
  intros resp. split; [done|]. split; [done|].
  destruct (handled_ctx _ _ _ _ Hh) as (Hreq & _ & Hcfg & _).
  rewrite (Route_handled _ _ _ _ _ _ _ Hh). unfold mbind, M_bind, dispatch.
  rewrite Hcfg, Hhandler. unfold handleEnforce, mbind, M_bind. cbn [traced policyEvaluator].
  rewrite Hev. cbn. rewrite Hd. cbn. rewrite Hdeny, Hmode, bool_decide_true by done. cbn.
  unfold finish, audit, mbind, M_bind. cbn [traced auditLogger]. rewrite Hlog. cbn. rewrite Hcfg.
  unfold ctx_id. rewrite Hreq. fold resp.
  rewrite bool_decide_false by by apply enforced_logged.
  fold resp in Haudit. by rewrite Haudit.
Qed.

(** C20: Evaluation fails closed: when the evaluator returns an error, nothing is sent
    upstream, whatever the mode; the client gets the internal error (-32603) of the request, with
    its id, a fixed text instead of the evaluator's and no data, and the audit callback, if there
    is one, is told of this response (only if that callback panics there is no response). *)
Theorem evaluator_error_blocks {W} (r : Router W) (env : RouteEnv) (sess : Session.Session)
    (message : string) (req : Request) (ctx : RequestContext) (d : option PolicyDecision)
    (e : string)
    (evaluate : Session.Session -> RequestContext ->
                M W (option PolicyDecision * option string)) (w w1 : W)
    (Hh : handled env message req ctx)
    (Hhandler : Handler (method_config (Req_Method req)) = HandlerFullEnforce)
    (Hev : policyEvaluator r = Some evaluate)
    (Herr : evaluate sess ctx w = (w1, Ret (d, Some e))) :
  let resp := {| Resp_JSONRPC := "2.0"; Resp_ID := Req_ID req; Result := None;
                 Resp_Error := Some {| Err_Code := -32603; Err_Message := "Policy evaluation failed";
                                       Data := NoData |} |} in
  let latency := time_sub (RouteEnd env) (RouteStart env) in
  Route (traced r) env sess message (w, []) =
    match auditLogger r with
    | None => ((w1, [EvPolicy ctx d (Some e)]), Ret (marshal_data resp, None))
    | Some log =>
        match log sess ctx d (marshal_data resp) latency w1 with
        | (w2, Ret _) =>
            ((w2, [EvPolicy ctx d (Some e); EvAudit ctx d (marshal_data resp) latency]),
             Ret (marshal_data resp, None))
        | (w2, Panic msg) => ((w2, [EvPolicy ctx d (Some e)]), Panic msg)
        end
    end.
Proof.
  intros resp latency. destruct (handled_ctx _ _ _ _ Hh) as (Hreq & _ & Hcfg & _).
  rewrite (Route_handled _ _ _ _ _ _ _ Hh). unfold mbind, M_bind, dispatch.
  rewrite Hcfg, Hhandler. unfold handleEnforce, mbind, M_bind. cbn [traced policyEvaluator].
  rewrite Hev. cbn. rewrite Herr. unfold ctx_id. rewrite Hreq.
  transitivity (finish (traced r) env sess ctx (marshal_data resp, d, None) (w1, [EvPolicy ctx d (Some e)]));
    [by destruct d|].
  unfold finish, audit, mbind, M_bind. cbn [traced auditLogger].
  destruct (auditLogger r) as [log|]; [|done]. cbn. rewrite Hcfg.
  rewrite bool_decide_false by by apply enforced_logged.
  fold latency. by destruct (log sess ctx d (marshal_data resp) latency w1) as [w2 [[]|msg]].
Qed.

(** An allowed call, and a violating one outside enforce mode, is forwarded: the
    client gets the upstream server's answer unchanged, or, when forwarding failed, the
    upstream error (-32004) of its request with the failure's text. *)
Theorem allowed_is_forwarded {W} (r : Router W) (env : RouteEnv) (sess : Session.Session)
    (message : string) (req : Request) (ctx : RequestContext) (d : PolicyDecision)
    (evaluate : Session.Session -> RequestContext ->
                M W (option PolicyDecision * option string))
    (send : string -> M W reply) (w w1 w2 : W) (answer err : option string)
    (Hh : handled env message req ctx)
    (Hhandler : Handler (method_config (Req_Method req)) = HandlerFullEnforce)
    (Hev : policyEvaluator r = Some evaluate) (Hsend : upstreamSender r = Some send)
    (Hd : evaluate sess ctx w = (w1, Ret (Some d, None)))
    (Hallow : Allow d = true \/ PolicyMode d <> "enforce")
    (Hup : send message w1 = (w2, Ret (answer, err))) :
  Route (traced r) env sess message (w, []) =
    finish (traced r) env sess ctx
      (match err with
       | None => answer
       | Some e => marshal_data (UpstreamError (Req_ID req) e)
       end, Some d, None)
      (w2, [EvPolicy ctx (Some d) None; EvUpstream message (answer, err)]).
Proof.
  destruct (handled_ctx _ _ _ _ Hh) as (Hreq & _ & Hcfg & _).
  rewrite (Route_handled _ _ _ _ _ _ _ Hh). unfold mbind, M_bind, dispatch.
  rewrite Hcfg, Hhandler. unfold handleEnforce, mbind, M_bind. cbn [traced policyEvaluator].
  rewrite Hev. cbn. rewrite Hd. cbn.
  assert (negb (Allow d) && bool_decide (PolicyMode d = "enforce") = false) as ->.
  { destruct Hallow as [->|Hm]; [done|]. rewrite (bool_decide_false _ Hm). apply andb_false_r. }
  unfold forward_enforced, forward, mbind, M_bind. cbn [traced upstreamSender].
  rewrite Hsend. cbn. rewrite Hup. unfold ctx_id. rewrite Hreq. by destruct err.
Qed.

(** C37: Every handled message is audited exactly once, with its own context and with the
    response the client gets, unless its method is not logged; a message that was
    rejected before dispatch is not audited and no callback is called for it. *)
Theorem audited_once {W} (r : Router W) (env : RouteEnv) (sess : Session.Session)
    (message : string) (w w' : W) (tr : list event) (resp err : option string)
    (Hlog : auditLogger r <> None)
    (Hrun : Route (traced r) env sess message (w, []) = ((w', tr), Ret (resp, err))) :
  (tr = [] /\ forall req ctx, ~ handled env message req ctx) \/
  exists req ctx d, handled env message req ctx /\
    filter is_audit tr =
      if bool_decide (Log_Level (method_config (Req_Method req)) = LogNone) then []
      else [EvAudit ctx d resp (time_sub (RouteEnd env) (RouteStart env))].
Proof.
  destruct (Route_unhandled r env sess message) as [(req & ctx & Hh)|(Hn & o & Hu)].
  2: { left. destruct (Hu w) as [_ Ht]. rewrite Ht in Hrun. by simplify_eq. }
  right. destruct (handled_ctx _ _ _ _ Hh) as (_ & _ & Hcfg & _).
  rewrite (Route_handled _ _ _ _ _ _ _ Hh) in Hrun.
  destruct (dispatch_traced r env sess ctx message w []) as (pol & up & Hm & Hd).
  unfold mbind at 1, M_bind at 1 in Hrun. rewrite Hd in Hrun. simpl in Hrun.
  destruct (dispatch r env sess ctx message w) as [w1 [[[resp' d] err']|m]]; [|done].
  destruct (audit_traced r sess ctx d resp' (time_sub (RouteEnd env) (RouteStart env)) w1
              (pol ++ up)) as (aud & Ha & Hnone & Hsome & Heq).
  unfold finish, mbind, M_bind in Hrun. rewrite Heq in Hrun.
  destruct (audit r sess ctx d resp' _ w1) as [w2 [[]|m]]; [|done]. cbn in Hrun. injection Hrun as <- <- <- <-.
  exists req, ctx, d. split; [done|]. rewrite !list.filter_app. 
  rewrite (mediated_no_audit r ctx message pol up Hm). simpl. rewrite <- Hcfg.
  case_bool_decide as Hl; [by rewrite Hnone by by left|].
  by rewrite (Hsome _ eq_refl Hl Hlog).
Qed.

(** The parser accepts exactly the non-empty messages that decode, into a fresh
    request whatever object the pool hands out, to a version 2.0 request whose method
    is 1 to 256 bytes long, starts with a letter and has only letters, digits,
    underscores and slashes; no other test can reject a message. *)
Theorem Parse_accepts (pooled : Request) (data : string) (req : Request) :
  Parse pooled data = Ok req <->
  data <> "" /\ unmarshal_Request data zero_Request = Ok req /\
  JSONRPC req = "2.0" /\ 1 <= String.length (Req_Method req) <= 256 /\
  exists a l, bytes_of (Req_Method req) = a :: l /\ is_letter a = true /\
    forall b, In b l -> is_method_char b = true.
Proof.
  rewrite Parse_Ok. unfold acceptable, maxMethodLength, methodPattern. split.
  - intros (? & ? & ? & Hne & ? & Hp). destruct (Req_Method req) as [|a s]; [done|].
    simpl in *. apply andb_prop in Hp as [? Hp]. rewrite forallb_forall in Hp.
    do 3 (split; [done|]). split; [lia|]. by exists a, (bytes_of s).
  - intros (? & ? & ? & ? & a & l & Hb & Ha & Hl). rewrite Hb, Ha. simpl.
    do 3 (split; [done|]). split; [intros He; rewrite He in *; simpl in *; lia|]. split; [lia|].
    by rewrite forallb_forall.
Qed.

(** A rejected message is answered with a JSON-RPC error that says which part was
    wrong: a parse error (-32700) or invalid request (-32600) with a null id when the
    message itself is bad, invalid parameters (-32602) with the request's id when only
    its parameters are. *)
Theorem rejected_is_answered {W} (r : Router W) (env : RouteEnv) (sess : Session.Session)
    (message : string) (w : W) :
  match Parse (PooledRequest env) message with
  | Err e => In (Code e) [CodeParseError; CodeInvalidRequest] /\
      Route r env sess message w = (w, Ret (marshal_reply (Error_ JNull (Code e) (Message e))))
  | Ok req => forall ctx e,
      NewRequestContextAt (PooledContext env) req (RouteStart env) (RandSource env) = Ret ctx ->
      extractRequestDetails req ctx = Err e ->
      Code e = CodeInvalidParams /\ Handler (Config ctx) = HandlerFullEnforce /\
      Route r env sess message w =
        (w, Ret (marshal_reply (Error_ (Req_ID req) (Code e) (Message e))))
  end.
Proof.
  destruct (Parse (PooledRequest env) message) as [req|e] eqn:Hp.
  - intros ctx e Hc He. unfold Route. rewrite Hp.
    unfold mbind, M_bind, lift. rewrite Hc, He.
    assert (Hcfg : Config ctx = method_config (Req_Method req)).
    { unfold NewRequestContextAt, mbind, outcome_bind in Hc. by case_match; simplify_eq/=. }
    rewrite Hcfg, enforced_iff.
    unfold extractRequestDetails, ParseToolCall, ParseResourceRead, invalid,
      mbind, result_bind in He.
    repeat case_match; simplify_eq/=; repeat case_bool_decide; naive_solver.
  - split; [|unfold Route; by rewrite Hp].
    unfold Parse, invalid in Hp. repeat case_match; simplify_eq/=; auto.
Qed.

(** With an encoder that writes the JSON text followed by a newline, [Marshal]
    returns exactly the JSON text, as [json.Marshal] does. *)
Theorem Marshal_is_json
    (Henc : forall resp, json_Encode resp = (s ← json_Marshal resp; Ok (s +:+ String newline "")))
    (resp : Response) :
  Marshal resp = json_Marshal resp.
Proof.
  unfold Marshal. rewrite Henc. destruct (json_Marshal resp) as [s|e]; [|done]. cbn.
  f_equal. unfold strip_newline. rewrite bytes_of_app, reverse_app.
  change (reverse (bytes_of (String newline ""))) with [newline]. cbn -[reverse].
  by rewrite reverse_involutive, of_bytes_of.
Qed.

End Router.

Arguments Router W : clear implicits.

(** A random identifier of any requested length is exactly that long and no slice
    expression panics, given a source that fills the buffer; so every request id has
    twelve characters. *)
Theorem randomHex_length (rand : Rand)
    (Hrand : forall k, exists l, rand k = Ok l /\ length l = k) (n : nat) :
  (exists s, randomHex n rand = Ret s /\ String.length s = n) /\
  exists s, generateRequestID rand = Ret ("req_" +:+ s) /\ String.length s = 8.
Proof.
  assert (H : forall n, exists s, randomHex n rand = Ret s /\ String.length s = n).
  { clear n. intros n. unfold randomHex, slice_to.
    destruct (Hrand ((n + 1) / 2)) as (l & -> & Hl).
    assert (Hn : n <= String.length (hex_encode l)).
    { rewrite hex_encode_length, Hl. pose proof (Nat.div_mod_eq (n + 1) 2).
      pose proof (Nat.mod_upper_bound (n + 1) 2). lia. }
    rewrite decide_True by done. eexists. split; [done|]. by apply substring_length. }
  split; [apply H|]. destruct (H 8) as (s & Hs & Hl). exists s.
  unfold generateRequestID. rewrite Hs. done.
Qed.

(** ** Witnesses *)

(** A decoder that knows four messages, and an encoder that prints the error code. *)
#[local] Instance sample_json : GoJson := {|
  unmarshal_Request data prev :=
    if bool_decide (data = "call") then
      Ok (mkRequest "2.0" (JStr "7") "tools/call" (Some "{name:t}"))
    else if bool_decide (data = "ping") then
      Ok (mkRequest "2.0" (JStr "8") "ping" (Params prev))
    else if bool_decide (data = "partial") then Ok (set_JSONRPC "2.0" prev)
    else Err "unexpected character";
  unmarshal_ToolCallParams _ := Ok (mkToolCallParams "t" None None);
  unmarshal_ResourceReadParams _ := Err "not an object";
  unmarshal_object _ := Ok [];
  unmarshal_MetaParams _ := Ok (mkMetaParams "");
  json_Marshal resp :=
    Ok (match Resp_Error resp with Some e => itoa (Err_Code e) | None => "result" end);
  json_Encode resp :=
    Ok ((match Resp_Error resp with Some e => itoa (Err_Code e) | None => "result" end)
        +:+ String newline "")
|}.

Definition sample_rand : Rand := fun k => Ok (repeat "a"%char k).

Definition sample_renv : RouteEnv :=
  {| RouteStart := 10; RouteEnd := 15; ViolationTime := "now"; RandSource := sample_rand;
     PooledRequest := mkRequest "1.0" (JStr "old") "tools/call" (Some "old");
     PooledContext := mkReqCtx None "" "" "old" "old" None (method_config "ping") 0 "old" |}.

Definition sample_sess : Session.Session := Session.NewSession "s" 0 0.

Definition sample_req : Request := mkRequest "2.0" (JStr "7") "tools/call" (Some "{name:t}").

Definition sample_ctx : RequestContext :=
  mkReqCtx (Some sample_req) "req_61616161" "tools/call" "t" "" None
    (method_config "tools/call") 10 "".

Definition deny : PolicyDecision := mkDecision false (Some ["no"]) "r" "enforce".
Definition permit : PolicyDecision := mkDecision true None "r" "enforce".

(** A router whose evaluator answers [res], whose upstream answers [up], and whose
    callbacks count their calls. *)
Definition sample_router (res : option PolicyDecision * option string) (up : reply)
    : Router nat :=
  {| policyEvaluator := Some (fun _ _ n => (S n, Ret res));
     upstreamSender := Some (fun _ n => (S n, Ret up));
     auditLogger := Some (fun _ _ _ _ _ n => (S n, Ret tt)) |}.

Lemma sample_handled : handled sample_renv "call" sample_req sample_ctx.
Proof.
  split; [reflexivity|]. eexists _, _. split; [reflexivity|]. split; reflexivity.
Qed.

Lemma complete_mediation_witness :
  let r := sample_router (Some permit, None) (Some "done", None) in
  (Route (traced r) sample_renv sample_sess "call" (0, [])).1.2 =
    [EvPolicy sample_ctx (Some permit) None] ++ EvUpstream "call" (Some "done", None) ::
    [EvAudit sample_ctx (Some permit) (Some "done") 5] /\
  "call" = "call" /\
  exists ctx d, [EvPolicy sample_ctx (Some permit) None] = [EvPolicy ctx (Some d) None] /\
    (Allow d = true \/ PolicyMode d <> "enforce").
Proof.
  intros r.
  assert (H : (Route (traced r) sample_renv sample_sess "call" (0, [])).1.2 =
    [EvPolicy sample_ctx (Some permit) None] ++ EvUpstream "call" (Some "done", None) ::
    [EvAudit sample_ctx (Some permit) (Some "done") 5]) by reflexivity.
  split; [exact H|].
  destruct (complete_mediation r sample_renv sample_sess "call" 0
    [EvPolicy sample_ctx (Some permit) None] [EvAudit sample_ctx (Some permit) (Some "done") 5]
    "call" (Some "done", None) H) as (Hm & _ & req & Hp & Hg).
  split; [exact Hm|].
  assert (Hreq : Ok req = Ok (E := ParseError) sample_req) by (rewrite <- Hp; reflexivity).
  injection Hreq as ->.
  destruct Hg as (ctx & d & Hpre & _ & Hd); [reflexivity|discriminate|].
  exists ctx, d. split; [exact Hpre|exact Hd].
Defined.

Lemma denied_is_blocked_witness :
  Route (traced (sample_router (Some deny, None) (Some "done", None))) sample_renv
    sample_sess "call" (0, []) =
  ((2, [EvPolicy sample_ctx (Some deny) None; EvAudit sample_ctx (Some deny) (Some "-32001") 5]),
   Ret (Some "-32001", None)).
Proof.
  refine (proj2 (proj2 (denied_is_blocked (sample_router (Some deny, None) (Some "done", None))
    sample_renv sample_sess "call" sample_req sample_ctx deny
    (fun _ _ n => (S n, Ret (Some deny, None))) (fun _ _ _ _ _ n => (S n, Ret tt)) 0 1 2
    sample_handled _ _ _ _ _ _ _))); reflexivity.
Defined.

Lemma evaluator_error_blocks_witness :
  Route (traced (sample_router (None, Some "opa") (Some "done", None))) sample_renv
    sample_sess "call" (0, []) =
  ((2, [EvPolicy sample_ctx None (Some "opa"); EvAudit sample_ctx None (Some "-32603") 5]),
   Ret (Some "-32603", None)).
Proof.
  etransitivity.
  { apply (evaluator_error_blocks (sample_router (None, Some "opa") (Some "done", None))
      sample_renv sample_sess "call" sample_req sample_ctx None "opa"
      (fun _ _ n => (S n, Ret (None, Some "opa"))) 0 1 sample_handled); reflexivity. }
  reflexivity.
Defined.

Lemma allowed_is_forwarded_witness :
  Route (traced (sample_router (Some permit, None) (None, Some "gone"))) sample_renv
    sample_sess "call" (0, []) =
  ((3, [EvPolicy sample_ctx (Some permit) None; EvUpstream "call" (None, Some "gone");
        EvAudit sample_ctx (Some permit) (Some "-32004") 5]),
   Ret (Some "-32004", None)).
Proof.
  etransitivity.
  { apply (allowed_is_forwarded (sample_router (Some permit, None) (None, Some "gone"))
      sample_renv sample_sess "call" sample_req sample_ctx permit
      (fun _ _ n => (S n, Ret (Some permit, None))) (fun _ n => (S n, Ret (None, Some "gone")))
      0 1 2 None (Some "gone") sample_handled); try reflexivity. left. reflexivity. }
  reflexivity.
Defined.

Lemma audited_once_witness :
  exists req ctx d, handled sample_renv "call" req ctx /\
    filter is_audit [EvPolicy sample_ctx (Some deny) None;
                     EvAudit sample_ctx (Some deny) (Some "-32001") 5] =
      if bool_decide (Log_Level (method_config (Req_Method req)) = LogNone) then []
      else [EvAudit ctx d (Some "-32001") 5].
Proof.
  destruct (audited_once (sample_router (Some deny, None) (Some "done", None)) sample_renv
    sample_sess "call" 0 2 [EvPolicy sample_ctx (Some deny) None;
                            EvAudit sample_ctx (Some deny) (Some "-32001") 5]
    (Some "-32001") None) as [[H _]|H]; [discriminate|reflexivity|discriminate H|exact H].
Defined.

Lemma Marshal_is_json_witness : Marshal (UpstreamError (JStr "7") "gone") = Ok "-32004".
Proof.
  rewrite Marshal_is_json; [reflexivity|]. intros resp. destruct resp; reflexivity.
Defined.

Lemma randomHex_length_witness : exists s, randomHex 9 sample_rand = Ret s /\ String.length s = 9.
Proof.
  apply (randomHex_length sample_rand
    (fun k => ex_intro _ (repeat "a"%char k) (conj eq_refl (repeat_length _ _))) 9).
Defined.
