(* ===== verification/AuditStore.v ===== *)
(** * Audit records and their store

    Models src/internal/audit/types.go (records and their builder, query options) and
    src/internal/audit/store.go (opening, inserting records, one by one and in a transaction,
    queries and statistics with the text and arguments they send and the rows they read,
    pruning). The SQL driver is not modelled: whether one
    of its calls fails is an argument, and what the table holds is the list of its rows;
    a transaction that is not committed leaves the table as it was. *)

From Stdlib Require Import ZArith Lia Ascii.
From stdpp Require Import base list gmap strings numbers.
From S2P Require Import Prelude Json.

(** ** Records *)

Record Record_ : Type := mkRecord {
  Rec_ID : Z;
  Rec_RequestID : string;
  Rec_SessionID : string;
  Rec_Timestamp : Time;
  Latency : float64;
  Rec_AgentID : string;
  Rec_AgentName : string;
  Rec_Capabilities : string;
  Rec_Method : string;
  Rec_Tool : string;
  Rec_ResourceURI : string;
  Rec_Arguments : string;
  Rec_IdentityVerified : bool;
  Rec_DID : string;
  Allowed : bool;
  Rec_MatchedRule : string;
  Rec_Violations : string;
  Rec_PolicyMode : string;
  Rec_SourceIP : string;
  Rec_Environment : string
}.

Definition NewRecordBuilder (now : Time) : Record_ :=
  mkRecord 0 "" "" now (float_of_Z 0) "" "" "" "" "" "" "" false "" false "" "" "" "" "".

Definition RecWithRequest (requestID sessionID : string) (r : Record_) : Record_ :=
  mkRecord (Rec_ID r) requestID sessionID (Rec_Timestamp r) (Latency r) (Rec_AgentID r)
    (Rec_AgentName r) (Rec_Capabilities r) (Rec_Method r) (Rec_Tool r) (Rec_ResourceURI r)
    (Rec_Arguments r) (Rec_IdentityVerified r) (Rec_DID r) (Allowed r) (Rec_MatchedRule r)
    (Rec_Violations r) (Rec_PolicyMode r) (Rec_SourceIP r) (Rec_Environment r).

Definition WithTiming (latencyMs : float64) (r : Record_) : Record_ :=
  mkRecord (Rec_ID r) (Rec_RequestID r) (Rec_SessionID r) (Rec_Timestamp r) latencyMs
    (Rec_AgentID r) (Rec_AgentName r) (Rec_Capabilities r) (Rec_Method r) (Rec_Tool r)
    (Rec_ResourceURI r) (Rec_Arguments r) (Rec_IdentityVerified r) (Rec_DID r) (Allowed r)
    (Rec_MatchedRule r) (Rec_Violations r) (Rec_PolicyMode r) (Rec_SourceIP r)
    (Rec_Environment r).

Definition RecWithAgent (agentID agentName capabilities : string) (r : Record_) : Record_ :=
  mkRecord (Rec_ID r) (Rec_RequestID r) (Rec_SessionID r) (Rec_Timestamp r) (Latency r)
    agentID agentName capabilities (Rec_Method r) (Rec_Tool r) (Rec_ResourceURI r)
    (Rec_Arguments r) (Rec_IdentityVerified r) (Rec_DID r) (Allowed r) (Rec_MatchedRule r)
    (Rec_Violations r) (Rec_PolicyMode r) (Rec_SourceIP r) (Rec_Environment r).

Definition WithMethod (method tool resourceURI arguments : string) (r : Record_) : Record_ :=
  mkRecord (Rec_ID r) (Rec_RequestID r) (Rec_SessionID r) (Rec_Timestamp r) (Latency r)
    (Rec_AgentID r) (Rec_AgentName r) (Rec_Capabilities r) method tool resourceURI arguments
    (Rec_IdentityVerified r) (Rec_DID r) (Allowed r) (Rec_MatchedRule r) (Rec_Violations r)
    (Rec_PolicyMode r) (Rec_SourceIP r) (Rec_Environment r).

Definition RecWithIdentity (verified : bool) (did : string) (r : Record_) : Record_ :=
  mkRecord (Rec_ID r) (Rec_RequestID r) (Rec_SessionID r) (Rec_Timestamp r) (Latency r)
    (Rec_AgentID r) (Rec_AgentName r) (Rec_Capabilities r) (Rec_Method r) (Rec_Tool r)
    (Rec_ResourceURI r) (Rec_Arguments r) verified did (Allowed r) (Rec_MatchedRule r)
    (Rec_Violations r) (Rec_PolicyMode r) (Rec_SourceIP r) (Rec_Environment r).

Definition WithDecision (allowed : bool) (matchedRule violations policyMode : string)
    (r : Record_) : Record_ :=
  mkRecord (Rec_ID r) (Rec_RequestID r) (Rec_SessionID r) (Rec_Timestamp r) (Latency r)
    (Rec_AgentID r) (Rec_AgentName r) (Rec_Capabilities r) (Rec_Method r) (Rec_Tool r)
    (Rec_ResourceURI r) (Rec_Arguments r) (Rec_IdentityVerified r) (Rec_DID r) allowed
    matchedRule violations policyMode (Rec_SourceIP r) (Rec_Environment r).

Definition RecWithEnvironment (sourceIP environment : string) (r : Record_) : Record_ :=
  mkRecord (Rec_ID r) (Rec_RequestID r) (Rec_SessionID r) (Rec_Timestamp r) (Latency r)
    (Rec_AgentID r) (Rec_AgentName r) (Rec_Capabilities r) (Rec_Method r) (Rec_Tool r)
    (Rec_ResourceURI r) (Rec_Arguments r) (Rec_IdentityVerified r) (Rec_DID r) (Allowed r)
    (Rec_MatchedRule r) (Rec_Violations r) (Rec_PolicyMode r) sourceIP environment.

(** ** The table *)

(** Rows in insertion order; [Next] is what AUTOINCREMENT gives the next row. *)
Record Table : Type := mkTable {
  Rows : list Record_;
  Next : Z
}.

Definition set_Rec_ID (id : Z) (r : Record_) : Record_ :=
  mkRecord id (Rec_RequestID r) (Rec_SessionID r) (Rec_Timestamp r) (Latency r)
    (Rec_AgentID r) (Rec_AgentName r) (Rec_Capabilities r) (Rec_Method r) (Rec_Tool r)
    (Rec_ResourceURI r) (Rec_Arguments r) (Rec_IdentityVerified r) (Rec_DID r) (Allowed r)
    (Rec_MatchedRule r) (Rec_Violations r) (Rec_PolicyMode r) (Rec_SourceIP r)
    (Rec_Environment r).

(** The INSERT statement names every column but the identifier. *)
Definition insert_row (r : Record_) (t : Table) : Table :=
  {| Rows := Rows t ++ [set_Rec_ID (Next t) r]; Next := (Next t + 1)%Z |}.

(** The error a driver call returns, if any. *)
Abbreviation fault := (option string) (only parsing).

Definition Insert (f : fault) (record : Record_) (t : Table) : Table * result string unit :=
  match f with
  | Some e => (t, Err e)
  | None => (insert_row record t, Ok tt)
  end.

(** The faults of the calls of one [InsertBatch]; the [n]th [ExecContext] fails as
    [FExec n] says. *)
Record BatchFaults : Type := mkBatchFaults {
  FBegin : fault;
  FPrepare : fault;
  FExec : nat -> fault;
  FCommit : fault
}.

(** The loop over the records, inside the transaction. *)
Fixpoint exec_all (f : nat -> fault) (i : nat) (records : list Record_) (t : Table)
    : result string Table :=
  match records with
  | [] => Ok t
  | record :: records =>
      match f i with
      | Some e => Err ("failed to insert record: " +:+ e)
      | None => exec_all f (S i) records (insert_row record t)
      end
  end.

(** [InsertBatch]; every early return runs the deferred [Rollback]. *)
Definition InsertBatch (f : BatchFaults) (records : list Record_) (t : Table)
    : Table * result string unit :=
  match records with
  | [] => (t, Ok tt)
  | _ =>
      match FBegin f with
      | Some e => (t, Err ("failed to begin transaction: " +:+ e))
      | None =>
          match FPrepare f with
          | Some e => (t, Err ("failed to prepare statement: " +:+ e))
          | None =>
              match exec_all (FExec f) 0 records t with
              | Err e => (t, Err e)
              | Ok t' =>
                  match FCommit f with
                  | Some e => (t, Err ("failed to commit transaction: " +:+ e))
                  | None => (t', Ok tt)
                  end
              end
          end
      end
  end.

(** [Prune]: the rows strictly older than the cutoff go; the count is returned. *)
Definition Prune (f : fault) (now : Time) (olderThan : Duration) (t : Table)
    : Table * result string Z :=
  let cutoff := (now - olderThan)%Z in
  match f with
  | Some e => (t, Err ("failed to prune: " +:+ e))
  | None =>
      let kept := filter (fun r => (Rec_Timestamp r <? cutoff)%Z = false) (Rows t) in
      ({| Rows := kept; Next := Next t |},
       Ok (Z.of_nat (length (Rows t)) - Z.of_nat (length kept))%Z)
  end.

(** ** Queries *)

Record QueryOptions : Type := mkQueryOptions {
  StartTime : option Time;
  EndTime : option Time;
  Opt_AgentID : string;
  Opt_SessionID : string;
  Opt_Method : string;
  Opt_Tool : string;
  Opt_Allowed : option bool;
  Limit : Z;
  Offset : Z;
  OrderBy : string;
  OrderDesc : bool
}.

(** Arguments bound to the placeholders. *)
Inductive sql_arg : Type :=
| ATime (t : Time)
| AStr (s : string)
| ABool (b : bool).

Definition allowedOrderByColumns : list string :=
  ["id"; "timestamp"; "agent_id"; "session_id"; "method"; "tool"; "allowed"; "latency_ms";
   "source_ip"].

Definition cond_opt {A} (text : string) (f : A -> sql_arg) (o : option A)
    : list (string * sql_arg) :=
  match o with Some a => [(text, f a)] | None => [] end.

Definition cond_str (text s : string) : list (string * sql_arg) :=
  if bool_decide (s = "") then [] else [(text, AStr s)].

(** [conditions] and [args], appended together. *)
Definition conditions (opts : QueryOptions) : list (string * sql_arg) :=
  cond_opt "timestamp >= ?" ATime (StartTime opts) ++
  cond_opt "timestamp <= ?" ATime (EndTime opts) ++
  cond_str "agent_id = ?" (Opt_AgentID opts) ++
  cond_str "session_id = ?" (Opt_SessionID opts) ++
  cond_str "method = ?" (Opt_Method opts) ++
  cond_str "tool = ?" (Opt_Tool opts) ++
  cond_opt "allowed = ?" ABool (Opt_Allowed opts).

Definition select_text : string :=
  "SELECT id, request_id, session_id, timestamp, latency_ms, agent_id, agent_name, capabilities, method, tool, resource_uri, arguments, identity_verified, did, allowed, matched_rule, violations, policy_mode, source_ip, environment FROM audit_log".

Definition where_text (conds : list string) : string :=
  match conds with [] => "" | _ => " WHERE " +:+ join " AND " conds end.

Definition page_text (word : string) (n : Z) : string :=
  if (n >? 0)%Z then " " +:+ word +:+ " " +:+ itoa n else "".

(** The text and the arguments that [Query] hands to [QueryContext]. *)
Definition Query (opts : QueryOptions) : result string (string * list sql_arg) :=
  let conds := conditions opts in
  if negb (bool_decide (OrderBy opts = "")) &&
     negb (bool_decide (OrderBy opts ∈ allowedOrderByColumns)) then
    Err ("invalid order by column: " +:+ OrderBy opts)
  else
    let orderBy := if bool_decide (OrderBy opts = "") then "timestamp" else OrderBy opts in
    let order := if OrderDesc opts then "DESC" else "ASC" in
    Ok (select_text +:+ where_text (map fst conds) +:+ " ORDER BY " +:+ orderBy +:+ " " +:+
        order +:+ page_text "LIMIT" (Limit opts) +:+ page_text "OFFSET" (Offset opts),
        map snd conds).

(** [Query] on a driver: [run] is [QueryContext], which gives the rows, each scanned or not,
    and the error that iterating ended with. *)
Fixpoint scan_rows (rows : list (result string Record_)) (acc : list Record_)
    : result string (list Record_) :=
  match rows with
  | [] => Ok acc
  | row :: rows =>
      r ← wrap_err "failed to scan row" row;
      scan_rows rows (acc ++ [r])
  end.

Definition QueryRecords
    (run : string -> list sql_arg -> result string (list (result string Record_) * fault))
    (opts : QueryOptions) : result string (list Record_ * fault) :=
  q ← Query opts;
  res ← wrap_err "failed to query" (run q.1 q.2);
  records ← scan_rows res.1 [];
  Ok (records, res.2).

Record StoreStats : Type := mkStoreStats {
  TotalRequests : Z;
  AllowedRequests : Z;
  DeniedRequests : Z;
  UniqueAgents : Z;
  UniqueSessions : Z;
  AvgLatencyMs : float64
}.

Definition stats_text : string := "
	SELECT
		COUNT(*) as total,
		COALESCE(SUM(CASE WHEN allowed = 1 THEN 1 ELSE 0 END), 0) as allowed,
		COALESCE(SUM(CASE WHEN allowed = 0 THEN 1 ELSE 0 END), 0) as denied,
		COUNT(DISTINCT agent_id) as unique_agents,
		COUNT(DISTINCT session_id) as unique_sessions,
		AVG(latency_ms) as avg_latency
	FROM audit_log
	".

(** [GetStats]: the row has five counts and an average that is null for no rows. *)
Definition GetStats
    (run : string -> list sql_arg -> result string (Z * Z * Z * Z * Z * option float64))
    (since : option Time) : result string StoreStats :=
  let conds := cond_opt " WHERE timestamp >= ?" ATime since in
  row ← wrap_err "failed to get stats" (run (stats_text +:+ String.concat "" (map fst conds)) (map snd conds));
  let '(total, allowed, denied, agents, sessions, avg) := row in
  Ok (mkStoreStats total allowed denied agents sessions (default (float_of_Z 0) avg)).

(** [NewStore]: [open] is what [sql.Open] answers for a data source name, the rows that the
    file has already; a schema that cannot be created closes the database again. *)
Definition NewStore (open : string -> result string Table) (schema : fault) (DBPath : string)
    : result string Table :=
  let path := if bool_decide (DBPath = "") then "audit.db" else DBPath in
  t ← wrap_err "failed to open database" (open (path +:+ "?_journal_mode=WAL&_busy_timeout=5000"));
  match schema with
  | Some e => Err ("failed to initialize schema: " +:+ e)
  | None => Ok t
  end.

(** ** Lemmas *)

(** All rows are returned in the driver's order, or none. *)
Lemma scan_rows_ok rows acc rs :
  scan_rows rows acc = Ok rs <-> exists l, rows = map Ok l /\ rs = acc ++ l.
Proof.
  revert acc. induction rows as [|[r|e] rows IH]; intros acc; cbn [scan_rows mbind result_bind wrap_err].
  - split; [intros [= <-]; exists []; by rewrite app_nil_r|].
    intros ([|? ?] & [=] & ->). by rewrite app_nil_r.
  - rewrite IH. split.
    + intros (l & -> & ->). exists (r :: l). by rewrite <- app_assoc.
    + intros ([|r' l] & [= <- ->] & ->). exists l. by rewrite <- app_assoc.
  - split; [done|]. by intros ([|? ?] & [=] & _).
Qed.

Lemma exec_all_rows f i records t t' :
  exec_all f i records t = Ok t' ->
  set_Rec_ID 0 <$> Rows t' = (set_Rec_ID 0 <$> Rows t) ++ (set_Rec_ID 0 <$> records) /\
  Next t' = (Next t + Z.of_nat (length records))%Z.
Proof.
  revert i t. induction records as [|r records IH]; intros i t H; simpl in *.
  { simplify_eq. rewrite app_nil_r. split; [done|lia]. }
  destruct (f i); [done|]. destruct (IH _ _ H) as [HR HN]. split.
  - rewrite HR. unfold insert_row. simpl. rewrite fmap_app, <- app_assoc. done.
  - rewrite HN. simpl. lia.
Qed.

(** Identifiers are given out in order, so they are pairwise different. *)
Definition ids_ok (t : Table) : Prop :=
  NoDup (Rec_ID <$> Rows t) /\ Forall (fun r => Rec_ID r < Next t)%Z (Rows t).

Lemma insert_row_ids r t : ids_ok t -> ids_ok (insert_row r t).
Proof.
  intros [Hn Hf]. unfold ids_ok, insert_row. simpl. split.
  - rewrite fmap_app. apply list.NoDup_app. split; [done|]. split; [|apply list.NoDup_singleton].
    intros id Hid Hin. simpl in Hin. apply list_elem_of_singleton in Hin as ->.
    apply list_elem_of_fmap in Hid as (r' & Heq & Hr').
    rewrite list.Forall_forall in Hf. specialize (Hf r' Hr'). lia.
  - apply Forall_app. split; [|constructor; [simpl; lia|done]].
    eapply list.Forall_impl; [exact Hf|]. simpl. intros. lia.
Qed.

Lemma exec_all_ids f i records t t' :
  exec_all f i records t = Ok t' -> ids_ok t -> ids_ok t'.
Proof.
  revert i t. induction records as [|r records IH]; intros i t H Hok; simpl in *;
    [by simplify_eq|]. destruct (f i); [done|]. eauto using insert_row_ids.
Qed.

Lemma InsertBatch_rows f records t :
  ids_ok t ->
  match InsertBatch f records t with
  | (t', Ok _) =>
      set_Rec_ID 0 <$> Rows t' = (set_Rec_ID 0 <$> Rows t) ++ (set_Rec_ID 0 <$> records) /\
      Next t' = (Next t + Z.of_nat (length records))%Z /\ ids_ok t'
  | (t', Err _) => t' = t
  end.
Proof.
  intros Hids. unfold InsertBatch. destruct records as [|r records].
  { rewrite app_nil_r. split; [done|]. split; [simpl; lia|done]. }
  destruct (FBegin f); [done|]. destruct (FPrepare f); [done|].
  destruct (exec_all (FExec f) 0 (r :: records) t) as [t'|e] eqn:E; [|done].
  destruct (FCommit f); [done|].
  destruct (exec_all_rows _ _ _ _ _ E) as [HR HN]. eauto using exec_all_ids.
Qed.

(** Number of placeholders in a text. *)
Fixpoint count_char (c : ascii) (s : string) : nat :=
  match s with
  | "" => 0
  | String a s => (if bool_decide (a = c) then 1 else 0) + count_char c s
  end.

Abbreviation holes := (count_char "?"%char) (only parsing).

Lemma count_char_app c s t : count_char c (s +:+ t) = count_char c s + count_char c t.
Proof.
  induction s as [|a s IH]; [by rewrite str_app_nil_l|]. rewrite str_app_cons. simpl.
  rewrite IH. lia.
Qed.

Lemma digit_not_hole k : k < 10 -> digit_char k <> "?"%char.
Proof.
  intros Hk. do 10 (destruct k as [|k]; [vm_compute; discriminate|]). lia.
Qed.

Lemma Z_digits_holes fuel z acc : holes acc = 0 -> holes (Z_digits fuel z acc) = 0.
Proof.
  revert z acc. induction fuel as [|fuel IH]; intros z acc Hacc; [done|]. cbn [Z_digits].
  assert (Hd : holes (String (digit_char (Z.to_nat (z mod 10))) acc) = 0).
  { cbn [count_char]. rewrite bool_decide_false, Hacc; [done|]. apply digit_not_hole.
    pose proof (Z.mod_pos_bound z 10). lia. }
  destruct (z <? 10)%Z; [done|]. by apply IH.
Qed.

Lemma itoa_holes n : holes (itoa n) = 0.
Proof.
  unfold itoa. destruct (n <? 0)%Z; [|by apply Z_digits_holes].
  cbn [count_char]. by rewrite Z_digits_holes.
Qed.

Lemma conditions_holes opts : Forall (fun p => holes p.1 = 1) (conditions opts).
Proof.
  unfold conditions, cond_opt, cond_str.
  repeat (apply Forall_app; split); repeat case_match; repeat constructor.
Qed.

Lemma where_holes (conds : list (string * sql_arg)) :
  Forall (fun p => holes p.1 = 1) conds -> holes (where_text (map fst conds)) = length conds.
Proof.
  intros H. assert (Hj : holes (join " AND " (map fst conds)) = length conds).
  { induction H as [|[c a] l Hc Hl IH]; [done|]. simpl in *. destruct l as [|[c' a'] l]; [done|].
    simpl in *. rewrite !count_char_app, Hc, IH. done. }
  destruct conds as [|p conds]; [done|]. unfold where_text. simpl map in *.
  cbv iota. rewrite count_char_app, Hj. done.
Qed.

Lemma page_holes word n : holes word = 0 -> holes (page_text word n) = 0.
Proof.
  intros H. unfold page_text. case_match; [|done].
  by rewrite !count_char_app, H, itoa_holes.
Qed.

Lemma column_holes c : c ∈ allowedOrderByColumns -> holes c = 0.
Proof. intros H. repeat (apply elem_of_cons in H as [->|H]; [done|]). set_solver. Qed.

(** ** Properties *)

(** A batch is inserted entirely or not at all: on success the table has grown by
    exactly the records of the batch, in order, with fresh identifiers; on any failure,
    of the transaction, of the statement, of a single record or of the commit, the table
    is unchanged. *)
Theorem InsertBatch_atomic (f : BatchFaults) (records : list Record_) (t : Table)
    (Hids : ids_ok t) :
  match InsertBatch f records t with
  | (t', Ok _) =>
      set_Rec_ID 0 <$> Rows t' = (set_Rec_ID 0 <$> Rows t) ++ (set_Rec_ID 0 <$> records) /\
      Next t' = (Next t + Z.of_nat (length records))%Z /\ ids_ok t'
  | (t', Err _) => t' = t /\ records <> []
  end.
Proof.
  pose proof (InsertBatch_rows f records t Hids) as H.
  destruct (InsertBatch f records t) as [t' [u|e]] eqn:E; [done|].
  split; [done|]. intros ->. by simpl in E.
Qed.

(** C39: Queries are injection-free. The text depends on the caller's values only through
    which filters are present, the paging numbers, the direction and a column of the
    whitelist: two option records that agree on these give the same text, whatever
    strings they carry, and every other column is refused. The values travel as arguments,
    one for each placeholder. *)
Theorem Query_injection_free (o1 o2 : QueryOptions)
    (Hshape : map fst (conditions o1) = map fst (conditions o2))
    (Hpage : Limit o1 = Limit o2 /\ Offset o1 = Offset o2 /\ OrderDesc o1 = OrderDesc o2)
    (Hcol : OrderBy o1 = OrderBy o2) :
  match Query o1, Query o2 with
  | Ok (q1, a1), Ok (q2, a2) =>
      q1 = q2 /\ (OrderBy o1 = "" \/ OrderBy o1 ∈ allowedOrderByColumns) /\
      holes q1 = length a1 /\ holes q2 = length a2
  | Err _, Err _ => OrderBy o1 <> "" /\ OrderBy o1 ∉ allowedOrderByColumns
  | _, _ => False
  end.
Proof.
  destruct Hpage as (HL & HO & HD).
  assert (Hh : forall o : QueryOptions, OrderBy o = "" \/ OrderBy o ∈ allowedOrderByColumns ->
    holes (select_text +:+ where_text (map fst (conditions o)) +:+ " ORDER BY " +:+
      (if bool_decide (OrderBy o = "") then "timestamp" else OrderBy o) +:+ " " +:+
      (if OrderDesc o then "DESC" else "ASC") +:+ page_text "LIMIT" (Limit o) +:+
      page_text "OFFSET" (Offset o)) = length (map snd (conditions o))).
  { intros o Ho. rewrite !count_char_app, where_holes by apply conditions_holes.
    rewrite !page_holes, length_map by done.
    assert (holes (if bool_decide (OrderBy o = "") then "timestamp" else OrderBy o) = 0) as ->.
    { case_bool_decide; [done|]. destruct Ho; [done|]. by apply column_holes. }
    assert (holes select_text = 0 /\ holes " ORDER BY " = 0 /\ holes " " = 0 /\
            holes "DESC" = 0 /\ holes "ASC" = 0) as (-> & -> & -> & Hdesc & Hasc)
      by (by vm_compute).
    destruct (OrderDesc o); rewrite ?Hdesc, ?Hasc; lia. }
  pose proof (Hh o1) as H1. pose proof (Hh o2) as H2. clear Hh.
  unfold Query. rewrite <- Hcol, <- HL, <- HO, <- HD, <- Hshape in *.
  repeat case_bool_decide; simpl; try done; auto 10.
Qed.

(** A page offset without a limit makes a statement with [OFFSET] and no [LIMIT],
    which SQLite's grammar does not have. *)
Theorem Query_offset_without_limit (opts : QueryOptions)
    (Hlim : (Limit opts <= 0)%Z) (Hoff : (0 < Offset opts)%Z) (Hcol : OrderBy opts = "")
    (Hasc : OrderDesc opts = false) :
  exists args, Query opts =
    Ok (select_text +:+ where_text (map fst (conditions opts)) +:+
        " ORDER BY timestamp ASC OFFSET " +:+ itoa (Offset opts), args).
Proof.
  unfold Query, page_text. rewrite Hcol, Hasc. simpl.
  destruct (Z.gtb_spec (Limit opts) 0) as [|_]; [lia|].
  destruct (Z.gtb_spec (Offset opts) 0) as [_|]; [|lia].
  eexists. done.
Qed.

(** Pruning removes exactly the rows older than the cutoff, keeps the others in
    order, and reports how many it removed. *)
Theorem Prune_exact (now : Time) (olderThan : Duration) (t t' : Table) (n : Z)
    (Hp : Prune None now olderThan t = (t', Ok n)) :
  Rows t' `sublist_of` Rows t /\
  Z.of_nat (length (Rows t')) = (Z.of_nat (length (Rows t)) - n)%Z /\
  forall r, r ∈ Rows t' <-> r ∈ Rows t /\ (now - olderThan <= Rec_Timestamp r)%Z.
Proof.
  unfold Prune in Hp. simplify_eq/=. split; [apply sublist_filter|]. split; [lia|].
  intros r. rewrite list_elem_of_filter, Z.ltb_ge. naive_solver.
Qed.

(** ** Witnesses *)

Definition empty_table : Table := {| Rows := []; Next := 1 |}.

Definition record_at (req : string) (t : Time) : Record_ :=
  RecWithRequest req "s" (NewRecordBuilder t).

Definition no_faults : BatchFaults := mkBatchFaults None None (fun _ => None) None.

(** The second record of a batch cannot be inserted. *)
Definition second_fails : BatchFaults :=
  mkBatchFaults None None (fun n => if bool_decide (n = 1) then Some "disk full" else None) None.

Lemma empty_table_ids : ids_ok empty_table.
Proof. split; constructor. Qed.

Lemma InsertBatch_atomic_witness :
  match InsertBatch second_fails [record_at "r1" 1; record_at "r2" 2] empty_table with
  | (t', Err e) => t' = empty_table /\ e = "failed to insert record: disk full"
  | _ => False
  end.
Proof.
  pose proof (InsertBatch_atomic second_fails [record_at "r1" 1; record_at "r2" 2] empty_table
    empty_table_ids) as H. vm_compute in H. vm_compute. split; [exact (proj1 H)|reflexivity].
Defined.

Definition opts_for (agent : string) (limit offset : Z) : QueryOptions :=
  {| StartTime := None; EndTime := Some 9%Z; Opt_AgentID := agent; Opt_SessionID := "";
     Opt_Method := ""; Opt_Tool := ""; Opt_Allowed := Some false; Limit := limit;
     Offset := offset; OrderBy := ""; OrderDesc := false |}.

Lemma Query_injection_free_witness :
  fst <$> (match Query (opts_for "' OR 1=1 --" 10 0) with Ok p => Some p | Err _ => None end) =
  fst <$> (match Query (opts_for "agent" 10 0) with Ok p => Some p | Err _ => None end).
Proof.
  pose proof (Query_injection_free (opts_for "' OR 1=1 --" 10 0) (opts_for "agent" 10 0)
    eq_refl (conj eq_refl (conj eq_refl eq_refl)) eq_refl) as H.
  destruct (Query (opts_for "' OR 1=1 --" 10 0)) as [[q1 a1]|], (Query (opts_for "agent" 10 0))
    as [[q2 a2]|]; [|contradiction|contradiction|reflexivity].
  destruct H as [-> _]. reflexivity.
Defined.

Lemma Query_offset_without_limit_witness :
  exists args, Query (opts_for "agent" 0 5) =
    Ok (select_text +:+ " WHERE timestamp <= ? AND agent_id = ? AND allowed = ?" +:+
        " ORDER BY timestamp ASC OFFSET " +:+ "5", args).
Proof.
  destruct (Query_offset_without_limit (opts_for "agent" 0 5)) as [args H];
    [reflexivity || (vm_compute; discriminate)|reflexivity|reflexivity|reflexivity|].
  exists args. exact H.
Defined.

Lemma Prune_exact_witness :
  let t := {| Rows := [record_at "r1" 1; record_at "r2" 50]; Next := 3 |} in
  let t' := {| Rows := [record_at "r2" 50]; Next := 3 |} in
  Prune None 60 20 t = (t', Ok 1%Z) /\ Rows t' `sublist_of` Rows t.
Proof.
  intros t t'. assert (H : Prune None 60 20 t = (t', Ok 1%Z)) by (vm_compute; reflexivity).
  split; [exact H|]. apply (Prune_exact 60 20 t t' 1 H).
Defined.
