(* ===== verification/AuditWriter.v ===== *)
(** * The asynchronous audit writer

    Models src/internal/audit/writer.go: the bounded buffer, the flush loop as a state
    machine that interleaves with writers and with other flushes, the counters, and the
    two mutexes. [flush] is two steps, as in the source: the buffer is swapped out under
    [bufferMu], and the batch is inserted later, without the lock. *)

From Stdlib Require Import ZArith Lia.
From stdpp Require Import base list gmap strings numbers relations.
From S2P Require Import Prelude Json AuditStore.

(** ** State and operations *)

Record WriterConfig : Type := mkWriterConfig {
  BufferSize : Z;
  FlushInterval : Duration
}.

(** Where the goroutine of [flushLoop] is: not started, in its [select], inside
    [InsertBatch] with a batch ([final] for the flush on shutdown), or gone. *)
Inductive LoopState : Type :=
| NotStarted
| Waiting
| Inserting (batch : list Record_) (final : bool)
| Exited.

Record Writer : Type := mkWriter {
  store : Table;
  buffer : list Record_;
  bufferMax : Z;
  flushInterval : Duration;
  flushChan : bool;                 (* a token is in the channel of capacity one *)
  cancelled : bool;                 (* the context is done *)
  loop : LoopState;
  written : Z;
  dropped : Z;
  flushes : Z
}.

Definition NewWriter (t : Table) (cfg : WriterConfig) : Writer :=
  {| store := t; buffer := [];
     bufferMax := if (BufferSize cfg <=? 0)%Z then 100%Z else BufferSize cfg;
     flushInterval := if (FlushInterval cfg <=? 0)%Z then Second else FlushInterval cfg;
     flushChan := false; cancelled := false; loop := NotStarted;
     written := 0; dropped := 0; flushes := 0 |}.

Definition set_buffer (b : list Record_) (sig : bool) (drop : Z) (w : Writer) : Writer :=
  {| store := store w; buffer := b; bufferMax := bufferMax w; flushInterval := flushInterval w;
     flushChan := sig; cancelled := cancelled w; loop := loop w; written := written w;
     dropped := drop; flushes := flushes w |}.

Definition set_loop (l : LoopState) (w : Writer) : Writer :=
  {| store := store w; buffer := buffer w; bufferMax := bufferMax w;
     flushInterval := flushInterval w; flushChan := flushChan w; cancelled := cancelled w;
     loop := l; written := written w; dropped := dropped w; flushes := flushes w |}.

Definition set_counts (t : Table) (wr dr fl : Z) (w : Writer) : Writer :=
  {| store := t; buffer := buffer w; bufferMax := bufferMax w;
     flushInterval := flushInterval w; flushChan := flushChan w; cancelled := cancelled w;
     loop := loop w; written := wr; dropped := dr; flushes := fl |}.

Definition cancel (w : Writer) : Writer :=
  {| store := store w; buffer := buffer w; bufferMax := bufferMax w;
     flushInterval := flushInterval w; flushChan := flushChan w; cancelled := true;
     loop := loop w; written := written w; dropped := dropped w; flushes := flushes w |}.

Definition full (w : Writer) : bool := (Z.of_nat (length (buffer w)) >=? bufferMax w)%Z.

(** [Write]. *)
Definition Write (record : Record_) (w : Writer) : Writer :=
  let w := if full w
           then set_buffer (tail (buffer w)) true (wrap64 (dropped w + 1)) w
           else w in
  set_buffer (buffer w ++ [record]) (flushChan w) (dropped w) w.

(** [flush] up to the release of [bufferMu]: the batch it goes on with, if any. *)
Definition flush_take (w : Writer) : Writer * option (list Record_) :=
  match buffer w with
  | [] => (w, None)
  | records => (set_buffer [] (flushChan w) (dropped w) w, Some records)
  end.

(** The rest of [flush]. *)
Definition flush_insert (f : BatchFaults) (records : list Record_) (w : Writer) : Writer :=
  let n := Z.of_nat (length records) in
  match InsertBatch f records (store w) with
  | (t, Err _) => set_counts t (written w) (wrap64 (dropped w + n)) (flushes w) w
  | (t, Ok _) => set_counts t (wrap64 (written w + n)) (dropped w) (wrap64 (flushes w + 1)) w
  end.

(** [flush] and [Flush] with nothing in between. *)
Definition flush (f : BatchFaults) (w : Writer) : Writer :=
  match flush_take w with
  | (w, None) => w
  | (w, Some records) => flush_insert f records w
  end.

Record WriterStats : Type := mkWriterStats {
  WS_Written : Z;
  WS_Dropped : Z;
  WS_Flushes : Z;
  WS_BufferSize : Z
}.

Definition Stats (w : Writer) : WriterStats :=
  {| WS_Written := written w; WS_Dropped := dropped w; WS_Flushes := flushes w;
     WS_BufferSize := Z.of_nat (length (buffer w)) |}.

(** One iteration of [flushLoop]'s [select], up to the insertion. *)
Definition loop_take (final : bool) (w : Writer) : Writer :=
  match flush_take w with
  | (w, None) => set_loop (if final then Exited else Waiting) w
  | (w, Some records) => set_loop (Inserting records final) w
  end.

Definition loop_insert (f : BatchFaults) (records : list Record_) (final : bool)
    (w : Writer) : Writer :=
  set_loop (if final then Exited else Waiting) (flush_insert f records w).

Definition take_signal (w : Writer) : Writer := set_buffer (buffer w) false (dropped w) w.

(** ** Interleavings *)

(** The writer together with what its callers have done: the batches that calls of
    [Flush] hold between their two halves, every record ever written, the records that
    were dropped, whether [Flush] was ever used, and whether a record was written after
    the context was cancelled. *)
Record wstate : Type := mkWState {
  wr : Writer;
  inflight : list (list Record_);
  history : list Record_;
  lost : list Record_;
  external : bool;
  late : bool
}.

Definition on_writer (f : Writer -> Writer) (s : wstate) : wstate :=
  {| wr := f (wr s); inflight := inflight s; history := history s; lost := lost s;
     external := external s; late := late s |}.

Definition add_lost (l : list Record_) (s : wstate) : wstate :=
  {| wr := wr s; inflight := inflight s; history := history s; lost := lost s ++ l;
     external := external s; late := late s |}.

Definition set_inflight (l : list (list Record_)) (s : wstate) : wstate :=
  {| wr := wr s; inflight := l; history := history s; lost := lost s; external := true;
     late := late s |}.

Definition do_write (r : Record_) (s : wstate) : wstate :=
  {| wr := Write r (wr s); inflight := inflight s; history := history s ++ [r];
     lost := if full (wr s) then lost s ++ take 1 (buffer (wr s)) else lost s;
     external := external s; late := late s || cancelled (wr s) |}.

Definition failed (f : BatchFaults) (records : list Record_) (w : Writer) : bool :=
  negb (is_ok (InsertBatch f records (store w)).2).

(** The records a failed insertion loses. *)
Definition batch_lost (f : BatchFaults) (records : list Record_) (w : Writer) : list Record_ :=
  if failed f records w then records else [].

Inductive wstep : wstate -> wstate -> Prop :=
| SWrite r s : wstep s (do_write r s)
| SStart s : loop (wr s) = NotStarted -> wstep s (on_writer (set_loop Waiting) s)
| STick s : loop (wr s) = Waiting -> wstep s (on_writer (loop_take false) s)
| SSignal s : loop (wr s) = Waiting -> flushChan (wr s) = true ->
    wstep s (on_writer (fun w => loop_take false (take_signal w)) s)
| SCancel s : wstep s (on_writer cancel s)
| SDone s : loop (wr s) = Waiting -> cancelled (wr s) = true ->
    wstep s (on_writer (loop_take true) s)
| SLoopInsert f b final s : loop (wr s) = Inserting b final ->
    wstep s (add_lost (batch_lost f b (wr s)) (on_writer (loop_insert f b final) s))
| SFlush s w b : flush_take (wr s) = (w, Some b) ->
    wstep s (set_inflight (inflight s ++ [b]) (on_writer (fun _ => w) s))
| SFlushInsert f i b s : inflight s !! i = Some b ->
    wstep s (set_inflight (delete i (inflight s))
               (add_lost (batch_lost f b (wr s)) (on_writer (flush_insert f b) s))).

Definition init_state (t : Table) (cfg : WriterConfig) : wstate :=
  {| wr := NewWriter t cfg; inflight := []; history := []; lost := []; external := false;
     late := false |}.

Definition reachable (t : Table) (cfg : WriterConfig) : wstate -> Prop :=
  rtc wstep (init_state t cfg).

(** ** Invariant *)

(** Records up to the identifier the database gives them. *)
Definition clr (l : list Record_) : list Record_ := set_Rec_ID 0 <$> l.

Definition loop_batch (l : LoopState) : list Record_ :=
  match l with Inserting b _ => b | _ => [] end.

Definition draining (l : LoopState) : bool :=
  match l with Inserting _ final => final | Exited => true | _ => false end.

Record inv (t0 : Table) (s : wstate) : Prop := {
  inv_max : (1 <= bufferMax (wr s))%Z;
  inv_len : (Z.of_nat (length (buffer (wr s))) <= bufferMax (wr s))%Z;
  inv_ids : ids_ok (store (wr s));
  inv_perm :
    clr (Rows (store (wr s))) ++ clr (lost s) ++ clr (loop_batch (loop (wr s))) ++
    clr (concat (inflight s)) ++ clr (buffer (wr s))
    ≡ₚ clr (Rows t0) ++ clr (history s);
  inv_written : written (wr s) =
    wrap64 (Z.of_nat (length (Rows (store (wr s)))) - Z.of_nat (length (Rows t0)));
  inv_dropped : dropped (wr s) = wrap64 (Z.of_nat (length (lost s)));
  inv_drain : draining (loop (wr s)) = true -> cancelled (wr s) = true /\
    (late s = false -> buffer (wr s) = []);
  inv_order : external s = false -> inflight s = [] /\
    (clr (Rows (store (wr s))) ++ clr (loop_batch (loop (wr s))) ++ clr (buffer (wr s)))
      `sublist_of` (clr (Rows t0) ++ clr (history s))
}.

(** ** Lemmas *)

Lemma clr_app l k : clr (l ++ k) = clr l ++ clr k.
Proof. apply fmap_app. Qed.

Lemma clr_length l : length (clr l) = length l.
Proof. apply length_fmap. Qed.

(** The second half of a flush either stores the whole batch or loses it. *)
Lemma flush_insert_cases f b w :
  ids_ok (store w) ->
  let w' := flush_insert f b w in
  ids_ok (store w') /\ buffer w' = buffer w /\ bufferMax w' = bufferMax w /\
  cancelled w' = cancelled w /\ loop w' = loop w /\ flushChan w' = flushChan w /\
  ((batch_lost f b w = [] /\ clr (Rows (store w')) = clr (Rows (store w)) ++ clr b /\
    written w' = wrap64 (written w + Z.of_nat (length b)) /\ dropped w' = dropped w) \/
   (batch_lost f b w = b /\ store w' = store w /\ written w' = written w /\
    dropped w' = wrap64 (dropped w + Z.of_nat (length b)))).
Proof.
  intros Hids w'. unfold w', flush_insert, batch_lost, failed.
  pose proof (InsertBatch_rows f b (store w) Hids) as H.
  destruct (InsertBatch f b (store w)) as [t [[]|e]]; simpl.
  - destruct H as (HR & _ & Hi). do 6 (split; [done|]). left. done.
  - subst t. do 6 (split; [done|]). right. done.
Qed.

(** The accounting part of the invariant, for a state with this store and these
    records pending. *)
Lemma inv_perm_insert (rows lost batch rest all : list Record_) :
  rows ++ lost ++ batch ++ rest ≡ₚ all ->
  (rows ++ batch) ++ lost ++ rest ≡ₚ all /\ rows ++ (lost ++ batch) ++ rest ≡ₚ all.
Proof. intros <-. split; [rewrite <- !app_assoc; solve_Permutation|]. by rewrite <- !app_assoc. Qed.

Lemma written_step t0 rows rows' (b : list Record_) :
  length (clr rows') = length (clr rows ++ clr b) ->
  wrap64 (wrap64 (Z.of_nat (length rows) - t0) + Z.of_nat (length b)) =
  wrap64 (Z.of_nat (length rows') - t0).
Proof. rewrite length_app, !clr_length. intros ->. rewrite wrap64_add_l. f_equal. lia. Qed.

Lemma dropped_step (l b : list Record_) :
  wrap64 (wrap64 (Z.of_nat (length l)) + Z.of_nat (length b)) =
  wrap64 (Z.of_nat (length (l ++ b))).
Proof. rewrite wrap64_add_l, length_app. f_equal. lia. Qed.

Lemma sublist_skip_middle {A} (a b c d : list A) :
  (a ++ b ++ c) `sublist_of` d -> (a ++ c) `sublist_of` d.
Proof.
  intros H. etrans; [|exact H]. apply sublist_app; [done|]. by apply sublist_inserts_l.
Qed.

Lemma init_inv t cfg : ids_ok t -> inv t (init_state t cfg).
Proof.
  intros Hids. split; simpl; try done.
  - destruct (Z.leb_spec (BufferSize cfg) 0); lia.
  - destruct (Z.leb_spec (BufferSize cfg) 0); lia.
  - by rewrite Z.sub_diag.
Qed.

Lemma write_inv t0 r s : inv t0 s -> inv t0 (do_write r s).
Proof.
  intros [Hmax Hlen Hids Hperm Hw Hd Hdr Hord]. unfold do_write, Write, full in *.
  destruct (Z.geb_spec (Z.of_nat (length (buffer (wr s)))) (bufferMax (wr s))) as [Hf|Hf].
  - destruct (buffer (wr s)) as [|x l] eqn:Hb; simpl in *; [lia|].
    split; simpl; try done.
    + rewrite length_app. simpl. lia.
    + rewrite !clr_app, (app_assoc (clr (Rows t0))), <- Hperm. simpl. solve_Permutation.
    + rewrite Hd. apply (dropped_step (lost s) [x]).
    + intros H. destruct (Hdr H) as [-> Hl]. split; [done|]. by rewrite orb_true_r.
    + intros H. destruct (Hord H) as [-> Hs]. split; [done|].
      rewrite !clr_app, app_assoc, (app_assoc _ (clr l)). rewrite (app_assoc (clr (Rows t0))).
      apply sublist_app; [|done]. rewrite <- app_assoc.
      change (clr (x :: l)) with ([set_Rec_ID 0 x] ++ clr l) in Hs.
      rewrite app_assoc in Hs. apply (sublist_skip_middle _ [set_Rec_ID 0 x]) in Hs. by rewrite <- app_assoc in Hs.
  - split; simpl; try done.
    + rewrite length_app. simpl. lia.
    + rewrite !clr_app, (app_assoc (clr (Rows t0))), <- Hperm. simpl. solve_Permutation.
    + intros H. destruct (Hdr H) as [-> Hl]. split; [done|]. by rewrite orb_true_r.
    + intros H. destruct (Hord H) as [-> Hs]. split; [done|].
      rewrite !clr_app, !app_assoc. rewrite <- (app_assoc (clr (Rows _))).
      by apply sublist_app.
Qed.

(** A loop iteration up to the insertion moves the buffer into the batch. *)
Lemma loop_take_inv t0 final s :
  inv t0 s -> loop (wr s) = Waiting -> (final = true -> cancelled (wr s) = true) ->
  inv t0 (on_writer (loop_take final) s).
Proof.
  intros [Hmax Hlen Hids Hperm Hw Hd Hdr Hord] Hl Hc.
  unfold on_writer, loop_take, flush_take. rewrite Hl in *. simpl in *.
  destruct (buffer (wr s)) as [|x l] eqn:Hb; simpl.
  - split; simpl; rewrite ?Hb; try done; destruct final; simpl; auto.
  - split; simpl; try done; [lia|by rewrite app_nil_r, <- Hperm; solve_Permutation| |].
    + intros ->. auto.
    + intros H. destruct (Hord H) as [-> Hs]. by rewrite app_nil_r.
Qed.

Lemma take_signal_inv t0 s : inv t0 s -> inv t0 (on_writer take_signal s).
Proof. intros [Hmax Hlen Hids Hperm Hw Hd Hdr Hord]. by split. Qed.

Lemma cancel_inv t0 s : inv t0 s -> inv t0 (on_writer cancel s).
Proof.
  intros [Hmax Hlen Hids Hperm Hw Hd Hdr Hord]. split; try done. intros H. simpl in *.
  split; [done|]. by apply Hdr.
Qed.

Lemma loop_insert_inv t0 f b final s :
  inv t0 s -> loop (wr s) = Inserting b final ->
  inv t0 (add_lost (batch_lost f b (wr s)) (on_writer (loop_insert f b final) s)).
Proof.
  intros [Hmax Hlen Hids Hperm Hw Hd Hdr Hord] Hl. rewrite Hl in *. simpl in *.
  destruct (flush_insert_cases f b (wr s) Hids)
    as (Hids' & Hb & Hm & Hc & _ & _ & Hcase).
  apply inv_perm_insert in Hperm as [HpOk HpErr].
  assert (Hlb : loop_batch (if final then Exited else Waiting) = []) by by destruct final.
  assert (Hdn : draining (if final then Exited else Waiting) = final) by by destruct final.
  destruct Hcase as [(Hlost & HR & Hw' & Hd')|(Hlost & HR & Hw' & Hd')].
  - split; simpl; rewrite ?Hb, ?Hm, ?Hc, ?Hlost, ?Hlb, ?Hdn, ?app_nil_r, ?Hd'; try done.
    + by rewrite HR.
    + rewrite Hw', Hw. apply written_step. by rewrite HR.
    + intros H. destruct (Hord H) as [-> Hs]. split; [done|]. by rewrite HR, <- app_assoc.
  - split; simpl; rewrite ?Hb, ?Hm, ?Hc, ?Hlost, ?Hlb, ?Hdn, ?app_nil_r, ?HR, ?Hw'; try done.
    + by rewrite clr_app.
    + rewrite Hd', Hd. apply dropped_step.
    + intros H. destruct (Hord H) as [-> Hs]. split; [done|]. by apply sublist_skip_middle in Hs.
Qed.

Lemma flush_inv t0 s w b :
  inv t0 s -> flush_take (wr s) = (w, Some b) ->
  inv t0 (set_inflight (inflight s ++ [b]) (on_writer (fun _ => w) s)).
Proof.
  intros [Hmax Hlen Hids Hperm Hw Hd Hdr Hord] Ht. unfold flush_take in Ht.
  destruct (buffer (wr s)) as [|x l] eqn:Hb; simplify_eq.
  split; simpl in *; try done; [lia| |].
  - rewrite concat_app, clr_app, <- Hperm. simpl. rewrite !app_nil_r. solve_Permutation.
  - intros H. by destruct (Hdr H).
Qed.

Lemma concat_delete (L : list (list Record_)) i b :
  L !! i = Some b -> concat L ≡ₚ b ++ concat (delete i L).
Proof.
  intros H. rewrite (delete_Permutation L i b H) at 1. done.
Qed.

Lemma flush_insert_inv t0 f i b s :
  inv t0 s -> inflight s !! i = Some b ->
  inv t0 (set_inflight (delete i (inflight s))
            (add_lost (batch_lost f b (wr s)) (on_writer (flush_insert f b) s))).
Proof.
  intros [Hmax Hlen Hids Hperm Hw Hd Hdr Hord] Hi.
  destruct (flush_insert_cases f b (wr s) Hids)
    as (Hids' & Hb & Hm & Hc & Hl & _ & Hcase).
  assert (Hp : clr (concat (inflight s)) ≡ₚ clr b ++ clr (concat (delete i (inflight s)))).
  { rewrite <- clr_app. unfold clr. by rewrite (concat_delete _ _ _ Hi). }
  rewrite Hp in Hperm.
  destruct Hcase as [(Hlost & HR & Hw' & Hd')|(Hlost & HR & Hw' & Hd')].
  - split; simpl; rewrite ?Hb, ?Hm, ?Hc, ?Hl, ?Hlost, ?app_nil_r, ?Hd'; try done.
    + rewrite HR, <- Hperm. solve_Permutation.
    + rewrite Hw', Hw. apply written_step. by rewrite HR.
  - split; simpl; rewrite ?Hb, ?Hm, ?Hc, ?Hl, ?Hlost, ?app_nil_r, ?HR, ?Hw'; try done.
    + rewrite clr_app, <- Hperm. solve_Permutation.
    + rewrite Hd', Hd. apply dropped_step.
Qed.

Lemma wstep_inv t0 s s' : wstep s s' -> inv t0 s -> inv t0 s'.
Proof.
  intros Hst Hi. destruct Hst.
  - by apply write_inv.
  - destruct Hi as [Hmax Hlen Hids Hperm Hw Hd Hdr Hord].
    match goal with H : loop _ = _ |- _ => rewrite H in * end. by split.
  - by apply loop_take_inv.
  - apply (loop_take_inv t0 false (on_writer take_signal s)); [by apply take_signal_inv|done..].
  - by apply cancel_inv.
  - by apply loop_take_inv.
  - by apply loop_insert_inv.
  - by apply flush_inv.
  - by apply flush_insert_inv.
Qed.

Lemma reachable_inv t cfg s : ids_ok t -> reachable t cfg s -> inv t s.
Proof.
  intros Hids Hr. unfold reachable in Hr.
  assert (H : forall a b, rtc wstep a b -> inv t a -> inv t b).
  { induction 1 as [|a b c Hab Hbc IH]; [done|]. intros Ha. by apply IH, (wstep_inv t a b). }
  by apply (H _ _ Hr), init_inv.
Qed.

(** ** Properties *)

(** C14: No audit record is lost silently or stored twice. In every state reachable by any
    interleaving of writes, ticks, flush requests, concurrent flushes, failing or
    succeeding insertions and shutdown, the records in the database, the dropped ones,
    those in a batch being inserted and those in the buffer are together exactly the
    records that were written; the counters are the numbers of stored and of dropped
    records; the buffer never exceeds its maximum. *)
Theorem audit_conservation (t : Table) (cfg : WriterConfig) (s : wstate)
    (Hids : ids_ok t) (Hr : reachable t cfg s) :
  clr (Rows (store (wr s))) ++ clr (lost s) ++ clr (loop_batch (loop (wr s))) ++
    clr (concat (inflight s)) ++ clr (buffer (wr s)) ≡ₚ clr (Rows t) ++ clr (history s) /\
  written (wr s) =
    wrap64 (Z.of_nat (length (Rows (store (wr s)))) - Z.of_nat (length (Rows t))) /\
  dropped (wr s) = wrap64 (Z.of_nat (length (lost s))) /\
  (Z.of_nat (length (buffer (wr s))) <= bufferMax (wr s))%Z.
Proof. by destruct (reachable_inv t cfg s Hids Hr). Qed.

(** Records reach the database in the order in which they were written, as long as
    only the flush loop flushes: what is stored, being inserted and buffered is, in this
    order, a subsequence of what was written. *)
Theorem audit_order (t : Table) (cfg : WriterConfig) (s : wstate)
    (Hids : ids_ok t) (Hr : reachable t cfg s) (Hext : external s = false) :
  (clr (Rows (store (wr s))) ++ clr (loop_batch (loop (wr s))) ++ clr (buffer (wr s)))
    `sublist_of` (clr (Rows t) ++ clr (history s)).
Proof. by apply (inv_order t s (reachable_inv t cfg s Hids Hr)). Qed.

(** Shutdown drains the buffer: once the flush loop has exited, every record written
    before the cancellation has been stored or counted as dropped, or is in the batch of
    a caller of [Flush] that has not returned; nothing is left in the buffer unless
    somebody wrote after the cancellation. *)
Theorem stop_drains (t : Table) (cfg : WriterConfig) (s : wstate)
    (Hids : ids_ok t) (Hr : reachable t cfg s)
    (Hex : loop (wr s) = Exited) (Hlate : late s = false) :
  buffer (wr s) = [] /\
  clr (Rows (store (wr s))) ++ clr (lost s) ++ clr (concat (inflight s))
    ≡ₚ clr (Rows t) ++ clr (history s).
Proof.
  destruct (reachable_inv t cfg s Hids Hr) as [_ _ _ Hperm _ _ Hdr _].
  rewrite Hex in *. destruct (Hdr eq_refl) as [_ Hb]. specialize (Hb Hlate).
  rewrite Hb in Hperm. simpl in Hperm. by rewrite app_nil_r in Hperm.
Qed.

(** ** The two mutexes *)

Module Locks.

Inductive mutex : Type := bufferMu | metricMu.

#[export] Instance mutex_eq : EqDecision mutex.
Proof. solve_decision. Defined.

Inductive action : Type := Lock (m : mutex) | Unlock (m : mutex).

(** What a call still has to do with the mutexes. *)
Definition prog : Type := list action.

Definition write_prog (drops : bool) : prog :=
  if drops then [Lock bufferMu; Lock metricMu; Unlock metricMu; Unlock bufferMu]
  else [Lock bufferMu; Unlock bufferMu].

Definition flush_prog (empty : bool) : prog :=
  if empty then [Lock bufferMu; Unlock bufferMu]
  else [Lock bufferMu; Unlock bufferMu; Lock metricMu; Unlock metricMu].

Definition stats_prog : prog :=
  [Lock metricMu; Lock bufferMu; Unlock bufferMu; Unlock metricMu].

(** A call holds a mutex when the next thing it does with it is to unlock it. *)
Fixpoint holds (m : mutex) (p : prog) : bool :=
  match p with
  | [] => false
  | Lock m' :: p => if bool_decide (m = m') then false else holds m p
  | Unlock m' :: p => if bool_decide (m = m') then true else holds m p
  end.

Definition free (m : mutex) (ps : list prog) : bool := forallb (fun p => negb (holds m p)) ps.

Definition enabled (ps : list prog) (p : prog) : bool :=
  match p with
  | [] => false
  | Lock m :: _ => free m ps
  | Unlock _ :: _ => true
  end.

(** One call of the threads [ps] makes its next step. *)
Inductive lstep : list prog -> list prog -> Prop :=
| lstep_intro ps i a p :
    ps !! i = Some (a :: p) -> enabled ps (a :: p) = true -> lstep ps (<[i := p]> ps).

Definition done (ps : list prog) : Prop := Forall (fun p => p = []) ps.

Definition stuck (ps : list prog) : Prop := ~ done ps /\ forall ps', ~ lstep ps ps'.

(** Calls of [Write] and [flush], at any point. *)
Definition write_or_flush (p : prog) : Prop :=
  (exists b, p `suffix_of` write_prog b) \/ (exists b, p `suffix_of` flush_prog b).

(** The points such a call can be at. *)
Definition points : list prog :=
  [[]; [Unlock bufferMu]; [Unlock metricMu];
   [Lock bufferMu; Unlock bufferMu];
   [Lock metricMu; Unlock metricMu];
   [Unlock metricMu; Unlock bufferMu];
   [Lock metricMu; Unlock metricMu; Unlock bufferMu];
   [Lock bufferMu; Lock metricMu; Unlock metricMu; Unlock bufferMu];
   [Unlock bufferMu; Lock metricMu; Unlock metricMu];
   [Lock bufferMu; Unlock bufferMu; Lock metricMu; Unlock metricMu]].

Lemma write_or_flush_points p : write_or_flush p -> In p points.
Proof.
  intros H. assert (exists q, In q [write_prog true; write_prog false; flush_prog true;
      flush_prog false] /\ p `suffix_of` q) as (q & Hq & [k Hk]).
  { destruct H as [[[] H]|[[] H]]; eexists; (split; [|exact H]); simpl; tauto. }
  simpl in Hq. repeat destruct Hq as [<-|Hq]; simpl in Hk;
    do 5 (try destruct k as [|? k]); simplify_eq/=; auto 20;
    destruct k; simplify_eq/=.
Qed.

(** The holder of [metricMu] releases it next; the holder of [bufferMu] waits for
    [metricMu] at most. *)
Lemma metric_holder p :
  write_or_flush p -> holds metricMu p = true ->
  exists a p', p = a :: p' /\ forall ps, enabled ps p = true.
Proof.
  intros H%write_or_flush_points Hm. simpl in H.
  repeat destruct H as [<-|H]; simpl in *; try discriminate Hm; eauto. contradiction.
Qed.

Lemma buffer_holder p ps :
  write_or_flush p -> holds bufferMu p = true -> free metricMu ps = true ->
  exists a p', p = a :: p' /\ enabled ps p = true.
Proof.
  intros H%write_or_flush_points Hm Hf. simpl in H.
  repeat destruct H as [<-|H]; simpl in *; try discriminate Hm; eauto. contradiction.
Qed.

Lemma not_free m ps : free m ps = false -> exists i p, ps !! i = Some p /\ holds m p = true.
Proof.
  unfold free. induction ps as [|p ps IH]; [done|]. simpl.
  destruct (holds m p) eqn:Hp; simpl.
  - intros _. by exists 0, p.
  - intros (i & q & ? & ?)%IH. by exists (S i), q.
Qed.

(** Threads that only write and flush always have one that can go on. *)
Lemma progress ps :
  Forall write_or_flush ps -> ~ done ps -> exists ps', lstep ps ps'.
Proof.
  intros Hall Hnd.
  assert (Hstep : forall i p, ps !! i = Some p ->
            (exists a p', p = a :: p' /\ enabled ps p = true) -> exists ps', lstep ps ps').
  { intros i p Hi (a & p' & -> & He). eexists. by econstructor. }
  destruct (free metricMu ps) eqn:Hfm.
  2: { apply not_free in Hfm as (i & p & Hi & Hp). apply (Hstep i p Hi).
       destruct (metric_holder p (Forall_lookup_1 _ _ _ _ Hall Hi) Hp) as (a & p' & -> & He).
       by exists a, p'. }
  destruct (free bufferMu ps) eqn:Hfb.
  2: { apply not_free in Hfb as (i & p & Hi & Hp). apply (Hstep i p Hi).
       exact (buffer_holder p ps (Forall_lookup_1 _ _ _ _ Hall Hi) Hp Hfm). }
  assert (exists i a p, ps !! i = Some (a :: p)) as (i & a & p & Hi).
  { clear -Hnd. unfold done in Hnd. induction ps as [|[|a p] ps IH].
    - destruct Hnd. constructor.
    - destruct IH as (i & a & p & Hi); [|by exists (S i), a, p].
      intros H. apply Hnd. by constructor.
    - by exists 0, a, p. }
  apply (Hstep _ _ Hi). exists a, p. split; [reflexivity|]. by destruct a as [[]|].
Qed.

Lemma lstep_write_or_flush ps ps' :
  lstep ps ps' -> Forall write_or_flush ps -> Forall write_or_flush ps'.
Proof.
  intros [ps0 i a p Hi _] Hall. apply Forall_insert; [done|].
  pose proof (Forall_lookup_1 _ _ _ _ Hall Hi) as Hp.
  destruct Hp as [[b H]|[b H]]; [left|right]; exists b; (etrans; [|exact H]); by exists [a].
Qed.

(** Writers and flushers never block each other for good: whatever number of [Write]
    and [flush] calls run, in whatever interleaving, some call can always take its next
    step until all have returned. *)
Theorem write_flush_deadlock_free (ps qs : list prog)
    (Hall : Forall write_or_flush ps) (Hrun : rtc lstep ps qs) : ~ stuck qs.
Proof.
  assert (Hq : Forall write_or_flush qs).
  { induction Hrun as [|a b c Hab _ IH]; [done|]. apply IH. by apply (lstep_write_or_flush a b). }
  intros [Hnd Hst]. destruct (progress qs Hq Hnd) as [q' Hs]. exact (Hst q' Hs).
Qed.

(** [Stats] takes the two mutexes in the other order than [Write] does when the
    buffer is full, so the two can block each other for ever. *)
Theorem stats_write_deadlock :
  exists qs, rtc lstep [write_prog true; stats_prog] qs /\ stuck qs.
Proof.
  exists [tail (write_prog true); tail stats_prog]. split.
  - eapply rtc_l; [eapply (lstep_intro _ 0); reflexivity|].
    eapply rtc_l; [eapply (lstep_intro _ 1); reflexivity|]. apply rtc_refl.
  - split.
    + intros H. inversion H as [|? ? Hp]. discriminate Hp.
    + intros qs' Hs. inversion Hs as [ps i a p Hi He]. subst.
      destruct i as [|[|i]]; simpl in Hi; simplify_eq Hi; intros; subst; discriminate He.
Qed.

Lemma write_flush_deadlock_free_witness :
  ~ stuck [tail (write_prog true); flush_prog false].
Proof.
  apply (write_flush_deadlock_free [write_prog true; flush_prog false]).
  - constructor; [left; exists true; reflexivity|].
    constructor; [right; exists false; reflexivity|constructor].
  - eapply rtc_l; [eapply (lstep_intro _ 0); reflexivity|apply rtc_refl].
Defined.

End Locks.

(** ** Witnesses *)

(** Three records through a buffer of two: the first is dropped, the loop stores the
    others on shutdown. *)
Definition small_writer : WriterConfig := {| BufferSize := 2; FlushInterval := 0 |}.

Definition r1 : Record_ := record_at "r1" 1.
Definition r2 : Record_ := record_at "r2" 2.
Definition r3 : Record_ := record_at "r3" 3.

Definition shutdown_state : wstate :=
  let s := on_writer (set_loop Waiting) (init_state empty_table small_writer) in
  let s := on_writer cancel (do_write r3 (do_write r2 (do_write r1 s))) in
  let s := on_writer (loop_take true) s in
  add_lost (batch_lost no_faults [r2; r3] (wr s))
    (on_writer (loop_insert no_faults [r2; r3] true) s).

Lemma shutdown_reachable : reachable empty_table small_writer shutdown_state.
Proof.
  unfold reachable.
  eapply rtc_l; [by apply SStart|]. eapply rtc_l; [apply (SWrite r1)|].
  eapply rtc_l; [apply (SWrite r2)|]. eapply rtc_l; [apply (SWrite r3)|].
  eapply rtc_l; [apply SCancel|]. eapply rtc_l; [by apply SDone|].
  eapply rtc_l; [by apply (SLoopInsert no_faults [r2; r3] true)|]. apply rtc_refl.
Qed.

Lemma audit_conservation_witness :
  dropped (wr shutdown_state) = 1%Z /\ written (wr shutdown_state) = 2%Z.
Proof.
  destruct (audit_conservation empty_table small_writer shutdown_state empty_table_ids
    shutdown_reachable) as (_ & -> & -> & _). split; reflexivity.
Defined.

Lemma audit_order_witness :
  clr (Rows (store (wr shutdown_state))) `sublist_of` [r1; r2; r3].
Proof.
  pose proof (audit_order empty_table small_writer shutdown_state empty_table_ids
    shutdown_reachable eq_refl) as H. exact H.
Defined.

Lemma stop_drains_witness :
  buffer (wr shutdown_state) = [] /\
  clr (Rows (store (wr shutdown_state))) ++ [r1] ≡ₚ [r1; r2; r3].
Proof.
  destruct (stop_drains empty_table small_writer shutdown_state empty_table_ids
    shutdown_reachable eq_refl eq_refl) as [Hb Hp]. split; [exact Hb|exact Hp].
Defined.
