(* ===== verification/Config.v ===== *)
(** * Configuration

    Models src/internal/config: the configuration tree of types.go, and of config.go the
    defaults, the environment overrides, validation, loading and masking. Reading the
    file and parsing YAML (gopkg.in/yaml.v3) are arguments of [Load], as is the
    environment. The overrides are applied in the order of a Go map iteration, which is an
    argument too. *)

From Stdlib Require Import ZArith Lia Ascii.
From stdpp Require Import base list gmap strings numbers.
From S2P Require Import Prelude Json GoText.

(** ** The tree *)

Record ListenConfig : Type := mkListen { Listen_Address : string; Listen_Port : Z }.

Record SecurityConfig : Type := mkSecurity {
  CORSAllowedOrigins : slice string;
  EnableSecurityHeaders : bool
}.

Record ServerConfig : Type := mkServer {
  Listen : ListenConfig;
  Server_Transport : string;
  ReadTimeout : Duration;
  WriteTimeout : Duration;
  IdleTimeout : Duration;
  GracefulShutdown : Duration;
  MaxConnections : Z;
  Security : SecurityConfig
}.

Record ConnectionPoolConfig : Type := mkPool {
  MaxIdle : Z;
  MaxOpen : Z;
  Pool_IdleTimeout : Duration
}.

Record RetryConfig : Type := mkRetry {
  Retry_Enabled : bool;
  MaxAttempts : Z;
  InitialDelay : Duration;
  MaxDelay : Duration;
  Backoff : string
}.

Record CircuitBreakerConfig : Type := mkBreaker {
  Breaker_Enabled : bool;
  Threshold : Z;
  Breaker_Timeout : Duration
}.

Record UpstreamConfig : Type := mkUpstream {
  URL : string;
  Upstream_Transport : string;
  Upstream_Timeout : Duration;
  ConnectionPool : ConnectionPoolConfig;
  Retry : RetryConfig;
  CircuitBreaker : CircuitBreakerConfig
}.

Record AgentConfig : Type := mkAgent {
  AgentCfg_ID : string;
  AgentCfg_Name : string;
  AgentCfg_Capabilities : slice string;
  AgentCfg_Model : string;
  AgentCfg_Publisher : string;
  AgentCfg_Tags : slice string
}.

Record CacheSettings : Type := mkCacheSettings {
  CacheSettings_Enabled : bool;
  CacheSettings_TTL : Duration;
  CacheSettings_MaxEntries : Z
}.

Record AgentFactsConfig : Type := mkAgentFacts {
  Facts_Mode : string;
  MaxAge : Duration;
  ClockSkew : Duration;
  AllowedDIDs : slice string;
  VerifyLogProof : bool;
  Facts_Cache : CacheSettings
}.

Record EvaluationConfig : Type := mkEvaluation {
  Evaluation_Timeout : Duration;
  StrictBuiltinErrors : bool
}.

Record PolicyConfig : Type := mkPolicy {
  Policy_Enabled : bool;
  Policy_Mode : string;
  PolicyDir : string;
  JSONPolicyDir : string;
  DataFile : string;
  WatchForChanges : bool;
  Policy_Environment : string;
  Policy_Cache : CacheSettings;
  Evaluation : EvaluationConfig
}.

Record CaptureConfig : Type := mkCapture { RequestArguments : bool; ResponseSummary : bool }.

Record AuditConfig : Type := mkAudit {
  Audit_Enabled : bool;
  DBPath : string;
  Audit_BufferSize : Z;
  Audit_FlushInterval : Duration;
  RetentionDays : Z;
  Capture : CaptureConfig
}.

Record MetricsConfig : Type := mkMetrics {
  Metrics_Enabled : bool;
  Metrics_Address : string;
  Metrics_Port : Z;
  Metrics_Path : string
}.

Record HealthConfig : Type := mkHealth {
  Health_Enabled : bool;
  Health_Address : string;
  Health_Port : Z;
  LivenessPath : string;
  ReadinessPath : string
}.

Record FileConfig : Type := mkFile {
  File_Path : string;
  MaxSize : Z;
  MaxBackups : Z;
  File_MaxAge : Z
}.

Record LoggingConfig : Type := mkLogging {
  Level : string;
  Format : string;
  Output : string;
  File : FileConfig
}.

Record TLSConfig : Type := mkTLS {
  TLS_Enabled : bool;
  CertFile : string;
  KeyFile : string;
  CAFile : string;
  MinVersion : string;
  ClientAuth : string
}.

Record Config : Type := mkConfig {
  Version : string;
  Server : ServerConfig;
  Upstream : UpstreamConfig;
  Agent : AgentConfig;
  AgentFacts : AgentFactsConfig;
  Policy : PolicyConfig;
  Audit : AuditConfig;
  Metrics : MetricsConfig;
  Health : HealthConfig;
  Logging : LoggingConfig;
  TLS : TLSConfig
}.

(** ** Text helpers of the standard library *)

(** [filepath.Clean] on slash-separated paths: the kept components, innermost first. *)
Definition clean_step (rooted : bool) (acc : list string) (c : string) : list string :=
  if bool_decide (c = "") || bool_decide (c = ".") then acc
  else if bool_decide (c = "..") then
    match acc with
    | top :: rest => if bool_decide (top = "..") then ".." :: acc else rest
    | [] => if rooted then [] else [".."]
    end
  else c :: acc.

Definition filepath_Clean (path : string) : string :=
  if bool_decide (path = "") then "."
  else
    let rooted := String.prefix "/" path in
    let body := join "/" (rev (foldl (clean_step rooted) [] (split_char "/" path))) in
    if rooted then "/" +:+ body else if bool_decide (body = "") then "." else body.

(** [filepath.Join(a, b)] of two non-empty elements. *)
Definition filepath_Join (a b : string) : string := filepath_Clean (a +:+ "/" +:+ b).

Definition digit_val (a : ascii) : option Z :=
  if in_range 48 57 a then Some (Z.of_N (N_of_ascii a) - 48)%Z else None.

Fixpoint parse_digits (acc : Z) (s : string) : option Z :=
  match s with
  | "" => Some acc
  | String a s => d ← digit_val a; parse_digits (acc * 10 + d)%Z s
  end.

(** [strconv.Atoi]: an optional sign, at least one digit, a value in range. *)
Definition Atoi (s : string) : option Z :=
  let num (neg : bool) (s : string) :=
    match s with
    | "" => None
    | _ => z ← parse_digits 0 s;
           let z := if neg then (- z)%Z else z in
           if bool_decide (min_int64 <= z <= max_int64)%Z then Some z else None
    end in
  match s with
  | String "-" s => num true s
  | String "+" s => num false s
  | _ => num false s
  end.

Definition parseInt (s : string) (defaultVal : Z) : Z := default defaultVal (Atoi s).

(** [strings.ToLower]; no character beyond ASCII lowers to a letter of the words that
    [parseBool] compares with. *)
Fixpoint to_lower (s : string) : string :=
  match s with
  | "" => ""
  | String a s =>
      String (if in_range 65 90 a then ascii_of_N (N_of_ascii a + 32) else a) (to_lower s)
  end.

Definition parseBool (s : string) : bool :=
  let s := to_lower s in
  bool_decide (s = "true") || bool_decide (s = "1") || bool_decide (s = "yes").

(** ** Defaults *)

Definition or_str (x d : string) : string := if bool_decide (x = "") then d else x.
Definition or_Z (x d : Z) : Z := if (x =? 0)%Z then d else x.

Definition applyServerDefaults (s : ServerConfig) : ServerConfig :=
  {| Listen := {| Listen_Address := or_str (Listen_Address (Listen s)) "0.0.0.0";
                  Listen_Port := or_Z (Listen_Port (Listen s)) 3000 |};
     Server_Transport := or_str (Server_Transport s) "sse";
     ReadTimeout := or_Z (ReadTimeout s) (30 * Second);
     WriteTimeout := or_Z (WriteTimeout s) (30 * Second);
     IdleTimeout := or_Z (IdleTimeout s) (120 * Second);
     GracefulShutdown := or_Z (GracefulShutdown s) (30 * Second);
     MaxConnections := or_Z (MaxConnections s) 1000;
     Security := {| CORSAllowedOrigins := CORSAllowedOrigins (Security s);
                    EnableSecurityHeaders := true |} |}.

Definition applyUpstreamDefaults (u : UpstreamConfig) : UpstreamConfig :=
  {| URL := URL u;
     Upstream_Transport := or_str (Upstream_Transport u) "sse";
     Upstream_Timeout := or_Z (Upstream_Timeout u) (30 * Second);
     ConnectionPool :=
       {| MaxIdle := or_Z (MaxIdle (ConnectionPool u)) 10;
          MaxOpen := or_Z (MaxOpen (ConnectionPool u)) 100;
          Pool_IdleTimeout := or_Z (Pool_IdleTimeout (ConnectionPool u)) (90 * Second) |};
     Retry :=
       {| Retry_Enabled := Retry_Enabled (Retry u);
          MaxAttempts := or_Z (MaxAttempts (Retry u)) 3;
          InitialDelay := or_Z (InitialDelay (Retry u)) (100 * Millisecond);
          MaxDelay := or_Z (MaxDelay (Retry u)) (5 * Second);
          Backoff := or_str (Backoff (Retry u)) "exponential" |};
     CircuitBreaker :=
       {| Breaker_Enabled := Breaker_Enabled (CircuitBreaker u);
          Threshold := or_Z (Threshold (CircuitBreaker u)) 5;
          Breaker_Timeout := or_Z (Breaker_Timeout (CircuitBreaker u)) (30 * Second) |} |}.

Definition applyAgentFactsDefaults (af : AgentFactsConfig) : AgentFactsConfig :=
  {| Facts_Mode := or_str (Facts_Mode af) "optional";
     MaxAge := or_Z (MaxAge af) (24 * Hour);
     ClockSkew := or_Z (ClockSkew af) (5 * Minute);
     AllowedDIDs := AllowedDIDs af;
     VerifyLogProof := VerifyLogProof af;
     Facts_Cache :=
       {| CacheSettings_Enabled := CacheSettings_Enabled (Facts_Cache af);
          CacheSettings_TTL := or_Z (CacheSettings_TTL (Facts_Cache af)) (5 * Minute);
          CacheSettings_MaxEntries := or_Z (CacheSettings_MaxEntries (Facts_Cache af)) 1000 |} |}.

Definition applyPolicyDefaults (p : PolicyConfig) : PolicyConfig :=
  let dir := or_str (PolicyDir p) "policies" in
  {| Policy_Enabled := Policy_Enabled p;
     Policy_Mode := or_str (Policy_Mode p) "enforce";
     PolicyDir := dir;
     JSONPolicyDir := or_str (JSONPolicyDir p) (filepath_Join dir "json");
     DataFile := or_str (DataFile p) "config/policy_data.json";
     WatchForChanges := WatchForChanges p;
     Policy_Environment := Policy_Environment p;
     Policy_Cache :=
       {| CacheSettings_Enabled := CacheSettings_Enabled (Policy_Cache p);
          CacheSettings_TTL := or_Z (CacheSettings_TTL (Policy_Cache p)) (5 * Minute);
          CacheSettings_MaxEntries := or_Z (CacheSettings_MaxEntries (Policy_Cache p)) 10000 |};
     Evaluation :=
       {| Evaluation_Timeout := or_Z (Evaluation_Timeout (Evaluation p)) (100 * Millisecond);
          StrictBuiltinErrors := StrictBuiltinErrors (Evaluation p) |} |}.

Definition applyAuditDefaults (a : AuditConfig) : AuditConfig :=
  {| Audit_Enabled := Audit_Enabled a;
     DBPath := or_str (DBPath a) "audit.db";
     Audit_BufferSize := or_Z (Audit_BufferSize a) 100;
     Audit_FlushInterval := or_Z (Audit_FlushInterval a) Second;
     RetentionDays := or_Z (RetentionDays a) 30;
     Capture := Capture a |}.

Definition applyMetricsDefaults (m : MetricsConfig) : MetricsConfig :=
  {| Metrics_Enabled := Metrics_Enabled m;
     Metrics_Address := or_str (Metrics_Address m) "0.0.0.0";
     Metrics_Port := or_Z (Metrics_Port m) 9090;
     Metrics_Path := or_str (Metrics_Path m) "/metrics" |}.

Definition applyHealthDefaults (h : HealthConfig) : HealthConfig :=
  {| Health_Enabled := Health_Enabled h;
     Health_Address := or_str (Health_Address h) "0.0.0.0";
     Health_Port := or_Z (Health_Port h) 8080;
     LivenessPath := or_str (LivenessPath h) "/health";
     ReadinessPath := or_str (ReadinessPath h) "/ready" |}.

Definition applyLoggingDefaults (l : LoggingConfig) : LoggingConfig :=
  {| Level := or_str (Level l) "info"; Format := or_str (Format l) "json";
     Output := or_str (Output l) "stdout"; File := File l |}.

Definition applyTLSDefaults (t : TLSConfig) : TLSConfig :=
  {| TLS_Enabled := TLS_Enabled t; CertFile := CertFile t; KeyFile := KeyFile t;
     CAFile := CAFile t; MinVersion := or_str (MinVersion t) "1.2";
     ClientAuth := or_str (ClientAuth t) "none" |}.

Definition applyDefaults (cfg : Config) : Config :=
  {| Version := or_str (Version cfg) "1.0";
     Server := applyServerDefaults (Server cfg);
     Upstream := applyUpstreamDefaults (Upstream cfg);
     Agent := Agent cfg;
     AgentFacts := applyAgentFactsDefaults (AgentFacts cfg);
     Policy := applyPolicyDefaults (Policy cfg);
     Audit := applyAuditDefaults (Audit cfg);
     Metrics := applyMetricsDefaults (Metrics cfg);
     Health := applyHealthDefaults (Health cfg);
     Logging := applyLoggingDefaults (Logging cfg);
     TLS := applyTLSDefaults (TLS cfg) |}.

(** ** Environment overrides *)

(** Assignments to a section of the tree. *)
Definition on_Server (f : ServerConfig -> ServerConfig) (c : Config) : Config :=
  mkConfig (Version c) (f (Server c)) (Upstream c) (Agent c) (AgentFacts c) (Policy c) (Audit c)
    (Metrics c) (Health c) (Logging c) (TLS c).
Definition on_Upstream (f : UpstreamConfig -> UpstreamConfig) (c : Config) : Config :=
  mkConfig (Version c) (Server c) (f (Upstream c)) (Agent c) (AgentFacts c) (Policy c) (Audit c)
    (Metrics c) (Health c) (Logging c) (TLS c).
Definition on_Agent (f : AgentConfig -> AgentConfig) (c : Config) : Config :=
  mkConfig (Version c) (Server c) (Upstream c) (f (Agent c)) (AgentFacts c) (Policy c) (Audit c)
    (Metrics c) (Health c) (Logging c) (TLS c).
Definition on_AgentFacts (f : AgentFactsConfig -> AgentFactsConfig) (c : Config) : Config :=
  mkConfig (Version c) (Server c) (Upstream c) (Agent c) (f (AgentFacts c)) (Policy c) (Audit c)
    (Metrics c) (Health c) (Logging c) (TLS c).
Definition on_Policy (f : PolicyConfig -> PolicyConfig) (c : Config) : Config :=
  mkConfig (Version c) (Server c) (Upstream c) (Agent c) (AgentFacts c) (f (Policy c)) (Audit c)
    (Metrics c) (Health c) (Logging c) (TLS c).
Definition on_Audit (f : AuditConfig -> AuditConfig) (c : Config) : Config :=
  mkConfig (Version c) (Server c) (Upstream c) (Agent c) (AgentFacts c) (Policy c) (f (Audit c))
    (Metrics c) (Health c) (Logging c) (TLS c).
Definition on_Metrics (f : MetricsConfig -> MetricsConfig) (c : Config) : Config :=
  mkConfig (Version c) (Server c) (Upstream c) (Agent c) (AgentFacts c) (Policy c) (Audit c)
    (f (Metrics c)) (Health c) (Logging c) (TLS c).
Definition on_Health (f : HealthConfig -> HealthConfig) (c : Config) : Config :=
  mkConfig (Version c) (Server c) (Upstream c) (Agent c) (AgentFacts c) (Policy c) (Audit c)
    (Metrics c) (f (Health c)) (Logging c) (TLS c).
Definition on_Logging (f : LoggingConfig -> LoggingConfig) (c : Config) : Config :=
  mkConfig (Version c) (Server c) (Upstream c) (Agent c) (AgentFacts c) (Policy c) (Audit c)
    (Metrics c) (Health c) (f (Logging c)) (TLS c).
Definition on_TLS (f : TLSConfig -> TLSConfig) (c : Config) : Config :=
  mkConfig (Version c) (Server c) (Upstream c) (Agent c) (AgentFacts c) (Policy c) (Audit c)
    (Metrics c) (Health c) (Logging c) (f (TLS c)).

Definition set_listen (f : ListenConfig -> ListenConfig) (s : ServerConfig) : ServerConfig :=
  mkServer (f (Listen s)) (Server_Transport s) (ReadTimeout s) (WriteTimeout s) (IdleTimeout s)
    (GracefulShutdown s) (MaxConnections s) (Security s).

Definition set_policy (mode dir data : string) (p : PolicyConfig) : PolicyConfig :=
  mkPolicy (Policy_Enabled p) mode dir (JSONPolicyDir p) data (WatchForChanges p)
    (Policy_Environment p) (Policy_Cache p) (Evaluation p).

Definition set_agent (id name : string) (caps : slice string) (a : AgentConfig) : AgentConfig :=
  mkAgent id name caps (AgentCfg_Model a) (AgentCfg_Publisher a) (AgentCfg_Tags a).

(** [envMappings]. *)
Definition envMappings : list (string * (string -> Config -> Config)) :=
  [("MCP_SERVER_PORT", fun v => on_Server (set_listen (fun l =>
      mkListen (Listen_Address l) (parseInt v (Listen_Port l)))));
   ("MCP_SERVER_ADDRESS", fun v => on_Server (set_listen (fun l => mkListen v (Listen_Port l))));
   ("MCP_SERVER_TRANSPORT", fun v => on_Server (fun s =>
      mkServer (Listen s) v (ReadTimeout s) (WriteTimeout s) (IdleTimeout s)
        (GracefulShutdown s) (MaxConnections s) (Security s)));
   ("MCP_UPSTREAM_URL", fun v => on_Upstream (fun u =>
      mkUpstream v (Upstream_Transport u) (Upstream_Timeout u) (ConnectionPool u) (Retry u)
        (CircuitBreaker u)));
   ("MCP_AGENT_ID", fun v => on_Agent (fun a =>
      set_agent v (AgentCfg_Name a) (AgentCfg_Capabilities a) a));
   ("MCP_AGENT_NAME", fun v => on_Agent (fun a =>
      set_agent (AgentCfg_ID a) v (AgentCfg_Capabilities a) a));
   ("MCP_AGENTFACTS_MODE", fun v => on_AgentFacts (fun f =>
      mkAgentFacts v (MaxAge f) (ClockSkew f) (AllowedDIDs f) (VerifyLogProof f) (Facts_Cache f)));
   ("MCP_POLICY_MODE", fun v => on_Policy (fun p => set_policy v (PolicyDir p) (DataFile p) p));
   ("MCP_POLICY_RULES_DIR", fun v => on_Policy (fun p =>
      set_policy (Policy_Mode p) v (DataFile p) p));
   ("MCP_POLICY_DATA_FILE", fun v => on_Policy (fun p =>
      set_policy (Policy_Mode p) (PolicyDir p) v p));
   ("MCP_AUDIT_ENABLED", fun v => on_Audit (fun a =>
      mkAudit (parseBool v) (DBPath a) (Audit_BufferSize a) (Audit_FlushInterval a)
        (RetentionDays a) (Capture a)));
   ("MCP_AUDIT_DB_PATH", fun v => on_Audit (fun a =>
      mkAudit (Audit_Enabled a) v (Audit_BufferSize a) (Audit_FlushInterval a)
        (RetentionDays a) (Capture a)));
   ("MCP_METRICS_ENABLED", fun v => on_Metrics (fun m =>
      mkMetrics (parseBool v) (Metrics_Address m) (Metrics_Port m) (Metrics_Path m)));
   ("MCP_METRICS_PORT", fun v => on_Metrics (fun m =>
      mkMetrics (Metrics_Enabled m) (Metrics_Address m) (parseInt v (Metrics_Port m))
        (Metrics_Path m)));
   ("MCP_HEALTH_ENABLED", fun v => on_Health (fun h =>
      mkHealth (parseBool v) (Health_Address h) (Health_Port h) (LivenessPath h)
        (ReadinessPath h)));
   ("MCP_HEALTH_PORT", fun v => on_Health (fun h =>
      mkHealth (Health_Enabled h) (Health_Address h) (parseInt v (Health_Port h))
        (LivenessPath h) (ReadinessPath h)));
   ("MCP_LOGGING_LEVEL", fun v => on_Logging (fun l => mkLogging v (Format l) (Output l) (File l)));
   ("MCP_LOGGING_FORMAT", fun v => on_Logging (fun l => mkLogging (Level l) v (Output l) (File l)));
   ("MCP_TLS_ENABLED", fun v => on_TLS (fun t =>
      mkTLS (parseBool v) (CertFile t) (KeyFile t) (CAFile t) (MinVersion t) (ClientAuth t)));
   ("MCP_TLS_CERT_FILE", fun v => on_TLS (fun t =>
      mkTLS (TLS_Enabled t) v (KeyFile t) (CAFile t) (MinVersion t) (ClientAuth t)));
   ("MCP_TLS_KEY_FILE", fun v => on_TLS (fun t =>
      mkTLS (TLS_Enabled t) (CertFile t) v (CAFile t) (MinVersion t) (ClientAuth t)))].

(** One variable: unset and empty are the same to [os.Getenv]. *)
Definition override (getenv : string -> string) (cfg : Config)
    (m : string * (string -> Config -> Config)) : Config :=
  if bool_decide (getenv m.1 = "") then cfg else m.2 (getenv m.1) cfg.

Definition applyListOverrides (getenv : string -> string) (cfg : Config) : Config :=
  let caps := getenv "MCP_AGENT_CAPABILITIES" in
  let cfg := if bool_decide (caps = "") then cfg
    else on_Agent (fun a => set_agent (AgentCfg_ID a) (AgentCfg_Name a)
                              (Some (split_char "," caps)) a) cfg in
  let dids := getenv "MCP_AGENTFACTS_ALLOWED_DIDS" in
  if bool_decide (dids = "") then cfg
  else on_AgentFacts (fun f => mkAgentFacts (Facts_Mode f) (MaxAge f) (ClockSkew f)
         (Some (split_char "," dids)) (VerifyLogProof f) (Facts_Cache f)) cfg.

(** [order] is [envMappings] in the order the iteration visits it. *)
Definition applyEnvOverrides (order : list (string * (string -> Config -> Config)))
    (getenv : string -> string) (cfg : Config) : Config :=
  applyListOverrides getenv (foldl (override getenv) cfg order).

(** ** Validation and loading *)

Definition validate (cfg : Config) : result string unit :=
  let port := Listen_Port (Listen (Server cfg)) in
  if (port <? 1)%Z || (port >? 65535)%Z then Err ("invalid server port: " +:+ itoa port)
  else if negb (bool_decide (Server_Transport (Server cfg) ∈ ["sse"; "stdio"; "http"])) then
    Err ("invalid server transport: " +:+ Server_Transport (Server cfg)
         +:+ " (must be sse, stdio, or http)")
  else if negb (bool_decide (Facts_Mode (AgentFacts cfg) ∈ ["disabled"; "optional"; "required"]))
  then Err ("invalid agentfacts mode: " +:+ Facts_Mode (AgentFacts cfg)
            +:+ " (must be disabled, optional, or required)")
  else if negb (bool_decide (Policy_Mode (Policy cfg) ∈ ["audit"; "enforce"])) then
    Err ("invalid policy mode: " +:+ Policy_Mode (Policy cfg) +:+ " (must be audit or enforce)")
  else if negb (bool_decide (Level (Logging cfg) ∈ ["debug"; "info"; "warn"; "error"])) then
    Err ("invalid logging level: " +:+ Level (Logging cfg)
         +:+ " (must be debug, info, warn, or error)")
  else Ok tt.

Definition Load (readFile : string -> result string string)
    (yaml_unmarshal : string -> result string Config)
    (order : list (string * (string -> Config -> Config))) (getenv : string -> string)
    (path : string) : result string Config :=
  data ← wrap_err "reading config file" (readFile (filepath_Clean path));
  cfg ← wrap_err "parsing config file" (yaml_unmarshal data);
  let cfg := applyEnvOverrides order getenv (applyDefaults cfg) in
  _ ← wrap_err "validating config" (validate cfg);
  Ok cfg.

Definition Config_String (c : Config) : string :=
  "Config{version=" +:+ Version c +:+ ", server=" +:+ Listen_Address (Listen (Server c)) +:+ ":"
  +:+ itoa (Listen_Port (Listen (Server c))) +:+ ", transport="
  +:+ Server_Transport (Server c) +:+ ", policy_mode=" +:+ Policy_Mode (Policy c) +:+ "}".

Definition MaskSensitive (c : Config) : Config :=
  if bool_decide (KeyFile (TLS c) = "") then c
  else on_TLS (fun t => mkTLS (TLS_Enabled t) (CertFile t) "****" (CAFile t) (MinVersion t)
                          (ClientAuth t)) c.

Definition GetEnvMapping : list (string * string) :=
  [("server.port", "MCP_SERVER_PORT"); ("server.address", "MCP_SERVER_ADDRESS");
   ("server.transport", "MCP_SERVER_TRANSPORT"); ("upstream.url", "MCP_UPSTREAM_URL");
   ("agent.id", "MCP_AGENT_ID"); ("agent.name", "MCP_AGENT_NAME");
   ("agent.capabilities", "MCP_AGENT_CAPABILITIES"); ("agentfacts.mode", "MCP_AGENTFACTS_MODE");
   ("agentfacts.allowed_dids", "MCP_AGENTFACTS_ALLOWED_DIDS"); ("policy.mode", "MCP_POLICY_MODE");
   ("policy.rules_dir", "MCP_POLICY_RULES_DIR"); ("policy.data_file", "MCP_POLICY_DATA_FILE");
   ("audit.enabled", "MCP_AUDIT_ENABLED"); ("audit.db_path", "MCP_AUDIT_DB_PATH");
   ("metrics.enabled", "MCP_METRICS_ENABLED"); ("metrics.port", "MCP_METRICS_PORT");
   ("health.enabled", "MCP_HEALTH_ENABLED"); ("health.port", "MCP_HEALTH_PORT");
   ("logging.level", "MCP_LOGGING_LEVEL"); ("logging.format", "MCP_LOGGING_FORMAT");
   ("tls.enabled", "MCP_TLS_ENABLED"); ("tls.cert_file", "MCP_TLS_CERT_FILE");
   ("tls.key_file", "MCP_TLS_KEY_FILE")].

(** ** Lemmas *)

Lemma or_str_idem x d : or_str (or_str x d) d = or_str x d.
Proof. unfold or_str. repeat case_bool_decide; congruence. Qed.

Lemma or_Z_idem x d : or_Z (or_Z x d) d = or_Z x d.
Proof. unfold or_Z. destruct (Z.eqb_spec x 0); [|by destruct (Z.eqb_spec x 0)]. by case_match. Qed.

(** The setters touch different fields. *)
Lemma setters_commute m1 m2 v1 v2 (c : Config) :
  In m1 envMappings -> In m2 envMappings -> m1.1 <> m2.1 ->
  m1.2 v1 (m2.2 v2 c) = m2.2 v2 (m1.2 v1 c).
Proof.
  intros H1 H2. unfold envMappings in H1, H2.
  repeat (destruct H1 as [<-|H1];
    [repeat (destruct H2 as [<-|H2]; [by intros|]); by destruct H2|]).
  by destruct H1.
Qed.

Lemma override_commute getenv m1 m2 c :
  In m1 envMappings -> In m2 envMappings -> m1.1 <> m2.1 ->
  override getenv (override getenv c m1) m2 = override getenv (override getenv c m2) m1.
Proof.
  intros H1 H2 Hne. unfold override.
  repeat case_bool_decide; auto. by apply setters_commute; auto.
Qed.

Lemma envMappings_NoDup : NoDup (map fst envMappings).
Proof. apply (bool_decide_unpack _). vm_compute. exact I. Qed.

Lemma foldl_override_perm getenv l1 l2 :
  l1 ≡ₚ l2 -> (forall m, In m l1 -> In m envMappings) -> NoDup (map fst l1) ->
  forall c, foldl (override getenv) c l1 = foldl (override getenv) c l2.
Proof.
  induction 1 as [|m l1 l2 _ IH|m1 m2 l|l1 l2 l3 H12 IH1 H23 IH2]; intros Hin Hnd c; simpl.
  - done.
  - simpl in Hnd. apply list.NoDup_cons in Hnd as [_ Hnd]. apply IH; [|done].
    intros m' Hm'. apply Hin. by right.
  - simpl in Hnd. apply list.NoDup_cons in Hnd as [Hn _].
    rewrite override_commute; [done|apply Hin; simpl; auto..|].
    intros He. apply Hn. rewrite He. apply elem_of_cons. by left.
  - rewrite IH1 by done. apply IH2.
    + intros m Hm. apply Hin. by eapply Permutation_in; [symmetry|].
    + by eapply NoDup_Permutation_proper; [symmetry; apply Permutation_map|].
Qed.

(** Parsing the digits that [itoa] writes. *)
Lemma digit_val_char k : (0 <= k < 10)%Z -> digit_val (digit_char (Z.to_nat k)) = Some k.
Proof.
  intros Hk. assert (Z.of_nat (Z.to_nat k) = k) as <- by lia.
  assert (Hn : Z.to_nat k < 10) by lia. revert Hn. generalize (Z.to_nat k). clear.
  intros n Hn. rewrite Nat2Z.id.
  do 10 (destruct n as [|n]; [vm_compute; reflexivity|]). lia.
Qed.

Lemma parse_Z_digits fuel z acc a :
  (0 <= z < 10 ^ Z.of_nat fuel)%Z -> 0 < fuel -> (0 <= a)%Z ->
  exists n, (0 <= n)%Z /\
    parse_digits a (Z_digits fuel z acc) = parse_digits (a * 10 ^ n + z) acc.
Proof.
  revert z acc. induction fuel as [|fuel IH]; intros z acc Hz Hf Ha; [lia|].
  cbn [Z_digits]. destruct (Z.ltb_spec z 10) as [Hlt|Hge].
  - exists 1%Z. split; [lia|]. cbn [parse_digits]. rewrite digit_val_char by (apply Z.mod_pos_bound; lia).
    rewrite Z.mod_small by lia. reflexivity.
  - assert (Hpow : (10 ^ Z.of_nat (S fuel) = 10 * 10 ^ Z.of_nat fuel)%Z).
    { rewrite Nat2Z.inj_succ, Z.pow_succ_r by lia. lia. }
    assert (0 < fuel) as Hf'.
    { destruct fuel; [|lia]. simpl in Hz. lia. }
    destruct (IH (z / 10)%Z (String (digit_char (Z.to_nat (z mod 10))) acc)) as (n & Hn & Heq);
      [|done|done|].
    { split; [apply Z.div_pos; lia|]. apply Z.div_lt_upper_bound; lia. }
    exists (n + 1)%Z. split; [lia|]. rewrite Heq. cbn [parse_digits].
    rewrite digit_val_char by (apply Z.mod_pos_bound; lia). cbn. f_equal.
    rewrite Z.pow_add_r by lia. pose proof (Z.div_mod z 10). lia.
Qed.

(** The first byte of a number is a digit. *)
Lemma Z_digits_head fuel z acc :
  0 < fuel -> exists k s, k < 10 /\ Z_digits fuel z acc = String (digit_char k) s.
Proof.
  revert z acc. induction fuel as [|fuel IH]; intros z acc Hf; [lia|]. cbn [Z_digits].
  assert (Hk : Z.to_nat (z mod 10) < 10) by (pose proof (Z.mod_pos_bound z 10); lia).
  destruct (z <? 10)%Z; [by eauto|]. destruct fuel as [|fuel]; [by simpl; eauto|].
  apply IH. lia.
Qed.

(** ** Properties *)

(** C40: Every configuration that loads is usable by the rest of the program: the port is
    a TCP port, the transport, the identity mode, the policy mode and the log level are
    known words. In particular the policy mode is enforce or audit and nothing else. *)
Theorem Load_valid (readFile : string -> result string string)
    (yaml_unmarshal : string -> result string Config)
    (order : list (string * (string -> Config -> Config))) (getenv : string -> string)
    (path : string) (cfg : Config)
    (Hload : Load readFile yaml_unmarshal order getenv path = Ok cfg) :
  (1 <= Listen_Port (Listen (Server cfg)) <= 65535)%Z /\
  Server_Transport (Server cfg) ∈ ["sse"; "stdio"; "http"] /\
  Facts_Mode (AgentFacts cfg) ∈ ["disabled"; "optional"; "required"] /\
  Policy_Mode (Policy cfg) ∈ ["audit"; "enforce"] /\
  Level (Logging cfg) ∈ ["debug"; "info"; "warn"; "error"].
Proof.
  unfold Load in Hload. apply bind_Ok in Hload as (data & _ & Hload).
  apply bind_Ok in Hload as (c & _ & Hload). apply bind_Ok in Hload as (u & Hv & Hload).
  injection Hload as Hc. rewrite Hc in Hv. clear Hc. unfold validate, wrap_err in Hv.
  repeat case_match; simplify_eq;
    repeat match goal with
    | H : negb _ = false |- _ => apply negb_false_iff in H
    | H : bool_decide _ = true |- _ => apply bool_decide_eq_true in H
    | H : orb _ _ = false |- _ => apply orb_false_iff in H as [? ?] end.
  split; [lia|]. by repeat split.
Qed.

(** Applying the defaults twice is applying them once, and afterwards the ports, the
    time limits and the sizes that have a default are set. *)
Theorem applyDefaults_idempotent (c : Config) :
  applyDefaults (applyDefaults c) = applyDefaults c.
Proof.
  unfold applyDefaults, applyServerDefaults, applyUpstreamDefaults, applyAgentFactsDefaults,
    applyPolicyDefaults, applyAuditDefaults, applyMetricsDefaults, applyHealthDefaults,
    applyLoggingDefaults, applyTLSDefaults. cbn -[filepath_Join Z.mul].
  by rewrite !or_str_idem, !or_Z_idem.
Qed.

(** The environment overrides do not depend on the order in which Go iterates over
    the map of variables. *)
Theorem overrides_order_independent (order : list (string * (string -> Config -> Config)))
    (getenv : string -> string) (c : Config) (Hperm : order ≡ₚ envMappings) :
  applyEnvOverrides order getenv c = applyEnvOverrides envMappings getenv c.
Proof.
  unfold applyEnvOverrides. f_equal. symmetry.
  apply foldl_override_perm; [by symmetry|done|apply envMappings_NoDup].
Qed.

(** The published list of environment variables names exactly the variables that are
    read, each once. *)
Theorem GetEnvMapping_exact :
  map snd GetEnvMapping ≡ₚ
  map fst envMappings ++ ["MCP_AGENT_CAPABILITIES"; "MCP_AGENTFACTS_ALLOWED_DIDS"].
Proof. apply (bool_decide_unpack _). vm_compute. exact I. Qed.

(** Printing a 64-bit integer in decimal and parsing it back gives the integer, so a
    numeric override written as Go prints it is taken exactly. *)
Theorem Atoi_itoa (z d : Z) (Hz : in_int64 z) : parseInt (itoa z) d = z.
Proof.
  assert (Hdig : forall z, (0 <= z <= 2 ^ 63)%Z -> parse_digits 0 (Z_digits 20 z "") = Some z).
  { clear. intros z Hz. destruct (parse_Z_digits 20 z "" 0) as (n & _ & ->); [|lia|lia|].
    - split; [lia|]. apply Z.le_lt_trans with (2 ^ 63)%Z; [lia|]. reflexivity.
    - done. }
  assert (Hfirst : forall z, exists k s, k < 10 /\ Z_digits 20 z "" = String (digit_char k) s)
    by (intros; apply Z_digits_head; lia).
  unfold parseInt, itoa, Atoi. unfold_int. destruct (Z.ltb_spec z 0) as [Hneg|Hpos].
  - specialize (Hdig (- z)%Z ltac:(lia)). destruct (Hfirst (- z)%Z) as (k & s & _ & Hs).
    rewrite Hs in *. rewrite Hdig. cbn. rewrite bool_decide_true by lia. cbn. lia.
  - specialize (Hdig z ltac:(lia)). destruct (Hfirst z) as (k & s & Hk & Hs).
    rewrite Hs in *.
    do 10 (destruct k as [|k]; [cbn -[parse_digits bool_decide]; cbn -[parse_digits bool_decide] in Hdig;
      rewrite Hdig; cbn -[bool_decide]; rewrite bool_decide_true by lia; done|]). lia.
Qed.

(** The defaults overwrite two settings an operator can write down: retention zero,
    documented as keeping records for ever, becomes thirty days, and security headers
    switched off are switched on. *)
Theorem defaults_override_operator (c : Config) :
  RetentionDays (Audit (applyDefaults c)) <> 0%Z /\
  EnableSecurityHeaders (Security (Server (applyDefaults c))) = true.
Proof.
  split; [|done]. simpl. unfold or_Z. by destruct (Z.eqb_spec (RetentionDays (Audit c)) 0).
Qed.

(** ** Witnesses *)

Definition zero_cache : CacheSettings := mkCacheSettings false 0 0.

(** The configuration an empty YAML file decodes to. *)
Definition zero_Config : Config :=
  mkConfig ""
    (mkServer (mkListen "" 0) "" 0 0 0 0 0 (mkSecurity None false))
    (mkUpstream "" "" 0 (mkPool 0 0 0) (mkRetry false 0 0 0 "") (mkBreaker false 0 0))
    (mkAgent "" "" None "" "" None)
    (mkAgentFacts "" 0 0 None false zero_cache)
    (mkPolicy false "" "" "" "" false "" zero_cache (mkEvaluation 0 false))
    (mkAudit false "" 0 0 0 (mkCapture false false))
    (mkMetrics false "" 0 "") (mkHealth false "" 0 "" "")
    (mkLogging "" "" "" (mkFile "" 0 0 0)) (mkTLS false "" "" "" "" "").

Definition sample_getenv (name : string) : string :=
  if bool_decide (name = "MCP_SERVER_PORT") then "8443"
  else if bool_decide (name = "MCP_POLICY_MODE") then "audit" else "".

Definition load_sample : result string Config :=
  Load (fun _ => Ok "") (fun _ => Ok zero_Config) envMappings sample_getenv "config//proxy.yaml".

Definition sample_loaded : Config :=
  applyEnvOverrides envMappings sample_getenv (applyDefaults zero_Config).

Lemma Load_valid_witness :
  load_sample = Ok sample_loaded /\
  Listen_Port (Listen (Server sample_loaded)) = 8443%Z /\
  Policy_Mode (Policy sample_loaded) ∈ ["audit"; "enforce"].
Proof.
  assert (H : load_sample = Ok sample_loaded) by (vm_compute; reflexivity).
  split; [exact H|]. split; [vm_compute; reflexivity|].
  destruct (Load_valid (fun _ => Ok "") (fun _ => Ok zero_Config) envMappings sample_getenv
    "config//proxy.yaml" sample_loaded H) as (_ & _ & _ & Hm & _). exact Hm.
Defined.

Lemma overrides_order_independent_witness :
  applyEnvOverrides (rev envMappings) sample_getenv (applyDefaults zero_Config) = sample_loaded.
Proof.
  apply (overrides_order_independent (rev envMappings) sample_getenv
    (applyDefaults zero_Config)).
  symmetry. apply Permutation_rev.
Defined.

Lemma Atoi_itoa_witness : parseInt (itoa (-9223372036854775808)) 3 = (-9223372036854775808)%Z.
Proof. apply (Atoi_itoa (-9223372036854775808) 3). vm_compute. split; discriminate. Defined.
