(* ===== verification/Loader.v ===== *)
(** * The policy loader

    Models src/internal/policy/loader.go: finding and reading the Rego files and the JSON
    policies, merging them, reading the policy data, and initialising the engine. The file
    system is the record [FS]; decoding JSON and the policy compiler are arguments of the
    section, so the theorems hold for every compiler. *)

From Stdlib Require Import ZArith Lia Ascii.
From stdpp Require Import base list gmap strings numbers.
From S2P Require Import Prelude Json GoText PolicyTypes Cache Engine Config.

(** [filepath.Glob], [os.IsNotExist(os.Stat(...))] and [os.ReadFile]. *)
Record FS : Type := mkFS {
  Glob : string -> result string (list string);
  NotExist : string -> bool;
  ReadFile : string -> result string string
}.

Record Loader : Type := mkLoader {
  policyDir : string;
  dataFile : string;
  jsonPolicyDir : string
}.

(** [NewLoader] without options, and the option [WithJSONPolicyDir]. *)
Definition NewLoader (dir data : string) : Loader :=
  {| policyDir := dir; dataFile := data; jsonPolicyDir := filepath_Join dir "json" |}.

Definition WithJSONPolicyDir (dir : string) (l : Loader) : Loader :=
  {| policyDir := policyDir l; dataFile := dataFile l; jsonPolicyDir := dir |}.

(** [filepath.Base]: what follows the last slash of a path without trailing slashes. *)
Definition filepath_Base (p : string) : string := List.last (split_char "/"%char p) "".

Section Loader.

Context (fs : FS).
(** [json.Unmarshal] into a map, and into a [compiler.PolicyDefinition]; the compiler's
    modules and warnings. *)
Context {Def : Type}.
Context (unmarshal_map : string -> result string jobject).
Context (unmarshal_def : string -> result string Def).
Context (Compile : Def -> result string (list (string * string) * list string)).

Fixpoint load_rego (files : list string) (modules : list (string * string))
    : result string (list (string * string)) :=
  match files with
  | [] => Ok modules
  | file :: files =>
      if has_suffix "_test.rego" file then load_rego files modules
      else
        content ← wrap_err ("failed to read " +:+ file) (ReadFile fs (filepath_Clean file));
        load_rego files (obj_set modules (filepath_Base file) content)
  end.

Definition loadRegoFiles (l : Loader) : result string (list (string * string)) :=
  files ← wrap_err "failed to glob policy files" (Glob fs (filepath_Join (policyDir l) "*.rego"));
  match files with
  | [] => Err ("no .rego files found in " +:+ policyDir l)
  | _ => load_rego files []
  end.

(** Adding the modules of one compiled file. *)
Definition add_modules (ms : list (string * string)) (modules : list (string * string))
    : list (string * string) :=
  foldl (fun acc p => obj_set acc p.1 p.2) modules ms.

Fixpoint load_json (files : list string) (modules : list (string * string))
    : result string (list (string * string)) :=
  match files with
  | [] => Ok modules
  | file :: files =>
      content ← wrap_err ("failed to read " +:+ file) (ReadFile fs (filepath_Clean file));
      def ← wrap_err ("failed to parse " +:+ file) (unmarshal_def content);
      res ← wrap_err ("failed to compile " +:+ file) (Compile def);
      load_json files (add_modules res.1 modules)
  end.

Definition loadJSONPolicies (l : Loader) : result string (list (string * string)) :=
  if NotExist fs (jsonPolicyDir l) then Ok []
  else
    files ← wrap_err "failed to glob JSON policy files"
              (Glob fs (filepath_Join (jsonPolicyDir l) "*.json"));
    match files with
    | [] => Ok []
    | _ => load_json files []
    end.

(** Merging: a module that exists already is kept. *)
Definition merge_modules (json modules : list (string * string)) : list (string * string) :=
  foldl (fun acc p => match obj_get acc p.1 with
                      | Some _ => acc
                      | None => obj_set acc p.1 p.2
                      end) modules json.

Definition LoadPolicies (l : Loader) : result string (list (string * string)) :=
  rego ← loadRegoFiles l;
  match loadJSONPolicies l with
  | Err _ => Ok rego
  | Ok json => Ok (merge_modules json rego)
  end.

Definition LoadPolicyData (l : Loader) : result string jobject :=
  content ← wrap_err "failed to read policy data" (ReadFile fs (dataFile l));
  wrap_err "failed to parse policy data" (unmarshal_map content).

(** [json.Unmarshal] into a [PolicyData]. *)
Definition LoadPolicyDataStruct (unmarshal_data : string -> result string PolicyData) (l : Loader)
    : result string PolicyData :=
  content ← wrap_err "failed to read policy data" (ReadFile fs (dataFile l));
  wrap_err "failed to parse policy data" (unmarshal_data content).

Context `{O : OPA}.

(** A placeholder in the code as well: it logs and returns. *)
Definition WatchForChanges (l : Loader) (e : Engine) : result string unit := Ok tt.

Definition LoadAndInitialize (l : Loader) (e : Engine) : Engine * result string unit :=
  match wrap_err "failed to load policies" (LoadPolicies l) with
  | Err msg => (e, Err msg)
  | Ok ms =>
      match wrap_err "failed to load policy data" (LoadPolicyData l) with
      | Err msg => (e, Err msg)
      | Ok data =>
          let '(e, r) := SetPolicyData data e in
          match wrap_err "failed to set policy data" r with
          | Err msg => (e, Err msg)
          | Ok _ =>
              let '(e, r) := Engine.LoadPolicies ms e in
              (e, wrap_err "failed to compile policies" r)
          end
      end
  end.

Definition ValidatePolicies (l : Loader) : result string unit :=
  ms ← LoadPolicies l;
  (Engine.LoadPolicies ms (NewEngine (mkEngineConfig "" true (mkCacheConfig false 0 0)))).2.

(** ** Lemmas *)

Lemma merge_keeps json modules k v :
  obj_get modules k = Some v -> obj_get (merge_modules json modules) k = Some v.
Proof.
  unfold merge_modules. revert modules. induction json as [|[k' v'] json IH];
    intros modules Hk; simpl; [done|]. apply IH.
  destruct (obj_get modules k') eqn:E; [done|].
  rewrite obj_get_set_ne; [done|]. congruence.
Qed.

(** A key that is new to the merge comes from the JSON modules. *)
Lemma merge_source json modules k v :
  obj_get (merge_modules json modules) k = Some v ->
  obj_get modules k = Some v \/ In (k, v) json.
Proof.
  unfold merge_modules. revert modules. induction json as [|[k' v'] json IH];
    intros modules Hk; simpl in *; [by left|].
  destruct (IH _ Hk) as [H|H]; [|by right; right].
  destruct (obj_get modules k') eqn:E; [by left|].
  destruct (decide (k = k')) as [->|Hne].
  - rewrite obj_get_set_eq in H. simplify_eq. by right; left.
  - rewrite obj_get_set_ne in H by done. by left.
Qed.

(** ** Properties *)

(** Rego files take precedence: a module read from a Rego file is loaded with that
    file's content whatever the JSON policies define, and every other module that is
    loaded comes from a JSON policy. *)
Theorem rego_precedence (l : Loader) (rego ms : list (string * string))
    (Hrego : loadRegoFiles l = Ok rego) (Hload : LoadPolicies l = Ok ms) (k v : string) :
  (obj_get rego k = Some v -> obj_get ms k = Some v) /\
  (obj_get ms k = Some v -> obj_get rego k = None ->
   exists json, loadJSONPolicies l = Ok json /\ In (k, v) json).
Proof.
  unfold LoadPolicies in Hload. rewrite Hrego in Hload. cbn in Hload.
  destruct (loadJSONPolicies l) as [json|e]; simplify_eq.
  - split; [apply merge_keeps|]. intros H Hn.
    destruct (merge_source _ _ _ _ H) as [?|?]; [congruence|]. by exists json.
  - split; [done|]. congruence.
Qed.

(** A broken JSON policy disables every JSON policy without an error: when one file
    of the directory cannot be read, parsed or compiled, loading succeeds with the Rego
    modules alone. *)
Theorem json_policies_fail_open (l : Loader) (rego : list (string * string)) (e : string)
    (Hrego : loadRegoFiles l = Ok rego) (Hjson : loadJSONPolicies l = Err e) :
  LoadPolicies l = Ok rego.
Proof. unfold LoadPolicies. by rewrite Hrego, Hjson. Qed.

(** A successful initialisation means the engine evaluates the query prepared from
    exactly the loaded modules and data, and the decisions cached before are gone. *)
Theorem LoadAndInitialize_spec (l : Loader) (e e' : Engine)
    (Hinit : LoadAndInitialize l e = (e', Ok tt)) :
  exists ms data, LoadPolicies l = Ok ms /\ LoadPolicyData l = Ok data /\
    PrepareForEval ms (store_of data) = Ok (query e') /\
    modules e' = ms /\ policyData e' = data /\ cache e' = Invalidate (cache e).
Proof.
  unfold LoadAndInitialize, wrap_err in Hinit.
  destruct (LoadPolicies l) as [ms|]; [|done].
  destruct (LoadPolicyData l) as [data|]; [|done].
  destruct (SetPolicyData data e) as [e1 [[]|]] eqn:Hset; [|done].
  assert (Hd : policyData e1 = data).
  { unfold SetPolicyData in Hset. simpl in Hset.
    destruct (modules e) as [|m ms']; [by simplify_eq/=|].
    match type of Hset with compileWithData ?x = _ =>
      pose proof (compileWithData_frame x) as (_ & _ & _ & _ & Hp) end.
    rewrite Hset in Hp. done. }
  assert (Hc : cache e1 = Invalidate (cache e)).
  { pose proof (SetPolicyData_cache data e) as Hc. by rewrite Hset in Hc. }
  unfold Engine.LoadPolicies, compileWithData in Hinit. simpl in Hinit.
  destruct (PrepareForEval ms (store_of (policyData e1))) as [q|] eqn:Hp; simplify_eq/=.
  exists ms, (policyData e1). done.
Qed.

End Loader.

(** ** Witnesses *)

#[local] Existing Instance sample_opa.

(** Two Rego files, one of them a test, and two JSON policies; the second does not
    compile. *)
Definition sample_fs : FS :=
  {| Glob p :=
       if bool_decide (p = "policies/*.rego") then
         Ok ["policies/main.rego"; "policies/main_test.rego"]
       else if bool_decide (p = "policies/json/*.json") then Ok ["policies/json/a.json"]
       else Ok ["bad.json"];
     NotExist _ := false;
     ReadFile p := if bool_decide (p = "policies/main.rego") then Ok "allow" else Ok p |}.

Definition sample_compile (def : string) : result string (list (string * string) * list string) :=
  if bool_decide (def = "bad.json") then Err "unknown rule type"
  else Ok ([("main.rego", "deny"); ("json_a.rego", "package a")], []).

Definition sample_loader : Loader := NewLoader "policies" "data.json".
Definition broken_loader : Loader := WithJSONPolicyDir "bad" sample_loader.

Lemma rego_precedence_witness :
  exists ms, LoadPolicies sample_fs (fun s => Ok s) sample_compile sample_loader = Ok ms /\
    obj_get ms "main.rego" = Some "allow".
Proof.
  eexists. split; [vm_compute; reflexivity|].
  apply (rego_precedence sample_fs (fun s => Ok s) sample_compile sample_loader
    [("main.rego", "allow")] [("main.rego", "allow"); ("json_a.rego", "package a")]);
    vm_compute; reflexivity.
Defined.

Lemma json_policies_fail_open_witness :
  LoadPolicies sample_fs (fun s => Ok s) sample_compile broken_loader =
    Ok [("main.rego", "allow")].
Proof.
  apply (json_policies_fail_open sample_fs (fun s => Ok s) sample_compile broken_loader
    [("main.rego", "allow")] "failed to compile bad.json: unknown rule type");
    vm_compute; reflexivity.
Defined.

Definition initialize_sample : Engine * result string unit :=
  LoadAndInitialize sample_fs (fun _ => Ok [("k", JNull)]) (fun s => Ok s) sample_compile
    sample_loader (NewEngine sample_cfg).

Lemma LoadAndInitialize_spec_witness :
  initialize_sample = (fst initialize_sample, Ok tt) /\
  policyData (fst initialize_sample) = [("k", JNull)].
Proof.
  assert (H : initialize_sample = (fst initialize_sample, Ok tt)).
  { assert (Hs : snd initialize_sample = Ok tt) by (vm_compute; reflexivity).
    rewrite <- Hs. apply surjective_pairing. }
  split; [exact H|].
  destruct (LoadAndInitialize_spec sample_fs (fun _ => Ok [("k", JNull)]) (fun s => Ok s)
    sample_compile sample_loader (NewEngine sample_cfg) (fst initialize_sample) H)
    as (ms & data & _ & Hd & _ & _ & Hp & _).
  rewrite Hp. vm_compute in Hd. injection Hd as <-. reflexivity.
Defined.
