(* ===== verification/PolicyLoading.v ===== *)
(** * Loading JSON policies

    The loader of [Loader] with the compiler of [Compiler] in place of its argument: what
    ends up in the engine when policies are written as JSON. *)

From Stdlib Require Import ZArith Lia Ascii.
From stdpp Require Import base list sets strings numbers.
From S2P Require Import Prelude Json GoText CompilerTypes CompilerExpr Compiler.
From S2P Require Import Loader.

Section PolicyLoading.

Context `{RT : GoRuntime}.
Context (env : CompileEnv).
Context (fs : FS).
(** [json.Unmarshal] into a [PolicyDefinition]. *)
Context (unmarshal_def : string -> result string PolicyDefinition).

(** The compiler as the loader calls it. It does not panic, see [Compiler.Compile_errors]. *)
Definition compile_for_loader (def : PolicyDefinition)
    : result string (list (string * string) * list string) :=
  match (Compile env def NewValidator).2 with
  | Ret (Ok res) => Ok (Modules res, Warnings res)
  | Ret (Err e) => Err e
  | Panic msg => Err msg
  end.

Lemma compile_for_loader_ok def ms ws :
  compile_for_loader def = Ok (ms, ws) ->
  (Validate def NewValidator).2 = Ok tt
  /\ ms = [(module_name (PolicyName def), module_text env def)]
  /\ PrepareModules env ms = None.
Proof.
  unfold compile_for_loader. destruct (Compile env def NewValidator).2 as [[res|e]|msg] eqn:Hc; [|done..].
  apply Compile_ok_iff in Hc as (Hv & _ & Hp & ->). intros [= <- <-]. done.
Qed.

(** A module that stands for a valid definition, read from one of the files, whose own
    module OPA accepted. *)
Definition compiled_from (files : list string) (m : string * string) : Prop :=
  exists file content def,
    file ∈ files /\ ReadFile fs (Config.filepath_Clean file) = Ok content
    /\ unmarshal_def content = Ok def
    /\ (Validate def NewValidator).2 = Ok tt
    /\ m = (module_name (PolicyName def), module_text env def)
    /\ PrepareModules env [m] = None.

Lemma In_obj_set {A} (m : list (string * A)) k v x :
  In x (obj_set m k v) -> In x m \/ x = (k, v).
Proof.
  induction m as [|[k' v'] m IH]; simpl; [naive_solver|]. case_bool_decide; simpl; naive_solver.
Qed.

Lemma load_json_source files all modules ms m :
  (forall f, f ∈ files -> f ∈ all) ->
  (forall x, In x modules -> compiled_from all x) ->
  load_json fs unmarshal_def compile_for_loader files modules = Ok ms ->
  In m ms -> compiled_from all m.
Proof.
  revert modules. induction files as [|file files IH]; intros modules Hall Hmods Hload Hin;
    cbn [load_json] in Hload; [simplify_eq; auto|].
  apply bind_Ok in Hload as (content & Hread & Hload).
  apply bind_Ok in Hload as (def & Hdef & Hload).
  apply bind_Ok in Hload as ([ms' ws] & Hcomp & Hload).
  unfold wrap_err in Hread, Hdef, Hcomp.
  destruct (ReadFile _ _) as [c|] eqn:Hr; [|done]. injection Hread as <-.
  destruct (unmarshal_def _) as [d|] eqn:Hd; [|done]. injection Hdef as <-.
  destruct (compile_for_loader d) as [[ms0 ws0]|] eqn:Hc; [|done]. injection Hcomp as <- <-.
  apply compile_for_loader_ok in Hc as (Hv & Hms & Hp). rewrite Hms in Hp.
  refine (IH _ _ _ Hload Hin); [set_solver|].
  intros x Hx. rewrite Hms in Hx. cbn in Hx. apply In_obj_set in Hx as [Hx| ->]; [auto|].
  exists file, c, d. split_and!; [set_solver|done..].
Qed.

(** C36: Every module that the loader hands to the engine is the content of a Rego file, or
    the text compiled from a valid JSON definition of the policy directory that OPA accepted
    on its own. *)
Theorem loaded_modules_are_compiled (l : Loader) (ms : list (string * string)) (k v : string)
    (Hload : LoadPolicies fs unmarshal_def compile_for_loader l = Ok ms)
    (Hk : obj_get ms k = Some v) :
  (exists rego, loadRegoFiles fs l = Ok rego /\ obj_get rego k = Some v)
  \/ (exists files, Glob fs (Config.filepath_Join (jsonPolicyDir l) "*.json") = Ok files
                    /\ compiled_from files (k, v)).
Proof.
  unfold LoadPolicies in Hload. apply bind_Ok in Hload as (rego & Hrego & Hload).
  destruct (loadJSONPolicies fs unmarshal_def compile_for_loader l) as [json|e] eqn:Hj;
    [|simplify_eq; left; by eexists].
  injection Hload as <-. apply merge_source in Hk as [Hk|Hk]; [left; by eexists|]. right.
  unfold loadJSONPolicies in Hj. destruct (NotExist fs (jsonPolicyDir l)).
  { injection Hj as <-. done. }
  apply bind_Ok in Hj as (files & Hf & Hj). unfold wrap_err in Hf.
  destruct (Glob fs _) as [fl|]; [|done]. injection Hf as <-.
  exists fl. split; [done|]. destruct fl as [|f fl]; [injection Hj as <-; done|].
  by eapply (load_json_source (f :: fl) (f :: fl) []).
Qed.

End PolicyLoading.

(** ** Witnesses *)

Definition named_policy (name tool : string) : PolicyDefinition :=
  mkPolicy "" "1.0" name "" [cap_rule "r" tool "c" "m"] (mkDefaults "deny" 0).

(** Two policy files whose names differ in a hyphen. *)
Definition two_files : FS :=
  {| Glob p := if bool_decide (p = "policies/*.rego") then Ok ["policies/main.rego"]
               else Ok ["policies/json/1.json"; "policies/json/2.json"];
     NotExist _ := false;
     ReadFile p := Ok p |}.

Definition two_defs (content : string) : result string PolicyDefinition :=
  if bool_decide (content = "policies/json/1.json") then Ok (named_policy "a-b" "first")
  else Ok (named_policy "a_b" "second").

Definition two_loader : Loader := NewLoader "policies" "data.json".

Definition two_modules : result string (list (string * string)) :=
  LoadPolicies two_files two_defs (compile_for_loader sample_env) two_loader.

(** Two valid policies whose names differ in hyphens only overwrite each other's module
    without an error: the first one is not enforced. *)
Theorem policy_name_collision :
  two_modules = Ok [("main.rego", "policies/main.rego");
                    ("json_a_b.rego", module_text sample_env (named_policy "a_b" "second"))].
Proof. vm_compute. reflexivity. Qed.

Lemma loaded_modules_are_compiled_witness :
  (exists rego, loadRegoFiles two_files two_loader = Ok rego
     /\ obj_get rego "json_a_b.rego" = Some (module_text sample_env (named_policy "a_b" "second")))
  \/ (exists files,
        Glob two_files (Config.filepath_Join (jsonPolicyDir two_loader) "*.json") = Ok files
        /\ compiled_from sample_env two_files two_defs files
             ("json_a_b.rego", module_text sample_env (named_policy "a_b" "second"))).
Proof.
  apply (loaded_modules_are_compiled sample_env two_files two_defs two_loader
    [("main.rego", "policies/main.rego");
     ("json_a_b.rego", module_text sample_env (named_policy "a_b" "second"))]).
  - vm_compute. reflexivity.
  - vm_compute. reflexivity.
Defined.
