(* ===== verification/Upstream.v ===== *)
(** * The upstream client

    Models src/internal/upstream/client.go: connecting and disconnecting, the table of
    pending requests, sending a message and waiting for its answer, and the reader of the
    server-sent event stream. Calls of [Send] interleave with each other and with the
    reader; the relation [ustep] has one constructor per atomic step. Decoding JSON and
    the answers of the HTTP client are arguments. *)

From Stdlib Require Import ZArith Lia Ascii SpecFloat.
From stdpp Require Import base list gmap strings numbers relations.
From S2P Require Import Prelude Json GoText Config.

(** ** Keys of the pending table *)

(** An [interface{}] as a map key; two zeros are one key. Slices and maps cannot be
    keys: using one panics. *)
Inductive idkey : Type :=
| KNil
| KBool (b : bool)
| KNum (f : float64)
| KStr (s : string).

#[export] Instance idkey_eq : EqDecision idkey.
Proof. solve_decision. Defined.

Definition id_key (v : jvalue) : option idkey :=
  match v with
  | JNull => Some KNil
  | JBool b => Some (KBool b)
  | JNum (S754_zero _) => Some (KNum (S754_zero false))
  | JNum f => Some (KNum f)
  | JStr s => Some (KStr s)
  | JArr _ | JObj _ => None
  end.

(** [parsed["id"]]: nil when absent. *)
Definition id_member (m : jobject) : jvalue := default JNull (obj_get m "id").

(** ** State *)

(** [Response]: the session field is never set. *)
Record UpResponse : Type := mkUpResponse {
  Up_Data : string;
  Up_Error : option string
}.

(** [chans] are the response channels by their number, each of capacity one; [pending]
    maps keys to channels, latest binding first and at most one per key. [mutexLost] says
    that [pendingMu] was locked by a call that panicked before unlocking it. *)
Record Client : Type := mkClient {
  up_cfg : UpstreamConfig;
  connected : bool;
  messageURL : string;
  sseConn : bool;
  pending : list (idkey * nat);
  chans : list (option UpResponse);
  doneClosed : bool;
  mutexLost : bool
}.

Definition NewClient (cfg : UpstreamConfig) : Client :=
  {| up_cfg := cfg; connected := false; messageURL := ""; sseConn := false; pending := [];
     chans := []; doneClosed := false; mutexLost := false |}.

Definition set_conn (con sse : bool) (c : Client) : Client :=
  {| up_cfg := up_cfg c; connected := con; messageURL := messageURL c; sseConn := sse;
     pending := pending c; chans := chans c; doneClosed := doneClosed c;
     mutexLost := mutexLost c |}.

Definition set_pending (p : list (idkey * nat)) (ch : list (option UpResponse)) (c : Client)
    : Client :=
  {| up_cfg := up_cfg c; connected := connected c; messageURL := messageURL c;
     sseConn := sseConn c; pending := p; chans := ch; doneClosed := doneClosed c;
     mutexLost := mutexLost c |}.

Definition set_url (u : string) (c : Client) : Client :=
  {| up_cfg := up_cfg c; connected := connected c; messageURL := u; sseConn := sseConn c;
     pending := pending c; chans := chans c; doneClosed := doneClosed c;
     mutexLost := mutexLost c |}.

Definition lose_mutex (c : Client) : Client :=
  {| up_cfg := up_cfg c; connected := connected c; messageURL := messageURL c;
     sseConn := sseConn c; pending := pending c; chans := chans c;
     doneClosed := doneClosed c; mutexLost := true |}.

Definition close_done (c : Client) : Client :=
  {| up_cfg := up_cfg c; connected := connected c; messageURL := messageURL c;
     sseConn := sseConn c; pending := pending c; chans := chans c; doneClosed := true;
     mutexLost := mutexLost c |}.

(** Map operations on the pending table. *)
Fixpoint pget (k : idkey) (p : list (idkey * nat)) : option nat :=
  match p with
  | [] => None
  | (k', l) :: p => if decide (k = k') then Some l else pget k p
  end.

Definition pdel (k : idkey) (p : list (idkey * nat)) : list (idkey * nat) :=
  filter (fun q => q.1 <> k) p.

Definition pset (k : idkey) (l : nat) (p : list (idkey * nat)) : list (idkey * nat) :=
  (k, l) :: pdel k p.

(** ** Text of the event stream *)

(** One line of the loop of [readEvents]: the fields collected so far, and the event to
    handle when the line is empty. *)
Definition read_line (st : string * string) (line : string)
    : (string * string) * option (string * string) :=
  let line := TrimSpace line in
  if bool_decide (line = "") then
    if bool_decide (st = ("", "")) then (st, None) else (("", ""), Some st)
  else
    match strip_prefix "event:" line with
    | Some e => ((TrimSpace e, st.2), None)
    | None =>
        match strip_prefix "data:" line with
        | Some d => ((st.1, TrimSpace d), None)
        | None => (st, None)
        end
    end.

(** The events of a list of lines. *)
Fixpoint read_lines (st : string * string) (lines : list string) : list (string * string) :=
  match lines with
  | [] => []
  | line :: lines =>
      let '(st, ev) := read_line st line in
      match ev with Some e => e :: read_lines st lines | None => read_lines st lines end
  end.

(** ** Operations *)

(** Answers of [http.NewRequest] and of [httpClient.Do]. *)
Record HttpEnv : Type := mkHttpEnv {
  NewReq : option string;
  Do : result string Z
}.

Definition Connect (env : HttpEnv) (c : Client) : Client * result string unit :=
  if connected c then (c, Ok tt)
  else
    match NewReq env with
    | Some e => (c, Err ("failed to create SSE request: " +:+ e))
    | None =>
        match Do env with
        | Err e => (c, Err ("failed to connect to upstream: " +:+ e))
        | Ok status =>
            if (status =? 200)%Z then (set_conn true true c, Ok tt)
            else (c, Err ("upstream returned status " +:+ itoa status))
        end
    end.

(** [Disconnect]: the state keeps [connected = false] when [close] panics. *)
Definition Disconnect (c : Client) : Client * outcome unit :=
  if connected c then
    let c := set_conn false (sseConn c) c in
    if doneClosed c then (c, Panic "close of closed channel")
    else (set_conn false false (close_done c), Ret tt)
  else (c, Ret tt).

Definition IsConnected (c : Client) : bool := connected c.
Definition GetMessageURL (c : Client) : string := messageURL c.

(** The POST of [Send] and [SendAsync]. *)
Definition post (env : HttpEnv) : result string unit :=
  match NewReq env with
  | Some e => Err ("failed to create request: " +:+ e)
  | None =>
      match Do env with
      | Err e => Err ("failed to send to upstream: " +:+ e)
      | Ok status =>
          if (status =? 200)%Z || (status =? 202)%Z then Ok tt
          else Err ("upstream returned status " +:+ itoa status)
      end
  end.

Definition ready (c : Client) : result string string :=
  if connected c then
    if bool_decide (messageURL c = "") then Err "upstream message URL not yet received"
    else Ok (messageURL c)
  else Err "not connected to upstream".

Definition SendAsync (env : HttpEnv) (c : Client) : result string unit :=
  _ ← ready c; post env.

Section Client.

(** [json.Unmarshal] into a map. *)
Context (unmarshal : string -> result string jobject).

(** The key of a message, as [Send] and [handleEvent] compute it: [None] where it cannot
    be a map key. *)
Definition message_id (message : string) : result string (option idkey) :=
  m ← unmarshal message; Ok (id_key (id_member m)).

(** What [Send] does before the POST: an early error, a panic with the mutex held, or
    the key and the number of the new channel. *)
Inductive begin_result : Type :=
| BErr (e : string)
| BPanic
| BGo (key : idkey) (loc : nat).

Definition send_begin (message : string) (c : Client) : Client * begin_result :=
  match ready c with
  | Err e => (c, BErr e)
  | Ok _ =>
      match wrap_err "invalid JSON message" (message_id message) with
      | Err e => (c, BErr e)
      | Ok None => (lose_mutex c, BPanic)
      | Ok (Some key) =>
          let loc := length (chans c) in
          (set_pending (pset key loc (pending c)) (chans c ++ [None]) c, BGo key loc)
      end
  end.

(** The deferred [delete(c.pending, requestID)]. *)
Definition send_cleanup (key : idkey) (c : Client) : Client :=
  set_pending (pdel key (pending c)) (chans c) c.

(** A non-blocking send on a channel: dropped when the channel is full. *)
Definition offer (r : UpResponse) (loc : nat) (chs : list (option UpResponse))
    : list (option UpResponse) :=
  match chs !! loc with
  | Some None => <[loc := Some r]> chs
  | _ => chs
  end.

Definition deliver (key : idkey) (data : string) (c : Client) : Client :=
  match pget key (pending c) with
  | Some loc => set_pending (pending c) (offer (mkUpResponse data None) loc (chans c)) c
  | None => c
  end.

(** [handleEvent]; an identifier that is no map key panics the reader while it holds the
    read lock. *)
Definition handleEvent (event data : string) (c : Client) : Client * outcome unit :=
  if bool_decide (event = "endpoint") then
    (set_url (match data with
              | String "/" _ => trim_slash (URL (up_cfg c)) +:+ data
              | _ => data
              end) c, Ret tt)
  else if bool_decide (event = "message") then
    match message_id data with
    | Err _ => (c, Ret tt)
    | Ok None => (lose_mutex c, Panic "hash of unhashable type")
    | Ok (Some key) => (deliver key data c, Ret tt)
    end
  else (c, Ret tt).

(** The second critical section of [handleDisconnect]. *)
Definition disconnected : UpResponse := mkUpResponse "" (Some "upstream disconnected").

Definition fail_pending (c : Client) : Client :=
  set_pending [] (foldl (fun chs q => offer disconnected q.2 chs) (chans c) (pending c)) c.

(** ** Interleavings *)

(** Where a call of [Send] stands, with the message it was given. *)
Inductive sendpc : Type :=
| SStart (message : string)
| SPosting (message : string) (key : idkey) (loc : nat)
| SWaiting (message : string) (key : idkey) (loc : nat)
| SLeaving (message : string) (key : idkey) (loc : nat) (answer : option string * option string)
| SReturned (message : string) (answer : option string * option string)
| SCrashed.

(** Where the goroutine of [readEvents] stands: reading, between the two critical
    sections of [handleDisconnect], or gone. There is one reader at a time: a new
    connection is made after the reader of the last one has gone. *)
Inductive readpc : Type := RReading | RLost | RGone.

Record ustate : Type := mkUState {
  client : Client;
  senders : list sendpc;
  reader : readpc
}.

Definition with_client (c : Client) (s : ustate) : ustate :=
  {| client := c; senders := senders s; reader := reader s |}.

Definition with_sender (i : nat) (p : sendpc) (s : ustate) : ustate :=
  {| client := client s; senders := <[i := p]> (senders s); reader := reader s |}.

Definition with_reader (r : readpc) (s : ustate) : ustate :=
  {| client := client s; senders := senders s; reader := r |}.

Definition after_begin (message : string) (r : begin_result) : sendpc :=
  match r with
  | BErr e => SReturned message (None, Some e)
  | BPanic => SCrashed
  | BGo key loc => SPosting message key loc
  end.

Definition answer_of (r : UpResponse) : option string * option string :=
  match Up_Error r with Some e => (None, Some e) | None => (Some (Up_Data r), None) end.

(** How the wait of [Send] can end besides an answer. *)
Inductive wait_ends : string -> Prop :=
| wait_ctx : wait_ends "context canceled"
| wait_deadline : wait_ends "context deadline exceeded"
| wait_timeout : wait_ends "timeout waiting for upstream response".

Inductive ustep : ustate -> ustate -> Prop :=
| UBegin i msg s : senders s !! i = Some (SStart msg) ->
    (mutexLost (client s) = false \/ exists e, (send_begin msg (client s)).2 = BErr e) ->
    ustep s (let '(c, r) := send_begin msg (client s) in
             with_sender i (after_begin msg r) (with_client c s))
| UPostOk i msg key loc env s : senders s !! i = Some (SPosting msg key loc) -> post env = Ok tt ->
    ustep s (with_sender i (SWaiting msg key loc) s)
| UPostErr i msg key loc env e s : senders s !! i = Some (SPosting msg key loc) -> post env = Err e ->
    ustep s (with_sender i (SLeaving msg key loc (None, Some e)) s)
| UReceive i msg key loc r s : senders s !! i = Some (SWaiting msg key loc) ->
    chans (client s) !! loc = Some (Some r) ->
    ustep s (with_sender i (SLeaving msg key loc (answer_of r))
               (with_client (set_pending (pending (client s))
                               (<[loc := None]> (chans (client s))) (client s)) s))
| UGiveUp i msg key loc e s : senders s !! i = Some (SWaiting msg key loc) -> wait_ends e ->
    ustep s (with_sender i (SLeaving msg key loc (None, Some e)) s)
| ULeave i msg key loc a s : senders s !! i = Some (SLeaving msg key loc a) ->
    mutexLost (client s) = false ->
    ustep s (with_sender i (SReturned msg a)
               (with_client (send_cleanup key (client s)) s))
| UEvent event data s : reader s = RReading ->
    (mutexLost (client s) = false \/ event <> "message") ->
    (handleEvent event data (client s)).2 = Ret tt ->
    ustep s (with_client (handleEvent event data (client s)).1 s)
| ULost s : reader s = RReading ->
    ustep s (with_reader (if connected (client s) then RLost else RGone)
               (with_client (set_conn false (sseConn (client s)) (client s)) s))
| UFailPending s : reader s = RLost -> mutexLost (client s) = false ->
    ustep s (with_reader RGone (with_client (fail_pending (client s)) s))
| UConnect env s : reader s = RGone -> (Connect env (client s)).2 = Ok tt ->
    connected (client s) = false ->
    ustep s (with_reader RReading (with_client (Connect env (client s)).1 s))
| UDisconnect s : (Disconnect (client s)).2 = Ret tt ->
    ustep s (with_client (Disconnect (client s)).1 s)
| UReaderDone s : reader s = RReading -> doneClosed (client s) = true ->
    ustep s (with_reader RGone s)
| UNewSend msg s :
    ustep s {| client := client s; senders := senders s ++ [SStart msg]; reader := reader s |}.

Definition uinit (cfg : UpstreamConfig) : ustate :=
  {| client := NewClient cfg; senders := []; reader := RGone |}.

Definition ureachable (cfg : UpstreamConfig) : ustate -> Prop := rtc ustep (uinit cfg).

(** ** Invariant *)

(** An answer with data carries the identifier of the message that was sent. *)
Definition answer_ok (msg : string) (a : option string * option string) : Prop :=
  forall d, a.1 = Some d -> exists k, message_id msg = Ok (Some k) /\ message_id d = Ok (Some k).

Definition sender_ok (owner : list idkey) (p : sendpc) : Prop :=
  match p with
  | SStart _ | SCrashed => True
  | SPosting msg k l | SWaiting msg k l => owner !! l = Some k /\ message_id msg = Ok (Some k)
  | SLeaving msg k l a => (owner !! l = Some k /\ message_id msg = Ok (Some k)) /\ answer_ok msg a
  | SReturned msg a => answer_ok msg a
  end.

(** The call that a pending entry belongs to. *)
Definition serves (k : idkey) (l : nat) (p : sendpc) : Prop :=
  match p with
  | SPosting _ k' l' | SWaiting _ k' l' | SLeaving _ k' l' _ => k' = k /\ l' = l
  | _ => False
  end.

(** [owner] gives the key for which each channel was made. *)
Record uinv (owner : list idkey) (s : ustate) : Prop := {
  uinv_len : length owner = length (chans (client s));
  uinv_pending : forall k l, (k, l) ∈ pending (client s) -> owner !! l = Some k;
  uinv_chans : forall l r, chans (client s) !! l = Some (Some r) -> Up_Error r = None ->
    exists k, owner !! l = Some k /\ message_id (Up_Data r) = Ok (Some k);
  uinv_senders : forall i p, senders s !! i = Some p -> sender_ok owner p;
  uinv_live : forall k l, (k, l) ∈ pending (client s) ->
    exists i p, senders s !! i = Some p /\ serves k l p
}.

Lemma pget_elem k p l : pget k p = Some l -> (k, l) ∈ p.
Proof.
  induction p as [|[k' l'] p IH]; simpl; [done|]. case_decide as Hk.
  - intros [= ->]. subst. apply elem_of_cons. by left.
  - intros H. apply elem_of_cons. right. by apply IH.
Qed.

Lemma pdel_elem k p q : q ∈ pdel k p <-> q ∈ p /\ q.1 <> k.
Proof. unfold pdel. rewrite list_elem_of_filter. naive_solver. Qed.

Lemma offer_length r loc chs : length (offer r loc chs) = length chs.
Proof. unfold offer. repeat case_match; auto using length_insert. Qed.

Lemma offer_lookup r loc chs l r' :
  offer r loc chs !! l = Some (Some r') ->
  chs !! l = Some (Some r') \/ (l = loc /\ r' = r /\ chs !! l = Some None).
Proof.
  unfold offer. destruct (chs !! loc) as [[]|] eqn:E; [by left| |by left].
  intros [(-> & ? & _)|[? ?]]%list_lookup_insert_Some; [right|by left]. by simplify_eq.
Qed.

(** A step of one sender keeps the other entries served. *)
Lemma live_with_sender (ps : list sendpc) i p p' k l :
  ps !! i = Some p -> (serves k l p -> serves k l p') ->
  (exists j q, ps !! j = Some q /\ serves k l q) ->
  exists j q, <[i := p']> ps !! j = Some q /\ serves k l q.
Proof.
  intros Hi Hs (j & q & Hj & Hq). destruct (decide (i = j)) as [<-|Hne].
  - simplify_eq. exists i, p'. split; [|by apply Hs].
    apply list_lookup_insert_eq. by apply lookup_lt_Some in Hi.
  - exists j, q. by rewrite list_lookup_insert_ne.
Qed.

Lemma senders_insert owner (ps : list sendpc) i p' j q :
  (forall i p, ps !! i = Some p -> sender_ok owner p) -> sender_ok owner p' ->
  <[i := p']> ps !! j = Some q -> sender_ok owner q.
Proof. intros Hall Hp [(_ & <- & _)|[_ Hj]]%list_lookup_insert_Some; eauto. Qed.

(** A step of one sender that leaves the client alone. *)
Lemma uinv_sender owner s i p p' :
  uinv owner s -> senders s !! i = Some p -> sender_ok owner p' ->
  (forall k l, serves k l p -> serves k l p') -> uinv owner (with_sender i p' s).
Proof.
  intros [Hlen Hpen Hch Hsnd Hlive] Hi Hp Hs. split; simpl; auto.
  - intros j q. by apply senders_insert.
  - intros k l Hkl. eapply live_with_sender; eauto.
Qed.

(** A step of the client that only fills or empties channels. *)
Lemma uinv_client owner s c :
  uinv owner s -> pending c = pending (client s) -> length (chans c) = length (chans (client s)) ->
  (forall l r, chans c !! l = Some (Some r) -> Up_Error r = None ->
     exists k, owner !! l = Some k /\ message_id (Up_Data r) = Ok (Some k)) ->
  uinv owner (with_client c s).
Proof.
  intros [Hlen Hpen Hch Hsnd Hlive] Hp Hl Hc.
  split; simpl; rewrite ?Hp; auto. by rewrite Hl.
Qed.

Lemma sender_ok_grow owner k p : sender_ok owner p -> sender_ok (owner ++ [k]) p.
Proof.
  destruct p; simpl; try done; intros; split_and?; try naive_solver;
    apply lookup_app_l_Some; naive_solver.
Qed.

Lemma uinv_begin owner s i msg :
  uinv owner s -> senders s !! i = Some (SStart msg) ->
  exists owner', uinv owner'
    (let '(c, r) := send_begin msg (client s) in with_sender i (after_begin msg r) (with_client c s)).
Proof.
  intros Hinv Hi. unfold send_begin.
  destruct (ready (client s)) as [url|e].
  2: { exists owner. simpl. apply (uinv_sender owner _ i (SStart msg)); [|done|done|done].
       by apply uinv_client; [..|apply Hinv]. }
  destruct (message_id msg) as [[key|]|e] eqn:Hmsg; simpl.
  - exists (owner ++ [key]). destruct Hinv as [Hlen Hpen Hch Hsnd Hlive].
    assert (Hkey : (owner ++ [key]) !! length (chans (client s)) = Some key).
    { rewrite lookup_app_r by lia. rewrite Hlen, Nat.sub_diag. done. }
    split; simpl.
    + rewrite !length_app. simpl. lia.
    + intros k l [[= -> ->]|Hkl]%elem_of_cons; [done|].
      apply pdel_elem in Hkl as [Hkl _]. apply lookup_app_l_Some. by apply Hpen.
    + intros l r Hl Hr. apply lookup_app_Some in Hl as [Hl|[Hl1 Hl2]].
      * destruct (Hch l r Hl Hr) as (k & Hk & Hm). exists k. split; [|done].
        by apply lookup_app_l_Some.
      * by apply list_lookup_singleton_Some in Hl2 as [_ ?].
    + intros j q. apply senders_insert; [|done]. intros j' p Hj.
      apply sender_ok_grow. by apply (Hsnd j').
    + intros k l [[= -> ->]|Hkl]%elem_of_cons.
      * exists i, (SPosting msg key (length (chans (client s)))). split; [|done].
        apply list_lookup_insert_eq. by apply lookup_lt_Some in Hi.
      * apply pdel_elem in Hkl as [Hkl _].
        eapply live_with_sender; [exact Hi|done|by apply Hlive].
  - exists owner. apply (uinv_sender owner _ i (SStart msg)); [|done|done|done].
    by apply uinv_client; [..|apply Hinv].
  - exists owner. apply (uinv_sender owner _ i (SStart msg)); [|done|done|done].
    by apply uinv_client; [..|apply Hinv].
Qed.

Lemma uinv_receive owner s i msg key loc r :
  uinv owner s -> senders s !! i = Some (SWaiting msg key loc) ->
  chans (client s) !! loc = Some (Some r) ->
  uinv owner (with_sender i (SLeaving msg key loc (answer_of r))
    (with_client (set_pending (pending (client s)) (<[loc := None]> (chans (client s)))
                    (client s)) s)).
Proof.
  intros Hinv Hi Hr. pose proof Hinv as [Hlen Hpen Hch Hsnd Hlive].
  destruct (Hsnd i _ Hi) as [Ho Hmsg].
  apply (uinv_sender owner _ i (SWaiting msg key loc)); [|done| |done].
  - apply uinv_client; simpl; [done|done|by rewrite length_insert|].
    intros l r' [(_ & ? & _)|[_ Hl]]%list_lookup_insert_Some; [done|]. by apply Hch.
  - split; [done|]. intros d Hd. unfold answer_of in Hd.
    destruct (Up_Error r) eqn:He; [done|]. simpl in Hd. simplify_eq.
    destruct (Hch loc r Hr He) as (k & Hk & Hm). exists key. split; [done|congruence].
Qed.

Lemma uinv_leave owner s i msg key loc a :
  uinv owner s -> senders s !! i = Some (SLeaving msg key loc a) ->
  uinv owner (with_sender i (SReturned msg a)
    (with_client (send_cleanup key (client s)) s)).
Proof.
  intros [Hlen Hpen Hch Hsnd Hlive] Hi. split; simpl; auto.
  - intros k l [Hkl _]%pdel_elem. by apply Hpen.
  - intros j q. apply senders_insert; [done|]. apply (Hsnd i _ Hi).
  - intros k l [Hkl Hne]%pdel_elem. simpl in Hne.
    eapply live_with_sender; [exact Hi| |by apply Hlive]. simpl. naive_solver.
Qed.

Lemma uinv_event owner s event data :
  uinv owner s -> uinv owner (with_client (handleEvent event data (client s)).1 s).
Proof.
  intros Hinv. pose proof Hinv as [Hlen Hpen Hch Hsnd Hlive]. unfold handleEvent.
  case_bool_decide; [by apply uinv_client|].
  case_bool_decide; [|by apply uinv_client].
  destruct (message_id data) as [[key|]|e] eqn:Hid; [|by apply uinv_client..]. simpl.
  unfold deliver. destruct (pget key (pending (client s))) as [loc|] eqn:Hp;
    [|by apply uinv_client].
  apply uinv_client; simpl; [done|done|apply offer_length|].
  intros l r [Hl|(-> & -> & _)]%offer_lookup Hr; [by apply Hch|].
  exists key. split; [|done]. by apply Hpen, pget_elem.
Qed.

Lemma fail_chans_length l chs :
  length (foldl (fun chs q => offer disconnected (snd (A:=idkey) q) chs) chs l) = length chs.
Proof.
  revert chs. induction l as [|q l IH]; intros chs; [done|]. simpl. rewrite IH. apply offer_length.
Qed.

Lemma fail_chans_lookup l chs n r :
  foldl (fun chs q => offer disconnected (snd (A:=idkey) q) chs) chs l !! n = Some (Some r) ->
  chs !! n = Some (Some r) \/ r = disconnected.
Proof.
  revert chs. induction l as [|q l IH]; intros chs H; [by left|]. simpl in H.
  destruct (IH _ H) as [Ho|]; [|by right].
  apply offer_lookup in Ho as [?|(_ & ? & _)]; [by left|by right].
Qed.

Lemma uinv_fail owner s r :
  uinv owner s -> uinv owner (with_reader r (with_client (fail_pending (client s)) s)).
Proof.
  intros [Hlen Hpen Hch Hsnd Hlive]. split; simpl; auto.
  - by rewrite fail_chans_length.
  - intros k l H. by apply elem_of_nil in H.
  - intros l rs [Hl| ->]%fail_chans_lookup Hr; [by apply Hch|done].
  - intros k l H. by apply elem_of_nil in H.
Qed.

Lemma uinv_reader owner s r : uinv owner s -> uinv owner (with_reader r s).
Proof. by intros []. Qed.

Lemma Disconnect_frame c :
  pending (Disconnect c).1 = pending c /\ chans (Disconnect c).1 = chans c.
Proof. unfold Disconnect. by repeat case_match. Qed.

Lemma Connect_frame env c :
  pending (Connect env c).1 = pending c /\ chans (Connect env c).1 = chans c.
Proof. unfold Connect. by repeat case_match. Qed.

Lemma ustep_inv owner s s' : ustep s s' -> uinv owner s -> exists owner', uinv owner' s'.
Proof.
  intros Hst Hinv. destruct Hst.
  - by apply (uinv_begin owner).
  - exists owner. pose proof (uinv_senders _ _ Hinv _ _ H) as Hs.
    by apply (uinv_sender owner _ i (SPosting msg key loc)).
  - exists owner. pose proof (uinv_senders _ _ Hinv _ _ H) as Hs.
    by apply (uinv_sender owner _ i (SPosting msg key loc)).
  - exists owner. by apply uinv_receive.
  - exists owner. pose proof (uinv_senders _ _ Hinv _ _ H) as Hs.
    by apply (uinv_sender owner _ i (SWaiting msg key loc)).
  - exists owner. by apply (uinv_leave owner s i msg key loc).
  - exists owner. by apply uinv_event.
  - exists owner. by apply uinv_reader, uinv_client; [| | |apply Hinv].
  - exists owner. by apply uinv_fail.
  - exists owner. destruct (Connect_frame env (client s)) as [Hp Hc].
    apply uinv_reader, uinv_client; [done|done|by rewrite Hc|]. rewrite Hc. apply Hinv.
  - exists owner. destruct (Disconnect_frame (client s)) as [Hp Hc].
    apply uinv_client; [done|done|by rewrite Hc|]. rewrite Hc. apply Hinv.
  - exists owner. by apply uinv_reader.
  - exists owner. destruct Hinv as [Hlen Hpen Hch Hsnd Hlive]. split; simpl; auto.
    + intros i p [Hi|[_ Hi]]%lookup_app_Some; [by apply (Hsnd i)|].
      by apply list_lookup_singleton_Some in Hi as [_ <-].
    + intros k l Hkl. destruct (Hlive k l Hkl) as (i & p & Hi & Hs). exists i, p.
      split; [|done]. by apply lookup_app_l_Some.
Qed.

Lemma ureachable_inv cfg s : ureachable cfg s -> exists owner, uinv owner s.
Proof.
  intros Hr. assert (H0 : exists owner, uinv owner (uinit cfg)).
  { exists []. split; simpl; try done; intros k l H; by apply elem_of_nil in H. }
  unfold ureachable in Hr. revert H0. induction Hr as [|a b c Hab _ IH]; [done|].
  intros [owner Ho]. apply IH. by apply (ustep_inv owner a).
Qed.

(** The same identifier: two zeros are one number. *)
Definition same_id (v w : jvalue) : Prop :=
  match v, w with
  | JNull, JNull => True
  | JBool a, JBool b => a = b
  | JStr a, JStr b => a = b
  | JNum (S754_zero _), JNum (S754_zero _) => True
  | JNum f, JNum g => f = g
  | _, _ => False
  end.

Lemma id_key_same v w k : id_key v = Some k -> id_key w = Some k -> same_id v w.
Proof.
  destruct v as [|b|[]| | |], w as [|b'|[]| | |]; cbn; intros Hv Hw; by simplify_eq.
Qed.

(** ** Properties *)

(** C38: Under every interleaving of calls, events, lost connections and reconnections, a
    call of [Send] that returns data returns a JSON object whose [id] member is the one of the
    message it was called with: the same null, boolean, number or string. *)
Theorem response_matches_request (cfg : UpstreamConfig) (s : ustate) (i : nat)
    (message data : string) (err : option string)
    (Hr : ureachable cfg s) (Hi : senders s !! i = Some (SReturned message (Some data, err))) :
  exists req resp, unmarshal message = Ok req /\ unmarshal data = Ok resp /\
    same_id (default JNull (obj_get req "id")) (default JNull (obj_get resp "id")).
Proof.
  destruct (ureachable_inv cfg s Hr) as [owner [_ _ _ Hsnd _]].
  destruct (Hsnd i _ Hi data eq_refl) as (k & Hm & Hd). unfold message_id in Hm, Hd.
  destruct (unmarshal message) as [req|]; [|done]. destruct (unmarshal data) as [resp|]; [|done].
  cbn in Hm, Hd. injection Hm as Hm. injection Hd as Hd. exists req, resp. split; [done|]. split; [done|].
  by eapply id_key_same.
Qed.

(** C27: The table of pending requests does not leak: every entry belongs to a call that
    has not returned, so when all calls have returned (or panicked) the table is empty. *)
Theorem pending_no_leak (cfg : UpstreamConfig) (s : ustate) (Hr : ureachable cfg s)
    (Hq : forall i p, senders s !! i = Some p ->
       (exists m a, p = SReturned m a) \/ p = SCrashed \/ exists msg, p = SStart msg) :
  pending (client s) = [].
Proof.
  destruct (ureachable_inv cfg s Hr) as [owner [_ _ _ _ Hlive]].
  destruct (pending (client s)) as [|[k l] p] eqn:E; [done|]. exfalso.
  destruct (Hlive k l) as (i & q & Hi & Hs); [apply elem_of_cons; by left|].
  destruct (Hq i q Hi) as [(m & a & ->)|[->|(msg & ->)]]; done.
Qed.

(** A lost connection releases every waiting call: when the reader has handled the
    disconnection, each request that was pending finds an answer in its channel, an
    error unless a response had arrived before, and the table is empty. *)
Theorem lost_connection_releases (c : Client) (k : idkey) (l : nat)
    (Hp : (k, l) ∈ pending c) (Hl : l < length (chans c)) :
  pending (fail_pending c) = [] /\
  exists r, chans (fail_pending c) !! l = Some (Some r) /\
    (r = disconnected \/ chans c !! l = Some (Some r)).
Proof.
  split; [done|]. simpl. revert Hp Hl. generalize (chans c) as chs. generalize (pending c) as p.
  induction p as [|q p IH]; intros chs Hp Hl; [by apply elem_of_nil in Hp|]. simpl.
  assert (Hkeep : forall r chs, chs !! l = Some (Some r) ->
    foldl (fun chs q => offer disconnected (snd (A:=idkey) q) chs) chs p !! l = Some (Some r)).
  { clear. induction p as [|q p IH]; intros r chs H; [done|]. simpl. apply IH.
    unfold offer. destruct (chs !! q.2) as [[]|] eqn:E; [done| |done].
    rewrite list_lookup_insert_ne; [done|]. congruence. }
  apply elem_of_cons in Hp as [<-|Hp].
  - destruct (lookup_lt_is_Some_2 chs l Hl) as [[r|] Hr].
    + exists r. split; [|by right]. apply Hkeep. unfold offer. simpl. by rewrite Hr.
    + exists disconnected. split; [|by left]. apply Hkeep. unfold offer. simpl. rewrite Hr.
      by apply list_lookup_insert_eq.
  - destruct (IH (offer disconnected q.2 chs) Hp) as (r & Hr & Hc); [by rewrite offer_length|].
    exists r. split; [done|]. destruct Hc as [|Hc]; [by left|].
    apply offer_lookup in Hc as [?|(_ & ? & _)]; [by right|by left].
Qed.

(** A call that found the mutex lost: still at its start, or refused before it needed the
    mutex. *)
Definition stalled (msg : string) (p : sendpc) : Prop :=
  p = SStart msg \/ exists e, p = SReturned msg (None, Some e).

Lemma stalled_insert msg (ps : list sendpc) i j p :
  (exists q, ps !! j = Some q /\ stalled msg q) ->
  (forall q, ps !! i = Some q -> stalled msg q -> stalled msg p) ->
  exists q, <[i := p]> ps !! j = Some q /\ stalled msg q.
Proof.
  intros (q & Hj & Hq) Hp. destruct (decide (i = j)) as [<-|Hne].
  - exists p. split; [|by apply (Hp q)]. apply list_lookup_insert_eq. by apply lookup_lt_Some in Hj.
  - exists q. by rewrite list_lookup_insert_ne.
Qed.

Lemma send_begin_lost msg c : mutexLost c = true -> mutexLost (send_begin msg c).1 = true.
Proof. intros H. unfold send_begin. by repeat case_match. Qed.

Lemma ustep_stalled msg j s s' :
  ustep s s' -> mutexLost (client s) = true ->
  (exists q, senders s !! j = Some q /\ stalled msg q) ->
  mutexLost (client s') = true /\ exists q, senders s' !! j = Some q /\ stalled msg q.
Proof.
  intros Hst Hm Hj. destruct Hst as [i m s Hi Hc|i m k l env s Hi _|i m k l env e s Hi _
    |i m k l r s Hi _|i m k l e s Hi _|i m k l a s Hi Hl|ev d s _ _ _|s _|s _ Hl|env s _ _ _|s _|s _ _|m s].
  - pose proof (send_begin_lost m _ Hm) as Hm'.
    destruct Hc as [|[e He]]; [congruence|].
    destruct (send_begin m (client s)) as [c r]. simpl in *. subst r. split; [done|].
    apply stalled_insert; [done|]. intros q Hq [->|[e' ->]]; simplify_eq/=. right. by exists e.
  - split; [done|]. apply stalled_insert; [done|]. intros q Hq [->|[? ->]]; simpl in Hq; congruence.
  - split; [done|]. apply stalled_insert; [done|]. intros q Hq [->|[? ->]]; simpl in Hq; congruence.
  - split; [done|]. apply stalled_insert; [done|]. intros q Hq [->|[? ->]]; simpl in Hq; congruence.
  - split; [done|]. apply stalled_insert; [done|]. intros q Hq [->|[? ->]]; simpl in Hq; congruence.
  - congruence.
  - split; [|done]. simpl. unfold handleEvent, deliver. by repeat case_match.
  - done.
  - congruence.
  - split; [|done]. simpl. unfold Connect. by repeat case_match.
  - split; [|done]. simpl. unfold Disconnect. by repeat case_match.
  - done.
  - split; [done|]. destruct Hj as (q & Hj & Hq). exists q. split; [|done].
    by apply lookup_app_l_Some.
Qed.

(** One request with an array or object as its identifier stops the proxy: [Send]
    panics with the pending table locked, and from then on, whatever else happens, no
    call of [Send] that had not begun ever reaches the upstream server. *)
Theorem unhashable_id_stalls_client (message : string) (s s' : ustate) (url : string)
    (Hready : ready (client s) = Ok url) (Hid : message_id message = Ok None)
    (Hrun : rtc ustep (with_client (send_begin message (client s)).1 s) s') :
  (send_begin message (client s)).2 = BPanic /\
  forall j msg, senders s !! j = Some (SStart msg) ->
    exists q, senders s' !! j = Some q /\ stalled msg q.
Proof.
  unfold send_begin in *. rewrite Hready, Hid in *. simpl in *. split; [done|].
  intros j msg Hj.
  assert (H : forall a b, rtc ustep a b -> mutexLost (client a) = true ->
    (exists q, senders a !! j = Some q /\ stalled msg q) ->
    exists q, senders b !! j = Some q /\ stalled msg q).
  { induction 1 as [|a b c Hab _ IH]; [done|]. intros Hm Hq.
    destruct (ustep_stalled msg j a b Hab Hm Hq) as [Hm' Hq']. by apply IH. }
  apply (H _ _ Hrun); [done|]. exists (SStart msg). split; [done|by left].
Qed.

(** A client that was disconnected cannot be disconnected again after reconnecting:
    the second [Disconnect] closes a closed channel and panics. *)
Theorem second_disconnect_panics (env : HttpEnv) (c : Client)
    (Hc : connected c = false) (Hd : doneClosed c = false)
    (Hreq : NewReq env = None) (Hdo : Do env = Ok 200%Z) :
  let c1 := (Disconnect (Connect env c).1).1 in
  (Disconnect (Connect env c).1).2 = Ret tt /\
  (Connect env c1).2 = Ok tt /\
  (Disconnect (Connect env c1).1).2 = Panic "close of closed channel".
Proof.
  unfold Connect, Disconnect. rewrite Hc, Hreq, Hdo. simpl. rewrite Hd. done.
Qed.

End Client.

(** ** Concrete runs *)

(** Messages whose identifier is their second character; an array for a bracket. *)
Definition sample_unmarshal (s : string) : result string jobject :=
  match s with
  | String _ (String "[" _) => Ok [("id", JArr [])]
  | String _ (String a _) => Ok [("id", JStr (String a ""))]
  | _ => Err "unexpected end of JSON input"
  end.

Definition up_config : UpstreamConfig := applyUpstreamDefaults (Upstream zero_Config).

Definition http_ok : HttpEnv := mkHttpEnv None (Ok 200%Z).

(** A connected client that knows where to post. *)
Definition live_client : Client :=
  set_url "http://up/message" (Connect http_ok (NewClient up_config)).1.

(** Two calls with the identifier ["1"], both posted before the first answer arrives. *)
Definition clash_state : ustate :=
  {| client := set_pending [(KStr "1", 1)] [None; None] live_client;
     senders := [SWaiting "q1" (KStr "1") 0; SWaiting "r1" (KStr "1") 1]; reader := RReading |}.

Definition clash_end : ustate :=
  {| client := set_pending [] [None; None] live_client;
     senders := [SReturned "q1" (None, Some "timeout waiting for upstream response");
                 SReturned "r1" (Some "a1", None)]; reader := RReading |}.

Lemma clash_reachable : ureachable sample_unmarshal up_config clash_state.
Proof.
  unfold ureachable.
  eapply rtc_l; [by apply (UConnect _ http_ok)|].
  eapply rtc_l; [apply (UEvent _ "endpoint" "http://up/message"); [done|by right|done]|].
  eapply rtc_l; [apply (UNewSend _ "q1")|]. eapply rtc_l; [apply (UNewSend _ "r1")|].
  eapply rtc_l; [apply (UBegin _ 0 "q1"); [done|by left]|].
  eapply rtc_l; [apply (UBegin _ 1 "r1"); [done|by left]|].
  eapply rtc_l; [by apply (UPostOk _ 0 "q1" (KStr "1") 0 http_ok)|].
  eapply rtc_l; [by apply (UPostOk _ 1 "r1" (KStr "1") 1 http_ok)|]. apply rtc_refl.
Qed.

Lemma clash_run : rtc (ustep sample_unmarshal) clash_state clash_end.
Proof.
  eapply rtc_l; [apply (UEvent _ "message" "a1"); [done|by left|done]|].
  eapply rtc_l; [by apply (UReceive _ 1 "r1" (KStr "1") 1 (mkUpResponse "a1" None))|].
  eapply rtc_l; [apply (ULeave _ 1 "r1" (KStr "1") 1 (Some "a1", None)); done|].
  eapply rtc_l; [apply (UGiveUp _ 0 "q1" (KStr "1") 0 "timeout waiting for upstream response");
    [done|constructor]|].
  eapply rtc_l; [apply (ULeave _ 0 "q1" (KStr "1") 0
    (None, Some "timeout waiting for upstream response")); done|]. apply rtc_refl.
Qed.

(** Identifiers of different clients clash: two sessions that use the same JSON-RPC
    identifier share one entry, so the answer to the first request is handed to the
    second caller and the first one times out. *)
Theorem id_clash_misdelivers :
  ureachable sample_unmarshal up_config clash_state /\
  rtc (ustep sample_unmarshal) clash_state clash_end /\
  senders clash_end !! 1 = Some (SReturned "r1" (Some "a1", None)).
Proof.
  split; [exact clash_reachable|]. split; [exact clash_run|done].
Qed.

(** An event whose data spans several lines keeps the last line only, where the event
    stream format joins them. *)
Theorem multiline_data_truncated :
  read_lines ("", "") ["event: message"; "data: {"; "data: }"; ""] = [("message", "}")].
Proof. vm_compute. reflexivity. Qed.

(** ** Witnesses *)

Lemma clash_end_reachable : ureachable sample_unmarshal up_config clash_end.
Proof.
  unfold ureachable. etrans; [exact clash_reachable|exact clash_run].
Qed.

Lemma response_matches_request_witness :
  exists req resp, sample_unmarshal "r1" = Ok req /\ sample_unmarshal "a1" = Ok resp /\
    same_id (default JNull (obj_get req "id")) (default JNull (obj_get resp "id")).
Proof.
  apply (response_matches_request sample_unmarshal up_config clash_end 1 "r1" "a1"
    None clash_end_reachable). reflexivity.
Defined.

Lemma pending_no_leak_witness : pending (client clash_end) = [].
Proof.
  apply (pending_no_leak sample_unmarshal up_config clash_end clash_end_reachable).
  intros [|[|i]] p H; simpl in H; [left|left|discriminate H]; injection H as <-; eauto.
Defined.

Lemma lost_connection_releases_witness :
  exists r, chans (fail_pending (client clash_state)) !! 1 = Some (Some r).
Proof.
  destruct (lost_connection_releases (client clash_state) (KStr "1") 1)
    as [_ (r & Hr & _)]; [left|simpl; lia|]. exists r. exact Hr.
Defined.

Lemma unhashable_id_stalls_client_witness :
  exists q, senders clash_state !! 0 = Some q /\
  (send_begin sample_unmarshal "x[" (client clash_state)).2 = BPanic.
Proof.
  eexists. split; [reflexivity|].
  apply (unhashable_id_stalls_client sample_unmarshal "x[" clash_state
    (with_client (send_begin sample_unmarshal "x[" (client clash_state)).1 clash_state)
    "http://up/message"); [reflexivity|reflexivity|apply rtc_refl].
Defined.

Lemma second_disconnect_panics_witness :
  let c1 := (Disconnect (Connect http_ok (NewClient up_config)).1).1 in
  (Disconnect (Connect http_ok c1).1).2 = Panic "close of closed channel".
Proof.
  apply (second_disconnect_panics http_ok (NewClient up_config)); reflexivity.
Defined.
