(* ===== verification/Transport.v ===== *)
(** * The interface of the transports

    Models src/internal/transport/transport.go: the callback that processes messages and the
    interface that the application uses of a transport, as a class with the laws that the
    application's life cycle relies on. [Sse] and [Stdio] are its instances. *)

From Stdlib Require Import ZArith Lia Ascii.
From stdpp Require Import base list strings numbers.
From S2P Require Import Prelude Json GoText Session.

(** Go's [([]byte, error)]. *)
Definition handler_reply : Type := option string * option string.

(** [MessageHandler]: what it does to the rest of the application is the state [S]. *)
Definition MessageHandler (S : Type) : Type :=
  Session -> string -> S -> S * outcome handler_reply.

(** [Transport]; [T] is the transport with the state it reaches, [E] what a call meets
    (answers of the network, of the session manager and of waiting). *)
Class Transport (S T E : Type) : Type := {
  t_Start : E -> T -> T * result string unit;
  t_Stop : E -> T -> outcome (T * result string unit);
  t_Name : T -> string;
  t_SetMessageHandler : MessageHandler S -> T -> T;
  t_started : T -> bool
}.
#[global] Hint Mode Transport - ! - : typeclass_instances.

(** What every transport promises about its life cycle. *)
Class TransportLaws (S T E : Type) `{!Transport S T E} : Prop := {
  start_twice (e : E) (t : T) :
    t_started t = true -> t_Start e t = (t, Err "server already started");
  start_marks (e : E) (t : T) : t_started (t_Start e t).1 = true;
  stop_idle (e : E) (t : T) : t_started t = false -> t_Stop e t = Ret (t, Ok tt);
  stop_marks (e : E) (t t' : T) (r : result string unit) :
    t_Stop e t = Ret (t', r) -> t_started t' = false;
  handler_keeps (f : MessageHandler S) (t : T) :
    t_started (t_SetMessageHandler f t) = t_started t
}.

Section Lifecycle.

Context {S T E : Type} `{TL : TransportLaws S T E}.

(** Starting twice is an error the second time, stopping twice is harmless. *)
Lemma lifecycle_once (e1 e2 e3 e4 : E) (t t' : T) (r : result string unit) :
  t_Stop e3 (t_Start e2 (t_Start e1 t).1).1 = Ret (t', r) ->
  t_Start e2 (t_Start e1 t).1 = ((t_Start e1 t).1, Err "server already started")
  /\ t_Stop e4 t' = Ret (t', Ok tt).
Proof.
  intros Hstop. split.
  - apply start_twice, start_marks.
  - apply stop_idle. by eapply stop_marks.
Qed.

End Lifecycle.

(** ** Error objects *)

(** The object both transports answer errors with, as [encoding/json] writes it: members in
    key order. *)
Definition error_json (id : string) (code : Z) (message : string) : string :=
  "{" +:+ dq +:+ "error" +:+ dq +:+ ":{" +:+ dq +:+ "code" +:+ dq +:+ ":" +:+ itoa code
  +:+ "," +:+ dq +:+ "message" +:+ dq +:+ ":" +:+ dq +:+ message +:+ dq +:+ "},"
  +:+ dq +:+ "id" +:+ dq +:+ ":" +:+ id +:+ "," +:+ dq +:+ "jsonrpc" +:+ dq +:+ ":"
  +:+ dq +:+ "2.0" +:+ dq +:+ "}".
