(* ===== verification/Sse.v ===== *)
(** * The SSE transport

    Models src/internal/transport/sse/handler.go and server.go: headers, the stream handler with its event loop,
    the message endpoint, event framing, and the life cycle of the server. The response
    writer, with the part of net/http that the code relies on (headers are fixed by the
    first write, [ServeMux] patterns), is a record; reading the request and [json.Valid]
    are arguments. *)

From Stdlib Require Import ZArith Lia Ascii.
From stdpp Require Import base list gmap sets strings numbers relations.
From S2P Require Import Prelude Json GoText Session Config Upstream Transport.

(** ** Responses *)

(** [header] is the map the handler fills, [sent] the status and headers of the response
    once they are on the wire, [statusCode] what the logging wrapper recorded. *)
Record ResponseWriter : Type := mkRW {
  header : list (string * string);
  sent : option (Z * list (string * string));
  rbody : string;
  statusCode : Z
}.

(** A fresh writer, wrapped by [requestLogger]. *)
Definition newWriter : ResponseWriter :=
  {| header := []; sent := None; rbody := ""; statusCode := 200 |}.

Definition set_header (k v : string) (w : ResponseWriter) : ResponseWriter :=
  {| header := obj_set (header w) k v; sent := sent w; rbody := rbody w;
     statusCode := statusCode w |}.

(** [responseWriter.WriteHeader]: a second call is recorded but has no effect on the
    response. *)
Definition WriteHeader (code : Z) (w : ResponseWriter) : ResponseWriter :=
  {| header := header w;
     sent := match sent w with None => Some (code, header w) | s => s end;
     rbody := rbody w; statusCode := code |}.

(** [Write]: an implicit [WriteHeader(200)] of the wrapped writer. *)
Definition write (s : string) (w : ResponseWriter) : ResponseWriter :=
  {| header := header w;
     sent := match sent w with None => Some (200%Z, header w) | s => s end;
     rbody := rbody w +:+ s; statusCode := statusCode w |}.

(** [http.Error]. *)
Definition http_Error (msg : string) (code : Z) (w : ResponseWriter) : ResponseWriter :=
  write (msg +:+ nl)
    (WriteHeader code
       (set_header "X-Content-Type-Options" "nosniff"
          (set_header "Content-Type" "text/plain; charset=utf-8" w))).

(** ** The handler *)

Section Handler.

Context {S : Type}.

Record Handler : Type := mkHandler {
  agentCfg : AgentConfig;
  securityCfg : SecurityConfig;
  messageHandler : option (MessageHandler S)
}.

Definition NewHandler (agent : AgentConfig) : Handler :=
  {| agentCfg := agent;
     securityCfg := mkSecurity (Some []) true;
     messageHandler := None |}.

Definition NewHandlerWithSecurity (agent : AgentConfig) (sec : SecurityConfig) : Handler :=
  {| agentCfg := agent; securityCfg := sec; messageHandler := None |}.

Definition SetMessageHandler (f : MessageHandler S) (h : Handler) : Handler :=
  {| agentCfg := agentCfg h; securityCfg := securityCfg h; messageHandler := Some f |}.

Definition setSecurityHeaders (h : Handler) (w : ResponseWriter) : ResponseWriter :=
  if negb (EnableSecurityHeaders (securityCfg h)) then w
  else
    set_header "Permissions-Policy" "geolocation=(), microphone=(), camera=()"
      (set_header "Referrer-Policy" "strict-origin-when-cross-origin"
         (set_header "X-Frame-Options" "DENY"
            (set_header "X-Content-Type-Options" "nosniff" w))).

(** [strings.EqualFold], on the folding of runes beyond ASCII that Unicode gives. *)
Context (fold_table : N -> N).

Definition fold_rune (x : list ascii + ascii) : N :=
  match x with
  | inl l =>
      let r := decode_rune l in
      if (r <? 128)%N then (if (65 <=? r) && (r <=? 90) then r + 32 else r)%N else fold_table r
  | inr _ => 65533%N
  end.

Definition EqualFold (s t : string) : bool :=
  bool_decide (map fold_rune (runes s) = map fold_rune (runes t)).

Definition setCORSHeaders (h : Handler) (origin : string) (w : ResponseWriter) : ResponseWriter :=
  let allowed := elems (CORSAllowedOrigins (securityCfg h)) in
  if bool_decide ("*" ∈ allowed) then set_header "Access-Control-Allow-Origin" "*" w
  else if existsb (EqualFold origin) allowed then
    set_header "Vary" "Origin" (set_header "Access-Control-Allow-Origin" origin w)
  else w.

(** The text of an event, and [sendEvent]. *)
Definition event_text (event data : string) : string :=
  (if bool_decide (event <> "") then "event: " +:+ event +:+ nl else "")
  +:+ (if bool_decide (data <> "") then "data: " +:+ data +:+ nl else "")
  +:+ nl.

Definition sendEvent (event data : string) (w : ResponseWriter) : ResponseWriter :=
  write (event_text event data) w.

Definition sendError (h : Handler) (httpStatus code : Z) (message : string)
    (w : ResponseWriter) : ResponseWriter :=
  write (error_json "null" code message +:+ nl)
    (WriteHeader httpStatus
       (set_header "Content-Type" "application/json" (setSecurityHeaders h w))).

(** ** The stream (GET /) *)

(** What a stream request brings: a writer that can flush, its origin and address. *)
Record StreamRequest : Type := mkStreamRequest {
  flusher : bool;
  origin : string;
  remoteAddr : string;
  userAgent : string
}.

Definition message_url (id : string) : string := "/message?sessionId=" +:+ id.

(** [HandleSSE] up to its loop: the session it serves, or [None] when it returned. *)
Definition open_stream (h : Handler) (r : StreamRequest) (uid : string) (t1 t2 : Time)
    (world : World) (w : ResponseWriter) : World * ResponseWriter * option nat :=
  if negb (flusher r) then (world, http_Error "Streaming not supported" 500 w, None)
  else
    match Create uid t1 t2 world with
    | (world, Err _) => (world, http_Error "Failed to create session" 503 w, None)
    | (world, Ok l) =>
        let world := update (SetAgent (AgentCfg_ID (agentCfg h)) (AgentCfg_Name (agentCfg h))
                               (AgentCfg_Capabilities (agentCfg h))) l world in
        let world := update (SetClientInfo (remoteAddr r) (userAgent r)) l world in
        let w := set_header "Content-Type" "text/event-stream" w in
        let w := set_header "Cache-Control" "no-cache, no-store, must-revalidate" w in
        let w := set_header "Connection" "keep-alive" w in
        let w := set_header "X-Accel-Buffering" "no" w in
        let w := setCORSHeaders h (origin r) (setSecurityHeaders h w) in
        (world, sendEvent "endpoint" (message_url ("sess_" +:+ uid)) w, Some l)
    end.

(** The cases of the loop's [select]. *)
Inductive stream_case : Type :=
| ClientGone
| SessionDone
| GotMessage
| Heartbeat.

(** One round of the loop for session [l]: [None] if the case is not ready; the flag says
    that the handler returns. *)
Definition stream_round (c : stream_case) (l : nat) (world : World) (w : ResponseWriter)
    : option (World * ResponseWriter * bool) :=
  match deref world l with
  | None => None
  | Some s =>
      match c with
      | ClientGone => Some (Delete (ID s) world, w, true)
      | SessionDone => if IsClosed s then Some (world, w, true) else None
      | GotMessage =>
          match MessageChan s with
          | [] => None
          | msg :: q => Some (update (set_chan q) l world, sendEvent "message" msg w, false)
          end
      | Heartbeat => Some (world, sendEvent "ping" "" w, false)
      end
  end.

(** ** The message endpoint (POST /message) *)

(** What a message request brings: its query parameter, its body or the error of reading
    it, the clock, and the choice of [SendMessage]'s [select]. *)
Record MessageRequest : Type := mkMessageRequest {
  sessionId : string;
  reqBody : result string string;
  reqNow : Time;
  pickSend : bool
}.

(** [io.LimitReader(r.Body, 1*1024*1024)]. *)
Definition body_limit : Z := 1048576.
Definition limit_body (s : string) : string := String.substring 0 (Z.to_nat body_limit) s.

Context (json_valid : string -> bool).

Definition run_handler (h : Handler) (sess : Session) (body : string) (st : S)
    : S * outcome handler_reply :=
  match messageHandler h with
  | Some f => f sess body st
  | None => (st, Ret (Some body, None))
  end.

(** Everything after the message was found to be JSON. *)
Definition process_message (h : Handler) (r : MessageRequest) (l : nat) (body : string)
    (world : World) (st : S) (w : ResponseWriter) : World * S * outcome ResponseWriter :=
  let world := update (fun s => (incrementRequestCount (reqNow r) s).1) l world in
  match deref world l with
  | None => (world, st, Ret w)
  | Some sess =>
      let '(st, res) := run_handler h sess body st in
      match res with
      | Panic msg => (world, st, Panic msg)
      | Ret (_, Some _) =>
          (world, st, Ret (sendError h 500 (-32603) "Internal server error" w))
      | Ret (Some response, None) =>
          (update (fun s => (SendMessage (pickSend r) response s).1) l world, st,
           Ret (WriteHeader 202 w))
      | Ret (None, None) => (world, st, Ret (WriteHeader 202 w))
      end
  end.

Definition HandleMessage (h : Handler) (r : MessageRequest) (world : World) (st : S)
    (w : ResponseWriter) : World * S * outcome ResponseWriter :=
  if bool_decide (sessionId r = "") then
    (world, st, Ret (sendError h 400 (-32600) "Missing sessionId parameter" w))
  else
    match Get (sessionId r) world with
    | (world, None) =>
        (world, st, Ret (sendError h 404 (-32600) "Session not found or expired" w))
    | (world, Some l) =>
        match reqBody r with
        | Err _ => (world, st, Ret (sendError h 400 (-32700) "Failed to read request body" w))
        | Ok full =>
            let body := limit_body full in
            if negb (json_valid body) then
              (world, st, Ret (sendError h 400 (-32700) "Invalid JSON" w))
            else process_message h r l body world st w
        end
    end.

End Handler.

(** ** The server *)

(** Which handler the patterns [GET /] and [POST /message] choose: a pattern with GET also
    serves HEAD, and the path / matches every path. *)
Inductive endpoint : Type := StreamEndpoint | MessageEndpoint | MethodNotAllowed.

Definition mux (method path : string) : endpoint :=
  if bool_decide (method = "GET") || bool_decide (method = "HEAD") then StreamEndpoint
  else if bool_decide (method = "POST") && bool_decide (path = "/message") then MessageEndpoint
  else MethodNotAllowed.

Record Server {S : Type} : Type := mkServerState {
  srv_cfg : ServerConfig;
  srv_handler : Handler (S := S);
  started : bool;
  srv_done : bool;
  httpServer : bool
}.
Arguments Server : clear implicits.

(** [NewServer] makes the handler without the server's security settings. *)
Definition NewServer {S} (cfg : ServerConfig) (agent : AgentConfig) : Server S :=
  {| srv_cfg := cfg; srv_handler := NewHandler agent; started := false; srv_done := false;
     httpServer := false |}.

Definition set_lifecycle {S} (st dn http : bool) (s : Server S) : Server S :=
  {| srv_cfg := srv_cfg s; srv_handler := srv_handler s; started := st; srv_done := dn;
     httpServer := http |}.

Definition listen_addr (cfg : ServerConfig) : string :=
  Listen_Address (Listen cfg) +:+ ":" +:+ itoa (Listen_Port (Listen cfg)).

(** [Start]; [listen] is the answer of [net.Listen]. *)
Definition ServerStart {S} (listen : result string unit) (s : Server S)
    : Server S * result string unit :=
  if started s then (s, Err "server already started")
  else
    (set_lifecycle true (srv_done s) true s,
     match listen with
     | Ok _ => Ok tt
     | Err e => Err ("failed to listen on " +:+ listen_addr (srv_cfg s) +:+ ": " +:+ e)
     end).

(** [Stop]; [shutdown] is the answer of [http.Server.Shutdown]. *)
Definition ServerStop {S} (shutdown : result string unit) (s : Server S)
    : outcome (Server S * result string unit) :=
  if negb (started s) then Ret (s, Ok tt)
  else if srv_done s then Panic "close of closed channel"
  else
    Ret (set_lifecycle false true (httpServer s) s,
         if httpServer s then wrap_err "server shutdown error" shutdown else Ok tt).

Definition ServerName : string := "sse".

Definition ServerSetMessageHandler {S} (f : MessageHandler S) (s : Server S) : Server S :=
  {| srv_cfg := srv_cfg s; srv_handler := SetMessageHandler f (srv_handler s);
     started := started s; srv_done := srv_done s; httpServer := httpServer s |}.

(** The SSE server as a transport; a call meets the answers of [net.Listen] and of
    [Shutdown]. *)
#[export] Instance sse_transport {S} :
    Transport S (Server S) (result string unit * result string unit) := {|
  t_Start e := ServerStart e.1;
  t_Stop e := ServerStop e.2;
  t_Name _ := ServerName;
  t_SetMessageHandler := ServerSetMessageHandler;
  t_started := started
|}.

#[export] Instance sse_laws {S} :
    TransportLaws S (Server S) (result string unit * result string unit).
Proof.
  split; cbn.
  - intros [l sh] s Hs. unfold ServerStart. by rewrite Hs.
  - intros [l sh] s. unfold ServerStart. by destruct (started s) eqn:Hs.
  - intros [l sh] s Hs. unfold ServerStop. by rewrite Hs.
  - intros [l sh] s s' r. unfold ServerStop. destruct (started s) eqn:Hs; cbn [negb].
    + destruct (srv_done s); [done|]. by intros [= <- _].
    + by intros [= <- _].
  - done.
Qed.

(** ** The stream as its reader sees it *)

(** A text that takes one line and has no white space at its ends. *)
Definition line_text (s : string) : Prop := no_newline s /\ edged (bytes_of s).

Definition ok_event (e : string * string) : Prop :=
  line_text e.1 /\ (e.2 = "" \/ line_text e.2).

Definition stream_text (evs : list (string * string)) : string :=
  foldr (fun e t => event_text e.1 e.2 +:+ t) "" evs.

Lemma line_text_nonempty s : line_text s -> s <> "".
Proof. intros [_ (a & b & k & k' & H & _)] ->. done. Qed.

Lemma read_event_line st e :
  edged (bytes_of e) -> read_line st ("event: " +:+ e) = ((e, st.2), None).
Proof.
  intros He. unfold read_line.
  rewrite TrimSpace_id by (apply edged_label; [by eexists _, _|done]).
  rewrite bool_decide_eq_false_2 by done.
  change ("event: " +:+ e) with ("event:" +:+ (" " +:+ e)). rewrite strip_prefix_app.
  by rewrite (TrimSpace_pad 1).
Qed.

Lemma read_data_line st d :
  edged (bytes_of d) -> read_line st ("data: " +:+ d) = ((st.1, d), None).
Proof.
  intros Hd. unfold read_line.
  rewrite TrimSpace_id by (apply edged_label; [by eexists _, _|done]).
  rewrite bool_decide_eq_false_2 by done.
  assert (strip_prefix "event:" ("data: " +:+ d) = None) as -> by done.
  change ("data: " +:+ d) with ("data:" +:+ (" " +:+ d)). rewrite strip_prefix_app.
  by rewrite (TrimSpace_pad 1).
Qed.

Lemma no_newline_label pre s :
  bool_decide (ascii_of_N 10 ∉ bytes_of pre) = true -> no_newline s -> no_newline (pre +:+ s).
Proof. intros H. apply no_newline_app. by apply bool_decide_eq_true in H. Qed.

Lemma read_event e d t :
  ok_event (e, d) ->
  read_lines ("", "") (split_char (ascii_of_N 10) (event_text e d +:+ t))
  = (e, d) :: read_lines ("", "") (split_char (ascii_of_N 10) t).
Proof.
  intros [[He He'] Hd]. cbn [fst snd] in *. unfold event_text.
  rewrite bool_decide_eq_true_2 by (by apply line_text_nonempty).
  assert (e <> "") as Hne by (by apply line_text_nonempty).
  rewrite !str_app_assoc, <- (str_app_assoc "event: "), split_line by (by apply no_newline_label).
  cbn [read_lines]. rewrite read_event_line by done. cbn [snd].
  assert (forall st, st <> ("", "") -> read_lines st (split_char (ascii_of_N 10) (nl +:+ t))
    = st :: read_lines ("", "") (split_char (ascii_of_N 10) t)) as Hend.
  { intros st Hst. rewrite <- (str_app_nil_l (nl +:+ t)), split_line by (by apply not_elem_of_nil).
    cbn [read_lines]. unfold read_line. rewrite (bool_decide_eq_true_2 (TrimSpace "" = "")) by done.
    by rewrite bool_decide_eq_false_2. }
  destruct Hd as [->|[Hd Hd']].
  - rewrite (bool_decide_eq_false_2 ("" <> "")) by naive_solver. rewrite str_app_nil_l.
    apply Hend. naive_solver.
  - rewrite bool_decide_eq_true_2 by (by apply line_text_nonempty).
    rewrite !str_app_assoc, <- (str_app_assoc "data: "), split_line by (by apply no_newline_label).
    cbn [read_lines]. rewrite read_data_line by done. cbn [fst]. apply Hend. naive_solver.
Qed.

Lemma read_stream evs :
  Forall ok_event evs ->
  read_lines ("", "") (split_char (ascii_of_N 10) (stream_text evs)) = evs.
Proof.
  induction 1 as [|[e d] evs He _ IH]; [done|].
  change (stream_text ((e, d) :: evs)) with (event_text e d +:+ stream_text evs).
  by rewrite read_event, IH.
Qed.

(** ** A stream and the session it serves *)

(** The stream of session [l]: the world, the response, and the responses that
    [SendMessage] accepted for it. *)
Record stream : Type := mkStream {
  st_world : World;
  st_rw : ResponseWriter;
  st_accepted : list string
}.

(** What other goroutines do to the sessions meanwhile, apart from the queue of [l]. *)
Inductive quiet (l : nat) : World -> World -> Prop :=
| q_create uid t1 t2 w : quiet l w (Create uid t1 t2 w).1
| q_get id w : quiet l w (Get id w).1
| q_delete id w : quiet l w (Delete id w)
| q_cleanup clock order w : quiet l w (cleanup clock order w)
| q_close l' w : quiet l w (update Close l' w)
| q_incr now l' w : quiet l w (update (fun s => (incrementRequestCount now s).1) l' w)
| q_set_agent a n c l' w : quiet l w (update (SetAgent a n c) l' w)
| q_set_identity v d l' w : quiet l w (update (SetIdentity v d) l' w)
| q_set_client i u l' w : quiet l w (update (SetClientInfo i u) l' w)
| q_send pick msg l' w : l' <> l -> quiet l w (update (fun s => (SendMessage pick msg s).1) l' w)
| q_receive l' w : l' <> l -> quiet l w (update (fun s => set_chan (tail (MessageChan s)) s) l' w).

(** The loop's rounds, the responses of message requests, and the rest. *)
Inductive stream_step (l : nat) : stream -> stream -> Prop :=
| s_round c s world rw fin :
    stream_round c l (st_world s) (st_rw s) = Some (world, rw, fin) ->
    stream_step l s (mkStream world rw (st_accepted s))
| s_send pick msg s sess :
    deref (st_world s) l = Some sess ->
    stream_step l s
      (mkStream (update (fun x => (SendMessage pick msg x).1) l (st_world s)) (st_rw s)
         (if (SendMessage pick msg sess).2 then st_accepted s ++ [msg] else st_accepted s))
| s_quiet s world : quiet l (st_world s) world ->
    stream_step l s (mkStream world (st_rw s) (st_accepted s)).

(** The queue of a session. *)
Definition queue (w : World) (l : nat) : option (list string) := MessageChan <$> deref w l.

Lemma queue_update f l l' w :
  (l' = l -> forall s, MessageChan (f s) = MessageChan s) ->
  queue (update f l' w) l = queue w l.
Proof.
  intros Hf. unfold queue, deref, update. cbn [heap].
  destruct (decide (l' = l)) as [->|Hne]; [|by rewrite list_lookup_alter_ne].
  rewrite list_lookup_alter_eq. destruct (heap w !! l) as [s|]; [|done]. cbn. by rewrite Hf.
Qed.

Lemma queue_heap w w' l : heap w = heap w' -> queue w l = queue w' l.
Proof. unfold queue, deref. by intros ->. Qed.

Lemma queue_Delete id l w : queue (Delete id w) l = queue w l.
Proof.
  unfold Delete. destruct (sessions (mgr w) !! id) as [l'|]; [|done].
  rewrite queue_update by (intros; apply Close_chan). by apply queue_heap.
Qed.

Lemma queue_cleanup clock order l w : queue (cleanup clock order w) l = queue w l.
Proof.
  unfold cleanup. revert w. induction order as [|k order IH]; intros w; [done|].
  cbn [foldl]. rewrite IH. unfold cleanup_visit. repeat case_match; try done;
    first [by apply queue_heap
          |etransitivity; [by apply queue_heap|]; apply queue_update; intros; apply Close_chan].
Qed.

Lemma queue_Create uid t1 t2 l w q :
  queue w l = Some q -> queue (Create uid t1 t2 w).1 l = Some q.
Proof.
  unfold Create. destruct (_ >=? _)%Z; [done|]. unfold queue, deref. cbn [fst heap].
  destruct (heap w !! l) as [s|] eqn:Hl; [|done]. by rewrite (lookup_app_l_Some _ _ _ _ Hl).
Qed.

Lemma queue_Get id l w : queue (Get id w).1 l = queue w l.
Proof. unfold Get. repeat case_match; try done. apply queue_Delete. Qed.

Lemma queue_quiet l w w' q : quiet l w w' -> queue w l = Some q -> queue w' l = Some q.
Proof.
  intros Hq Hw. destruct Hq; try (rewrite <- Hw; apply queue_update; by intros).
  - by apply queue_Create.
  - by rewrite queue_Get.
  - by rewrite queue_Delete.
  - by rewrite queue_cleanup.
  - rewrite <- Hw. apply queue_update. intros. apply Close_chan.
Qed.

(** The message events among the events of a stream. *)
Definition messages (evs : list (string * string)) : list string :=
  omap (fun e => if bool_decide (e.1 = "message") then Some e.2 else None) evs.

Record stream_inv (l : nat) (pre : string) (s : stream) : Prop := mkStreamInv {
  si_out : exists evs, rbody (st_rw s) = pre +:+ stream_text evs
    /\ Forall (fun e => e = ("ping", "") \/ exists m, e = ("message", m)) evs
    /\ exists q, queue (st_world s) l = Some q /\ messages evs ++ q = st_accepted s
}.

Lemma stream_text_snoc evs e d : stream_text (evs ++ [(e, d)]) = stream_text evs +:+ event_text e d.
Proof.
  unfold stream_text. induction evs as [|x evs IH]; cbn [app foldr fst snd].
  - by rewrite str_app_nil_r, str_app_nil_l.
  - by rewrite IH, str_app_assoc.
Qed.

Lemma messages_app a b : messages (a ++ b) = messages a ++ messages b.
Proof. apply omap_app. Qed.

Lemma stream_inv_step l pre s s' :
  stream_step l s s' -> stream_inv l pre s -> stream_inv l pre s'.
Proof.
  intros Hstep [(evs & Hout & Hevs & q & Hq & Hacc)].
  assert (forall e d, (e, d) = ("ping", "") \/ (exists m, (e, d) = ("message", m)) ->
    rbody (sendEvent e d (st_rw s)) = pre +:+ stream_text (evs ++ [(e, d)])
    /\ Forall (fun e => e = ("ping", "") \/ exists m, e = ("message", m)) (evs ++ [(e, d)])) as Hev.
  { intros e d He. split.
    - unfold sendEvent, write. cbn [rbody]. by rewrite Hout, stream_text_snoc, str_app_assoc.
    - apply list.Forall_app. split; [done|]. by constructor. }
  constructor. destruct Hstep as [c s world rw fin Hround|pick msg s sess Hs|s world Hw];
    cbn [st_world st_rw st_accepted].
  - unfold stream_round, queue in *. destruct (deref (st_world s) l) as [sess|] eqn:Hd; [|done].
    cbn in Hq. injection Hq as <-. destruct c.
    + injection Hround as <- <- <-. exists evs. split_and!; [done..|].
      exists (MessageChan sess). split; [|done]. fold (queue (Delete (ID sess) (st_world s)) l).
      rewrite queue_Delete. unfold queue. by rewrite Hd.
    + destruct (IsClosed sess); [|done]. injection Hround as <- <- <-. exists evs.
      split_and!; [done..|]. exists (MessageChan sess). by rewrite Hd.
    + destruct (MessageChan sess) as [|msg q] eqn:Hc; [done|]. injection Hround as <- <- <-.
      destruct (Hev "message" msg) as [H1 H2]; [eauto|]. eexists. split_and!; [exact H1|exact H2|].
      exists q. unfold deref, update in *. cbn [heap].
      rewrite list_lookup_alter_eq, Hd. split; [done|].
      rewrite messages_app, <- app_assoc. done.
    + injection Hround as <- <- <-. destruct (Hev "ping" "") as [H1 H2]; [by left|].
      eexists. split_and!; [exact H1|exact H2|]. exists (MessageChan sess). rewrite Hd.
      split; [done|]. by rewrite messages_app, app_nil_r.
  - exists evs. split_and!; [done..|]. unfold queue in *. rewrite Hs in Hq. cbn in Hq.
    injection Hq as <-. unfold deref, update in *. cbn [heap].
    rewrite list_lookup_alter_eq, Hs. cbn. eexists. split; [done|].
    unfold SendMessage. destruct (Done sess), (bool_decide _), pick; cbn; rewrite <- Hacc;
      rewrite ?app_assoc; done.
  - exists evs. split_and!; [done..|]. exists q. split; [|done]. by eapply queue_quiet.
Qed.

Lemma stream_inv_reach l pre s s' :
  rtc (stream_step l) s s' -> stream_inv l pre s -> stream_inv l pre s'.
Proof. induction 1; eauto using stream_inv_step. Qed.

(** ** Properties of the stream *)

(** Reading the stream back: the reader of event streams that the proxy's own upstream
    client uses recovers exactly the events that [sendEvent] wrote, in order, for events
    whose name and data are single lines without white space at their ends (data may be
    empty). *)
Theorem sendEvent_roundtrip (evs : list (string * string)) (w : ResponseWriter)
    (Hempty : rbody w = "") (Hevs : Forall ok_event evs) :
  read_lines ("", "") (split_char (ascii_of_N 10)
    (rbody (foldl (fun w e => sendEvent e.1 e.2 w) w evs))) = evs.
Proof.
  rewrite <- (read_stream evs Hevs) at 2. do 2 f_equal.
  assert (forall evs w, rbody (foldl (fun w e => sendEvent e.1 e.2 w) w evs)
                        = rbody w +:+ stream_text evs) as Haux.
  { clear. induction evs as [|[e d] evs IH]; intros w; cbn [foldl fst snd].
    - by rewrite str_app_nil_r.
    - rewrite IH. cbn [sendEvent write rbody]. by rewrite str_app_assoc. }
  by rewrite Haux, Hempty, str_app_nil_l.
Qed.

Definition open_events (uid : string) : list (string * string) :=
  [("endpoint", message_url ("sess_" +:+ uid))].

Section Streams.

Context {S : Type} (fold_table : N -> N).

Lemma set_header_body k v w : rbody (set_header k v w) = rbody w.
Proof. reflexivity. Qed.

Lemma security_body (h : Handler (S := S)) w : rbody (setSecurityHeaders h w) = rbody w.
Proof. unfold setSecurityHeaders. by destruct (negb _). Qed.

Lemma cors_body (h : Handler (S := S)) o w : rbody (setCORSHeaders fold_table h o w) = rbody w.
Proof. unfold setCORSHeaders. by repeat case_match. Qed.

(** A stream starts with one event and an empty queue. *)
Lemma open_stream_inv (h : Handler (S := S)) r uid t1 t2 world world' rw l :
  open_stream fold_table h r uid t1 t2 world newWriter = (world', rw, Some l) ->
  stream_inv l (stream_text (open_events uid)) (mkStream world' rw []).
Proof.
  unfold open_stream. destruct (negb (flusher r)); [done|].
  unfold Create. destruct (_ >=? _)%Z; [done|]. intros [= <- <- <-].
  constructor. exists []. cbn [st_world st_rw st_accepted]. split_and!.
  - unfold sendEvent, write. cbn [rbody]. rewrite cors_body, security_body.
    cbn [set_header rbody newWriter]. rewrite str_app_nil_l. cbn [open_events stream_text foldr fst snd].
    by rewrite !str_app_nil_r.
  - constructor.
  - exists []. split; [|done]. unfold queue, deref, update. cbn [heap mgr].
    rewrite !list_lookup_alter_eq, lookup_app_r, Nat.sub_diag by lia. done.
Qed.

(** What is on the wire, and what a reader makes of it when every text is one line without white
    space at its ends. *)
Lemma stream_inv_read l uid s :
  stream_inv l (stream_text (open_events uid)) s ->
  exists evs q,
    rbody (st_rw s) = stream_text (open_events uid ++ evs)
    /\ queue (st_world s) l = Some q
    /\ messages evs ++ q = st_accepted s
    /\ Forall (fun e => e = ("ping", "") \/ exists m, e = ("message", m)) evs
    /\ (line_text uid -> Forall (fun m => m = "" \/ line_text m) (messages evs) ->
        read_lines ("", "") (split_char (ascii_of_N 10) (rbody (st_rw s))) = open_events uid ++ evs).
Proof.
  intros [(evs & Hout & Hevs & q & Hq & Hacc)].
  assert (rbody (st_rw s) = stream_text (open_events uid ++ evs)) as Htext.
  { rewrite Hout. unfold stream_text. rewrite foldr_app. cbn. by rewrite !str_app_assoc. }
  exists evs, q. split_and!; [done..|]. intros Huid Hmsgs. rewrite Htext. apply read_stream. constructor.
  - split; cbn [fst snd].
    + split; [by apply (bool_decide_unpack _)|]. by eexists _, _, _, _.
    + right. unfold message_url. destruct Huid as [H1 H2]. split.
      * by apply no_newline_label, no_newline_label.
      * apply edged_label; [by eexists _, _|]. apply edged_label; [by eexists _, _|done].
  - rewrite list.Forall_forall in Hevs. rewrite list.Forall_forall in Hmsgs. apply list.Forall_forall. intros e He.
    destruct (Hevs e He) as [->|[m ->]].
    + split; [|by left]. split; [by apply (bool_decide_unpack _)|]. by eexists _, _, _, _.
    + split; cbn [fst snd].
      * split; [by apply (bool_decide_unpack _)|]. by eexists _, _, _, _.
      * apply Hmsgs. unfold messages. apply list_elem_of_omap. by exists ("message", m).
Qed.

(** C17: The stream is a faithful first-in first-out view of the session's queue. Under every
    interleaving of the handler's loop with message requests, cleanups and any other use of
    the sessions, what is written to the client is the text of the endpoint event followed by
    messages and pings, and the messages together with those still queued are exactly the
    responses that [SendMessage] accepted, in order. A reader of the stream gets exactly these
    events, provided that the session's identifier and the messages are single lines without
    white space at their ends, or empty: the code does not split data into lines. *)
Theorem stream_refines_queue (h : Handler (S := S)) (r : StreamRequest) (uid : string)
    (t1 t2 : Time) (world world' : World) (rw : ResponseWriter) (l : nat) (s : stream)
    (Hopen : open_stream fold_table h r uid t1 t2 world newWriter = (world', rw, Some l))
    (Hreach : rtc (stream_step l) (mkStream world' rw []) s) :
  exists evs q,
    rbody (st_rw s) = stream_text (open_events uid ++ evs)
    /\ queue (st_world s) l = Some q
    /\ messages evs ++ q = st_accepted s
    /\ Forall (fun e => e = ("ping", "") \/ exists m, e = ("message", m)) evs
    /\ (line_text uid -> Forall (fun m => m = "" \/ line_text m) (messages evs) ->
        read_lines ("", "") (split_char (ascii_of_N 10) (rbody (st_rw s))) = open_events uid ++ evs).
Proof.
  apply open_stream_inv in Hopen. pose proof (stream_inv_reach _ _ _ _ Hreach Hopen) as Hinv.
  by apply stream_inv_read.
Qed.

End Streams.

(** ** Properties of the message endpoint *)

(** Requests that reach the message handler: an open session and a body that is JSON, as far
    as the limit lets it through. *)
Definition acceptable (json_valid : string -> bool) (r : MessageRequest) (world : World)
    (l : nat) (sess : Session) (body : string) : Prop :=
  sessionId r <> "" /\ sessions (mgr world) !! sessionId r = Some l
  /\ deref world l = Some sess /\ IsClosed sess = false
  /\ (exists full, reqBody r = Ok full /\ body = limit_body full)
  /\ json_valid body = true.

(** A refused request: the status, and an error object without identifier. *)
Definition refusal (o : outcome ResponseWriter) (code : Z) : Prop :=
  exists rw hdrs rpc msg, o = Ret rw /\ sent rw = Some (code, hdrs) /\ statusCode rw = code
    /\ rbody rw = error_json "null" rpc msg +:+ nl.

Section Messages.

Context {S : Type} (json_valid : string -> bool).

Lemma sendError_refusal (h : Handler (S := S)) code rpc msg :
  refusal (Ret (sendError h code rpc msg newWriter)) code.
Proof.
  unfold refusal, sendError, setSecurityHeaders. destruct (negb _); by eexists _, _, rpc, msg.
Qed.

Lemma Get_open id w w' l :
  Get id w = (w', Some l) ->
  w' = w /\ sessions (mgr w) !! id = Some l
  /\ exists s, deref w l = Some s /\ IsClosed s = false.
Proof.
  unfold Get. destruct (sessions (mgr w) !! id) as [l'|] eqn:Hl; [|done].
  destruct (deref w l') as [s|] eqn:Hd; [|done]. destruct (IsClosed s) eqn:Hc; [done|].
  intros [= <- <-]. eauto.
Qed.

(** The ways through [HandleMessage]. *)
Lemma HandleMessage_cases (h : Handler (S := S)) (r : MessageRequest) (world world' : World)
    (st st' : S) (o : outcome ResponseWriter)
    (Hrun : HandleMessage json_valid h r world st newWriter = (world', st', o)) :
  (exists l sess body,
     acceptable json_valid r world l sess body
     /\ process_message h r l body world st newWriter = (world', st', o)
     /\ deref (update (fun s => (incrementRequestCount (reqNow r) s).1) l world) l
        = Some (incrementRequestCount (reqNow r) sess).1
     /\ st' = (run_handler h (incrementRequestCount (reqNow r) sess).1 body st).1)
  \/ (st' = st /\ world' = (if bool_decide (sessionId r = "") then world else (Get (sessionId r) world).1)
      /\ (refusal o 400 \/ refusal o 404)).
Proof.
  unfold HandleMessage in Hrun. case_bool_decide as Hid.
  { injection Hrun as <- <- <-. right. split_and!; [done..|]. left. apply sendError_refusal. }
  destruct (Get (sessionId r) world) as [w1 [l|]] eqn:Hg.
  2:{ injection Hrun as <- <- <-. right. split_and!; [done..|]. right. apply sendError_refusal. }
  destruct (Get_open _ _ _ _ Hg) as (-> & Hl & sess & Hd & Hc).
  destruct (reqBody r) as [full|e] eqn:Hb.
  2:{ injection Hrun as <- <- <-. right. split_and!; [done..|]. left. apply sendError_refusal. }
  destruct (json_valid (limit_body full)) eqn:Hj; cbn [negb] in Hrun.
  2:{ injection Hrun as <- <- <-. right. split_and!; [done..|]. left. apply sendError_refusal. }
  left. exists l, sess, (limit_body full).
  assert (deref (update (fun s => (incrementRequestCount (reqNow r) s).1) l world) l
          = Some (incrementRequestCount (reqNow r) sess).1) as Hd'
    by exact (deref_update_eq (fun s => (incrementRequestCount (reqNow r) s).1) l sess world Hd).
  split_and!; [by repeat (split; [eauto|])|done|done|].
  unfold process_message in Hrun. rewrite Hd' in Hrun.
  destruct (run_handler h _ _ st) as [st1 [[[response|] [err|]]|msg]]; by injection Hrun as <- <- <-.
Qed.

(** C25: The message endpoint is a gate: either the request names an open session and carries
    JSON, and then the handler runs exactly once on that session with the request counted;
    or the rest of the application does not see it, no request is counted, and the client
    gets a 400 or 404 with an error object. *)
Theorem HandleMessage_gate (h : Handler (S := S)) (r : MessageRequest) (world world' : World)
    (st st' : S) (o : outcome ResponseWriter)
    (Hrun : HandleMessage json_valid h r world st newWriter = (world', st', o)) :
  (exists l sess body,
     acceptable json_valid r world l sess body
     /\ process_message h r l body world st newWriter = (world', st', o)
     /\ deref (update (fun s => (incrementRequestCount (reqNow r) s).1) l world) l
        = Some (incrementRequestCount (reqNow r) sess).1
     /\ st' = (run_handler h (incrementRequestCount (reqNow r) sess).1 body st).1)
  \/ (st' = st /\ world' = (if bool_decide (sessionId r = "") then world else (Get (sessionId r) world).1)
      /\ (refusal o 400 \/ refusal o 404)).
Proof. exact (HandleMessage_cases h r world world' st st' o Hrun). Qed.

(** What is accepted is processed. *)
Lemma HandleMessage_accepted (h : Handler (S := S)) (r : MessageRequest) (world : World)
    (st : S) (l : nat) (sess : Session) (body : string) :
  acceptable json_valid r world l sess body ->
  HandleMessage json_valid h r world st newWriter = process_message h r l body world st newWriter.
Proof.
  intros (Hid & Hl & Hd & Hc & (full & Hb & ->) & Hj). unfold HandleMessage.
  rewrite bool_decide_eq_false_2 by done. unfold Get. by rewrite Hl, Hd, Hc, Hb, Hj.
Qed.

(** An accepted message is answered 202 when the handler returns without an error, and
    its response is offered to the session's queue exactly once; an error of the handler is
    answered with a constant 500 that discloses nothing of it, and queues nothing. *)
Lemma HandleMessage_answers (h : Handler (S := S)) (r : MessageRequest) (world : World)
    (st : S) (l : nat) (sess : Session) (body : string)
    (Hadm : acceptable json_valid r world l sess body) :
  let sess' := (incrementRequestCount (reqNow r) sess).1 in
  let counted := update (fun s => (incrementRequestCount (reqNow r) s).1) l world in
  let '(world', st', o) := HandleMessage json_valid h r world st newWriter in
  match (run_handler h sess' body st).2 with
  | Panic msg => o = Panic msg
  | Ret (_, Some _) =>
      world' = counted
      /\ (exists rw hdrs, o = Ret rw /\ sent rw = Some (500%Z, hdrs)
            /\ rbody rw = error_json "null" (-32603) "Internal server error" +:+ nl)
  | Ret (Some response, None) =>
      world' = update (fun s => (SendMessage (pickSend r) response s).1) l counted
      /\ (exists rw, o = Ret rw /\ sent rw = Some (202%Z, []))
  | Ret (None, None) => world' = counted /\ (exists rw, o = Ret rw /\ sent rw = Some (202%Z, []))
  end.
Proof.
  cbn zeta. rewrite (HandleMessage_accepted h r world st l sess body Hadm).
  destruct Hadm as (_ & _ & Hd & _). unfold process_message.
  rewrite (deref_update_eq _ _ _ _ Hd).
  destruct (run_handler h _ _ st) as [st1 [[[response|] [err|]]|msg]]; cbn [fst snd].
  1,3: split; [done|]; unfold sendError, setSecurityHeaders; destruct (negb _); by eexists _, _.
  - split; [done|]. by eexists.
  - split; [done|]. by eexists.
  - done.
Qed.

(** A response that finds the queue full is dropped, and the client is told 202 all the
    same. *)
Theorem full_queue_drops_response (h : Handler (S := S)) (r : MessageRequest) (world : World)
    (st : S) (l : nat) (sess : Session) (body response : string)
    (Hadm : acceptable json_valid r world l sess body)
    (Hfull : length (MessageChan sess) = message_chan_cap)
    (Hh : (run_handler h (incrementRequestCount (reqNow r) sess).1 body st).2
          = Ret (Some response, None)) :
  let '(world', _, o) := HandleMessage json_valid h r world st newWriter in
  queue world' l = queue world l /\ exists rw, o = Ret rw /\ sent rw = Some (202%Z, []).
Proof.
  destruct Hadm as (Hid & Hl & Hd & Hc & (full & Hb & ->) & Hj).
  unfold HandleMessage. rewrite bool_decide_eq_false_2 by done.
  unfold Get. rewrite Hl, Hd, Hc, Hb, Hj. cbn [negb]. unfold process_message.
  rewrite (deref_update_eq _ _ _ _ Hd).
  destruct (run_handler h _ _ st) as [st1 res]. cbn [snd] in Hh. subst res.
  split; [|by eexists]. unfold queue.
  rewrite (deref_update_eq _ _ (incrementRequestCount (reqNow r) sess).1)
    by exact (deref_update_eq (fun s => (incrementRequestCount (reqNow r) s).1) l sess world Hd).
  rewrite Hd. cbn. f_equal. unfold SendMessage. cbn [incrementRequestCount set_activity fst Done MessageChan].
  unfold IsClosed in Hc. rewrite Hc. rewrite bool_decide_eq_false_2 by lia. done.
Qed.

End Messages.

(** ** Headers *)

(** Cross-origin access is granted exactly by configuration: a response names an allowed
    origin only if all origins are allowed (then it is the wildcard) or the request's own
    origin equals a configured one up to case (then it is that origin, and caches are told
    that it varies). *)
Theorem CORS_exact {S : Type} (fold_table : N -> N) (h : Handler (S := S)) (o : string) :
  let allowed := elems (CORSAllowedOrigins (securityCfg h)) in
  let hdr := header (setCORSHeaders fold_table h o newWriter) in
  obj_get hdr "Access-Control-Allow-Origin"
  = (if bool_decide ("*" ∈ allowed) then Some "*"
     else if bool_decide (Exists (fun a => EqualFold fold_table o a = true) allowed) then Some o
     else None)
  /\ (obj_get hdr "Access-Control-Allow-Origin" = Some o -> o <> "*" -> obj_get hdr "Vary" = Some "Origin").
Proof.
  cbn zeta. unfold setCORSHeaders. case_bool_decide as Hw.
  { split; [done|]. cbn. intros [= <-]. done. }
  assert (existsb (EqualFold fold_table o) (elems (CORSAllowedOrigins (securityCfg h)))
    = bool_decide (Exists (fun a => EqualFold fold_table o a = true)
        (elems (CORSAllowedOrigins (securityCfg h))))) as ->.
  { apply Bool.eq_iff_eq_true. rewrite existsb_exists, bool_decide_eq_true, list.Exists_exists.
    split; intros (a & Ha & He); exists a; split; try done; by apply list_elem_of_In. }
  case_bool_decide; [|done]. split; [|done]. done.
Qed.

(** ** Life cycle *)

(** Stopping a server that was stopped and started again panics: the channel that [Stop]
    closes is made only once. *)
Theorem restart_then_stop_panics {S : Type} (cfg : ServerConfig) (agent : AgentConfig)
    (shutdown : result string unit) :
  let s1 := (ServerStart (Ok tt) (NewServer (S := S) cfg agent)).1 in
  exists s2 r, ServerStop (Ok tt) s1 = Ret (s2, r)
    /\ (ServerStart (Ok tt) s2).2 = Ok tt
    /\ ServerStop shutdown (ServerStart (Ok tt) s2).1 = Panic "close of closed channel".
Proof. by eexists _, _. Qed.

(** The security settings of the configuration reach no handler: whatever origins and
    headers are configured, a server answers as if none were allowed. *)
Theorem security_settings_ignored {S : Type} (fold_table : N -> N) (cfg : ServerConfig)
    (agent : AgentConfig) (o : string) (w : ResponseWriter) :
  setCORSHeaders fold_table (srv_handler (NewServer (S := S) cfg agent)) o w = w
  /\ EnableSecurityHeaders (securityCfg (srv_handler (NewServer (S := S) cfg agent))) = true.
Proof. done. Qed.

(** Stopping the server ends no stream: while the client stays and its session is open, the
    only round an idle stream can take is a heartbeat, and it goes on afterwards. *)
Theorem stop_leaves_streams (l : nat) (world : World) (w : ResponseWriter) (s : Session)
    (c : stream_case) (world' : World) (w' : ResponseWriter) (fin : bool)
    (Hs : deref world l = Some s) (Hopen : IsClosed s = false) (Hidle : MessageChan s = [])
    (Hround : stream_round c l world w = Some (world', w', fin)) (Hstays : c <> ClientGone) :
  c = Heartbeat /\ world' = world /\ fin = false.
Proof.
  unfold stream_round in Hround. rewrite Hs in Hround. destruct c; [done|..].
  - by rewrite Hopen in Hround.
  - by rewrite Hidle in Hround.
  - by injection Hround as <- <- <-.
Qed.

(** ** Witnesses *)

Definition sample_agent : AgentConfig := mkAgent "agent-1" "Agent" (Some ["read:*"]) "" "" None.
Definition sample_listen : ServerConfig :=
  mkServer (mkListen "127.0.0.1" 3000) "sse" 0 0 0 0 100 (mkSecurity (Some ["https://a.example"]) true).

Definition sample_line : string := "{" +:+ dq +:+ "id" +:+ dq +:+ ":1}".

Lemma sample_line_ok : line_text sample_line.
Proof. split; [by apply (bool_decide_unpack _)|]. by eexists _, _, _, _. Qed.

Lemma ok_event_intro e d :
  bool_decide (ascii_of_N 10 ∉ bytes_of e) = true -> edged (bytes_of e) ->
  (d = "" \/ line_text d) -> ok_event (e, d).
Proof. intros H1 H2 H3. apply bool_decide_eq_true in H1. by split. Qed.

Lemma sendEvent_roundtrip_witness :
  read_lines ("", "") (split_char (ascii_of_N 10)
    (rbody (foldl (fun w e => sendEvent e.1 e.2 w) newWriter [("ping", ""); ("message", sample_line)])))
  = [("ping", ""); ("message", sample_line)].
Proof.
  apply (sendEvent_roundtrip [("ping", ""); ("message", sample_line)] newWriter).
  - reflexivity.
  - constructor; [|constructor; [|constructor]]; apply ok_event_intro; try reflexivity.
    + by eexists _, _, _, _.
    + by left.
    + by eexists _, _, _, _.
    + right. exact sample_line_ok.
Defined.

(** Data of two lines is cut: the reader ignores the second one. *)
Example two_line_data_is_cut :
  read_lines ("", "") (split_char (ascii_of_N 10) (event_text "message" ("{" +:+ nl +:+ "}")))
  = [("message", "{")].
Proof. vm_compute. reflexivity. Qed.

Definition sample_handler : Handler (S := nat) :=
  SetMessageHandler (fun _ msg n => (n + 1, Ret (Some msg, None))) (NewHandler sample_agent).

Definition sample_stream_request : StreamRequest := mkStreamRequest true "https://a.example" "10.0.0.1" "curl".

Definition opened : World * ResponseWriter * option nat :=
  open_stream (fun r => r) sample_handler sample_stream_request "u1" 5 6
    (init_world DefaultManagerConfig) newWriter.

Definition sent_one : stream :=
  {| st_world := update (fun s => (SendMessage true sample_line s).1) 0 opened.1.1;
     st_rw := opened.1.2; st_accepted := [sample_line] |}.

Lemma sent_one_reach : rtc (stream_step 0) (mkStream opened.1.1 opened.1.2 []) sent_one.
Proof.
  apply rtc_once. destruct (deref opened.1.1 0) as [sess|] eqn:Hd; [|vm_compute in Hd; done].
  pose proof (s_send 0 true sample_line (mkStream opened.1.1 opened.1.2 []) sess Hd) as H.
  vm_compute in Hd. injection Hd as <-. exact H.
Qed.

Lemma uid_line : line_text "u1".
Proof. split; [by apply (bool_decide_unpack _)|]. by eexists _, _, _, _. Qed.

Lemma stream_refines_queue_witness :
  exists evs q,
    rbody (st_rw sent_one) = stream_text (open_events "u1" ++ evs)
    /\ queue (st_world sent_one) 0 = Some q
    /\ messages evs ++ q = [sample_line].
Proof.
  destruct (stream_refines_queue (fun r => r) sample_handler sample_stream_request "u1" 5 6
    (init_world DefaultManagerConfig) opened.1.1 opened.1.2 0 sent_one) as (evs & q & Ht & Hq & Hm & _).
  - vm_compute. reflexivity.
  - exact sent_one_reach.
  - exists evs, q. split; [exact Ht|]. split; [exact Hq|exact Hm].
Defined.

Definition sample_post : MessageRequest := mkMessageRequest "sess_u1" (Ok sample_line) 7 true.

Definition posted : World * nat * outcome ResponseWriter :=
  HandleMessage (fun _ => true) sample_handler sample_post opened.1.1 4 newWriter.

Lemma HandleMessage_gate_witness :
  (exists l sess body,
     acceptable (fun _ => true) sample_post opened.1.1 l sess body
     /\ process_message sample_handler sample_post l body opened.1.1 4 newWriter = posted
     /\ deref (update (fun s => (incrementRequestCount (reqNow sample_post) s).1) l opened.1.1) l
        = Some (incrementRequestCount (reqNow sample_post) sess).1
     /\ posted.1.2 = (run_handler sample_handler
                        (incrementRequestCount (reqNow sample_post) sess).1 body 4).1)
  \/ (posted.1.2 = 4 /\ posted.1.1 = (Get "sess_u1" opened.1.1).1
      /\ (refusal posted.2 400 \/ refusal posted.2 404)).
Proof.
  apply (HandleMessage_gate (fun _ => true) sample_handler sample_post opened.1.1 posted.1.1 4
    posted.1.2 posted.2).
  change (posted = (posted.1.1, posted.1.2, posted.2)). by destruct posted as [[? ?] ?].
Defined.

(** The session of [opened]. *)
Definition opened_session : Session :=
  SetClientInfo "10.0.0.1" "curl" (SetAgent "agent-1" "Agent" (Some ["read:*"])
    (NewSession "sess_u1" 5 6)).

Lemma sample_post_acceptable :
  acceptable (fun _ => true) sample_post opened.1.1 0 opened_session sample_line.
Proof.
  split_and!; [done|vm_compute; reflexivity|vm_compute; reflexivity|reflexivity| |reflexivity].
  exists sample_line. split; [reflexivity|]. vm_compute. reflexivity.
Qed.

Lemma HandleMessage_answers_witness :
  exists rw, posted.2 = Ret rw /\ sent rw = Some (202%Z, []).
Proof.
  pose proof (HandleMessage_answers (fun _ => true) sample_handler sample_post opened.1.1 4 0
    opened_session sample_line sample_post_acceptable) as H.
  cbn zeta in H. fold posted in H. destruct posted as [[w st] o]. apply H.
Defined.

Definition full_session : Session := set_chan (replicate 100 "x") opened_session.
Definition full_world : World := update (const full_session) 0 opened.1.1.

Lemma full_queue_drops_response_witness :
  let '(world', _, o) := HandleMessage (fun _ => true) sample_handler sample_post full_world 4 newWriter in
  queue world' 0 = queue full_world 0 /\ exists rw, o = Ret rw /\ sent rw = Some (202%Z, []).
Proof.
  apply (full_queue_drops_response (fun _ => true) sample_handler sample_post full_world 4 0
    full_session sample_line sample_line).
  - split_and!; [done|vm_compute; reflexivity|vm_compute; reflexivity|reflexivity| |reflexivity].
    exists sample_line. split; [reflexivity|]. vm_compute. reflexivity.
  - reflexivity.
  - reflexivity.
Defined.

Lemma stop_leaves_streams_witness :
  Heartbeat = Heartbeat /\ opened.1.1 = opened.1.1 /\ false = false.
Proof.
  apply (stop_leaves_streams 0 opened.1.1 newWriter opened_session Heartbeat opened.1.1
    (sendEvent "ping" "" newWriter) false); try (vm_compute; reflexivity). discriminate.
Defined.

(** Any path opens a stream, and so does a HEAD request. *)
Example every_get_opens_a_stream :
  mux "GET" "/favicon.ico" = StreamEndpoint /\ mux "HEAD" "/" = StreamEndpoint
  /\ mux "POST" "/message" = MessageEndpoint /\ mux "OPTIONS" "/message" = MethodNotAllowed.
Proof. done. Qed.
