(* ===== verification/SseServer.v ===== *)
(** * All streams and message requests together

    [Sse] proves what one stream does with the queue of its session. Here the server runs any
    number of streams and of message requests, the latter cut where they touch what is shared,
    while the cleanup goroutine works: every response reaches the stream of the session whose
    client asked for it, and no other. *)

From Stdlib Require Import ZArith Lia Ascii.
From stdpp Require Import base list gmap sets strings numbers relations.
From S2P Require Import Prelude Json GoText Session Config Upstream Transport Sse.

Section SseServer.

Context {S : Type} (fold_table : N -> N) (json_valid : string -> bool) (h : Handler (S := S)).

(** ** A message request in steps *)

(** How far the goroutine of a request is: it holds the session it looked up; it has counted the
    request; it has the response of the handler, which was given this session. *)
Inductive post_phase : Type :=
| Validated
| Counted
| Replying (sess : Session) (response : string).

Record post : Type := mkPost {
  po_req : MessageRequest;
  po_loc : nat;
  po_body : string;
  po_phase : post_phase
}.

(** A response that [SendMessage] was called with: the session the client named, where the
    session lives, what the handler was given and answered, and whether the queue accepted it. *)
Record answer : Type := mkAnswer {
  an_named : string;
  an_loc : nat;
  an_sess : Session;
  an_body : string;
  an_text : string;
  an_sent : bool
}.

(** The next step of a request: the sessions, the state of the application, the request if it
    goes on, and the response if one was sent. *)
Definition advance (p : post) (world : World) (st : S) : World * S * option post * option answer :=
  let goes_on ph := Some (mkPost (po_req p) (po_loc p) (po_body p) ph) in
  match po_phase p with
  | Validated =>
      (update (fun s => (incrementRequestCount (reqNow (po_req p)) s).1) (po_loc p) world, st,
       goes_on Counted, None)
  | Counted =>
      match deref world (po_loc p) with
      | None => (world, st, None, None)
      | Some sess =>
          match run_handler h sess (po_body p) st with
          | (st, Ret (Some response, None)) => (world, st, goes_on (Replying sess response), None)
          | (st, _) => (world, st, None, None)
          end
      end
  | Replying sess response =>
      match deref world (po_loc p) with
      | None => (world, st, None, None)
      | Some s =>
          (update (fun s => (SendMessage (pickSend (po_req p)) response s).1) (po_loc p) world, st,
           None,
           Some (mkAnswer (sessionId (po_req p)) (po_loc p) sess (po_body p) response
                   (SendMessage (pickSend (po_req p)) response s).2))
      end
  end.

(** ** The server *)

(** The response of a stream, and whether its handler has returned. *)
Record live : Type := mkLive { lv_rw : ResponseWriter; lv_done : bool }.

Record hub : Type := mkHub {
  hb_world : World;
  hb_st : S;
  hb_posts : list post;
  hb_streams : gmap nat live;
  hb_answers : list answer
}.

(** Request [i] goes on, or ends. *)
Definition requests (i : nat) (next : option post) (ps : list post) : list post :=
  match next with Some p => <[i := p]> ps | None => delete i ps end.

Inductive hstep : hub -> hub -> Prop :=
| h_open r uid t1 t2 x world rw l :
    ("sess_" +:+ uid) ∉ dom (sessions (mgr (hb_world x))) ->
    open_stream fold_table h r uid t1 t2 (hb_world x) newWriter = (world, rw, Some l) ->
    hstep x (mkHub world (hb_st x) (hb_posts x) (<[l := mkLive rw false]> (hb_streams x)) (hb_answers x))
| h_round c l rw x world rw' fin :
    hb_streams x !! l = Some (mkLive rw false) ->
    stream_round c l (hb_world x) rw = Some (world, rw', fin) ->
    hstep x (mkHub world (hb_st x) (hb_posts x) (<[l := mkLive rw' fin]> (hb_streams x)) (hb_answers x))
| h_post r x l sess body :
    acceptable json_valid r (hb_world x) l sess body ->
    hstep x (mkHub (hb_world x) (hb_st x) (hb_posts x ++ [mkPost r l body Validated])
               (hb_streams x) (hb_answers x))
| h_refuse r x :
    hstep x (mkHub (Get (sessionId r) (hb_world x)).1 (hb_st x) (hb_posts x) (hb_streams x) (hb_answers x))
| h_advance i p x world st next ans :
    hb_posts x !! i = Some p -> advance p (hb_world x) (hb_st x) = (world, st, next, ans) ->
    hstep x (mkHub world st
               (requests i next (hb_posts x)) (hb_streams x) (hb_answers x ++ option_list ans))
| h_cleanup clock order x :
    hstep x (mkHub (cleanup clock order (hb_world x)) (hb_st x) (hb_posts x) (hb_streams x) (hb_answers x)).

Definition hub_init (cfg : ManagerConfig) (st : S) : hub := mkHub (init_world cfg) st [] ∅ [].

(** What the queue of session [l] accepted, in order. *)
Definition accepted (l : nat) (ans : list answer) : list string :=
  an_text <$> filter (fun a => an_loc a = l /\ an_sent a = true) ans.

(** A response of the session [id]: its client named this session, the handler was given this
    session, and this is what it answered to the body of the request. *)
Definition own (id : string) (a : answer) : Prop :=
  an_named a = id /\ ID (an_sess a) = id /\
  exists st, (run_handler h (an_sess a) (an_body a) st).2 = Ret (Some (an_text a), None).

(** ** Lemmas: identities of sessions *)

(** The identifier of the session at a location. *)
Definition id_at (w : World) (l : nat) : option string := ID <$> deref w l.

Definition kept (w w' : World) : Prop := forall l id, id_at w l = Some id -> id_at w' l = Some id.

Lemma kept_refl w : kept w w.
Proof. by intros l id. Qed.

Lemma kept_trans w1 w2 w3 : kept w1 w2 -> kept w2 w3 -> kept w1 w3.
Proof. unfold kept. eauto. Qed.

Lemma kept_heap w w' : heap w = heap w' -> kept w w'.
Proof. unfold kept, id_at, deref. by intros ->. Qed.

Lemma kept_update f l w : tame f -> kept w (update f l w).
Proof.
  intros Hf l' id. unfold id_at, deref, update. cbn [heap]. rewrite list_lookup_alter.
  case_decide; [subst l'|done]. destruct (heap w !! l) as [s|]; [|done]. cbn.
  by rewrite (tame_ID f Hf).
Qed.

Lemma kept_drop key w : kept w (drop_entry key w).
Proof. by apply kept_heap. Qed.

Lemma kept_Delete id w : kept w (Delete id w).
Proof.
  destruct (sessions (mgr w) !! id) as [l|] eqn:Hl.
  - rewrite (Delete_drop _ _ _ Hl).
    eapply kept_trans; [apply kept_drop|apply kept_update; auto with proxy].
  - unfold Delete. rewrite Hl. apply kept_refl.
Qed.

Lemma kept_Get id w : kept w (Get id w).1.
Proof. unfold Get. repeat case_match; cbn; auto using kept_refl, kept_Delete. Qed.

Lemma kept_cleanup clock order w : kept w (cleanup clock order w).
Proof.
  unfold cleanup. revert w. induction order as [|k order IH]; intros w; [apply kept_refl|].
  cbn [foldl]. eapply kept_trans; [|apply IH]. unfold cleanup_visit.
  repeat case_match; auto using kept_refl, kept_drop.
  all: eapply kept_trans; [apply kept_update, tame_Close|apply kept_drop].
Qed.

Lemma kept_Create uid t1 t2 w : kept w (Create uid t1 t2 w).1.
Proof.
  unfold Create. destruct (_ >=? _)%Z; [apply kept_refl|]. intros l id. unfold id_at, deref. cbn.
  destruct (heap w !! l) as [s|] eqn:Hl; [|done]. by rewrite (lookup_app_l_Some _ _ _ _ Hl).
Qed.

Lemma kept_open r uid t1 t2 w w' rw l :
  open_stream fold_table h r uid t1 t2 w newWriter = (w', rw, Some l) ->
  kept w w' /\ l = length (heap w) /\ id_at w' l = Some ("sess_" +:+ uid) /\
  (("sess_" +:+ uid) ∉ dom (sessions (mgr w)) -> wf w -> wf w') /\
  forall l' q, queue w l' = Some q -> queue w' l' = Some q.
Proof.
  unfold open_stream. destruct (negb (flusher r)); [done|].
  pose proof (kept_Create uid t1 t2 w) as Hk. pose proof (wf_Create (k:=0) uid t1 t2 w) as Hwf.
  pose proof (fun l q => queue_Create uid t1 t2 l w q) as Hq.
  assert (forall l, (Create uid t1 t2 w).2 = Ok l ->
    l = length (heap w) /\ id_at (Create uid t1 t2 w).1 l = Some ("sess_" +:+ uid)) as Hl.
  { unfold Create. destruct (_ >=? _)%Z; [done|]. intros l' [= <-]. split; [done|].
    unfold id_at, deref. cbn. by rewrite lookup_app_r, Nat.sub_diag by lia. }
  destruct (Create uid t1 t2 w) as [w1 [l1|e]]; [|done]. intros [= <- _ <-]. cbn [fst snd] in *.
  destruct (Hl l1 eq_refl) as [-> Hid]. split_and!.
  - eapply kept_trans; [exact Hk|]. eapply kept_trans; apply kept_update; auto with proxy.
  - done.
  - by do 2 (apply kept_update; [auto with proxy|]).
  - intros Hf Hw. apply wf_update; [auto with proxy|]. apply wf_update; auto with proxy.
  - intros l' q Hw. rewrite !queue_update by done. by apply Hq.
Qed.

(** ** The invariant of the server *)

(** A request works on the session its client named; once it has a response, this is the
    handler's, for that session. *)
Definition post_ok (w : World) (p : post) : Prop :=
  id_at w (po_loc p) = Some (sessionId (po_req p)) /\
  match po_phase p with
  | Replying sess response =>
      ID sess = sessionId (po_req p) /\
      exists st, (run_handler h sess (po_body p) st).2 = Ret (Some response, None)
  | _ => True
  end.

Definition answer_ok (w : World) (a : answer) : Prop :=
  exists id, id_at w (an_loc a) = Some id /\ own id a.

Definition stream_ok (w : World) (ans : list answer) (l : nat) (s : live) : Prop :=
  exists uid, id_at w l = Some ("sess_" +:+ uid) /\
    stream_inv l (stream_text (open_events uid)) (mkStream w (lv_rw s) (accepted l ans)).

Record hub_ok (x : hub) : Prop := {
  ho_wf : wf (hb_world x);
  ho_posts : Forall (post_ok (hb_world x)) (hb_posts x);
  ho_answers : Forall (answer_ok (hb_world x)) (hb_answers x);
  ho_streams : forall l s, hb_streams x !! l = Some s ->
    stream_ok (hb_world x) (hb_answers x) l s
}.

(** The queues that [w] has are those of [w'], but for that of [l]. *)
Definition same_queues (but : option nat) (w w' : World) : Prop :=
  forall l q, Some l <> but -> queue w l = Some q -> queue w' l = Some q.

Lemma same_queues_eq but w w' :
  (forall l, Some l <> but -> queue w' l = queue w l) -> same_queues but w w'.
Proof. intros H l q Hl. by rewrite H. Qed.

Lemma post_ok_kept w w' p : kept w w' -> post_ok w p -> post_ok w' p.
Proof. intros Hk [Hid Hp]. split; [by apply Hk|done]. Qed.

Lemma answer_ok_kept w w' a : kept w w' -> answer_ok w a -> answer_ok w' a.
Proof. intros Hk (id & Hid & Ha). exists id. split; [by apply Hk|done]. Qed.

Lemma stream_ok_world w w' ans l s :
  kept w w' -> (forall q, queue w l = Some q -> queue w' l = Some q) ->
  stream_ok w ans l s -> stream_ok w' ans l s.
Proof.
  intros Hk Hq (uid & Hid & [(evs & Hout & Hevs & q & Hw & Hacc)]).
  exists uid. split; [by apply Hk|]. constructor. exists evs. split; [done|]. split; [done|].
  exists q. split; [by apply Hq|done].
Qed.

(** A step on the sessions that keeps identifiers and queues. *)
Lemma hub_ok_world x w :
  hub_ok x -> wf w -> kept (hb_world x) w -> same_queues None (hb_world x) w ->
  hub_ok (mkHub w (hb_st x) (hb_posts x) (hb_streams x) (hb_answers x)).
Proof.
  intros [_ Hp Ha Hs] Hw Hk Hq. split; cbn; [done| | |].
  - eapply list.Forall_impl; [exact Hp|]. eauto using post_ok_kept.
  - eapply list.Forall_impl; [exact Ha|]. eauto using answer_ok_kept.
  - intros l s Hl. eapply stream_ok_world; [exact Hk| |by apply Hs]. intros q. by apply Hq.
Qed.

Lemma accepted_app l a b : accepted l (a ++ b) = accepted l a ++ accepted l b.
Proof. unfold accepted. by rewrite list.filter_app, fmap_app. Qed.

(** The locations of the answers are those of sessions. *)
Lemma accepted_new w ans l :
  Forall (answer_ok w) ans -> id_at w l = None -> accepted l ans = [].
Proof.
  intros Ha Hl. induction Ha as [|a ans (id & Hid & _) _ IH]; [done|].
  unfold accepted in *. rewrite filter_cons. case_decide as Hd; [|done].
  destruct Hd as [<- _]. congruence.
Qed.

Lemma queue_post_new w l : id_at w l = None -> queue w l = None.
Proof. unfold id_at, queue. by destruct (deref w l). Qed.

Lemma open_ok x r uid t1 t2 world rw l :
  ("sess_" +:+ uid) ∉ dom (sessions (mgr (hb_world x))) ->
  open_stream fold_table h r uid t1 t2 (hb_world x) newWriter = (world, rw, Some l) ->
  hub_ok x ->
  hub_ok (mkHub world (hb_st x) (hb_posts x) (<[l := mkLive rw false]> (hb_streams x)) (hb_answers x)).
Proof.
  intros Hf Hopen Hx. destruct (kept_open _ _ _ _ _ _ _ _ Hopen) as (Hk & Hl & Hid & Hwf & Hq).
  pose proof (hub_ok_world x world Hx (Hwf Hf (ho_wf x Hx)) Hk (fun l q _ => Hq l q)) as Hx'.
  destruct Hx' as [Hw Hp Ha Hs]. split; cbn in *; [done..|].
  intros l' s [[<- <-]|[_ Hl']]%lookup_insert_Some; [|by apply Hs].
  exists uid. split; [done|]. cbn [lv_rw].
  rewrite (accepted_new (hb_world x)); [by eapply open_stream_inv|apply Hx|].
  unfold id_at, deref. by rewrite lookup_ge_None_2 by lia.
Qed.

Lemma round_world c l w rw w' rw' fin :
  stream_round c l w rw = Some (w', rw', fin) -> wf w ->
  wf w' /\ kept w w' /\ same_queues (Some l) w w'.
Proof.
  intros Hr Hw. unfold stream_round in Hr. destruct (deref w l) as [s|] eqn:Hd; [|done].
  destruct c; [|destruct (IsClosed s)|destruct (MessageChan s) as [|msg q] eqn:Hc|]; simplify_eq/=;
    try (split_and!; [done|apply kept_refl|by intros l' q']; fail).
  - split_and!; [by apply wf_Delete|apply kept_Delete|].
    apply same_queues_eq. intros. apply queue_Delete.
  - assert (update (set_chan q) l w
            = update (fun s => set_chan (tail (MessageChan s)) s) l w) as ->.
    { unfold update. f_equal. apply list_eq. intros i. rewrite !list_lookup_alter.
      case_decide; [subst i|done]. unfold deref in Hd. rewrite Hd. cbn. by rewrite Hc. }
    split_and!; [apply wf_update; auto with proxy|apply kept_update; auto with proxy|].
    apply same_queues_eq. intros l' Hl'. by apply queue_update; intros ->.
Qed.

Lemma round_ok x c l rw world rw' fin :
  hb_streams x !! l = Some (mkLive rw false) ->
  stream_round c l (hb_world x) rw = Some (world, rw', fin) -> hub_ok x ->
  hub_ok (mkHub world (hb_st x) (hb_posts x) (<[l := mkLive rw' fin]> (hb_streams x)) (hb_answers x)).
Proof.
  intros Hl Hr [Hw Hp Ha Hs]. destruct (round_world _ _ _ _ _ _ _ Hr Hw) as (Hw' & Hk & Hq).
  split; cbn; [done| | |].
  - eapply list.Forall_impl; [exact Hp|]. eauto using post_ok_kept.
  - eapply list.Forall_impl; [exact Ha|]. eauto using answer_ok_kept.
  - intros l' s [[<- <-]|[Hne Hl']]%lookup_insert_Some.
    + destruct (Hs _ _ Hl) as (uid & Hid & Hinv). exists uid. split; [by apply Hk|].
      eapply stream_inv_step; [exact (s_round l c (mkStream _ _ _) world rw' fin Hr)|exact Hinv].
    + eapply stream_ok_world; [exact Hk| |by apply Hs]. intros q. apply Hq. congruence.
Qed.

Lemma requests_ok (P : post -> Prop) i next ps :
  Forall P ps -> (forall p, next = Some p -> P p) -> Forall P (requests i next ps).
Proof.
  intros Hps Hn. destruct next as [p|]; [by apply Forall_insert; auto|by apply Forall_delete].
Qed.

(** A step of a request keeps the sessions well-formed and identified, touches no queue but that
    of its own session, and a response it sends is one of this session. *)
Lemma advance_keeps p w st w' st' next ans :
  advance p w st = (w', st', next, ans) -> wf w -> post_ok w p ->
  wf w' /\ kept w w' /\
  same_queues (match ans with Some _ => Some (po_loc p) | None => None end) w w' /\
  (forall p', next = Some p' -> post_ok w' p') /\ (forall a, ans = Some a -> answer_ok w' a).
Proof.
  intros Hrun Hw [Hid Hph]. unfold advance in Hrun. destruct (po_phase p) as [| |sess response].
  - injection Hrun as <- <- <- <-. split_and!; [apply wf_update; [exact (tame_incr _)|done]|apply kept_update; exact (tame_incr _)| | |done].
    + apply same_queues_eq. intros l _. by apply queue_update.
    + intros p' [= <-]. split; [|done]. exact (kept_update _ _ _ (tame_incr _) _ _ Hid).
  - destruct (deref w (po_loc p)) as [sess|] eqn:Hd.
    2:{ simplify_eq. split_and!; [done|apply kept_refl|by intros l q|done|done]. }
    destruct (run_handler h sess (po_body p) st) as [st1 [[[response|] [err|]]|msg]] eqn:Hh; simplify_eq/=;
      (split_and!; [done|apply kept_refl|by intros l q| |done]); [done| |done..].
    intros p' [= <-]. split; [done|]. cbn. split; [|exists st; by rewrite Hh].
    unfold id_at in Hid. rewrite Hd in Hid. by injection Hid.
  - destruct (deref w (po_loc p)) as [s|] eqn:Hd.
    2:{ simplify_eq. split_and!; [done|apply kept_refl|by intros l q|done|done]. }
    injection Hrun as <- <- <- <-. split_and!; [apply wf_update; auto with proxy|apply kept_update; auto with proxy| |done|].
    + apply same_queues_eq. intros l Hl. apply queue_update. intros Heq. by destruct Hl; rewrite Heq.
    + intros a [= <-]. destruct Hph as [Hs Hh]. exists (sessionId (po_req p)).
      split; [|done]. by apply kept_update; auto with proxy.
Qed.

(** The response that a request sends, as a step of the stream of its session. *)
Lemma advance_answer p w st w' st' next a :
  advance p w st = (w', st', next, Some a) ->
  an_loc a = po_loc p /\ forall rw acc,
    stream_step (po_loc p) (mkStream w rw acc)
      (mkStream w' rw (if an_sent a then acc ++ [an_text a] else acc)).
Proof.
  unfold advance. intros Hrun. destruct (po_phase p) as [| |sess response]; [done| |].
  { destruct (deref w (po_loc p)) as [s|]; [|done].
    by destruct (run_handler h s (po_body p) st) as [st1 [[[r|] [err|]]|msg]]. }
  destruct (deref w (po_loc p)) as [s|] eqn:Hd; [|done]. injection Hrun as <- _ _ <-.
  split; [done|]. intros rw acc. cbn [an_sent an_text].
  exact (s_send (po_loc p) (pickSend (po_req p)) response (mkStream w rw acc) s Hd).
Qed.

Lemma accepted_one l a :
  accepted l [a] = if decide (an_loc a = l) then if an_sent a then [an_text a] else [] else [].
Proof.
  unfold accepted. rewrite filter_cons, filter_nil.
  destruct (decide (an_loc a = l)), (an_sent a); case_decide; naive_solver.
Qed.

Lemma advance_ok x i p world st next ans :
  hb_posts x !! i = Some p -> advance p (hb_world x) (hb_st x) = (world, st, next, ans) ->
  hub_ok x ->
  hub_ok (mkHub world st (requests i next (hb_posts x)) (hb_streams x)
            (hb_answers x ++ option_list ans)).
Proof.
  intros Hi Hrun [Hw Hp Ha Hs]. pose proof (Forall_lookup_1 _ _ _ _ Hp Hi) as Hpost.
  destruct (advance_keeps _ _ _ _ _ _ _ Hrun Hw Hpost) as (Hw' & Hk & Hq & Hnext & Hans).
  split; cbn; [done| | |].
  - apply requests_ok; [|done]. eapply list.Forall_impl; [exact Hp|]. eauto using post_ok_kept.
  - apply list.Forall_app. split.
    + eapply list.Forall_impl; [exact Ha|]. eauto using answer_ok_kept.
    + destruct ans as [a|]; [|constructor]. apply list.Forall_singleton. by apply Hans.
  - intros l s Hl. destruct ans as [a|]; cbn [option_list].
    2:{ rewrite app_nil_r. eapply stream_ok_world; [exact Hk| |by apply Hs]. intros q. by apply Hq. }
    destruct (advance_answer _ _ _ _ _ _ _ Hrun) as [Hloc Hstep].
    change (option_list (Some a)) with [a].
    destruct (decide (l = po_loc p)) as [->|Hne].
    + destruct (Hs _ _ Hl) as (uid & Hid & Hinv). exists uid. split; [by apply Hk|].
      pose proof (stream_inv_step _ _ _ _ (Hstep _ _) Hinv) as Hinv'.
      rewrite accepted_app, accepted_one, decide_True by done.
      destruct (an_sent a); [done|]. by rewrite app_nil_r.
    + assert (stream_ok world (hb_answers x) l s) as (uid & Hid & Hinv).
      { eapply stream_ok_world; [exact Hk| |by apply Hs]. intros q. apply Hq. congruence. }
      exists uid. split; [done|].
      by rewrite accepted_app, accepted_one, decide_False, app_nil_r by congruence.
Qed.

Lemma hstep_ok x y : hstep x y -> hub_ok x -> hub_ok y.
Proof.
  intros Hst Hx. pose proof (ho_wf x Hx) as Hw.
  destruct Hst as [r uid t1 t2 x world rw l Hf Hopen|c l rw x world rw' fin Hl Hr|r x l sess body Hacc
                  |r x|i p x world st next ans Hi Hrun|clock order x].
  - by eapply open_ok.
  - by eapply round_ok.
  - destruct Hx as [_ Hp Ha Hs]. split; cbn; [done| |done..].
    apply list.Forall_app. split; [done|]. apply list.Forall_singleton. split; [|done]. cbn.
    destruct Hacc as (_ & Hl & _). destruct (wf_ptr _ Hw _ _ Hl) as (s & Hs' & Hid).
    unfold id_at, deref. rewrite Hs'. cbn. by rewrite Hid.
  - apply hub_ok_world; [done|by apply wf_Get|apply kept_Get|].
    apply same_queues_eq. intros. apply queue_Get.
  - by eapply advance_ok.
  - apply hub_ok_world; [done|by apply wf_cleanup|apply kept_cleanup|].
    apply same_queues_eq. intros. apply queue_cleanup.
Qed.

Lemma hub_reachable_ok cfg st x :
  (MaxSessions cfg <= max_int64)%Z -> rtc hstep (hub_init cfg st) x -> hub_ok x.
Proof.
  intros Hcfg Hr. assert (hub_ok (hub_init cfg st)) as Hi.
  { split; cbn; [by apply wf_init|constructor|constructor|done]. }
  revert Hi. induction Hr as [|x y z Hxy _ IH]; [done|]. eauto using hstep_ok.
Qed.

(** ** Properties *)

Lemma solo_step p w st streams ans w' st' next sent :
  advance p w st = (w', st', next, sent) ->
  hstep (mkHub w st [p] streams ans)
    (mkHub w' st' (option_list next) streams (ans ++ option_list sent)).
Proof.
  intros Hrun. assert (option_list next = requests 0 next [p]) as -> by (by destruct next).
  by apply (h_advance 0 p (mkHub w st [p] streams ans)).
Qed.

(** A counted request that runs alone, to its end. *)
Lemma solo_counted r l body w st streams ans :
  exists sent, rtc hstep (mkHub w st [mkPost r l body Counted] streams ans)
    (let '(w', st') := match deref w l with
       | None => (w, st)
       | Some sess =>
           match run_handler h sess body st with
           | (st', Ret (Some response, None)) =>
               (update (fun s => (SendMessage (pickSend r) response s).1) l w, st')
           | (st', _) => (w, st')
           end
       end in mkHub w' st' [] streams (ans ++ sent)).
Proof.
  pose proof (solo_step (mkPost r l body Counted) w st streams ans) as Hc. unfold advance in Hc.
  cbn [po_phase po_loc po_body po_req] in Hc.
  destruct (deref w l) as [sess|] eqn:Hd; [|exists []; by apply rtc_once, (Hc _ _ None None)].
  destruct (run_handler h sess body st) as [st1 [[[response|] [err|]]|msg]];
    try (exists []; by apply rtc_once, (Hc _ _ None None)).
  pose proof (solo_step (mkPost r l body (Replying sess response)) w st1 streams ans) as Hs.
  unfold advance in Hs. cbn [po_phase po_loc po_req po_body] in Hs. rewrite Hd in Hs.
  eexists. eapply rtc_l; [exact (Hc _ _ _ _ eq_refl)|]. cbn [option_list]. rewrite app_nil_r.
  apply rtc_once. exact (Hs _ _ _ _ eq_refl).
Qed.

(** A request that runs alone does what [Sse.HandleMessage] says. *)
Theorem post_alone_is_HandleMessage (x : hub) (r : MessageRequest) (l : nat) (sess : Session)
    (body : string) (Hadm : acceptable json_valid r (hb_world x) l sess body)
    (Hnone : hb_posts x = []) :
  exists ans, rtc hstep x
    (mkHub (HandleMessage json_valid h r (hb_world x) (hb_st x) newWriter).1.1
       (HandleMessage json_valid h r (hb_world x) (hb_st x) newWriter).1.2
       [] (hb_streams x) (hb_answers x ++ ans)).
Proof.
  rewrite (HandleMessage_accepted json_valid h r (hb_world x) (hb_st x) l sess body Hadm).
  destruct (solo_counted r l body (update (fun s => (incrementRequestCount (reqNow r) s).1) l (hb_world x))
    (hb_st x) (hb_streams x) (hb_answers x)) as [sent Hrun]. exists sent.
  eapply rtc_l; [apply (h_post r x l sess body Hadm)|]. rewrite Hnone.
  eapply rtc_l; [exact (solo_step (mkPost r l body Validated) _ _ _ _ _ _ _ _ eq_refl)|].
  cbn [option_list]. rewrite app_nil_r. unfold process_message.
  destruct (deref _ l) as [sess'|]; [|exact Hrun].
  by destruct (run_handler h sess' body (hb_st x)) as [st1 [[[response|] [err|]]|msg]].
Qed.

(** C5: Clients are kept apart. However streams, message requests (cut where they touch shared
    state) and the cleanup goroutine interleave, what is written to a stream is the text of the
    endpoint event of its own session, then of pings and messages, and the messages with those
    still queued are exactly the accepted responses of the requests that named this session, in
    order: each of them is what the handler, given this session, answered to the body of such a
    request. A reader of the stream gets exactly these events, provided that the session's
    identifier and the messages are single lines without white space at their ends, or empty. *)
Theorem streams_are_isolated (cfg : ManagerConfig) (st : S) (x : hub) (l : nat) (s : live)
    (Hcfg : (MaxSessions cfg <= max_int64)%Z) (Hreach : rtc hstep (hub_init cfg st) x)
    (Hl : hb_streams x !! l = Some s) :
  exists uid evs q,
    id_at (hb_world x) l = Some ("sess_" +:+ uid) /\ queue (hb_world x) l = Some q /\
    rbody (lv_rw s) = stream_text (open_events uid ++ evs) /\
    Forall (fun e => e = ("ping", "") \/ exists m, e = ("message", m)) evs /\
    messages evs ++ q = accepted l (hb_answers x) /\
    Forall (fun a => an_loc a = l -> own ("sess_" +:+ uid) a) (hb_answers x) /\
    (line_text uid -> Forall (fun m => m = "" \/ line_text m) (messages evs) ->
     read_lines ("", "") (split_char (ascii_of_N 10) (rbody (lv_rw s))) = open_events uid ++ evs).
Proof.
  destruct (hub_reachable_ok _ _ _ Hcfg Hreach) as [_ _ Ha Hs].
  destruct (Hs _ _ Hl) as (uid & Hid & Hinv).
  destruct (stream_inv_read _ _ _ Hinv) as (evs & q & Ht & Hq & Hm & He & Hr).
  exists uid, evs, q. split_and!; try done.
  eapply list.Forall_impl; [exact Ha|]. intros a (id & Hida & Hown) <-. congruence.
Qed.

End SseServer.

(** ** Witnesses *)

Abbreviation sample_step := (hstep (fun r => r) (fun _ => true) sample_handler).

(** Two clients are connected. *)
Definition opened_two : World * ResponseWriter * option nat :=
  open_stream (fun r => r) sample_handler sample_stream_request "u2" 8 9 opened.1.1 newWriter.

Definition two_hub : hub :=
  mkHub opened_two.1.1 4 [] (<[1 := mkLive opened_two.1.2 false]> (<[0 := mkLive opened.1.2 false]> ∅)) [].

Lemma two_hub_reachable : rtc sample_step (hub_init DefaultManagerConfig 4) two_hub.
Proof.
  apply (rtc_l _ _ (mkHub opened.1.1 4 [] (<[0 := mkLive opened.1.2 false]> ∅) [])).
  { apply (h_open (fun r => r) (fun _ => true) sample_handler sample_stream_request "u1" 5 6 (hub_init DefaultManagerConfig 4) opened.1.1 opened.1.2 0).
    - by apply (bool_decide_unpack _).
    - vm_compute. reflexivity. }
  apply rtc_once.
  pose proof (h_open (fun r => r) (fun _ => true) sample_handler sample_stream_request "u2" 8 9
    (mkHub opened.1.1 4 [] (<[0 := mkLive opened.1.2 false]> ∅) []) opened_two.1.1 opened_two.1.2 1)
    as Hopen. cbn [hb_world hb_st hb_posts hb_streams hb_answers] in Hopen. apply Hopen.
  - by apply (bool_decide_unpack _).
  - vm_compute. reflexivity.
Qed.

(** The first one posts a message, which is answered on its stream. *)
Definition advance_first (x : hub (S := nat)) : hub :=
  match hb_posts x with
  | [] => x
  | p :: _ =>
      let '(w, st, next, ans) := advance sample_handler p (hb_world x) (hb_st x) in
      mkHub w st (requests 0 next (hb_posts x)) (hb_streams x) (hb_answers x ++ option_list ans)
  end.

Lemma advance_first_step x : hb_posts x <> [] -> sample_step x (advance_first x).
Proof.
  intros Hx. unfold advance_first. destruct (hb_posts x) as [|p ps] eqn:Hp; [done|].
  destruct (advance sample_handler p (hb_world x) (hb_st x)) as [[[w st] next] ans] eqn:Ha.
  rewrite <- Hp. apply (h_advance _ _ _ 0 p); [by rewrite Hp|done].
Qed.

Definition posted_hub : hub :=
  mkHub (hb_world two_hub) 4 [mkPost sample_post 0 sample_line Validated] (hb_streams two_hub) [].

Definition answered_hub : hub := advance_first (advance_first (advance_first posted_hub)).

Definition first_round : option (World * ResponseWriter * bool) :=
  stream_round GotMessage 0 (hb_world answered_hub) opened.1.2.

Definition first_live : World * ResponseWriter :=
  match first_round with Some (w, rw, _) => (w, rw) | None => (hb_world answered_hub, newWriter) end.

Definition delivered_hub : hub :=
  mkHub first_live.1 (hb_st answered_hub) (hb_posts answered_hub)
    (<[0 := mkLive first_live.2 false]> (hb_streams answered_hub)) (hb_answers answered_hub).

Lemma delivered_hub_reachable : rtc sample_step (hub_init DefaultManagerConfig 4) delivered_hub.
Proof.
  etransitivity; [exact two_hub_reachable|].
  apply (rtc_l _ _ posted_hub).
  { apply (h_post _ _ _ sample_post two_hub 0 opened_session sample_line).
    split_and!; [done|vm_compute; reflexivity|vm_compute; reflexivity|reflexivity| |reflexivity].
    exists sample_line. split; [reflexivity|]. vm_compute. reflexivity. }
  apply (rtc_l _ _ (advance_first posted_hub)); [by apply advance_first_step|].
  apply (rtc_l _ _ (advance_first (advance_first posted_hub))); [by apply advance_first_step|].
  apply (rtc_l _ _ answered_hub); [by apply advance_first_step|].
  apply rtc_once, (h_round _ _ _ GotMessage 0 opened.1.2 answered_hub first_live.1 first_live.2 false).
  - reflexivity.
  - vm_compute. reflexivity.
Qed.

Lemma streams_are_isolated_witness :
  exists uid evs q,
    rbody first_live.2 = stream_text (open_events uid ++ evs) /\
    queue (hb_world delivered_hub) 0 = Some q /\ messages evs ++ q = [sample_line] /\
    Forall (fun a => an_loc a = 0 -> own sample_handler ("sess_" +:+ uid) a) (hb_answers delivered_hub).
Proof.
  destruct (streams_are_isolated (fun r => r) (fun _ => true) sample_handler DefaultManagerConfig 4
    delivered_hub 0 (mkLive first_live.2 false)) as (uid & evs & q & _ & Hq & Ht & _ & Hm & Hown & _).
  - vm_compute. discriminate.
  - exact delivered_hub_reachable.
  - reflexivity.
  - exists uid, evs, q. split; [exact Ht|]. split; [exact Hq|]. split; [exact Hm|exact Hown].
Defined.

Lemma post_alone_is_HandleMessage_witness :
  exists ans, rtc sample_step two_hub
    (mkHub (HandleMessage (fun _ => true) sample_handler sample_post opened_two.1.1 4 newWriter).1.1
       (HandleMessage (fun _ => true) sample_handler sample_post opened_two.1.1 4 newWriter).1.2
       [] (hb_streams two_hub) ans).
Proof.
  destruct (post_alone_is_HandleMessage (fun r => r) (fun _ => true) sample_handler two_hub sample_post 0
    opened_session sample_line) as [ans Hans].
  - split_and!; [done|vm_compute; reflexivity|vm_compute; reflexivity|reflexivity| |reflexivity].
    exists sample_line. split; [reflexivity|]. vm_compute. reflexivity.
  - reflexivity.
  - exists ans. exact Hans.
Defined.
