(* ===== verification/Stdio.v ===== *)
(** * The stdio transport

    Models src/internal/transport/stdio: reader.go, writer.go and server.go. The input is
    the byte string that the standard input still holds, followed by end of file or by an
    error of the operating system. [bufio.Scanner] with [bufio.ScanLines] is modelled with
    its limit on the length of a line and its behaviour after an error; decoding and
    checking JSON are arguments. [ReadMessage] calls itself on an empty line, and Go keeps
    the frame of the caller: its first argument is the number of nested calls that the stack of
    the goroutine has room for, [None] the fatal error when it has no more. *)

From Stdlib Require Import ZArith Lia Ascii.
From stdpp Require Import base list gmap sets strings numbers relations.
From S2P Require Import Prelude Json GoText Session Config Transport.

(** ** bufio.Scanner *)

(** [Stopped]: an error or end of file was met; [held] is what the buffer still holds. *)
Inductive Scanner : Type :=
| Scanning (rest : string)
| Stopped (held : string) (err : option string).

(** The first line and what follows its line break. *)
Fixpoint cut_line (s : string) : option (string * string) :=
  match s with
  | "" => None
  | String a s =>
      if bool_decide (a = ascii_of_N 10) then Some ("", s)
      else match cut_line s with
           | Some (l, rest) => Some (String a l, rest)
           | None => None
           end
  end.

(** A carriage return at the end of a line is dropped. *)
Fixpoint dropCR (s : string) : string :=
  match s with
  | "" => ""
  | String a "" => if bool_decide (a = ascii_of_N 13) then "" else String a ""
  | String a s => String a (dropCR s)
  end.

Definition ErrTooLong : string := "bufio.Scanner: token too long".

(** The initial buffer has 64 KiB, and a line break must be found in a full buffer. *)
Definition DefaultMaxMessageSize : Z := 1048576.
Definition buffer_limit (maxSize : Z) : Z := Z.max maxSize 65536.

Section Reader.

Context (maxSize : Z).
(** The error after the last byte of the input; [None] is end of file. *)
Context (input_err : option string).
Context (json_valid : string -> bool).

Definition fits (s : string) : bool := (Z.of_nat (String.length s) <? buffer_limit maxSize)%Z.

(** [Scan] and the token it leaves; [None] when it returns false. *)
Definition Scan (sc : Scanner) : Scanner * option string :=
  match sc with
  | Scanning rest =>
      match cut_line rest with
      | Some (l, rest') =>
          if fits l then (Scanning rest', Some (dropCR l))
          else (Stopped (String.substring 0 (Z.to_nat (buffer_limit maxSize)) rest)
                  (Some ErrTooLong), None)
      | None =>
          if fits rest then
            (Stopped "" input_err, if bool_decide (rest = "") then None else Some (dropCR rest))
          else (Stopped (String.substring 0 (Z.to_nat (buffer_limit maxSize)) rest)
                  (Some ErrTooLong), None)
      end
  | Stopped held err =>
      if bool_decide (held = "") then (sc, None)
      else (Stopped "" err, Some (dropCR held))
  end.

(** [Err]. *)
Definition scan_err (sc : Scanner) : option string :=
  match sc with Scanning _ => None | Stopped _ err => err end.

(** ** Reader *)

Inductive read_error : Type :=
| ReadEOF
| ReadErr (msg : string).

(** Bytes that [Scan] can still turn into tokens. *)
Definition scan_measure (sc : Scanner) : nat :=
  match sc with
  | Scanning rest => S (String.length rest)
  | Stopped held _ => if bool_decide (held = "") then 0 else 1
  end.

(** [ReadMessage] with room for [frames] nested calls on the stack; [None] is its overflow. *)
Fixpoint ReadMessage (frames : nat) (sc : Scanner) : option (Scanner * result read_error string) :=
  match frames with
  | 0 => None
  | S frames =>
      match Scan sc with
      | (sc, None) =>
          Some (sc, match scan_err sc with
                    | Some e => Err (ReadErr ("reading input: " +:+ e))
                    | None => Err ReadEOF
                    end)
      | (sc, Some line) =>
          if bool_decide (line = "") then ReadMessage frames sc
          else if json_valid line then Some (sc, Ok line)
          else Some (sc, Err (ReadErr "invalid JSON message"))
      end
  end.

End Reader.

(** [NewReader]. *)
Definition NewReader (input : string) : Scanner := Scanning input.

(** ** Writer *)

(** [Write]: the answers of the two writes and of flushing, [None] for success; what was
    written before a failing write stays written. *)
Record WriteEnv : Type := mkWriteEnv {
  write_data : option string;
  write_newline : option string;
  write_flush : option string
}.

Definition Write (env : WriteEnv) (data out : string) : string * result string unit :=
  match write_data env with
  | Some e => (out, Err e)
  | None =>
      match write_newline env with
      | Some e => (out +:+ data, Err e)
      | None =>
          (out +:+ data +:+ nl,
           match write_flush env with Some e => Err e | None => Ok tt end)
      end
  end.

Definition writes_ok : WriteEnv := mkWriteEnv None None None.

(** ** The loop *)

Section Server.

Context {S : Type}.
(** The room on the stack, the end of the input, [json.Valid]. *)
Context (frames : nat) (input_err : option string) (json_valid : string -> bool).
(** [json.Unmarshal] into a structure with an [ID], and [json.Marshal] of a value. *)
Context (decode_id : string -> option jvalue) (json_text : jvalue -> string).

Definition extractRequestID (msg : string) : jvalue := default JNull (decode_id msg).

Definition writeError (env : WriteEnv) (id : jvalue) (code : Z) (message out : string) : string :=
  (Write env (error_json (json_text id) code message) out).1.

(** What the loop works on: the input, the output, the sessions and the rest of the
    application. *)
Record Loop : Type := mkLoop {
  lp_scan : Scanner;
  lp_out : string;
  lp_world : World;
  lp_app : S
}.

(** What one round of the loop meets: whether shutdown was signalled before it, the clock,
    and the answers of writing. *)
Record RoundEnv : Type := mkRoundEnv {
  signalled : bool;
  roundNow : Time;
  writing : WriteEnv
}.

Definition stack_overflow : string := "fatal error: stack overflow".

Inductive round_result : Type :=
| Continue (lp : Loop)
| Return (lp : Loop)
| Crash (msg : string).

(** A message: counted, handled, answered. *)
Definition process (handler : option (MessageHandler S)) (l : nat) (env : RoundEnv)
    (msg : string) (sc : Scanner) (lp : Loop) : round_result :=
  let world := update (fun s => (incrementRequestCount (roundNow env) s).1) l (lp_world lp) in
  match deref world l with
  | None => Crash "invalid memory address or nil pointer dereference"
  | Some sess =>
      let '(app, res) := match handler with
                         | Some f => f sess msg (lp_app lp)
                         | None => (lp_app lp, Ret (Some msg, None))
                         end in
      match res with
      | Panic m => Crash m
      | Ret (_, Some _) =>
          Continue (mkLoop sc (writeError (writing env) (extractRequestID msg) (-32603)
                                 "Internal error" (lp_out lp)) world app)
      | Ret (Some response, None) =>
          Continue (mkLoop sc (Write (writing env) response (lp_out lp)).1 world app)
      | Ret (None, None) => Continue (mkLoop sc (lp_out lp) world app)
      end
  end.

(** One round of [readLoop] for the session at [l]. *)
Definition read_round (handler : option (MessageHandler S)) (l : nat) (env : RoundEnv)
    (lp : Loop) : round_result :=
  if signalled env then Return lp
  else
    match ReadMessage DefaultMaxMessageSize input_err json_valid frames (lp_scan lp) with
    | None => Crash stack_overflow
    | Some (sc, Err ReadEOF) => Return (mkLoop sc (lp_out lp) (lp_world lp) (lp_app lp))
    | Some (sc, Err (ReadErr _)) =>
        Continue (mkLoop sc (writeError (writing env) JNull (-32700) "Parse error" (lp_out lp))
                    (lp_world lp) (lp_app lp))
    | Some (sc, Ok msg) => process handler l env msg sc lp
    end.

(** [readLoop]: its rounds until it returns or the list of what they meet ends. *)
Fixpoint readLoop (handler : option (MessageHandler S)) (l : nat) (envs : list RoundEnv)
    (lp : Loop) : round_result :=
  match envs with
  | [] => Continue lp
  | env :: envs =>
      match read_round handler l env lp with
      | Continue lp => readLoop handler l envs lp
      | r => r
      end
  end.

(** ** Life cycle *)

(** The server with the sessions it reaches. [loops] counts the running read loops. *)
Record Server : Type := mkServer {
  agent : AgentConfig;
  handler : option (MessageHandler S);
  session : option nat;
  started : bool;
  srv_done : bool;
  loops : nat;
  world : World
}.

Definition NewServer (cfg : AgentConfig) (w : World) : Server :=
  {| agent := cfg; handler := None; session := None; started := false; srv_done := false;
     loops := 0; world := w |}.

Definition SetMessageHandler (f : MessageHandler S) (s : Server) : Server :=
  {| agent := agent s; handler := Some f; session := session s; started := started s;
     srv_done := srv_done s; loops := loops s; world := world s |}.

(** What starting and stopping meet: the identifier and clock of the new session, and
    whether the read loop has ended by the time [Stop] gives up waiting. *)
Record LifeEnv : Type := mkLifeEnv {
  newID : string;
  newAt : Time * Time;
  loopEnded : bool
}.

Definition Start (env : LifeEnv) (s : Server) : Server * result string unit :=
  if started s then (s, Err "server already started")
  else
    match Create (newID env) (newAt env).1 (newAt env).2 (world s) with
    | (w, Err e) =>
        ({| agent := agent s; handler := handler s; session := session s; started := true;
            srv_done := srv_done s; loops := loops s; world := w |},
         Err ("failed to create session: " +:+ e))
    | (w, Ok l) =>
        let w := update (SetAgent (AgentCfg_ID (agent s)) (AgentCfg_Name (agent s))
                           (AgentCfg_Capabilities (agent s))) l w in
        let w := update (SetClientInfo "stdio" "stdio-client") l w in
        ({| agent := agent s; handler := handler s; session := Some l; started := true;
            srv_done := srv_done s; loops := 1 + loops s; world := w |}, Ok tt)
    end.

Definition Stop (env : LifeEnv) (s : Server) : outcome (Server * result string unit) :=
  if negb (started s) then Ret (s, Ok tt)
  else if srv_done s then Panic "close of closed channel"
  else
    let w := match session s with
             | None => world s
             | Some l =>
                 let w := update Close l (world s) in
                 match deref w l with Some sess => Delete (ID sess) w | None => w end
             end in
    Ret ({| agent := agent s; handler := handler s; session := session s; started := false;
            srv_done := true; loops := if loopEnded env then 0 else loops s; world := w |}, Ok tt).

Definition Name : string := "stdio".

End Server.

#[export] Instance stdio_transport {S} : Transport S (Server (S := S)) LifeEnv := {|
  t_Start := Start;
  t_Stop := Stop;
  t_Name _ := Name;
  t_SetMessageHandler := SetMessageHandler;
  t_started := started
|}.

#[export] Instance stdio_laws {S} : TransportLaws S (Server (S := S)) LifeEnv.
Proof.
  split; cbn.
  - intros e s Hs. unfold Start. by rewrite Hs.
  - intros e s. unfold Start. destruct (started s) eqn:Hs; [done|].
    by destruct (Create _ _ _ _) as [w [l|err]].
  - intros e s Hs. unfold Stop. by rewrite Hs.
  - intros e s s' r. unfold Stop. destruct (started s) eqn:Hs; cbn [negb].
    + destruct (srv_done s); [done|]. by intros [= <- _].
    + by intros [= <- _].
  - done.
Qed.

(** ** Reading *)

Lemma cut_line_length s l rest :
  cut_line s = Some (l, rest) -> String.length l + S (String.length rest) = String.length s.
Proof.
  revert l. induction s as [|a s IH]; intros l; cbn [cut_line]; [done|].
  case_bool_decide; [intros [= <- <-]; done|].
  destruct (cut_line s) as [[l' r]|]; [|done]. intros [= <- <-]. cbn [String.length].
  rewrite <- (IH l' eq_refl). lia.
Qed.

Lemma dropCR_length s : String.length s <= S (String.length (dropCR s)).
Proof.
  induction s as [|a s IH]; [cbn; lia|]. destruct s as [|b s].
  - cbn [dropCR]. case_bool_decide; cbn; lia.
  - change (dropCR (String a (String b s))) with (String a (dropCR (String b s))).
    cbn [String.length] in *. lia.
Qed.

Lemma cut_line_app l t : no_newline l -> cut_line (l +:+ nl +:+ t) = Some (l, t).
Proof.
  induction l as [|a l IH]; intros Hl; [done|].
  rewrite str_app_cons. cbn [cut_line]. unfold no_newline in *. cbn [bytes_of] in Hl.
  rewrite not_elem_of_cons in Hl. destruct Hl as [Ha Hl].
  rewrite bool_decide_eq_false_2 by done. by rewrite IH.
Qed.

Section Reading.

Context (maxSize : Z) (input_err : option string) (json_valid : string -> bool).

Lemma Scan_measure sc sc' line :
  Scan maxSize input_err sc = (sc', Some line) -> scan_measure sc' < scan_measure sc.
Proof.
  unfold Scan. destruct sc as [rest|held err].
  - destruct (cut_line rest) as [[l rest']|] eqn:Hc.
    + apply cut_line_length in Hc. destruct (fits maxSize l); intros [= <- _]. cbn [scan_measure]. lia.
    + destruct (fits maxSize rest); [|done]. intros [= <- _]. cbn [scan_measure]. rewrite bool_decide_eq_true_2 by done. lia.
  - case_bool_decide as Hh; [done|]. intros [= <- _]. cbn [scan_measure].
    rewrite bool_decide_eq_true_2, (bool_decide_eq_false_2 (held = "")) by done. lia.
Qed.

(** [n] empty lines, and what comes after them. *)
Inductive skips : nat -> Scanner -> Scanner -> Prop :=
| skips_none sc : skips 0 sc sc
| skips_line n sc sc' sc'' :
    Scan maxSize input_err sc = (sc', Some "") -> skips n sc' sc'' -> skips (S n) sc sc''.

(** Every run of empty lines ends. *)
Lemma skips_all sc :
  exists n sc', skips n sc sc' /\ (Scan maxSize input_err sc').2 <> Some "" /\ n <= scan_measure sc.
Proof.
  remember (scan_measure sc) as k eqn:Hk. revert sc Hk.
  induction (lt_wf k) as [k _ IH]. intros sc ->.
  destruct (Scan maxSize input_err sc) as [sc1 [line|]] eqn:Hs.
  2:{ exists 0, sc. split; [constructor|]. rewrite Hs. split; [done|lia]. }
  destruct (decide (line = "")) as [->|Hne].
  2:{ exists 0, sc. split; [constructor|]. rewrite Hs. split; [naive_solver|lia]. }
  pose proof (Scan_measure _ _ _ Hs) as Hlt.
  destruct (IH (scan_measure sc1) Hlt sc1 eq_refl) as (n & sc' & Hn & Hend & Hle).
  exists (S n), sc'. split; [by econstructor|]. split; [done|lia].
Qed.

(** What one call makes of a scanner that has no empty line in front. *)
Definition read_here (sc : Scanner) : Scanner * result read_error string :=
  match Scan maxSize input_err sc with
  | (sc, None) =>
      (sc, match scan_err sc with
           | Some e => Err (ReadErr ("reading input: " +:+ e))
           | None => Err ReadEOF
           end)
  | (sc, Some line) =>
      (sc, if json_valid line then Ok line else Err (ReadErr "invalid JSON message"))
  end.

Lemma ReadMessage_skips n sc sc' frames :
  skips n sc sc' -> (Scan maxSize input_err sc').2 <> Some "" ->
  ReadMessage maxSize input_err json_valid frames sc
  = if (n <? frames)%nat then Some (read_here sc') else None.
Proof.
  intros Hn Hend. revert frames. induction Hn as [sc|n sc sc1 sc2 Hs Hn IH]; intros [|frames]; try done.
  - cbn [ReadMessage Nat.ltb Nat.leb]. unfold read_here.
    destruct (Scan maxSize input_err sc) as [sc' [line|]]; [|done].
    rewrite bool_decide_eq_false_2 by (cbn in Hend; congruence). by destruct (json_valid line).
  - cbn [ReadMessage]. rewrite Hs, bool_decide_eq_true_2 by done. by rewrite IH.
Qed.

(** C33: Reading a message recurses once for every empty line, and that ends: with [n] empty
    lines in front, which are at most as many as there are bytes left, the call needs room for
    [n + 1] frames. Given that, it returns what comes after the empty lines: the line, if it is
    JSON, an error, or the end of the input; otherwise the stack overflows. *)
Theorem ReadMessage_terminates (sc : Scanner) :
  exists n sc', skips n sc sc' /\ (Scan maxSize input_err sc').2 <> Some "" /\
    n <= scan_measure sc /\
    forall frames, ReadMessage maxSize input_err json_valid frames sc
      = if (n <? frames)%nat then
          Some match Scan maxSize input_err sc' with
               | (sc2, None) =>
                   (sc2, match scan_err sc2 with
                         | Some e => Err (ReadErr ("reading input: " +:+ e))
                         | None => Err ReadEOF
                         end)
               | (sc2, Some line) =>
                   (sc2, if json_valid line then Ok line else Err (ReadErr "invalid JSON message"))
               end
        else None.
Proof.
  destruct (skips_all sc) as (n & sc' & Hn & Hend & Hle). exists n, sc'.
  split; [done|]. split; [done|]. split; [done|]. intros frames. by eapply ReadMessage_skips.
Qed.

(** A message that [Write] frames and [ReadMessage] reads back. *)
Record framed (m : string) : Prop := {
  fr_line : no_newline m;
  fr_cr : dropCR m = m;
  fr_some : m <> "";
  fr_fits : fits maxSize m = true;
  fr_json : json_valid m = true
}.

Definition lines_text (ms : list string) : string := foldr (fun m t => m +:+ nl +:+ t) "" ms.

Lemma ReadMessage_line frames m t :
  framed m -> 0 < frames ->
  ReadMessage maxSize input_err json_valid frames (Scanning (m +:+ nl +:+ t))
  = Some (Scanning t, Ok m).
Proof.
  intros [H1 H2 H3 H4 H5] Hf. destruct frames; [lia|]. cbn [ReadMessage Scan].
  rewrite cut_line_app, H4, H2 by done. by rewrite bool_decide_eq_false_2, H5.
Qed.

(** The first results of reading. *)
Fixpoint read_results (frames n : nat) (sc : Scanner) : list (result read_error string) :=
  match n with
  | 0 => []
  | S n =>
      match ReadMessage maxSize input_err json_valid frames sc with
      | Some (sc, r) => r :: read_results frames n sc
      | None => []
      end
  end.

Lemma read_results_lines frames ms n :
  0 < frames -> Forall framed ms ->
  read_results frames (length ms + n) (Scanning (lines_text ms))
  = map Ok ms ++ read_results frames n (Scanning "").
Proof.
  intros Hf. induction 1 as [|m ms Hm _ IH]; [done|]. cbn [length Nat.add read_results map app].
  change (lines_text (m :: ms)) with (m +:+ nl +:+ lines_text ms).
  rewrite ReadMessage_line by done. by rewrite IH.
Qed.

End Reading.

Lemma fits_empty maxSize : fits maxSize "" = true.
Proof. unfold fits, buffer_limit. apply Z.ltb_lt. cbn. lia. Qed.

(** At the end of the input. *)
Lemma ReadMessage_end maxSize json_valid frames :
  0 < frames ->
  ReadMessage maxSize None json_valid frames (Scanning "") = Some (Stopped "" None, Err ReadEOF).
Proof.
  intros Hf. destruct frames; [lia|]. cbn [ReadMessage Scan cut_line]. by rewrite fits_empty.
Qed.

Lemma Write_all ms out :
  foldl (fun out m => (Write writes_ok m out).1) out ms = out +:+ lines_text ms.
Proof.
  revert out. induction ms as [|m ms IH]; intros out; cbn [foldl].
  - by rewrite str_app_nil_r.
  - rewrite IH. cbn. by rewrite !str_app_assoc.
Qed.

(** C35: What the writer frames the reader reads back: messages written one after the other
    come out of the reader unchanged and in order, followed by the end of the input, as long
    as each is JSON on one line within the limit; no room for a nested call is needed. *)
Theorem write_read_roundtrip (maxSize : Z) (json_valid : string -> bool) (frames : nat)
    (ms : list string) (Hf : 0 < frames) (Hms : Forall (framed maxSize json_valid) ms) :
  read_results maxSize None json_valid frames (length ms + 1)
    (NewReader (foldl (fun out m => (Write writes_ok m out).1) "" ms))
  = map Ok ms ++ [Err ReadEOF].
Proof.
  rewrite Write_all, str_app_nil_l. unfold NewReader. rewrite read_results_lines by done.
  cbn [read_results]. by rewrite ReadMessage_end.
Qed.

(** ** The loop *)

Section Loops.

Context {S : Type} (frames : nat) (frames_pos : 0 < frames) (json_valid : string -> bool).
Context (decode_id : string -> option jvalue) (json_text : jvalue -> string).
Context (handler : option (MessageHandler S)) (l : nat).

Definition good (m : string) : Prop := framed DefaultMaxMessageSize json_valid m.

(** Handling the messages of a list in order, one round each. *)
Fixpoint serve (ms : list string) (envs : list RoundEnv) (lp : Loop) : round_result (S := S) :=
  match ms, envs with
  | m :: ms, env :: envs =>
      match process decode_id json_text handler l env m (Scanning (lines_text ms)) lp with
      | Continue lp => serve ms envs lp
      | r => r
      end
  | _, _ => Continue lp
  end.

Lemma process_scan env m sc lp lp' :
  process decode_id json_text handler l env m sc lp = Continue lp' -> lp_scan lp' = sc.
Proof.
  unfold process. destruct (deref _ _); [|done].
  destruct (match handler with Some _ => _ | None => _ end) as [app [[[r|] [e|]]|msg]];
    by try intros [= <-].
Qed.

(** C34: Served completely: on an input of messages, each JSON on one line within the limit,
    the loop handles exactly these messages in order, one round each, and returns in the
    round after the last one, unless the handler panics; with the loop's effect on output,
    sessions and application being that of handling the list. *)
Theorem readLoop_serves_all (ms : list string) (envs : list RoundEnv) (last : RoundEnv)
    (lp : Loop (S := S)) (Hms : Forall good ms) (Hlen : length envs = length ms)
    (Hgo : Forall (fun e => signalled e = false) (envs ++ [last]))
    (Hin : lp_scan lp = Scanning (lines_text ms)) :
  readLoop frames None json_valid decode_id json_text handler l (envs ++ [last]) lp
  = match serve ms envs lp with
    | Continue lp' => Return (mkLoop (Stopped "" None) (lp_out lp') (lp_world lp') (lp_app lp'))
    | r => r
    end.
Proof.
  revert envs lp Hlen Hgo Hin.
  induction Hms as [|m ms Hm _ IH]; intros [|env envs] lp Hlen Hgo Hin; try done;
    cbn [app readLoop serve]; inversion Hgo as [|? ? He Hgo']; subst;
    unfold read_round; rewrite He, Hin.
  - by rewrite ReadMessage_end.
  - change (lines_text (m :: ms)) with (m +:+ nl +:+ lines_text ms).
    rewrite ReadMessage_line by done.
    destruct (process _ _ _ _ _ _ _ _) as [lp'|lp'|msg] eqn:Hp; [|done..].
    apply IH; [by injection Hlen|done|by eapply process_scan].
Qed.

(** The answer to a message that cannot be read. *)
Definition parse_error : string := error_json (json_text JNull) (-32700) "Parse error".

Definition quiet_round (t : Time) : RoundEnv := mkRoundEnv false t writes_ok.

(** States in which every round ends in a read error. *)
Definition stuck (sc : Scanner) : Prop :=
  (exists e, sc = Stopped "" (Some e))
  \/ (exists held e, sc = Stopped held (Some e) /\ held <> "" /\ dropCR held <> ""
                      /\ json_valid (dropCR held) = false).

Lemma stuck_round t lp :
  stuck (lp_scan lp) ->
  exists sc, stuck sc
    /\ read_round frames None json_valid decode_id json_text handler l (quiet_round t) lp
       = Continue (mkLoop sc (lp_out lp +:+ parse_error +:+ nl) (lp_world lp) (lp_app lp)).
Proof.
  intros [[e He]|(held & e & He & Hh & Hd & Hj)]; unfold read_round; cbn [signalled quiet_round];
    rewrite He; destruct frames as [|f]; [lia| |lia|]; cbn [ReadMessage Scan].
  - rewrite bool_decide_eq_true_2 by done. cbn [scan_err]. exists (Stopped "" (Some e)). split; [left; by eexists|done].
  - rewrite (bool_decide_eq_false_2 (held = "")), (bool_decide_eq_false_2 (dropCR held = "")), Hj
      by done.
    exists (Stopped "" (Some e)). split; [left; by eexists|done].
Qed.

Lemma stuck_loop ts lp :
  stuck (lp_scan lp) ->
  exists sc,
    readLoop frames None json_valid decode_id json_text handler l (map quiet_round ts) lp
    = Continue (mkLoop sc (lp_out lp +:+ Repeat (parse_error +:+ nl) (length ts)) (lp_world lp)
                  (lp_app lp)).
Proof.
  revert lp. induction ts as [|t ts IH]; intros lp Hs; cbn [map readLoop length Repeat].
  - exists (lp_scan lp). rewrite str_app_nil_r. by destruct lp.
  - destruct (stuck_round t lp Hs) as (sc & Hsc & ->).
    destruct (IH (mkLoop sc (lp_out lp +:+ parse_error +:+ nl) (lp_world lp) (lp_app lp)) Hsc)
      as [sc' ->].
    exists sc'. cbn [lp_out lp_world lp_app]. by rewrite !str_app_assoc.
Qed.

(** A line that does not fit the buffer stalls the transport for good: the loop never
    returns, reads nothing more, and writes a parse error in every round, as often as it
    runs. *)
Theorem oversized_line_loops_forever (input out : string) (w : World) (app : S)
    (ts : list Time)
    (Hlong : match cut_line input with
             | Some (line, _) => fits DefaultMaxMessageSize line = false
             | None => fits DefaultMaxMessageSize input = false
             end)
    (Hjson : json_valid (dropCR (String.substring 0
               (Z.to_nat (buffer_limit DefaultMaxMessageSize)) input)) = false) :
  exists sc,
    readLoop frames None json_valid decode_id json_text handler l (map quiet_round ts)
      (mkLoop (NewReader input) out w app)
    = Continue (mkLoop sc (out +:+ Repeat (parse_error +:+ nl) (length ts)) w app).
Proof.
  destruct ts as [|t ts].
  { exists (NewReader input). cbn. by rewrite str_app_nil_r. }
  set (held := String.substring 0 (Z.to_nat (buffer_limit DefaultMaxMessageSize)) input).
  assert (Z.of_nat (String.length held) = buffer_limit DefaultMaxMessageSize) as Hlen.
  { unfold held. rewrite substring_length; [unfold buffer_limit; lia|].
    unfold fits in Hlong. destruct (cut_line input) as [[line rest]|] eqn:Hc.
    - apply cut_line_length in Hc. apply Z.ltb_ge in Hlong. lia.
    - apply Z.ltb_ge in Hlong. lia. }
  assert (Scan DefaultMaxMessageSize None (NewReader input) = (Stopped held (Some ErrTooLong), None)) as Hscan.
  { cbn [Scan NewReader]. destruct (cut_line input) as [[line rest]|]; by rewrite Hlong. }
  assert (stuck (Stopped held (Some ErrTooLong))) as Hst.
  { right. exists held, ErrTooLong. pose proof (dropCR_length held) as Hd.
    unfold buffer_limit, DefaultMaxMessageSize in Hlen. split_and!; [done|..].
    - intros ->. cbn in Hlen. lia.
    - intros E. rewrite E in Hd. cbn in Hd. lia.
    - exact Hjson. }
  cbn [map readLoop]. unfold read_round. cbn [signalled quiet_round lp_scan].
  assert (ReadMessage DefaultMaxMessageSize None json_valid frames (NewReader input)
    = Some (Stopped held (Some ErrTooLong), Err (ReadErr ("reading input: " +:+ ErrTooLong)))) as ->.
  { destruct frames; [lia|]. cbn [ReadMessage]. by rewrite Hscan. }
  destruct (stuck_loop ts (mkLoop (Stopped held (Some ErrTooLong)) (out +:+ parse_error +:+ nl) w app) Hst)
    as [sc Hsc].
  exists sc. etransitivity; [exact Hsc|]. cbn [lp_out lp_world lp_app length Repeat].
  by rewrite !str_app_assoc.
Qed.

(** Enough empty lines kill the process: as many as the stack has room for nested calls, whatever
    follows them. *)
Theorem empty_lines_overflow_stack (rest out : string) (w : World) (app : S) (env : RoundEnv)
    (envs : list RoundEnv) (Hgo : signalled env = false) :
  readLoop frames None json_valid decode_id json_text handler l (env :: envs)
    (mkLoop (NewReader (Repeat nl frames +:+ rest)) out w app) = Crash stack_overflow.
Proof.
  cbn [readLoop]. unfold read_round. rewrite Hgo. cbn [lp_scan].
  assert (forall n, ReadMessage DefaultMaxMessageSize None json_valid n
            (NewReader (Repeat nl n +:+ rest)) = None) as ->; [|done].
  induction n as [|n IH]; [done|]. cbn [Repeat]. rewrite str_app_assoc.
  change (nl +:+ (Repeat nl n +:+ rest)) with ("" +:+ nl +:+ (Repeat nl n +:+ rest)).
  unfold NewReader in *. cbn [ReadMessage Scan].
  rewrite cut_line_app by (by apply not_elem_of_nil). rewrite fits_empty. cbn [dropCR].
  by rewrite bool_decide_eq_true_2.
Qed.

End Loops.

(** ** Witnesses *)

Definition sample_agent : AgentConfig := mkAgent "agent-1" "Agent" (Some ["tools"]) "" "" None.

Definition sample_message : string := "{" +:+ dq +:+ "id" +:+ dq +:+ ":1}".

Lemma sample_framed : framed DefaultMaxMessageSize (fun _ => true) sample_message.
Proof. split; [by apply (bool_decide_unpack _)|reflexivity|done|reflexivity|reflexivity]. Qed.

Lemma write_read_roundtrip_witness :
  read_results DefaultMaxMessageSize None (fun _ => true) 1 3
    (NewReader (foldl (fun out m => (Write writes_ok m out).1) "" [sample_message; sample_message]))
  = [Ok sample_message; Ok sample_message; Err ReadEOF].
Proof.
  apply (write_read_roundtrip DefaultMaxMessageSize (fun _ => true) 1 [sample_message; sample_message]);
    [lia|].
  repeat (constructor; [exact sample_framed|]). constructor.
Defined.

(** A handler that counts and answers with the message. *)
Definition echo : MessageHandler nat := fun _ m n => (1 + n, Ret (Some m, None)).

Definition sample_loop : Loop (S := nat) :=
  mkLoop (Scanning (lines_text [sample_message])) "" one_session 0.

Definition round_env : RoundEnv := mkRoundEnv false 5 writes_ok.

Lemma readLoop_serves_all_witness :
  match readLoop 1 None (fun _ => true) (fun _ => None) (fun _ => "null") (Some echo) 0
          [round_env; round_env] sample_loop with
  | Return lp => lp_out lp = sample_message +:+ nl /\ lp_app lp = 1
  | _ => False
  end.
Proof.
  pose proof (readLoop_serves_all 1 ltac:(lia) (fun _ => true) (fun _ => None) (fun _ => "null") (Some echo) 0
    [sample_message] [round_env] round_env sample_loop) as H.
  cbn [app] in H. rewrite H.
  - vm_compute. done.
  - constructor; [exact sample_framed|constructor].
  - reflexivity.
  - repeat constructor.
  - reflexivity.
Defined.

Lemma cut_line_none s : no_newline s -> cut_line s = None.
Proof.
  induction s as [|a s IH]; intros Hs; [done|]. cbn [cut_line]. unfold no_newline in *.
  cbn [bytes_of] in Hs. rewrite not_elem_of_cons in Hs. destruct Hs as [Ha Hs].
  rewrite bool_decide_eq_false_2 by done. by rewrite IH.
Qed.

Definition long_line : string := of_bytes (replicate (Z.to_nat DefaultMaxMessageSize) "x"%char).

Lemma long_line_too_long :
  match cut_line long_line with
  | Some (line, _) => fits DefaultMaxMessageSize line = false
  | None => fits DefaultMaxMessageSize long_line = false
  end.
Proof.
  rewrite cut_line_none.
  - unfold fits, long_line, buffer_limit. rewrite length_of_bytes, length_replicate.
    apply Z.ltb_ge. unfold DefaultMaxMessageSize. lia.
  - unfold no_newline, long_line. rewrite bytes_of_of. by intros [? _]%elem_of_replicate.
Qed.

Lemma oversized_line_loops_forever_witness :
  exists sc,
    readLoop 1 None (fun _ => false) (fun _ => None) (fun _ => "null") (Some echo) 0
      (map quiet_round [1%Z; 2%Z; 3%Z]) (mkLoop (NewReader long_line) "" one_session 0)
    = Continue (mkLoop sc ("" +:+ Repeat (parse_error (fun _ => "null") +:+ nl) 3) one_session 0).
Proof.
  apply (oversized_line_loops_forever 1 ltac:(lia) (fun _ => false) (fun _ => None) (fun _ => "null")
    (Some echo) 0 long_line "" one_session 0 [1%Z; 2%Z; 3%Z]).
  - exact long_line_too_long.
  - reflexivity.
Defined.
