(* ===== verification/Observability.v ===== *)
(** * Health checks, metrics and their server

    Models src/internal/observability: health.go (registered checkers, the concurrent run of
    all of them, the three HTTP handlers), metrics.go (the registered metrics and the calls
    that update them) and server.go, and [initLogger] of src/cmd/proxy/main.go. A checker is
    its answer in a run; the goroutines of [checkAll] are cut at the mutex and interleave in
    the relation [hstep]. *)

From Stdlib Require Import ZArith Ascii Lia.
From stdpp Require Import base list gmap sets strings numbers relations.
From S2P Require Import Prelude Json GoText Config.

(** ** Health (health.go) *)

(** [HealthStatus] is a string type. *)
Definition HealthStatusHealthy : string := "healthy".
Definition HealthStatusDegraded : string := "degraded".
Definition HealthStatusUnhealthy : string := "unhealthy".

Record ComponentHealth : Type := mkComponent {
  Status : string;
  HealthMessage : string;
  Latency : string
}.

Record HealthResponse : Type := mkHealthResponse {
  ResponseStatus : string;
  Timestamp : Time;
  ResponseVersion : string;
  Components : gmap string ComponentHealth
}.

(** A checker, as what it answers and how long it takes in a run. *)
Definition HealthChecker : Type := ComponentHealth * string.

Record Health : Type := mkHealthState {
  version : string;
  checkers : gmap string HealthChecker;
  ready : bool
}.

Definition NewHealth (v : string) : Health :=
  {| version := v; checkers := ∅; ready := false |}.

Definition RegisterChecker (name : string) (c : HealthChecker) (h : Health) : Health :=
  {| version := version h; checkers := <[name := c]> (checkers h); ready := ready h |}.

Definition SetReady (r : bool) (h : Health) : Health :=
  {| version := version h; checkers := checkers h; ready := r |}.

Definition IsReady (h : Health) : bool := ready h.

(** *** checkAll *)

(** What the goroutines share under the mutex. *)
Record Shared : Type := mkShared {
  components : gmap string ComponentHealth;
  hasUnhealthy : bool;
  hasDegraded : bool
}.

Definition shared0 : Shared := {| components := ∅; hasUnhealthy := false; hasDegraded := false |}.

(** The critical section of the goroutine of one checker. *)
Definition record_result (name : string) (c : HealthChecker) (s : Shared) : Shared :=
  let result := {| Status := Status c.1; HealthMessage := HealthMessage c.1; Latency := c.2 |} in
  {| components := <[name := result]> (components s);
     hasUnhealthy := bool_decide (Status result = HealthStatusUnhealthy) || hasUnhealthy s;
     hasDegraded := negb (bool_decide (Status result = HealthStatusUnhealthy))
                    && bool_decide (Status result = HealthStatusDegraded) || hasDegraded s |}.

(** The goroutines that have not recorded their result, and the shared state. *)
Definition hstate : Type := gmap string HealthChecker * Shared.

Inductive hstep : hstate -> hstate -> Prop :=
| h_record name c todo s :
    todo !! name = Some c -> hstep (todo, s) (delete name todo, record_result name c s).

(** The overall status after [wg.Wait]. *)
Definition overall (s : Shared) : string :=
  if hasUnhealthy s then HealthStatusUnhealthy
  else if hasDegraded s then HealthStatusDegraded
  else HealthStatusHealthy.

(** [checkAll] for goroutines that finish in the given order. *)
Definition run_checks (order : list (string * HealthChecker)) : Shared :=
  foldl (fun s p => record_result p.1 p.2 s) shared0 order.

Definition checkAll (now : Time) (order : list (string * HealthChecker)) (h : Health)
    : HealthResponse :=
  let s := run_checks order in
  {| ResponseStatus := overall s; Timestamp := now; ResponseVersion := version h;
     Components := components s |}.

(** *** Handlers *)

(** Status code and body of a response. *)
Definition LivenessHandler (now : Time) (h : Health) : Z * HealthResponse :=
  (200%Z, {| ResponseStatus := HealthStatusHealthy; Timestamp := now;
             ResponseVersion := version h; Components := ∅ |}).

Definition status_code (r : HealthResponse) : Z :=
  if bool_decide (ResponseStatus r = HealthStatusUnhealthy) then 503%Z else 200%Z.

Definition FullHealthHandler (now : Time) (order : list (string * HealthChecker)) (h : Health)
    : Z * HealthResponse :=
  let r := checkAll now order h in (status_code r, r).

Definition ReadinessHandler (now : Time) (order : list (string * HealthChecker)) (h : Health)
    : Z * HealthResponse :=
  if negb (IsReady h) then
    (503%Z, {| ResponseStatus := HealthStatusUnhealthy; Timestamp := now;
               ResponseVersion := version h; Components := ∅ |})
  else FullHealthHandler now order h.

(** *** Common checkers *)

Definition DatabaseChecker (ping : option string) : ComponentHealth :=
  match ping with
  | Some err => mkComponent HealthStatusUnhealthy ("database unreachable: " +:+ err) ""
  | None => mkComponent HealthStatusHealthy "connected" ""
  end.

Definition UpstreamChecker (isConnected : bool) : ComponentHealth :=
  if negb isConnected then
    mkComponent HealthStatusDegraded "upstream disconnected - operating in standalone mode" ""
  else mkComponent HealthStatusHealthy "connected" "".

Definition PolicyEngineChecker (isReady : bool) : ComponentHealth :=
  if negb isReady then mkComponent HealthStatusUnhealthy "policy engine not initialized" ""
  else mkComponent HealthStatusHealthy "ready" "".

(** ** Metrics (metrics.go) *)

Inductive metric_kind : Type := Counter | Gauge | Histogram.

(** The fields of [Metrics]. *)
Inductive metric : Type :=
| RequestsTotal | RequestDuration | RequestsInFlight
| ActiveSessions | SessionsTotal | SessionDuration
| PolicyDecisions | PolicyEvaluation | PolicyCacheHits | PolicyCacheMisses
| UpstreamRequests | UpstreamDuration | UpstreamConnected
| AuditRecordsWritten | AuditRecordsDropped | AuditBufferSize | AuditFlushes.

#[export] Instance metric_eq : EqDecision metric.
Proof. solve_decision. Defined.

(** Name, kind and labels with which [NewMetrics] registers a metric. *)
Definition descriptor (m : metric) : string * metric_kind * list string :=
  match m with
  | RequestsTotal => ("requests_total", Counter, ["method"; "tool"; "allowed"])
  | RequestDuration => ("request_duration_seconds", Histogram, ["method"])
  | RequestsInFlight => ("requests_in_flight", Gauge, [])
  | ActiveSessions => ("sessions_active", Gauge, [])
  | SessionsTotal => ("sessions_total", Counter, ["transport"])
  | SessionDuration => ("session_duration_seconds", Histogram, [])
  | PolicyDecisions => ("policy_decisions_total", Counter, ["decision"; "rule"; "mode"])
  | PolicyEvaluation => ("policy_evaluation_seconds", Histogram, [])
  | PolicyCacheHits => ("policy_cache_hits_total", Counter, [])
  | PolicyCacheMisses => ("policy_cache_misses_total", Counter, [])
  | UpstreamRequests => ("upstream_requests_total", Counter, ["status"])
  | UpstreamDuration => ("upstream_request_duration_seconds", Histogram, [])
  | UpstreamConnected => ("upstream_connected", Gauge, [])
  | AuditRecordsWritten => ("audit_records_written_total", Counter, [])
  | AuditRecordsDropped => ("audit_records_dropped_total", Counter, [])
  | AuditBufferSize => ("audit_buffer_size", Gauge, [])
  | AuditFlushes => ("audit_flushes_total", Counter, [])
  end.

(** The order of registration. *)
Definition registration : list metric :=
  [RequestsTotal; RequestDuration; RequestsInFlight; ActiveSessions; SessionsTotal;
   SessionDuration; PolicyDecisions; PolicyEvaluation; PolicyCacheHits; PolicyCacheMisses;
   UpstreamRequests; UpstreamDuration; UpstreamConnected; AuditRecordsWritten;
   AuditRecordsDropped; AuditBufferSize; AuditFlushes].

(** The full name of a metric. *)
Definition full_name (namespace : string) (m : metric) : string :=
  namespace +:+ "_" +:+ (descriptor m).1.1.

(** [promauto] panics on a name that is registered already. *)
Fixpoint register_all (namespace : string) (ms : list metric) (registry : list string)
    : outcome (list string) :=
  match ms with
  | [] => Ret registry
  | m :: ms =>
      if bool_decide (full_name namespace m ∈ registry)
      then Panic "duplicate metrics collector registration attempted"
      else register_all namespace ms (full_name namespace m :: registry)
  end.

Definition NewMetrics (namespace : string) (registry : list string) : outcome (list string) :=
  register_all (if bool_decide (namespace = "") then "mcp_proxy" else namespace) registration
    registry.

(** One update of a metric: with label values, by [Inc], [Observe], [Set] or [Add]. *)
Inductive update_kind : Type := Inc | Observe | SetTo | Add.

Record metric_update : Type := mkUpdate {
  updated : metric;
  labels : list string;
  by_ : update_kind
}.

Definition RecordRequest (method tool : string) (allowed : bool) : list metric_update :=
  [mkUpdate RequestsTotal [method; tool; if allowed then "true" else "false"] Inc;
   mkUpdate RequestDuration [method] Observe].

Definition RecordPolicyDecision (allowed : bool) (rule mode : string) : list metric_update :=
  [mkUpdate PolicyDecisions [if allowed then "allow" else "deny"; rule; mode] Inc;
   mkUpdate PolicyEvaluation [] Observe].

(** [positive] says that the duration is greater than zero. *)
Definition RecordSession (transport : string) (positive : bool) : list metric_update :=
  mkUpdate SessionsTotal [transport] Inc
  :: if positive then [mkUpdate SessionDuration [] Observe] else [].

Definition RecordUpstreamRequest (status : string) : list metric_update :=
  [mkUpdate UpstreamRequests [status] Inc; mkUpdate UpstreamDuration [] Observe].

Definition UpdateAuditStats : list metric_update := [mkUpdate AuditBufferSize [] SetTo].
Definition IncrementAuditWritten : list metric_update := [mkUpdate AuditRecordsWritten [] Add].
Definition IncrementAuditDropped : list metric_update := [mkUpdate AuditRecordsDropped [] Add].
Definition IncrementAuditFlushes : list metric_update := [mkUpdate AuditFlushes [] Inc].

(** An update the client library accepts: as many values as labels, and an operation of
    the metric's kind; [WithLabelValues] panics on a wrong number. *)
Definition kind_allows (k : metric_kind) (u : update_kind) : bool :=
  match k, u with
  | Counter, (Inc | Add) | Gauge, (Inc | SetTo | Add) | Histogram, Observe => true
  | _, _ => false
  end.

Definition update_ok (u : metric_update) : bool :=
  let '(_, k, ls) := descriptor (updated u) in
  (length (labels u) =? length ls) && kind_allows k (by_ u).

(** ** The observability server (server.go) *)

Record ObsConfig : Type := mkObsConfig {
  MetricsEnabled : bool;
  MetricsPath : string;
  HealthEnabled : bool;
  Obs_LivenessPath : string;
  Obs_ReadinessPath : string
}.

Record ObsServer : Type := mkObsServer {
  obs_cfg : ObsConfig;
  metricsServer : bool;
  healthServer : bool
}.

Definition NewObsServer (cfg : ObsConfig) : ObsServer :=
  {| obs_cfg := cfg; metricsServer := false; healthServer := false |}.

(** What [parsePattern] of net/http refuses of a pattern without a method and without braces:
    it needs a slash, which ends the host. *)
Definition pattern_error (p : string) : option string :=
  if bool_decide (p = "") then Some "http: invalid pattern"
  else if bool_decide ("/"%char ∈ String.list_ascii_of_string p) then None
  else Some ("parsing " +:+ dq +:+ p +:+ dq +:+ ": at offset 0: host/path missing /").

(** Registering paths with a [ServeMux]: a pattern that is refused and a pattern registered
    before panic. The paths of a configuration are taken to be plain, as the defaults are:
    ServeMux also knows methods, wildcards in braces and percent escapes, and panics where
    these are malformed, or where two patterns that are written differently conflict. *)
Fixpoint handle_paths (paths seen : list string) : outcome unit :=
  match paths with
  | [] => Ret tt
  | p :: paths =>
      match pattern_error p with
      | Some e => Panic e
      | None =>
          if bool_decide (p ∈ seen) then Panic "http: conflicting patterns"
          else handle_paths paths (p :: seen)
      end
  end.

Definition startMetricsServer (s : ObsServer) : outcome ObsServer :=
  _ ← handle_paths [MetricsPath (obs_cfg s)] [];
  Ret {| obs_cfg := obs_cfg s; metricsServer := true; healthServer := healthServer s |}.

Definition startHealthServer (s : ObsServer) : outcome ObsServer :=
  _ ← handle_paths [Obs_LivenessPath (obs_cfg s); Obs_ReadinessPath (obs_cfg s); "/health/full"] [];
  Ret {| obs_cfg := obs_cfg s; metricsServer := metricsServer s; healthServer := true |}.

(** [Start] returns no error: the listeners fail in their own goroutines, unnoticed. *)
Definition ObsStart (s : ObsServer) : outcome (ObsServer * result string unit) :=
  s ← (if MetricsEnabled (obs_cfg s) then startMetricsServer s else Ret s);
  s ← (if HealthEnabled (obs_cfg s) then startHealthServer s else Ret s);
  Ret (s, Ok tt).

(** [Stop] shuts both servers down and returns the first error. *)
Definition ObsStop (metrics_err health_err : option string) (s : ObsServer) : result string unit :=
  let errs := (if metricsServer s
               then match metrics_err with Some e => ["metrics server shutdown: " +:+ e] | None => [] end
               else [])
              ++ (if healthServer s
                  then match health_err with Some e => ["health server shutdown: " +:+ e] | None => [] end
                  else []) in
  match errs with [] => Ok tt | e :: _ => Err e end.

(** The configuration that [newApplication] passes on. *)
Definition obs_config (m : MetricsConfig) (h : HealthConfig) : ObsConfig :=
  {| MetricsEnabled := Metrics_Enabled m; MetricsPath := Metrics_Path m;
     HealthEnabled := Health_Enabled h; Obs_LivenessPath := LivenessPath h;
     Obs_ReadinessPath := ReadinessPath h |}.

(** ** Logging (main.go) *)

Inductive destination : Type := Stdout | Stderr.

(** [initLogger]: where log lines go; unknown outputs fall back to the standard output. *)
Definition log_destination (l : LoggingConfig) : destination :=
  if bool_decide (Output l = "stderr") then Stderr else Stdout.

(** [initLogger]: the global level, the output and the format; [ParseLevel] and [InfoLevel] are
    zerolog's, and every format but text is JSON. *)
Record LoggerSettings (Lv : Type) : Type := mkLogger {
  log_level : Lv;
  log_output : destination;
  log_console : bool
}.
Arguments mkLogger {Lv}.
Arguments log_level {Lv}.
Arguments log_output {Lv}.
Arguments log_console {Lv}.

Definition initLogger {Lv} (ParseLevel : string -> option Lv) (InfoLevel : Lv) (l : LoggingConfig)
    : LoggerSettings Lv :=
  {| log_level := default InfoLevel (ParseLevel (Level l)); log_output := log_destination l;
     log_console := bool_decide (Format l = "text") |}.

(** ** The concurrent checks refine one pass over the checkers *)

Definition result_of (c : HealthChecker) : ComponentHealth :=
  {| Status := Status c.1; HealthMessage := HealthMessage c.1; Latency := c.2 |}.

Definition some_status (st : string) (m : gmap string ComponentHealth) : Prop :=
  exists n r, m !! n = Some r /\ Status r = st.

(** What has been recorded: the results of the goroutines that are done. *)
Record hinv (cs : gmap string HealthChecker) (x : hstate) : Prop := {
  hi_todo : forall n c, x.1 !! n = Some c -> cs !! n = Some c;
  hi_comp : forall n, components x.2 !! n
                      = match x.1 !! n with Some _ => None | None => result_of <$> cs !! n end;
  hi_bad : hasUnhealthy x.2 = true <-> some_status HealthStatusUnhealthy (components x.2);
  hi_degr : hasDegraded x.2 = true <-> some_status HealthStatusDegraded (components x.2)
}.

Lemma some_status_insert st n r m :
  m !! n = None -> some_status st (<[n := r]> m) <-> Status r = st \/ some_status st m.
Proof.
  intros Hn. unfold some_status. split.
  - intros (k & r' & [[-> ->]|[Hk Hr]]%lookup_insert_Some & Hs); [by left|]. right. eauto.
  - intros [Hr|(k & r' & Hk & Hs)].
    + exists n, r. by rewrite lookup_insert_eq.
    + exists k, r'. split; [|done]. rewrite lookup_insert_ne; [done|]. congruence.
Qed.

Lemma hinv_init cs : hinv cs (cs, shared0).
Proof.
  split; cbn.
  - done.
  - intros n. rewrite lookup_empty. by destruct (cs !! n).
  - split; [done|]. intros (n & r & H & _). by rewrite lookup_empty in H.
  - split; [done|]. intros (n & r & H & _). by rewrite lookup_empty in H.
Qed.

Lemma hinv_step cs x y : hstep x y -> hinv cs x -> hinv cs y.
Proof.
  intros Hstep [Ht Hc Hb Hd]. destruct Hstep as [name c todo s Hn]. cbn [fst snd] in *.
  assert (components s !! name = None) as Hnone by (by rewrite Hc, Hn).
  split; cbn [fst snd record_result components hasUnhealthy hasDegraded].
  - intros n c' [Hne Hl]%lookup_delete_Some. auto.
  - intros n. destruct (decide (n = name)) as [->|Hne].
    + rewrite lookup_insert_eq, lookup_delete_eq. by rewrite (Ht _ _ Hn).
    + rewrite lookup_insert_ne, lookup_delete_ne by done. apply Hc.
  - rewrite some_status_insert, orb_true_iff, bool_decide_eq_true, Hb by done. done.
  - rewrite some_status_insert, orb_true_iff, andb_true_iff, negb_true_iff by done.
    rewrite bool_decide_eq_true, bool_decide_eq_false, Hd. cbn [Status].
    split; [tauto|]. intros [H|H]; [|by right]. left. split; [|done]. by rewrite H.
Qed.

(** The status that a set of results stands for. *)
Inductive worst (m : gmap string ComponentHealth) : string -> Prop :=
| worst_unhealthy : some_status HealthStatusUnhealthy m -> worst m HealthStatusUnhealthy
| worst_degraded : ~ some_status HealthStatusUnhealthy m -> some_status HealthStatusDegraded m ->
    worst m HealthStatusDegraded
| worst_healthy : ~ some_status HealthStatusUnhealthy m -> ~ some_status HealthStatusDegraded m ->
    worst m HealthStatusHealthy.

Lemma hinv_final cs s :
  hinv cs (∅, s) -> components s = result_of <$> cs /\ worst (result_of <$> cs) (overall s).
Proof.
  intros [_ Hc Hb Hd]. cbn [fst snd] in *.
  assert (components s = result_of <$> cs) as Heq.
  { apply map_eq. intros n. by rewrite Hc, lookup_empty, lookup_fmap. }
  split; [done|]. rewrite Heq in Hb, Hd. unfold overall.
  destruct (hasUnhealthy s); [constructor; by apply Hb|].
  assert (~ some_status HealthStatusUnhealthy (result_of <$> cs)) by (intros H; by apply Hb in H).
  destruct (hasDegraded s); [by constructor; [|apply Hd]|].
  constructor; [done|]. intros H'. by apply Hd in H'.
Qed.

Lemma hsteps_inv cs x y : rtc hstep x y -> hinv cs x -> hinv cs y.
Proof. induction 1; eauto using hinv_step. Qed.

(** Goroutines that finish in an order: a run of the relation. *)
Lemma run_order_steps (order : list (string * HealthChecker)) s :
  NoDup (map fst order) ->
  rtc hstep (list_to_map order, s) (∅, foldl (fun s p => record_result p.1 p.2 s) s order).
Proof.
  revert s. induction order as [|[n c] order IH]; intros s Hnd; [by constructor|].
  cbn [map] in Hnd. apply list.NoDup_cons in Hnd as [Hn Hnd].
  eapply rtc_l; [apply (h_record n c); cbn; by rewrite lookup_insert_eq|].
  cbn [list_to_map foldr uncurry fst snd foldl].
  rewrite delete_insert_id; [by apply IH|]. apply not_elem_of_list_to_map_1. done.
Qed.

Lemma checkAll_components now order h :
  order ≡ₚ map_to_list (checkers h) ->
  Components (checkAll now order h) = result_of <$> checkers h
  /\ worst (result_of <$> checkers h) (ResponseStatus (checkAll now order h)).
Proof.
  intros Hp. unfold checkAll. cbn [Components ResponseStatus]. apply hinv_final.
  eapply hsteps_inv; [|apply hinv_init].
  assert (NoDup (map fst order)) as Hnd.
  { pose proof (NoDup_fst_map_to_list (checkers h)) as H. by rewrite <- Hp in H. }
  rewrite <- (list_to_map_to_list (checkers h)).
  rewrite <- (list_to_map_proper order (map_to_list (checkers h))) by done.
  by apply run_order_steps.
Qed.

(** C32: Every interleaving of the checkers' goroutines ends, and with the same answer: each
    checker's result under its name, and the worst of their statuses (unhealthy over degraded
    over healthy) as the status of the whole. *)
Theorem checkAll_refines_worst (h : Health) (todo : gmap string HealthChecker) (s : Shared)
    (Hrun : rtc hstep (checkers h, shared0) (todo, s)) :
  (todo = ∅ -> components s = result_of <$> checkers h
               /\ worst (result_of <$> checkers h) (overall s))
  /\ (todo <> ∅ -> exists y, hstep (todo, s) y /\ size y.1 < size todo).
Proof.
  split.
  - intros ->. apply hinv_final. eapply hsteps_inv; [done|apply hinv_init].
  - intros Hne. apply map_choose in Hne as (n & c & Hn).
    exists (delete n todo, record_result n c s). split; [by constructor|]. cbn [fst].
    rewrite (map_size_delete_Some todo n c Hn). lia.
Qed.

(** Readiness is reported exactly when the service was marked ready and no component is
    unhealthy, whatever order the checks finish in; a degraded component does not stop
    traffic. *)
Theorem readiness_exact (now : Time) (order : list (string * HealthChecker)) (h : Health)
    (Horder : order ≡ₚ map_to_list (checkers h)) :
  (ReadinessHandler now order h).1 = 200%Z <->
  ready h = true /\ forall n c, checkers h !! n = Some c -> Status c.1 <> HealthStatusUnhealthy.
Proof.
  unfold ReadinessHandler, IsReady. destruct (ready h); cbn [negb]; [|naive_solver].
  destruct (checkAll_components now order h Horder) as [_ Hw].
  unfold FullHealthHandler, status_code. cbn [fst].
  assert (some_status HealthStatusUnhealthy (result_of <$> checkers h) <->
    exists n c, checkers h !! n = Some c /\ Status c.1 = HealthStatusUnhealthy) as Hs.
  { unfold some_status. split.
    - intros (n & r & (c & <- & Hn)%lookup_fmap_Some & Hr). eauto.
    - intros (n & c & Hn & Hc). exists n, (result_of c). split; [|done].
      apply lookup_fmap_Some. eauto. }
  revert Hw. generalize (ResponseStatus (checkAll now order h)). intros st Hw.
  destruct Hw as [H1|H1 H2|H1 H2]; rewrite Hs in H1;
    [|split; [intros _; split; [done|]; intros n c Hn Hc; apply H1; eauto|done]..].
  split; [done|]. intros [_ H]. destruct H1 as (n & c & Hn & Hc). by destruct (H n c Hn).
Qed.

(** ** Metrics are registered and updated without panic *)

Lemma full_name_inj ns m m' : full_name ns m = full_name ns m' -> (descriptor m).1.1 = (descriptor m').1.1.
Proof.
  unfold full_name. induction ns as [|a ns IH]; intros H; [by injection H|].
  rewrite !str_app_cons in H. injection H as H. auto.
Qed.

Lemma register_all_ok ns ms registry :
  NoDup (map (fun m => (descriptor m).1.1) ms) ->
  (forall m, m ∈ ms -> full_name ns m ∉ registry) ->
  exists r, register_all ns ms registry = Ret r.
Proof.
  revert registry. induction ms as [|m ms IH]; intros registry Hnd Hfresh; [by eexists|].
  cbn [register_all map] in *. apply list.NoDup_cons in Hnd as [Hm Hnd].
  rewrite bool_decide_eq_false_2 by (apply Hfresh; set_solver).
  apply IH; [done|]. intros m' Hm' [Heq|Hin]%elem_of_cons; [|by apply (Hfresh m'); [set_solver|]].
  apply Hm, list_elem_of_fmap. exists m'. split; [|done]. symmetry. by eapply full_name_inj.
Qed.

(** Creating the metrics in an empty registry never panics, for any namespace, and every
    update the code makes passes as many label values as the metric has labels and uses an
    operation of its kind, so that no update panics. *)
Theorem metrics_never_panic (namespace : string) :
  (exists r, NewMetrics namespace [] = Ret r)
  /\ (forall method tool allowed rule mode transport positive status,
        forallb update_ok
          (RecordRequest method tool allowed ++ RecordPolicyDecision allowed rule mode
           ++ RecordSession transport positive ++ RecordUpstreamRequest status
           ++ UpdateAuditStats ++ IncrementAuditWritten ++ IncrementAuditDropped
           ++ IncrementAuditFlushes) = true).
Proof.
  split.
  - apply register_all_ok; [by apply (bool_decide_unpack _)|]. intros m _. apply not_elem_of_nil.
  - intros ? ? ? ? ? ? [] ?; reflexivity.
Qed.

(** ** Where configuration and code do not fit *)

(** Equal liveness and readiness paths pass validation and panic when the health server
    starts. *)
Theorem equal_health_paths_panic (m : MetricsConfig) (h : HealthConfig) (p : string)
    (Hm : Metrics_Enabled m = false) (Hh : Health_Enabled h = true)
    (Hp : pattern_error p = None)
    (Hl : LivenessPath h = p) (Hr : ReadinessPath h = p) :
  ObsStart (NewObsServer (obs_config m h)) = Panic "http: conflicting patterns".
Proof.
  unfold ObsStart, obs_config. cbn. rewrite Hm, Hh, Hl, Hr. cbn.
  rewrite !Hp.
  rewrite (bool_decide_eq_false_2 (p ∈ [])) by apply not_elem_of_nil.
  by rewrite (bool_decide_eq_true_2 (p ∈ [p])) by set_solver.
Qed.

(** By default, and for every output but one, log lines go to the standard output, which is
    where the stdio transport writes its answers. *)
Theorem logs_share_stdout (l : LoggingConfig) :
  Output l <> "stderr" -> log_destination (applyLoggingDefaults l) = Stdout.
Proof.
  intros H. unfold log_destination. cbn. unfold or_str. rewrite bool_decide_eq_false_2; [done|].
  by case_bool_decide.
Qed.

(** ** Witnesses *)

Definition sample_health : Health :=
  RegisterChecker "upstream" (UpstreamChecker false, "1ms")
    (RegisterChecker "policy_engine" (PolicyEngineChecker true, "2ms") (SetReady true (NewHealth "1.0"))).

Definition sample_order : list (string * HealthChecker) := map_to_list (checkers sample_health).

Lemma readiness_exact_witness : (ReadinessHandler 0 sample_order sample_health).1 = 200%Z.
Proof.
  apply (readiness_exact 0 sample_order sample_health).
  - reflexivity.
  - split; [reflexivity|]. unfold sample_health, RegisterChecker. cbn [checkers].
    intros n c [[_ <-]|[_ [[_ <-]|[_ H]]%lookup_insert_Some]]%lookup_insert_Some; [done..|].
    cbn in H. by rewrite lookup_empty in H.
Defined.

Lemma checkAll_refines_worst_witness :
  exists s, components s = result_of <$> checkers sample_health
            /\ worst (result_of <$> checkers sample_health) (overall s).
Proof.
  eexists. apply (checkAll_refines_worst sample_health ∅); [|reflexivity].
  rewrite <- (list_to_map_to_list (checkers sample_health)). apply run_order_steps.
  apply NoDup_fst_map_to_list.
Defined.

Lemma equal_health_paths_panic_witness :
  ObsStart (NewObsServer (obs_config (mkMetrics false "" 0 "") (mkHealth true "" 0 "/h" "/h")))
  = Panic "http: conflicting patterns".
Proof.
  apply (equal_health_paths_panic (mkMetrics false "" 0 "") (mkHealth true "" 0 "/h" "/h") "/h");
    reflexivity.
Defined.

Lemma logs_share_stdout_witness :
  log_destination (applyLoggingDefaults (mkLogging "" "" "" (mkFile "" 0 0 0))) = Stdout.
Proof. apply logs_share_stdout. discriminate. Defined.
