(* ===== verification/App.v ===== *)
(** * The application

    Models src/cmd/proxy/main.go: how [newApplication] wires the router to the policy
    engine, the upstream client and the audit writer, the order in which [Start] and
    [Stop] bring the components up and down, and [handleMessage]. The upstream client is
    the class [UpstreamClient]; the text [encoding/json] writes for capabilities and
    arguments is an argument. *)

From Stdlib Require Import ZArith Lia.
From stdpp Require Import base list gmap strings numbers.
From S2P Require Import Prelude Json Session PolicyTypes Cache Engine Router.
From S2P Require Import AuditStore AuditWriter Config Loader.

(** What the application uses of [upstream.Client]. *)
Class UpstreamClient : Type := {
  Client : Type;
  IsConnected : Client -> bool;
  Send : string -> M Client reply
}.

(** Labels and observations given to Prometheus. *)
Inductive metric : Type :=
| MRequest (method tool : string) (allowed : bool) (latency : Duration)
| MPolicy (allowed : bool) (rule mode : string) (latency : Duration).

(** Clock readings of one message beyond those of the router and the engine. *)
Record AppEnv : Type := mkAppEnv {
  Routing : RouteEnv;
  Evaluating : Env;
  InputAt : Time;
  RecordAt : Time
}.

Section App.

Context `{J : GoJson} `{O : OPA} `{U : UpstreamClient}.
Context (time_json : Time -> result string string).
Context (caps_json : slice string -> string) (args_json : jobject -> string).

(** The components a message can change; [None] for those that are not configured. *)
Record Application : Type := mkApplication {
  sessionManager : Session.Manager;
  policyEngine : Engine;
  upstreamClient : option Client;
  auditWriter : option Writer;
  metrics : list metric
}.

Definition with_engine (e : Engine) (a : Application) : Application :=
  {| sessionManager := sessionManager a; policyEngine := e; upstreamClient := upstreamClient a;
     auditWriter := auditWriter a; metrics := metrics a |}.

(** The closure of [SetUpstreamSender]. *)
Definition upstream_sender (message : string) : M Application reply := fun a =>
  match upstreamClient a with
  | Some c =>
      if IsConnected c then
        let '(c', r) := Send message c in
        ({| sessionManager := sessionManager a; policyEngine := policyEngine a;
            upstreamClient := Some c';
            auditWriter := auditWriter a; metrics := metrics a |}, r)
      else (a, Ret (Some message, None))
  | None => (a, Ret (Some message, None))
  end.

(** The input of the closure of [SetPolicyEvaluator]. *)
Definition build_input (cfg : Config) (now : Time) (sess : Session.Session)
    (ctx : RequestContext) : PolicyInput :=
  let i := NewInputBuilder now in
  let i := WithAgent (Session.AgentID sess) (Session.AgentID sess) (Session.Capabilities sess) i in
  let i := WithRequest (Ctx_Method ctx) (Tool ctx) (Arguments ctx) i in
  let i := WithSession (Session.ID sess) (Session.RequestCount sess) (Session.CreatedAt sess) i in
  let i := WithEnvironment (Session.SourceIP sess) (Policy_Environment (Policy cfg))
             (Listen_Address (Listen (Server cfg))) i in
  if bool_decide (AgentCfg_ID (Config.Agent cfg) = "") then i
  else WithAgentDetails (AgentCfg_Model (Config.Agent cfg))
         (AgentCfg_Publisher (Config.Agent cfg)) (Tags (PolicyTypes.Agent i)) i.

(** The closure of [SetPolicyEvaluator]. *)
Definition policy_evaluator (cfg : Config) (env : AppEnv) (sess : Session.Session)
    (ctx : RequestContext) : M Application (option Router.PolicyDecision * option string) := fun a =>
  let '(e, r) := Evaluate time_json (Evaluating env) (build_input cfg (InputAt env) sess ctx)
                   (policyEngine a) in
  (with_engine e a,
   res ← r;
   Ret (match res with
        | Err msg => (None, Some msg)
        | Ok result =>
            (Some {| Router.Allow := PolicyTypes.Allow (Decision result);
                     Router.Violations := PolicyTypes.Violations (Decision result);
                     Router.MatchedRule := PolicyTypes.MatchedRule (Decision result);
                     PolicyMode := Result_PolicyMode result |}, None)
        end)).

(** The record of the closure of [SetAuditLogger]. *)
Definition audit_record (cfg : Config) (now : Time) (sess : Session.Session)
    (ctx : RequestContext) (decision : option Router.PolicyDecision) (latency : Duration)
    : Record_ :=
  let allowed := match decision with None => true | Some d => Router.Allow d end in
  let argsJSON := if RequestArguments (Capture (Audit cfg))
                  then match Arguments ctx with Some m => args_json m | None => "" end
                  else "" in
  let violations := match decision with
                    | Some d => match elems (Router.Violations d) with
                                | [] => "" | vs => join "; " vs end
                    | None => "" end in
  let matchedRule := match decision with Some d => Router.MatchedRule d | None => "" end in
  let policyMode := match decision with Some d => PolicyMode d | None => "" end in
  let r := NewRecordBuilder now in
  let r := RecWithRequest (RequestID ctx) (Session.ID sess) r in
  let r := WithTiming (float_div (float_of_Z (Z.quot latency 1000)) (float_of_Z 1000)) r in
  let r := RecWithAgent (Session.AgentID sess) (Session.AgentName sess)
             (caps_json (Session.Capabilities sess)) r in
  let r := WithMethod (Ctx_Method ctx) (Tool ctx) (ResourceURI ctx) argsJSON r in
  let r := RecWithIdentity (Session.IdentityVerified sess) (Session.DID sess) r in
  let r := WithDecision allowed matchedRule violations policyMode r in
  RecWithEnvironment (Session.SourceIP sess) (Policy_Environment (Policy cfg)) r.

(** The closure of [SetAuditLogger]. *)
Definition audit_logger (cfg : Config) (env : AppEnv) (sess : Session.Session)
    (ctx : RequestContext) (decision : option Router.PolicyDecision) (response : option string)
    (latency : Duration) : M Application unit := fun a =>
  let allowed := match decision with None => true | Some d => Router.Allow d end in
  let tool := if bool_decide (Tool ctx = "") then "unknown" else Tool ctx in
  let ms := metrics a ++ [MRequest (Ctx_Method ctx) tool allowed latency] ++
            match decision with
            | Some d => [MPolicy allowed (Router.MatchedRule d) (PolicyMode d) latency]
            | None => []
            end in
  let writer := match auditWriter a with
                | Some w => Some (Write (audit_record cfg (RecordAt env) sess ctx decision latency) w)
                | None => None
                end in
  ({| sessionManager := sessionManager a; policyEngine := policyEngine a;
      upstreamClient := upstreamClient a; auditWriter := writer; metrics := ms |}, Ret tt).

(** The router that [newApplication] builds. *)
Definition app_router (cfg : Config) (env : AppEnv) : Router Application :=
  {| policyEvaluator := Some (policy_evaluator cfg env);
     upstreamSender := Some upstream_sender;
     auditLogger := Some (audit_logger cfg env) |}.

(** [newApplication]: [store] is what [audit.NewStore] returns, [client] the client of
    [upstream.NewClient]. *)
Definition newApplication (cfg : Config) (store : result string Table) (client : Client)
    : result string Application :=
  writer ← (if Audit_Enabled (Audit cfg) then
              t ← wrap_err "failed to create audit store" store;
              Ok (Some (NewWriter t (mkWriterConfig (Audit_BufferSize (Audit cfg))
                                       (Audit_FlushInterval (Audit cfg)))))
            else Ok None);
  if bool_decide (Server_Transport (Server cfg) = "sse") ||
     bool_decide (Server_Transport (Server cfg) = "stdio") then
    Ok {| sessionManager := Session.NewManager (Session.mkManagerConfig (2 * Hour) Minute
            (MaxConnections (Server cfg)));
          policyEngine := NewEngine (mkEngineConfig (Policy_Mode (Policy cfg))
            (Policy_Enabled (Policy cfg)) (mkCacheConfig true (5 * Minute) 10000));
          upstreamClient := if bool_decide (URL (Upstream cfg) = "") then None else Some client;
          auditWriter := writer; metrics := [] |}
  else Err ("unknown transport: " +:+ Server_Transport (Server cfg)).

Definition handleMessage (cfg : Config) (env : AppEnv) (sess : Session.Session)
    (message : string) : M Application reply :=
  Route (app_router cfg env) (Routing env) sess message.

(** ** Start and Stop *)

Inductive phase : Type :=
| PoliciesLoaded
| AuditStarted
| SessionsStarted
| UpstreamDialled (connected : bool)
| TransportStarted
| ObservabilityStarted
| Ready (b : bool)
| ObservabilityStopped
| TransportStopped
| UpstreamDisconnected
| SessionsStopped
| AuditStopped
| StoreClosed.

(** What the components answer while starting. *)
Record StartEnv : Type := mkStartEnv {
  LoadResult : Engine -> Engine * result string unit;
  ConnectResult : Client -> Client * result string unit;
  TransportResult : result string unit;
  ObservabilityResult : result string unit;
  TransportName : string
}.

(** A pointer that is not nil. *)
Definition present {A} (o : option A) : bool := match o with Some _ => true | None => false end.

(** [Start]: the phases that were reached, and the error if it stopped early. *)
Definition Start (cfg : Config) (env : StartEnv) (a : Application)
    : Application * list phase * result string unit :=
  let '(a, log, r) :=
    if Policy_Enabled (Policy cfg) then
      let '(e, r) := LoadResult env (policyEngine a) in
      match wrap_err "failed to load policies" r with
      | Err msg => (with_engine e a, [], Err msg)
      | Ok _ => (with_engine e a, [PoliciesLoaded], Ok tt)
      end
    else (a, [], Ok tt) in
  match r with
  | Err msg => (a, log, Err msg)
  | Ok _ =>
      let log := if present (auditWriter a) then log ++ [AuditStarted] else log in
      let a := {| sessionManager := sessionManager a; policyEngine := policyEngine a;
                  upstreamClient := upstreamClient a;
                  auditWriter := set_loop Waiting <$> auditWriter a; metrics := metrics a |} in
      let log := log ++ [SessionsStarted] in
      let '(client, dialled) := match upstreamClient a with
                                | Some c => (Some (ConnectResult env c).1,
                                             [UpstreamDialled (is_ok (ConnectResult env c).2)])
                                | None => (None, [])
                                end in
      let a := {| sessionManager := sessionManager a; policyEngine := policyEngine a;
                  upstreamClient := client; auditWriter := auditWriter a; metrics := metrics a |} in
      let log := log ++ dialled in
      match wrap_err ("failed to start " +:+ TransportName env +:+ " server")
              (TransportResult env) with
      | Err msg => (a, log, Err msg)
      | Ok _ =>
          let log := log ++ [TransportStarted] in
          match wrap_err "failed to start observability server" (ObservabilityResult env) with
          | Err msg => (a, log, Err msg)
          | Ok _ => (a, log ++ [ObservabilityStarted; Ready true], Ok tt)
          end
      end
  end.

(** [Stop]: errors of the single steps are logged and do not end it. *)
Definition Stop (a : Application) (log : list phase) : list phase :=
  log ++ [Ready false; ObservabilityStopped; TransportStopped] ++
  (if present (upstreamClient a) then [UpstreamDisconnected] else []) ++ [SessionsStopped] ++
  (if present (auditWriter a) then [AuditStopped; StoreClosed] else []).

(** ** Properties *)

(** The engine of the application, after any history of loads, data changes and
    evaluations. *)
Definition engine_after (ecfg : EngineConfig) (ops : list eop) (a : Application) : Prop :=
  policyEngine a = erun time_json ops (NewEngine ecfg).

(** OPA's consent for an input at an evaluation of the application: given now, or given
    before to an input with the same cache key, less than the time to live ago and since
    the last change of the policy data. *)
Definition opa_consents (ecfg : EngineConfig) (ops : list eop) (env : Env)
    (input : PolicyInput) : Prop :=
  opa_allows time_json (erun time_json ops (NewEngine ecfg)) input (AtEval env) \/
  exists pre env' input' post,
    ops = pre ++ EEvaluate env' input' :: post /\
    ComputeKey input' = ComputeKey input /\
    opa_allows time_json (erun time_json pre (NewEngine ecfg)) input' (AtEval env') /\
    (AtGet env < AtSet env' + l2TTL (cache (NewEngine ecfg)))%Z /\
    Forall (fun o => match o with EData _ => False | _ => True end) post.

Lemma allowed_consents ecfg ops env input res :
  Engine_Enabled ecfg = true ->
  (Evaluate time_json env input (erun time_json ops (NewEngine ecfg))).2 = Ret (Ok res) ->
  PolicyTypes.Allow (Decision res) = true -> opa_consents ecfg ops env input.
Proof.
  intros Hen Hres Ha.
  destruct (Evaluate_provenance time_json ecfg ops env input res Hen Hres) as [[_ He]|[_ Hj]].
  - left. by eapply evaluatePolicy_allows.
  - right. destruct Hj as (pre & env' & input' & post & Hops & Hk & He & Ht & Hp).
    exists pre, env', input', post. do 2 (split; [done|]). split; [|done].
    by eapply evaluatePolicy_allows.
Qed.

(** Security of the whole proxy. With the policy engine enabled in enforce mode, in
    any state it can reach, a tool call, resource read or subscription is forwarded to
    the upstream server only if OPA answered an object with [allow: true], for this very
    input or, through the cache, for an input with the same key within the time to live
    and since the last change of the policy data. *)
Theorem forwarded_only_with_consent (cfg : Config) (env : AppEnv) (sess : Session.Session)
    (message : string) (a : Application) (ecfg : EngineConfig) (ops : list eop)
    (req : Request) (ctx : RequestContext) (m : string) (answer : reply)
    (Heng : engine_after ecfg ops a) (Hen : Engine_Enabled ecfg = true)
    (Hmode : Engine_Mode ecfg = "enforce")
    (Hh : handled (Routing env) message req ctx)
    (Hmethod : Req_Method req ∈ ["tools/call"; "resources/read"; "resources/subscribe"])
    (Hsent : In (EvUpstream m answer)
       (Route (traced (app_router cfg env)) (Routing env) sess message (a, [])).1.2) :
  opa_consents ecfg ops (Evaluating env) (build_input cfg (InputAt env) sess ctx).
Proof.
  assert (Hhandler : Handler (method_config (Req_Method req)) = HandlerFullEnforce).
  { apply enforced_iff. rewrite !elem_of_cons, elem_of_nil in Hmethod. tauto. }
  destruct (forwarded_evaluated (app_router cfg env) _ _ _ _ _ (policy_evaluator cfg env) _ _ _
              Hh Hhandler eq_refl Hsent) as (a1 & d & Hev & Hd).
  unfold policy_evaluator in Hev. unfold engine_after in Heng. rewrite Heng in Hev.
  destruct (Evaluate time_json (Evaluating env) (build_input cfg (InputAt env) sess ctx)
              (erun time_json ops (NewEngine ecfg))) as [e' [[res|msg]|msg]] eqn:E;
    cbn in Hev; simplify_eq/=.
  assert (Hres : (Evaluate time_json (Evaluating env) (build_input cfg (InputAt env) sess ctx)
              (erun time_json ops (NewEngine ecfg))).2 = Ret (Ok res)) by (by rewrite E).
  apply (allowed_consents ecfg ops _ _ res); [done|done|].
  destruct Hd as [Hd|Hd]; [done|]. destruct Hd.
  rewrite (Evaluate_mode _ _ _ _ _ Hres), (proj1 (erun_mode time_json ops _)).
  simpl. by rewrite Hmode.
Qed.

(** Starting fails closed: with policies enabled, the transport is not started unless
    the policies were loaded into the engine first, and a failure to load them ends
    [Start] with an error before any other component runs. *)
Theorem Start_needs_policies (cfg : Config) (env : StartEnv) (a : Application)
    (Hen : Policy_Enabled (Policy cfg) = true) :
  let '(a', log, r) := Start cfg env a in
  (In TransportStarted log ->
     (LoadResult env (policyEngine a)).2 = Ok tt /\
     policyEngine a' = (LoadResult env (policyEngine a)).1 /\
     exists log', log = PoliciesLoaded :: log') /\
  (is_ok (LoadResult env (policyEngine a)).2 = false -> log = [] /\ is_ok r = false).
Proof.
  unfold Start. rewrite Hen. destruct (LoadResult env (policyEngine a)) as [e [[]|msg]]; simpl.
  2: { split; [by intros []|done]. }
  destruct (present (auditWriter a)), (upstreamClient a), (TransportResult env),
    (ObservabilityResult env); simpl; (split; [|done]);
    intros Hin; (split; [done|]); (split; [done|]); simpl; by eexists.
Qed.

(** When evaluation fails, the client gets an internal error and nothing is
    forwarded, yet the audit log records the request as allowed, because the absence of
    a decision counts as permission there. *)
Theorem failed_evaluation_audited_as_allowed (cfg : Config) (env : AppEnv)
    (sess : Session.Session) (message : string) (a : Application) (req : Request)
    (ctx : RequestContext) (w : Writer) (e' : Engine) (msg : string)
    (Hh : handled (Routing env) message req ctx)
    (Hmethod : Req_Method req ∈ ["tools/call"; "resources/read"; "resources/subscribe"])
    (Hfail : Evaluate time_json (Evaluating env) (build_input cfg (InputAt env) sess ctx)
               (policyEngine a) = (e', Ret (Err msg)))
    (Hw : auditWriter a = Some w) :
  exists a' r, handleMessage cfg env sess message a =
      (a', Ret (marshal_data (InternalError (Req_ID req) "Policy evaluation failed"), None)) /\
    auditWriter a' = Some (Write r w) /\ Allowed r = true /\
    upstreamClient a' = upstreamClient a.
Proof.
  assert (Hhandler : Handler (method_config (Req_Method req)) = HandlerFullEnforce).
  { apply enforced_iff. rewrite !elem_of_cons, elem_of_nil in Hmethod. tauto. }
  destruct (handled_ctx _ _ _ _ Hh) as (Hreq & _ & Hcfg & _).
  unfold handleMessage. rewrite (Route_handled _ _ _ _ _ _ _ Hh).
  unfold mbind, M_bind, dispatch. rewrite Hcfg, Hhandler.
  unfold handleEnforce, mbind, M_bind. cbn [app_router policyEvaluator].
  unfold policy_evaluator. rewrite Hfail. cbn.
  unfold finish, audit, mbind, M_bind. cbn. rewrite Hcfg.
  rewrite bool_decide_false by by apply enforced_logged.
  unfold ctx_id. rewrite Hreq. unfold audit_logger. cbn. rewrite Hw. cbn. do 2 eexists. split; [done|]. by split.
Qed.

(** What the policy cannot see: whatever the session knows about the agent's identity
    and name, the policy input says unverified and repeats the identifier as the name,
    and reads of two different resources have the same input. *)
Theorem policy_input_blind (cfg : Config) (now : Time) (sess : Session.Session)
    (ctx : RequestContext) (uri : string) :
  Identity (build_input cfg now sess ctx) = zero_identity /\
  Agent_Name (PolicyTypes.Agent (build_input cfg now sess ctx)) = Session.AgentID sess /\
  build_input cfg now sess (with_details (Tool ctx) uri (Arguments ctx) (AgentFactsToken ctx) ctx)
    = build_input cfg now sess ctx.
Proof. unfold build_input. by destruct (bool_decide _). Qed.

(** The transport http passes validation, and the application then refuses it. *)
Theorem http_transport_refused (cfg : Config) (store : result string Table) (client : Client)
    (Hport : (1 <= Listen_Port (Listen (Server cfg)) <= 65535)%Z)
    (Hfacts : Facts_Mode (AgentFacts cfg) = "optional")
    (Hpol : Policy_Mode (Policy cfg) = "enforce") (Hlev : Level (Logging cfg) = "info")
    (Hhttp : Server_Transport (Server cfg) = "http") :
  validate cfg = Ok tt /\ is_ok (newApplication cfg store client) = false.
Proof.
  split.
  - unfold validate. rewrite Hfacts, Hpol, Hlev, Hhttp.
    destruct (Z.ltb_spec (Listen_Port (Listen (Server cfg))) 1); [lia|].
    destruct (Z.gtb_spec (Listen_Port (Listen (Server cfg))) 65535); [lia|]. done.
  - unfold newApplication. rewrite Hhttp.
    destruct (Audit_Enabled (Audit cfg)); [destruct store|]; done.
Qed.

End App.

(** ** Witnesses *)

#[local] Existing Instance sample_opa.
#[local] Existing Instance sample_json.

(** A connected client that counts its messages and answers with a fixed text. *)
#[local] Instance sample_client : UpstreamClient :=
  {| Client := nat; IsConnected _ := true; Send _ n := (S n, Ret (Some "done", None)) |}.

Definition sample_aenv : AppEnv := mkAppEnv sample_renv (sample_env 5) 5 15.

Definition app_ecfg : EngineConfig := mkEngineConfig "enforce" true (mkCacheConfig true 100 10).

Definition app_ops : list eop := [ELoad [("main.rego", "allow")]].

Definition sample_app (tj : Time -> result string string) : Application :=
  {| sessionManager := Session.NewManager Session.DefaultManagerConfig;
     policyEngine := erun tj app_ops (NewEngine app_ecfg); upstreamClient := Some 0;
     auditWriter := Some (NewWriter empty_table small_writer); metrics := [] |}.

Definition no_text {A : Type} (_ : A) : string := "".

Lemma forwarded_only_with_consent_witness :
  opa_consents sample_time app_ecfg app_ops (sample_env 5)
    (build_input sample_loaded 5 sample_sess sample_ctx).
Proof.
  apply (forwarded_only_with_consent sample_time no_text no_text sample_loaded sample_aenv
    sample_sess "call" (sample_app sample_time) app_ecfg app_ops sample_req sample_ctx "call"
    (Some "done", None)); try reflexivity.
  - exact sample_handled.
  - left.
  - vm_compute. right. left. reflexivity.
Defined.

Definition start_env : StartEnv :=
  mkStartEnv (fun e => (e, Err "no .rego files found in policies")) (fun c => (c, Ok tt)) (Ok tt) (Ok tt) "sse".

Definition enabled_cfg : Config :=
  on_Policy (fun p => mkPolicy true (Policy_Mode p) (PolicyDir p) (JSONPolicyDir p) (DataFile p)
    (Config.WatchForChanges p) (Policy_Environment p) (Policy_Cache p) (Evaluation p)) sample_loaded.

Lemma Start_needs_policies_witness :
  Policy_Enabled (Policy enabled_cfg) = true /\
  snd (fst (Start enabled_cfg start_env (sample_app sample_time))) = [].
Proof.
  assert (H : Policy_Enabled (Policy enabled_cfg) = true) by reflexivity.
  split; [exact H|].
  pose proof (Start_needs_policies enabled_cfg start_env (sample_app sample_time) H) as Hs.
  destruct (Start enabled_cfg start_env (sample_app sample_time)) as [[a' log] r].
  exact (proj1 (proj2 Hs eq_refl)).
Defined.

Definition bad_time (t : Time) : result string string := Err "year outside of range".

Lemma failed_evaluation_audited_as_allowed_witness :
  exists a' r,
    handleMessage bad_time no_text no_text sample_loaded sample_aenv sample_sess "call"
      (sample_app bad_time) = (a', Ret (Some "-32603", None)) /\
    auditWriter a' = Some (Write r (NewWriter empty_table small_writer)) /\
    Allowed r = true /\ upstreamClient a' = Some 0.
Proof.
  refine (failed_evaluation_audited_as_allowed bad_time no_text no_text sample_loaded
    sample_aenv sample_sess "call" (sample_app bad_time) sample_req sample_ctx
    (NewWriter empty_table small_writer) _ _ sample_handled _ _ _);
    [left|reflexivity|reflexivity].
Defined.

Definition client0 : @Client sample_client := 0.

Definition http_cfg : Config :=
  on_Server (fun s => mkServer (Listen s) "http" (ReadTimeout s) (WriteTimeout s) (IdleTimeout s)
    (GracefulShutdown s) (MaxConnections s) (Security s)) (applyDefaults zero_Config).

Lemma http_transport_refused_witness :
  validate http_cfg = Ok tt /\ is_ok (newApplication http_cfg (Ok empty_table) client0) = false.
Proof.
  apply (http_transport_refused http_cfg (Ok empty_table) client0); try reflexivity.
  split; vm_compute; discriminate.
Defined.
