(* ===== verification/Proxy.v ===== *)
(** * The proxy as a whole

    Composes the transports with the application, as src/cmd/proxy/main.go does it:
    [app.transport.SetMessageHandler(app.handleMessage)], and the checkers that
    [newApplication] registers for the health endpoints. The theorems follow a message from
    the endpoint it arrives at to the upstream server, through every message served
    before. *)

From Stdlib Require Import ZArith Lia.
From stdpp Require Import base list gmap strings numbers.
From S2P Require Import Prelude Json Session PolicyTypes Cache Engine Router.
From S2P Require Import AuditStore AuditWriter Config Loader Transport Sse Stdio Observability App.

(** ** Health checks of the application *)

Section Health.

Context `{O : OPA} `{U : UpstreamClient}.

(** The health state after [newApplication] registered its checkers: [ping] is the answer
    of [auditStore.Ping], [took] the latency of a check. The store exists exactly when the
    writer does. *)
Definition app_health (version : string) (ping : option string) (took : string -> string)
    (a : Application) : Health :=
  let h := NewHealth version in
  let h := RegisterChecker "policy_engine"
             (PolicyEngineChecker (Engine.IsReady (policyEngine a)), took "policy_engine") h in
  let h := match upstreamClient a with
           | Some c => RegisterChecker "upstream" (UpstreamChecker (App.IsConnected c), took "upstream") h
           | None => h
           end in
  match auditWriter a with
  | Some _ => RegisterChecker "audit_store" (DatabaseChecker ping, took "audit_store") h
  | None => h
  end.

(** When the probe answers 200. *)
Lemma app_readiness_iff (version : string) (ping : option string) (took : string -> string)
    (a : Application) (now : Time) (marked : bool) (order : list (string * HealthChecker))
    (Horder : order ≡ₚ map_to_list (checkers (app_health version ping took a))) :
  (ReadinessHandler now order (SetReady marked (app_health version ping took a))).1 = 200%Z <->
  marked = true /\ Engine.IsReady (policyEngine a) = true
  /\ (auditWriter a = None \/ ping = None).
Proof.
  rewrite readiness_exact by done. cbn [SetReady ready checkers].
  assert (forall n c, checkers (app_health version ping took a) !! n = Some c <->
    (n = "policy_engine" /\ c.1 = PolicyEngineChecker (Engine.IsReady (policyEngine a)) /\ c.2 = took n)
    \/ (exists cl, n = "upstream" /\ upstreamClient a = Some cl
          /\ c.1 = UpstreamChecker (App.IsConnected cl) /\ c.2 = took n)
    \/ (n = "audit_store" /\ auditWriter a <> None /\ c.1 = DatabaseChecker ping /\ c.2 = took n))
    as Hc.
  { intros n [c t]. cbn [fst snd]. unfold app_health.
    destruct (upstreamClient a) as [cl|], (auditWriter a) as [w|];
      cbn [RegisterChecker checkers NewHealth];
      rewrite ?lookup_insert_Some, ?lookup_empty; naive_solver. }
  split.
  - intros [-> H]. split; [done|].
    assert (forall n c, checkers (app_health version ping took a) !! n = Some (c, took n) ->
              Status c <> HealthStatusUnhealthy) as H' by (intros n c Hn; by apply (H n (c, took n))).
    split.
    + destruct (Engine.IsReady (policyEngine a)) eqn:Hr; [done|]. exfalso.
      apply (H' "policy_engine" (PolicyEngineChecker false)); [|done]. rewrite Hc. by left.
    + destruct (auditWriter a) as [w|] eqn:Hw; [right|by left]. destruct ping as [e|]; [|done]. exfalso.
      apply (H' "audit_store" (DatabaseChecker (Some e))); [|done]. rewrite Hc. right. by right.
  - intros (-> & Hr & Hp). split; [done|]. intros n [c t] Hn%Hc. cbn [fst snd] in *.
    destruct Hn as [(_ & -> & _)|[(cl & _ & _ & -> & _)|(_ & Hw & -> & _)]].
    + by rewrite Hr.
    + by destruct (App.IsConnected cl).
    + by destruct Hp as [Hp| ->].
Qed.

(** The readiness probe of the proxy answers 200 exactly when [Start] has finished and
    [Stop] not begun, the policy engine has its modules (or is disabled) and the audit
    database, if there is one, answers; the upstream connection never matters. *)
Theorem app_readiness (version : string) (ping : option string) (took : string -> string)
    (a : Application) (now : Time) (marked : bool) (order : list (string * HealthChecker))
    (Horder : order ≡ₚ map_to_list (checkers (app_health version ping took a))) :
  (ReadinessHandler now order (SetReady marked (app_health version ping took a))).1 = 200%Z <->
  marked = true /\ Engine.IsReady (policyEngine a) = true
  /\ (auditWriter a = None \/ ping = None).
Proof. by apply app_readiness_iff. Qed.

End Health.

Section Proxy.

Context `{J : GoJson} `{O : OPA} `{U : UpstreamClient}.
Context (time_json : Time -> result string string).
Context (caps_json : slice string -> string) (args_json : jobject -> string).

Abbreviation router_of cfg env := (app_router time_json caps_json args_json cfg env).
Abbreviation handle cfg env := (App.handleMessage time_json caps_json args_json cfg env).

(** ** Messages in sequence *)

(** One message: what it meets, the session with the request counted, its bytes. *)
Definition arrival : Type := AppEnv * Session.Session * string.

(** The application after serving messages in this order. *)
Definition serve (cfg : Config.Config) (ms : list arrival) (a : Application) : Application :=
  foldl (fun a '(env, sess, message) => (handle cfg env sess message a).1) a ms.

(** The evaluation that a message of [ms] asks of the engine. *)
Definition asked_by (cfg : Config.Config) (ms : list arrival) (o : eop) : Prop :=
  exists env sess message req ctx,
    (env, sess, message) ∈ ms /\ handled (Routing env) message req ctx /\
    o = EEvaluate (Evaluating env) (build_input cfg (InputAt env) sess ctx).

Lemma upstream_sender_engine m a : policyEngine (upstream_sender m a).1 = policyEngine a.
Proof.
  unfold upstream_sender. destruct (upstreamClient a) as [c|]; [|done].
  destruct (App.IsConnected c); [|done]. by destruct (App.Send m c).
Qed.

Lemma finish_engine cfg env sess ctx res a :
  policyEngine (finish (router_of cfg env) (Routing env) sess ctx res a).1 = policyEngine a.
Proof.
  destruct res as [[resp d] err]. unfold finish, mbind, M_bind, audit. cbn [app_router auditLogger].
  by case_bool_decide.
Qed.

Lemma forward_engine cfg env m a :
  policyEngine (forward (router_of cfg env) m a).1 = policyEngine a.
Proof. apply upstream_sender_engine. Qed.

Lemma forward_enforced_engine cfg env ctx m d a :
  policyEngine (forward_enforced (router_of cfg env) ctx m d a).1 = policyEngine a.
Proof.
  unfold forward_enforced, mbind, M_bind. pose proof (forward_engine cfg env m a) as H.
  destruct (forward _ m a) as [a' [[r [e|]]|p]]; exact H.
Qed.

Lemma dispatch_engine cfg env sess ctx m a :
  policyEngine (dispatch (router_of cfg env) (Routing env) sess ctx m a).1 = policyEngine a
  \/ policyEngine (dispatch (router_of cfg env) (Routing env) sess ctx m a).1
     = (Evaluate time_json (Evaluating env) (build_input cfg (InputAt env) sess ctx)
          (policyEngine a)).1.
Proof.
  unfold dispatch, handlePassthrough, handleFilter. destruct (Router.Handler (Router.Config ctx)).
  1,3: left; unfold mbind, M_bind; pose proof (forward_engine cfg env m a) as H;
       destruct (forward _ m a) as [a' [[r e]|p]]; exact H.
  right. unfold handleEnforce, mbind, M_bind. cbn [app_router policyEvaluator].
  unfold policy_evaluator.
  destruct (Evaluate _ _ _ _) as [e' [[res|msg]|p]]; [|done..].
  cbn -[forward_enforced]. case_match; [done|]. by rewrite forward_enforced_engine.
Qed.

(** Serving one message evaluates at most once, the input built for it. *)
Lemma handle_engine cfg env sess message a :
  exists evs, Forall (asked_by cfg [(env, sess, message)]) evs /\
    policyEngine (handle cfg env sess message a).1 = erun time_json evs (policyEngine a).
Proof.
  unfold App.handleMessage.
  destruct (Route_unhandled (router_of cfg env) (Routing env) sess message)
    as [(req & ctx & Hh)|(_ & o & Hu)].
  2:{ exists []. split; [constructor|]. by rewrite (proj1 (Hu a)). }
  rewrite (Route_handled _ _ _ _ _ _ _ Hh). unfold mbind, M_bind.
  assert (forall res a', policyEngine (dispatch (router_of cfg env) (Routing env) sess ctx message a).1
      = policyEngine a' -> dispatch (router_of cfg env) (Routing env) sess ctx message a = (a', res) ->
    policyEngine (match res with
       | Ret x => finish (router_of cfg env) (Routing env) sess ctx x a'
       | Panic msg => (a', Panic msg) end).1 = policyEngine a') as Hf.
  { intros [x|p] a' _ _; [apply finish_engine|done]. }
  destruct (dispatch_engine cfg env sess ctx message a) as [Hd|Hd];
    destruct (dispatch (router_of cfg env) (Routing env) sess ctx message a) as [a' res];
    cbn [fst] in Hd.
  - exists []. split; [constructor|]. by rewrite (Hf res a').
  - exists [EEvaluate (Evaluating env) (build_input cfg (InputAt env) sess ctx)]. split.
    + constructor; [|constructor]. exists env, sess, message, req, ctx.
      split; [by apply list_elem_of_singleton|done].
    + by rewrite (Hf res a').
Qed.

Lemma asked_by_mono cfg ms ms' o : (forall x, x ∈ ms -> x ∈ ms') -> asked_by cfg ms o -> asked_by cfg ms' o.
Proof. intros Hi (env & sess & message & req & ctx & Hin & H). exists env, sess, message, req, ctx. auto. Qed.

(** The engine after any messages, as a history of evaluations they asked for. *)
Lemma serve_engine cfg ms ecfg ops a :
  engine_after time_json ecfg ops a ->
  exists evs, Forall (asked_by cfg ms) evs /\
    engine_after time_json ecfg (ops ++ evs) (serve cfg ms a).
Proof.
  revert ops a. induction ms as [|[[env sess] message] ms IH]; intros ops a Ha.
  { exists []. split; [constructor|]. by rewrite app_nil_r. }
  destruct (handle_engine cfg env sess message a) as (evs & Hevs & He).
  destruct (IH (ops ++ evs) (handle cfg env sess message a).1) as (evs' & Hevs' & He').
  { unfold engine_after in *. unfold erun in *. by rewrite He, Ha, foldl_app. }
  exists (evs ++ evs'). split; [|by rewrite app_assoc].
  apply Forall_app. split.
  - eapply Forall_impl; [|exact Hevs]. intros o. apply asked_by_mono. intros x.
    rewrite !elem_of_cons, elem_of_nil. naive_solver.
  - eapply Forall_impl; [|exact Hevs']. intros o. apply asked_by_mono. intros x.
    rewrite elem_of_cons. by right.
Qed.

(** ** From the endpoint to the upstream server *)

(** [handleMessage] as the handler of a transport, with the callbacks it makes logged. *)
Definition proxy_handler (cfg : Config.Config) (env : AppEnv)
    : MessageHandler (Application * list event) := fun sess message =>
  Route (traced (router_of cfg env)) (Routing env) sess message.

(** Logging the callbacks changes neither the reply nor the application. *)
Lemma proxy_handler_is_handle cfg env sess message a :
  (proxy_handler cfg env sess message (a, [])).1.1 = (handle cfg env sess message a).1 /\
  (proxy_handler cfg env sess message (a, [])).2 = (handle cfg env sess message a).2.
Proof.
  unfold proxy_handler, App.handleMessage.
  destruct (Route_unhandled (router_of cfg env) (Routing env) sess message)
    as [(req & ctx & Hh)|(_ & o & Hu)].
  - destruct (Route_traced (router_of cfg env) (Routing env) sess message req ctx a Hh)
      as (pol & up & aud & _ & _ & ->).
    by destruct (Route (router_of cfg env) (Routing env) sess message a).
  - destruct (Hu a) as [-> ->]. done.
Qed.

(** What a forwarded message implies, for the application after any earlier messages. *)
Definition consented (cfg : Config.Config) (ecfg : EngineConfig) (ops : list eop) (ms : list arrival)
    (env : AppEnv) (sess : Session.Session) (message : string) : Prop :=
  forall req ctx, handled (Routing env) message req ctx ->
    Req_Method req ∈ ["tools/call"; "resources/read"; "resources/subscribe"] ->
    exists evs, Forall (asked_by cfg ms) evs /\
      opa_consents time_json ecfg (ops ++ evs) (Evaluating env)
        (build_input cfg (InputAt env) sess ctx).

Lemma proxy_handler_consented cfg ecfg ops ms env sess message a m answer :
  engine_after time_json ecfg ops a -> Engine_Enabled ecfg = true -> Engine_Mode ecfg = "enforce" ->
  In (EvUpstream m answer) (proxy_handler cfg env sess message (serve cfg ms a, [])).1.2 ->
  consented cfg ecfg ops ms env sess message.
Proof.
  intros Ha Hen Hmode Hin req ctx Hh Hm.
  destruct (serve_engine cfg ms ecfg ops a Ha) as (evs & Hevs & He). exists evs. split; [done|].
  by eapply (forwarded_only_with_consent time_json caps_json args_json cfg env sess message).
Qed.

(** [json.Valid]. *)
Context (json_valid : string -> bool).

(** C2: The proxy end to end over SSE, with the policy engine enabled and in enforce mode (in
    audit mode, and without an engine, everything is forwarded). After any sequence of messages,
    a request to the message endpoint makes the proxy send something upstream only if it names
    an open session and carries JSON, and, when the message is a tool call, resource read or
    subscription, only if OPA said [allow: true] for the input built from exactly this session,
    with this request counted, or for an input with the same cache key that an earlier message
    or the start-up asked for, within the time to live. *)
Theorem sse_forwards_only_with_consent (cfg : Config.Config) (env : AppEnv) (agent : AgentConfig)
    (ecfg : EngineConfig) (ops : list eop) (ms : list arrival) (a : Application)
    (r : MessageRequest) (world world' : World) (st' : Application * list event)
    (o : outcome ResponseWriter) (m : string) (answer : reply)
    (Heng : engine_after time_json ecfg ops a)
    (Hen : Engine_Enabled ecfg = true) (Hmode : Engine_Mode ecfg = "enforce")
    (Hrun : Sse.HandleMessage json_valid
              (srv_handler (ServerSetMessageHandler (proxy_handler cfg env)
                 (Sse.NewServer (Config.Server cfg) agent)))
              r world (serve cfg ms a, []) newWriter = (world', st', o))
    (Hsent : In (EvUpstream m answer) st'.2) :
  exists l sess body, Sse.acceptable json_valid r world l sess body /\
    consented cfg ecfg ops ms env (incrementRequestCount (reqNow r) sess).1 body.
Proof.
  destruct (HandleMessage_cases json_valid _ _ _ _ _ _ _ Hrun)
    as [(l & sess & body & Hacc & _ & _ & Hst)|(Hst & _)]; subst st'.
  - exists l, sess, body. split; [done|]. by eapply proxy_handler_consented.
  - by destruct Hsent.
Qed.

(** The same over standard input and output: a round of the read loop makes the proxy
    send something upstream only for a message it read, for the session of the transport
    with the message counted, and only with OPA's consent. *)
Theorem stdio_forwards_only_with_consent (cfg : Config.Config) (env : AppEnv)
    (frames : nat) (input_err : option string) (decode_id : string -> option jvalue) (json_text : jvalue -> string)
    (ecfg : EngineConfig) (ops : list eop) (ms : list arrival) (a : Application)
    (l : nat) (renv : RoundEnv) (sc : Scanner) (out : string) (world : World)
    (lp : Loop (S := Application * list event)) (m : string) (answer : reply)
    (Heng : engine_after time_json ecfg ops a)
    (Hen : Engine_Enabled ecfg = true) (Hmode : Engine_Mode ecfg = "enforce")
    (Hrun : read_round frames input_err json_valid decode_id json_text (Some (proxy_handler cfg env)) l renv
              (mkLoop sc out world (serve cfg ms a, [])) = Continue lp)
    (Hsent : In (EvUpstream m answer) (lp_app lp).2) :
  exists message sess,
    ReadMessage DefaultMaxMessageSize input_err json_valid frames sc
      = Some (lp_scan lp, Ok message) /\
    deref world l = Some sess /\
    consented cfg ecfg ops ms env (incrementRequestCount (roundNow renv) sess).1 message.
Proof.
  unfold read_round in Hrun. cbn [lp_scan lp_world lp_app lp_out] in Hrun.
  destruct (signalled renv); [done|].
  destruct (ReadMessage _ _ _ _ sc) as [[sc' [message|[|e]]]|]; [|done|by simplify_eq/=|done].
  unfold Stdio.process in Hrun. cbn [lp_world lp_app lp_out] in Hrun.
  destruct (deref world l) as [sess|] eqn:Hd.
  2:{ unfold deref, update in *. cbn [heap] in Hrun. by rewrite list_lookup_alter_eq, Hd in Hrun. }
  rewrite (deref_update_eq (fun s => (incrementRequestCount (roundNow renv) s).1) _ _ _ Hd) in Hrun.
  exists message, sess.
  assert (lp_scan lp = sc' /\ lp_app lp =
    (proxy_handler cfg env (incrementRequestCount (roundNow renv) sess).1 message (serve cfg ms a, [])).1)
    as [<- Happ].
  { destruct (proxy_handler cfg env _ message (serve cfg ms a, [])) as [app [[[response|] [err|]]|p]];
      by simplify_eq/=. }
  split; [done|]. split; [done|]. rewrite Happ in Hsent.
  by eapply proxy_handler_consented.
Qed.

(** What a denied message does: the policy violation is the reply, the denial is audited,
    and the upstream server is not called. *)
Lemma denied_reply cfg env sess message a req ctx e' res :
  handled (Routing env) message req ctx ->
  Req_Method req ∈ ["tools/call"; "resources/read"; "resources/subscribe"] ->
  Evaluate time_json (Evaluating env) (build_input cfg (InputAt env) sess ctx) (policyEngine a)
    = (e', Ret (Ok res)) ->
  PolicyTypes.Allow (Decision res) = false -> Result_PolicyMode res = "enforce" ->
  let reply := marshal_data (PolicyViolation (Req_ID req) ctx (Session.AgentID sess)
                 (Session.Capabilities sess) (PolicyTypes.Violations (Decision res)) "enforce"
                 (ViolationTime (Routing env))) in
  exists a' d, proxy_handler cfg env sess message (a, [])
      = ((a', [EvPolicy ctx (Some d) None;
               EvAudit ctx (Some d) reply (time_sub (RouteEnd (Routing env)) (RouteStart (Routing env)))]),
         Ret (reply, None)) /\
    Router.Allow d = false /\ upstreamClient a' = upstreamClient a.
Proof.
  intros Hh Hm He Hd Hmode reply.
  assert (Router.Handler (method_config (Req_Method req)) = HandlerFullEnforce) as Hhandler.
  { apply enforced_iff. rewrite !elem_of_cons, elem_of_nil in Hm. tauto. }
  destruct (handled_ctx _ _ _ _ Hh) as (Hreq & _ & Hcfg & _).
  unfold proxy_handler. rewrite (Route_handled _ _ _ _ _ _ _ Hh).
  unfold mbind, M_bind, dispatch. rewrite Hcfg, Hhandler.
  unfold handleEnforce, mbind, M_bind. cbn [traced app_router policyEvaluator fmap option_fmap option_map].
  unfold policy_evaluator. rewrite He. cbn. rewrite Hd, Hmode. cbn.
  unfold finish, audit, mbind, M_bind. cbn.
  rewrite (bool_decide_eq_true_2 ("enforce" = "enforce")) by done. cbn. rewrite Hcfg.
  rewrite bool_decide_false by by apply enforced_logged. unfold ctx_id. rewrite Hreq. cbn.
  do 2 eexists. split; [reflexivity|]. by split.
Qed.

(** C9: A denial end to end over SSE: a tool call, resource read or subscription that the
    policy denies in enforce mode is acknowledged with 202, exactly one message is offered
    to the session's stream, the policy violation with the request's own id, nothing is
    sent upstream, and the audit log is told of the denial once. *)
Theorem sse_denial_reaches_client (cfg : Config.Config) (env : AppEnv) (agent : AgentConfig)
    (r : MessageRequest) (world : World) (l : nat) (sess : Session.Session) (body : string)
    (a : Application) (req : Request) (ctx : RequestContext) (e' : Engine)
    (res : EvaluationResult) (text : string)
    (Hacc : Sse.acceptable json_valid r world l sess body)
    (Hh : handled (Routing env) body req ctx)
    (Hm : Req_Method req ∈ ["tools/call"; "resources/read"; "resources/subscribe"])
    (He : Evaluate time_json (Evaluating env)
            (build_input cfg (InputAt env) (incrementRequestCount (reqNow r) sess).1 ctx)
            (policyEngine a) = (e', Ret (Ok res)))
    (Hdeny : PolicyTypes.Allow (Decision res) = false) (Hmode : Result_PolicyMode res = "enforce")
    (Htext : marshal_data (PolicyViolation (Req_ID req) ctx
               (Session.AgentID (incrementRequestCount (reqNow r) sess).1)
               (Session.Capabilities (incrementRequestCount (reqNow r) sess).1)
               (PolicyTypes.Violations (Decision res)) "enforce" (ViolationTime (Routing env)))
             = Some text) :
  let counted := update (fun s => (incrementRequestCount (reqNow r) s).1) l world in
  exists a' tr rw,
    Sse.HandleMessage json_valid
      (srv_handler (ServerSetMessageHandler (proxy_handler cfg env)
         (Sse.NewServer (Config.Server cfg) agent))) r world (a, []) newWriter
    = (update (fun s => (SendMessage (pickSend r) text s).1) l counted, (a', tr), Ret rw) /\
    Sse.sent rw = Some (202%Z, []) /\
    upstreamClient a' = upstreamClient a /\
    (forall m answer, ~ In (EvUpstream m answer) tr) /\
    exists d, filter is_audit tr = [EvAudit ctx (Some d) (Some text)
                (time_sub (RouteEnd (Routing env)) (RouteStart (Routing env)))] /\ Router.Allow d = false.
Proof.
  intros counted.
  destruct (denied_reply cfg env _ body a req ctx e' res Hh Hm He Hdeny Hmode) as (a' & d & Hp & Hd & Hup).
  rewrite Htext in Hp.
  rewrite (HandleMessage_accepted json_valid _ r world (a, []) l sess body Hacc).
  destruct Hacc as (_ & _ & Hsess & _). unfold process_message.
  rewrite (deref_update_eq (fun s => (incrementRequestCount (reqNow r) s).1) _ _ _ Hsess).
  unfold run_handler. cbn [srv_handler ServerSetMessageHandler Sse.SetMessageHandler Sse.messageHandler].
  rewrite Hp. do 3 eexists. split; [reflexivity|]. split; [done|]. split; [done|]. split.
  - intros m answer. cbn. naive_solver.
  - by exists d.
Qed.

End Proxy.

(** ** Witnesses *)

#[local] Existing Instance sample_opa.
#[local] Existing Instance sample_json.
#[local] Existing Instance sample_client.

Definition proxy_app : Application := sample_app sample_time.

Lemma app_readiness_witness :
  (ReadinessHandler 0
     (map_to_list (checkers (app_health "1.0" None (fun _ => "1ms") proxy_app)))
     (SetReady true (app_health "1.0" None (fun _ => "1ms") proxy_app))).1 = 200%Z.
Proof.
  apply (app_readiness "1.0" None (fun _ => "1ms") proxy_app 0 true); [reflexivity|].
  split; [reflexivity|]. split; [reflexivity|by right].
Defined.

(** A tool call, posted to the open session of the sample world. *)
Definition tool_post : MessageRequest := mkMessageRequest "sess_u1" (Ok "call") 7 true.

(** A message served before it. *)
Definition earlier : list arrival := [(sample_aenv, sample_sess, "ping")].

Definition posted_call : World * (Application * list event) * outcome ResponseWriter :=
  Sse.HandleMessage (fun _ => true)
    (srv_handler (ServerSetMessageHandler
       (proxy_handler sample_time no_text no_text sample_loaded sample_aenv)
       (Sse.NewServer (Config.Server sample_loaded) (Config.Agent sample_loaded))))
    tool_post opened.1.1 (serve sample_time no_text no_text sample_loaded earlier proxy_app, [])
    newWriter.

Lemma sse_forwards_only_with_consent_witness :
  exists l sess body, Sse.acceptable (fun _ => true) tool_post opened.1.1 l sess body /\
    consented sample_time sample_loaded app_ecfg app_ops earlier sample_aenv
      (incrementRequestCount (reqNow tool_post) sess).1 body.
Proof.
  apply (sse_forwards_only_with_consent sample_time no_text no_text (fun _ => true) sample_loaded
    sample_aenv (Config.Agent sample_loaded) app_ecfg app_ops earlier proxy_app tool_post opened.1.1
    posted_call.1.1 posted_call.1.2 posted_call.2 "call" (Some "done", None)).
  - reflexivity.
  - reflexivity.
  - reflexivity.
  - change (posted_call = (posted_call.1.1, posted_call.1.2, posted_call.2)).
    by destruct posted_call as [[? ?] ?].
  - vm_compute. right. left. reflexivity.
Defined.

Definition read_call : round_result :=
  read_round 1 None (fun _ => true) (fun _ => None) (fun _ => "null")
    (Some (proxy_handler sample_time no_text no_text sample_loaded sample_aenv)) 0 round_env
    (mkLoop (Scanning (lines_text ["call"])) "" one_session
       (serve sample_time no_text no_text sample_loaded earlier proxy_app, [])).

Definition after_call : Loop (S := Application * list event) :=
  match read_call with
  | Continue lp => lp
  | _ => mkLoop (Scanning "") "" one_session (proxy_app, [])
  end.

Lemma stdio_forwards_only_with_consent_witness :
  exists message sess,
    ReadMessage DefaultMaxMessageSize None (fun _ => true) 1
      (Scanning (lines_text ["call"])) = Some (lp_scan after_call, Ok message) /\
    deref one_session 0 = Some sess /\
    consented sample_time sample_loaded app_ecfg app_ops earlier sample_aenv
      (incrementRequestCount (roundNow round_env) sess).1 message.
Proof.
  apply (stdio_forwards_only_with_consent sample_time no_text no_text (fun _ => true) sample_loaded
    sample_aenv 1 None (fun _ => None) (fun _ => "null") app_ecfg app_ops earlier proxy_app 0 round_env
    (Scanning (lines_text ["call"])) "" one_session after_call "call" (Some "done", None)).
  - reflexivity.
  - reflexivity.
  - reflexivity.
  - change (read_call = Continue after_call). unfold after_call.
    assert (match read_call with Continue _ => true | _ => false end = true) as H
      by (vm_compute; reflexivity).
    by destruct read_call.
  - vm_compute. right. left. reflexivity.
Defined.

(** The same application with a policy that denies everything. *)
Definition denying_app : Application :=
  with_engine (erun sample_time [ELoad [("main.rego", "deny")]] (NewEngine app_ecfg)) proxy_app.

Definition counted_session : Session.Session := (incrementRequestCount 7 opened_session).1.

Definition denied_result : Engine * outcome (result string EvaluationResult) :=
  Evaluate sample_time (Evaluating sample_aenv)
    (build_input sample_loaded (InputAt sample_aenv) counted_session sample_ctx)
    (policyEngine denying_app).

Definition denied_decision : EvaluationResult :=
  match denied_result.2 with
  | Ret (Ok res) => res
  | _ => warm_result
  end.

Lemma sse_denial_reaches_client_witness :
  exists a' tr rw,
    Sse.HandleMessage (fun _ => true)
      (srv_handler (ServerSetMessageHandler
         (proxy_handler sample_time no_text no_text sample_loaded sample_aenv)
         (Sse.NewServer (Config.Server sample_loaded) (Config.Agent sample_loaded))))
      tool_post opened.1.1 (denying_app, []) newWriter
    = (update (fun s => (SendMessage true "-32001" s).1) 0
         (update (fun s => (incrementRequestCount 7 s).1) 0 opened.1.1), (a', tr), Ret rw) /\
    upstreamClient a' = Some 0.
Proof.
  edestruct (sse_denial_reaches_client sample_time no_text no_text (fun _ => true) sample_loaded
    sample_aenv (Config.Agent sample_loaded) tool_post opened.1.1 0 opened_session "call" denying_app
    sample_req sample_ctx denied_result.1 denied_decision "-32001")
    as (a' & tr & rw & Hrun & _ & Hup & _).
  - split_and!; [done|vm_compute; reflexivity|vm_compute; reflexivity|reflexivity| |reflexivity].
    exists "call". split; [reflexivity|]. vm_compute. reflexivity.
  - exact sample_handled.
  - left.
  - change (denied_result = (denied_result.1, Ret (Ok denied_decision))). unfold denied_decision.
    assert (match denied_result.2 with Ret (Ok _) => true | _ => false end = true) as H
      by (vm_compute; reflexivity).
    by destruct denied_result as [e [[res|]|]].
  - vm_compute. reflexivity.
  - vm_compute. reflexivity.
  - vm_compute. reflexivity.
  - exists a', tr, rw. split; [exact Hrun|]. exact Hup.
Defined.
