(* ===== verification/Trail.v ===== *)
(** * The audit trail of the proxy

    Composes the application with its audit writer: messages are served while the flush loop
    ticks, inserts, fails and drains in any order. The theorem follows every message to its
    row in the database, or to the counter of dropped records. *)

From Stdlib Require Import ZArith Lia.
From stdpp Require Import base list gmap strings numbers relations.
From S2P Require Import Prelude Json Session PolicyTypes Cache Engine Router.
From S2P Require Import AuditStore AuditWriter Config Loader App Proxy.

Section Trail.

Context `{J : GoJson} `{O : OPA} `{U : UpstreamClient}.
Context (time_json : Time -> result string string).
Context (caps_json : slice string -> string) (args_json : jobject -> string).
Context (cfg : Config.Config).

Abbreviation router env := (app_router time_json caps_json args_json cfg env).
Abbreviation handle env := (App.handleMessage time_json caps_json args_json cfg env).

(** ** One message *)

(** The calls that a message makes, what it sends upstream and the records it writes. *)
Definition events (env : AppEnv) (sess : Session.Session) (message : string) (a : Application)
    : list event :=
  (Proxy.proxy_handler time_json caps_json args_json cfg env sess message (a, [])).1.2.

Definition sent_of (ev : event) : option string :=
  match ev with EvUpstream m _ => Some m | _ => None end.

Definition record_of (env : AppEnv) (sess : Session.Session) (ev : event) : option Record_ :=
  match ev with
  | EvAudit ctx d _ latency => Some (audit_record caps_json args_json cfg (RecordAt env) sess ctx d latency)
  | _ => None
  end.

Definition sent (env : AppEnv) (sess : Session.Session) (message : string) (a : Application) : list string :=
  omap sent_of (events env sess message a).

Definition recorded (env : AppEnv) (sess : Session.Session) (message : string) (a : Application)
    : list Record_ := omap (record_of env sess) (events env sess message a).

Definition took (env : AppEnv) : Duration :=
  time_sub (RouteEnd (Routing env)) (RouteStart (Routing env)).

(** ** Messages and the writer *)

(** What is remembered of a message that was served. *)
Record served : Type := mkServed {
  sv_arrival : arrival;
  sv_outcome : outcome reply;
  sv_sent : list string;
  sv_records : list Record_
}.

Record tstate : Type := mkT {
  ts_app : Application;
  ts_ws : wstate;
  ts_log : list served
}.

Definition with_writer (w : Writer) (a : Application) : Application :=
  {| sessionManager := sessionManager a; policyEngine := policyEngine a;
     upstreamClient := upstreamClient a; auditWriter := Some w; metrics := metrics a |}.

Definition serve_one (env : AppEnv) (sess : Session.Session) (message : string) (st : tstate) : tstate :=
  let a := ts_app st in
  {| ts_app := (handle env sess message a).1;
     ts_ws := foldl (fun s r => do_write r s) (ts_ws st) (recorded env sess message a);
     ts_log := ts_log st ++ [mkServed (env, sess, message) (handle env sess message a).2
                               (sent env sess message a) (recorded env sess message a)] |}.

(** A message is served, or the writer does one of its own steps: those that write nothing. *)
Inductive tstep : tstate -> tstate -> Prop :=
| TServe env sess message st : tstep st (serve_one env sess message st)
| TWriter s' st : wstep (ts_ws st) s' -> history s' = history (ts_ws st) ->
    tstep st (mkT (with_writer (wr s') (ts_app st)) s' (ts_log st)).

Definition tinit (a : Application) (t : Table) (wcfg : WriterConfig) : tstate :=
  mkT a (init_state t wcfg) [].

(** What a message leaves in the log: nothing if it was refused, if its method is not logged or
    if its handling panicked, and otherwise one record of its own request, session and decision.
    An enforced message that was sent upstream was recorded with a decision that let it pass. *)
Definition served_ok (x : served) : Prop :=
  let '(env, sess, message) := sv_arrival x in
  match sv_outcome x with
  | Panic _ => sv_records x = []
  | Ret _ =>
      (sv_records x = [] /\ forall req ctx, handled (Routing env) message req ctx ->
         Log_Level (method_config (Req_Method req)) = LogNone) \/
      exists req ctx d, handled (Routing env) message req ctx /\
        Log_Level (method_config (Req_Method req)) <> LogNone /\
        sv_records x = [audit_record caps_json args_json cfg (RecordAt env) sess ctx d (took env)] /\
        (Handler (method_config (Req_Method req)) = HandlerFullEnforce -> sv_sent x <> [] ->
         exists d', d = Some d' /\ (Router.Allow d' = true \/ PolicyMode d' <> "enforce"))
  end.

(** ** Lemmas *)

Lemma upstream_sender_writer m a : auditWriter (upstream_sender m a).1 = auditWriter a.
Proof.
  unfold upstream_sender. destruct (upstreamClient a) as [c|]; [|done].
  destruct (App.IsConnected c); [|done]. by destruct (App.Send m c).
Qed.

Lemma forward_writer env m a : auditWriter (forward (router env) m a).1 = auditWriter a.
Proof. apply upstream_sender_writer. Qed.

Lemma dispatch_writer env sess ctx m a :
  auditWriter (dispatch (router env) (Routing env) sess ctx m a).1 = auditWriter a.
Proof.
  unfold dispatch, handlePassthrough, handleFilter. destruct (Router.Handler (Router.Config ctx)).
  1,3: unfold mbind, M_bind; pose proof (forward_writer env m a) as Hw;
       destruct (forward _ m a) as [a' [[r e]|p]]; exact Hw.
  unfold handleEnforce, mbind, M_bind. cbn [app_router policyEvaluator]. unfold policy_evaluator.
  destruct (Evaluate _ _ _ _) as [e' [[res|msg]|p]]; [|done..].
  cbn -[forward_enforced]. case_match; [done|].
  unfold forward_enforced, mbind, M_bind.
  match goal with |- context [forward ?r ?m ?a0] => pose proof (forward_writer env m a0) as Hw;
    destruct (forward r m a0) as [a' [[r0 [e|]]|p]]; exact Hw end.
Qed.

(** In an enforced handling, what was sent was let pass by the decision that is returned. *)
Lemma dispatch_truth {W} (r : Router W) env sess ctx m w w' tr resp d err f :
  dispatch (traced r) env sess ctx m (w, []) = ((w', tr), Ret (resp, d, err)) ->
  Router.Handler (Router.Config ctx) = HandlerFullEnforce -> policyEvaluator r = Some f ->
  omap sent_of tr <> [] ->
  exists d', d = Some d' /\ (Router.Allow d' = true \/ PolicyMode d' <> "enforce").
Proof.
  intros Hrun Hh Hf Hsent. unfold dispatch in Hrun. rewrite Hh in Hrun.
  unfold handleEnforce, mbind, M_bind in Hrun. cbn [traced policyEvaluator] in Hrun. rewrite Hf in Hrun.
  cbn in Hrun. destruct (f sess ctx w) as [w1 [[dp [e|]]|p]]; [| |done].
  { by destruct dp; unfold mret, M_ret in Hrun; simplify_eq/=. }
  destruct dp as [dp|]; cbn in Hrun; [|by simplify_eq/=].
  destruct (negb (Router.Allow dp) && bool_decide (PolicyMode dp = "enforce")) eqn:Hd.
  { by unfold mret, M_ret in Hrun; simplify_eq/=. }
  assert (Router.Allow dp = true \/ PolicyMode dp <> "enforce") as Hdp.
  { destruct (Router.Allow dp); [by left|right]. by apply bool_decide_eq_false in Hd. }
  exists dp. split; [|done]. unfold forward_enforced, mbind, M_bind in Hrun.
  destruct (forward (traced r) m _) as [s [[x [e|]]|p]]; unfold mret, M_ret in Hrun; by simplify_eq/=.
Qed.

Lemma M_bind_run {St A B} (m : M St A) (k : A -> M St B) st :
  (m ≫= k) st = match m st with (st', Ret x) => k x st' | (st', Panic p) => (st', Panic p) end.
Proof. reflexivity. Qed.

Lemma mediated_records {W} (r : Router W) env sess ctx msg pol up :
  mediated r ctx msg pol up -> omap (record_of env sess) (pol ++ up) = [].
Proof. by intros [[->|[? ->]] [->|(? & ? & ->)] _ _]. Qed.

(** The course of a message that is handled: what the handler calls writes no record, then the
    audit callback runs, unless the handler panicked or the method is not logged. *)
Lemma handled_run env sess message req ctx a :
  handled (Routing env) message req ctx ->
  exists tr, omap (record_of env sess) tr = [] /\
    match dispatch (router env) (Routing env) sess ctx message a with
    | (a1, Panic p) => handle env sess message a = (a1, Panic p) /\ events env sess message a = tr
    | (a1, Ret (resp, d, err)) =>
        (Router.Handler (Router.Config ctx) = HandlerFullEnforce -> omap sent_of tr <> [] ->
         exists d', d = Some d' /\ (Router.Allow d' = true \/ PolicyMode d' <> "enforce")) /\
        if bool_decide (Log_Level (Router.Config ctx) = LogNone)
        then handle env sess message a = (a1, Ret (resp, err)) /\ events env sess message a = tr
        else handle env sess message a
               = ((audit_logger caps_json args_json cfg env sess ctx d resp (took env) a1).1,
                  Ret (resp, err)) /\
             events env sess message a = tr ++ [EvAudit ctx d resp (took env)]
    end.
Proof.
  intros Hh. destruct (dispatch_traced (router env) (Routing env) sess ctx message a [])
    as (pol & up & Hm & Hd).
  exists (pol ++ up). split; [by eapply mediated_records|].
  unfold events, Proxy.proxy_handler, App.handleMessage. rewrite !(Route_handled _ _ _ _ _ _ _ Hh).
  rewrite !M_bind_run, Hd. destruct (dispatch (router env) (Routing env) sess ctx message a)
    as [a1 [[[resp d] err]|p]]; [|done].
  split; [intros He; by eapply dispatch_truth|].
  unfold finish, mbind, M_bind, audit. cbn [app_router traced auditLogger fmap option_fmap option_map].
  by case_bool_decide.
Qed.

Lemma events_unhandled env sess message a :
  (forall req ctx, ~ handled (Routing env) message req ctx) ->
  (handle env sess message a).1 = a /\ events env sess message a = [].
Proof.
  intros Hn. unfold events, Proxy.proxy_handler, App.handleMessage.
  destruct (Route_unhandled (router env) (Routing env) sess message)
    as [(req & ctx & Hh)|(_ & o & Hu)]; [by destruct (Hn req ctx Hh)|].
  by destruct (Hu a) as [-> ->].
Qed.

Definition written_by (rs : list Record_) (w : Writer) : Writer := foldl (fun w r => Write r w) w rs.

(** Serving one message writes what was recorded. *)
Lemma handle_writer env sess message a :
  auditWriter (handle env sess message a).1
    = written_by (recorded env sess message a) <$> auditWriter a.
Proof.
  destruct (Route_unhandled (router env) (Routing env) sess message)
    as [(req & ctx & Hh)|(Hn & _)].
  2:{ unfold recorded. destruct (events_unhandled env sess message a Hn) as [-> ->].
      by destruct (auditWriter a). }
  destruct (handled_run env sess message req ctx a Hh) as (tr & Htr & Hrun).
  pose proof (dispatch_writer env sess ctx message a) as Hw. unfold recorded.
  destruct (dispatch _ _ _ _ _ _) as [a1 [[[resp d] err]|p]]; cbn [fst] in Hw; rewrite <- Hw.
  2:{ destruct Hrun as [-> ->]. rewrite Htr. cbn [fst]. by destruct (auditWriter a1). }
  destruct Hrun as [_ Hrun]. case_bool_decide; destruct Hrun as [-> ->].
  - rewrite Htr. cbn [fst]. by destruct (auditWriter a1).
  - rewrite omap_app, Htr. cbn. by destruct (auditWriter a1).
Qed.

(** What a message leaves in the log is as promised. *)
Lemma handle_served env sess message a :
  served_ok (mkServed (env, sess, message) (handle env sess message a).2
               (sent env sess message a) (recorded env sess message a)).
Proof.
  unfold served_ok, sent, recorded. cbn [sv_arrival sv_outcome sv_records sv_sent].
  destruct (Route_unhandled (router env) (Routing env) sess message)
    as [(req & ctx & Hh)|(Hn & _)].
  2:{ destruct (events_unhandled env sess message a Hn) as [_ ->].
      case_match; [left; split; [done|]; intros req ctx Hh; by destruct (Hn req ctx Hh)|done]. }
  destruct (handled_ctx _ _ _ _ Hh) as (_ & _ & Hcfg & _).
  destruct (handled_run env sess message req ctx a Hh) as (tr & Htr & Hrun).
  destruct (dispatch _ _ _ _ _ _) as [a1 [[[resp d] err]|p]].
  2:{ destruct Hrun as [-> ->]. by rewrite Htr. }
  destruct Hrun as [Htruth Hrun]. rewrite Hcfg in *. case_bool_decide as Hl; destruct Hrun as [-> ->].
  - left. rewrite Htr. split; [done|]. intros req' ctx' Hh'.
    by destruct (handled_functional _ _ _ _ _ _ Hh Hh') as [-> _].
  - right. exists req, ctx, d. split; [done|]. split; [done|].
    rewrite !omap_app, Htr. cbn. rewrite app_nil_r. done.
Qed.

(** ** The invariant of the trail *)

Lemma writes_wr rs s : wr (foldl (fun s r => do_write r s) s rs) = written_by rs (wr s).
Proof. revert s. induction rs as [|r rs IH]; intros s; [done|]. simpl. by rewrite IH. Qed.

Lemma writes_history rs s : history (foldl (fun s r => do_write r s) s rs) = history s ++ rs.
Proof.
  revert s. induction rs as [|r rs IH]; intros s; simpl; [by rewrite app_nil_r|].
  rewrite IH. simpl. by rewrite <- app_assoc.
Qed.

Lemma writes_steps rs s : rtc wstep s (foldl (fun s r => do_write r s) s rs).
Proof.
  revert s. induction rs as [|r rs IH]; intros s; simpl; [apply rtc_refl|].
  eapply rtc_l; [apply (SWrite r)|apply IH].
Qed.

(** The writer of the application is the one of the interleaving, which has been given the records
    of the messages served so far, in this order, and nothing else. *)
Record trail_inv (t : Table) (wcfg : WriterConfig) (st : tstate) : Prop := {
  ti_writer : auditWriter (ts_app st) = Some (wr (ts_ws st));
  ti_reachable : AuditWriter.reachable t wcfg (ts_ws st);
  ti_history : history (ts_ws st) = concat (map sv_records (ts_log st));
  ti_served : Forall served_ok (ts_log st)
}.

Lemma tstep_inv t wcfg st st' : tstep st st' -> trail_inv t wcfg st -> trail_inv t wcfg st'.
Proof.
  intros Hst [Hw Hr Hh Hs]. destruct Hst as [env sess message st|s' st Hstep Hsame].
  - split; cbn.
    + by rewrite handle_writer, Hw, writes_wr.
    + unfold AuditWriter.reachable in *. etrans; [exact Hr|apply writes_steps].
    + by rewrite writes_history, map_app, concat_app, Hh; cbn; rewrite app_nil_r.
    + apply list.Forall_app. split; [done|]. apply list.Forall_singleton, handle_served.
  - split; cbn; [done| |by rewrite Hsame|done]. eapply rtc_r; [exact Hr|exact Hstep].
Qed.

Lemma trail_reachable t wcfg a st :
  auditWriter a = Some (NewWriter t wcfg) -> rtc tstep (tinit a t wcfg) st -> trail_inv t wcfg st.
Proof.
  intros Ha Hrun. assert (trail_inv t wcfg (tinit a t wcfg)) as Hi.
  { split; cbn; [done|apply rtc_refl|done|constructor]. }
  revert Hi. induction Hrun as [|x y z Hxy _ IH]; [done|]. eauto using tstep_inv.
Qed.

(** A sublist as long as the list is the list. *)
Lemma sublist_full {A} (l k : list A) : l `sublist_of` k -> l ≡ₚ k -> l = k.
Proof.
  intros Hs Hp. apply Permutation_length in Hp. revert Hp.
  induction Hs as [|x l k Hs IH|x l k Hs IH]; intros Hl; simpl in Hl; [done| |].
  - f_equal. apply IH. lia.
  - apply sublist_length in Hs. lia.
Qed.

(** C4: The audit trail of the proxy is complete, exact and in order. Whatever messages were
    served and however the flush loop ticked, inserted, failed and was cancelled in between, once
    the loop has exited, with nothing served after the cancellation, the database holds exactly
    its old rows and the records of the messages served, less the records counted as dropped; with
    nothing dropped it holds them in the order of the messages. Every message left one record of
    its own request, session and decision if it was handled, its method is logged and its handling
    did not panic, and none otherwise, and a record of an enforced message that went upstream tells
    the decision that let it pass. *)
Theorem audit_trail (a : Application) (t : Table) (wcfg : WriterConfig) (st : tstate)
    (Hids : ids_ok t) (Ha : auditWriter a = Some (NewWriter t wcfg))
    (Hrun : rtc tstep (tinit a t wcfg) st)
    (Hexit : loop (wr (ts_ws st)) = Exited)
    (Hlate : late (ts_ws st) = false) (Hext : external (ts_ws st) = false) :
  let rows := Rows (store (wr (ts_ws st))) in
  let trail := concat (map sv_records (ts_log st)) in
  Forall served_ok (ts_log st) /\
  clr rows ++ clr (lost (ts_ws st)) ≡ₚ clr (Rows t) ++ clr trail /\
  dropped (wr (ts_ws st)) = wrap64 (Z.of_nat (length (lost (ts_ws st)))) /\
  (lost (ts_ws st) = [] -> clr rows = clr (Rows t) ++ clr trail).
Proof.
  destruct (trail_reachable t wcfg a st Ha Hrun) as [_ Hr Hh Hs]. intros rows trail.
  destruct (reachable_inv t wcfg _ Hids Hr) as [_ _ _ Hperm _ Hdrop Hdr Hord].
  destruct (Hord Hext) as [Hin Hsub]. rewrite Hexit in *. destruct (Hdr eq_refl) as [_ Hb].
  rewrite Hin, (Hb Hlate), Hh in *. cbn in Hperm, Hsub. rewrite !app_nil_r in *.
  split; [done|]. split; [done|]. split; [done|]. intros Hlost. rewrite Hlost in Hperm.
  cbn in Hperm. rewrite app_nil_r in Hperm. rewrite <- !clr_app in *. by apply sublist_full.
Qed.

End Trail.

(** ** Witness *)

#[local] Existing Instance sample_opa.
#[local] Existing Instance sample_json.
#[local] Existing Instance sample_client.

Definition trail_start : tstate := tinit proxy_app empty_table small_writer.

Definition serve_sample : tstate -> tstate :=
  serve_one sample_time no_text no_text sample_loaded sample_aenv sample_sess "call".

Definition writer_turn (f : Writer -> Writer) (st : tstate) : tstate :=
  mkT (with_writer (f (wr (ts_ws st))) (ts_app st)) (on_writer f (ts_ws st)) (ts_log st).

Lemma turn_step f st :
  wstep (ts_ws st) (on_writer f (ts_ws st)) ->
  tstep sample_time no_text no_text sample_loaded st (writer_turn f st).
Proof. intros Hs. by apply (TWriter _ _ _ _ (on_writer f (ts_ws st)) st). Qed.

(** A tool call is served while the loop runs, then the loop drains the buffer. *)
Definition trail_served : tstate := serve_sample (writer_turn (set_loop Waiting) trail_start).

Definition trail_cancelled : tstate := writer_turn (loop_take true) (writer_turn cancel trail_served).

Definition trail_batch : list Record_ := loop_batch (loop (wr (ts_ws trail_cancelled))).

Definition trail_end : tstate :=
  let s := add_lost (batch_lost no_faults trail_batch (wr (ts_ws trail_cancelled)))
             (on_writer (loop_insert no_faults trail_batch true) (ts_ws trail_cancelled)) in
  mkT (with_writer (wr s) (ts_app trail_cancelled)) s (ts_log trail_cancelled).

Lemma trail_end_reachable :
  rtc (tstep sample_time no_text no_text sample_loaded) trail_start trail_end.
Proof.
  apply (rtc_l _ _ (writer_turn (set_loop Waiting) trail_start)); [by apply turn_step, SStart|].
  apply (rtc_l _ _ trail_served); [apply TServe|].
  apply (rtc_l _ _ (writer_turn cancel trail_served)); [apply turn_step, SCancel|].
  apply (rtc_l _ _ trail_cancelled); [apply turn_step, SDone; vm_compute; reflexivity|].
  apply rtc_once, (TWriter _ _ _ _ _ trail_cancelled); [|reflexivity].
  apply (SLoopInsert no_faults trail_batch true). vm_compute. reflexivity.
Qed.

Lemma audit_trail_witness :
  length (Rows (store (wr (ts_ws trail_end)))) = 1 /\
  clr (Rows (store (wr (ts_ws trail_end)))) = clr (concat (map sv_records (ts_log trail_end))).
Proof.
  split; [vm_compute; reflexivity|].
  destruct (audit_trail sample_time no_text no_text sample_loaded proxy_app empty_table small_writer
    trail_end empty_table_ids) as (_ & _ & _ & Hrows).
  - reflexivity.
  - exact trail_end_reachable.
  - vm_compute. reflexivity.
  - vm_compute. reflexivity.
  - vm_compute. reflexivity.
  - exact (Hrows ltac:(vm_compute; reflexivity)).
Defined.
