(* ===== verification/Shipped.v ===== *)
(** * The proxy with the policies of the repository

    Composes the loader, the engine, the router and the transport (Proxy) with the rules of
    policies/*.rego (Rego): what it takes, in terms of the policy data alone, for a message
    to reach the upstream server after [app.Start] has loaded these policies: the
    four Rego files, without the example of policies/json. *)

From Stdlib Require Import ZArith Lia.
From stdpp Require Import base list gmap sets strings numbers relations.
From S2P Require Import Prelude Json Session PolicyTypes Cache Engine EngineConc Rego Router.
From S2P Require Import AuditStore AuditWriter Config Loader Transport Sse Stdio Observability App Proxy.

(** What [Start] makes a new engine do: [SetPolicyData], then [LoadPolicies]. *)
Definition startup (ms : list (string * string)) (data : jobject) : list eop :=
  [EData data; ELoad ms].

(** What the cache key means to distinguish. *)
Definition same_subject (i1 i2 : PolicyInput) : Prop :=
  Agent_ID (PolicyTypes.Agent i1) = Agent_ID (PolicyTypes.Agent i2) /\
  Request_Tool (PolicyTypes.Request i1) = Request_Tool (PolicyTypes.Request i2) /\
  elems (Agent_Capabilities (PolicyTypes.Agent i1)) ≡ₚ elems (Agent_Capabilities (PolicyTypes.Agent i2)).

(** The demands of the policies that do not change from one request of an agent to the next:
    all but the rate limit. *)
Record entitled (data : jobject) (agent tool : string) (caps : list string) : Prop := {
  en_capability : forall required,
    index (obj_get data "tool_capabilities") (coerce_utf8 tool) = Some required ->
    required <> JBool false ->
    exists cap, cap ∈ caps /\ grants (JStr (coerce_utf8 cap)) required;
  en_tool : ~ listed data "blocked_tools" (coerce_utf8 tool);
  en_agent : ~ listed data "blocked_agents" (coerce_utf8 agent)
}.

Definition entitled_input (data : jobject) (i : PolicyInput) : Prop :=
  entitled data (Agent_ID (PolicyTypes.Agent i)) (Request_Tool (PolicyTypes.Request i)) (elems (Agent_Capabilities (PolicyTypes.Agent i))).

(** ** Inputs *)

Lemma coerced_capabilities (caps : slice string) :
  elements_of (Some (coerce (json_strings caps))) = map (fun c => JStr (coerce_utf8 c)) (elems caps).
Proof.
  destruct caps as [l|]; [|done]. cbn. induction l as [|c l IH]; [done|]. cbn. by f_equal.
Qed.

Lemma authorized_entitled data i : authorized data (rego_input_of i) -> entitled_input data i.
Proof.
  intros H. split; [|exact (au_tool _ _ H)|exact (au_agent _ _ H)]. intros required Hr Hne.
  destruct (au_capability _ _ H required Hr Hne) as (cap & Hin & Hg).
  cbn [rego_input_of input_agent_capabilities] in Hin. rewrite coerced_capabilities in Hin.
  apply list_elem_of_fmap in Hin as (c & -> & Hc). by exists c.
Qed.

Lemma entitled_same_subject data i1 i2 :
  same_subject i1 i2 -> entitled_input data i1 -> entitled_input data i2.
Proof.
  intros (Ha & Ht & Hc) [H1 H2 H3]. unfold entitled_input. rewrite <- Ha, <- Ht.
  split; [|done..]. intros required Hr Hne. destruct (H1 required Hr Hne) as (cap & Hin & Hg).
  exists cap. by rewrite <- Hc.
Qed.

Lemma build_input_subject cfg now sess ctx :
  Agent_ID (PolicyTypes.Agent (build_input cfg now sess ctx)) = Session.AgentID sess /\
  Request_Tool (PolicyTypes.Request (build_input cfg now sess ctx)) = Router.Tool ctx /\
  Agent_Capabilities (PolicyTypes.Agent (build_input cfg now sess ctx)) = Session.Capabilities sess.
Proof. unfold build_input. by destruct (bool_decide _). Qed.

(** ** Loading *)

Section Shipped.

Context `{O : OPA} (shipped : list (string * string)).
Context (sprintf : string -> list jvalue -> option string) `{!RunsPolicies shipped sprintf}.
Context (time_json : Time -> result string string).

(** A first, successful [LoadAndInitialize] is [startup] on the data of the file. *)
Lemma LoadAndInitialize_startup {Def} fs unmarshal_map (unmarshal_def : string -> result string Def)
    Compile l ecfg e ms :
  Loader.LoadPolicies fs unmarshal_def Compile l = Ok ms ->
  LoadAndInitialize fs unmarshal_map unmarshal_def Compile l (NewEngine ecfg) = (e, Ok tt) ->
  exists data, LoadPolicyData fs unmarshal_map l = Ok data /\
    e = erun time_json (startup ms data) (NewEngine ecfg) /\
    PrepareForEval ms (store_of data) = Ok (query e).
Proof.
  intros Hms. unfold LoadAndInitialize. rewrite Hms. cbn [wrap_err].
  destruct (LoadPolicyData fs unmarshal_map l) as [data|]; [|done]. cbn [wrap_err].
  intros H. exists data. split; [done|].
  set (e0 := with_policy zero_query [] data (Invalidate (cache (NewEngine ecfg))) (NewEngine ecfg)).
  change (SetPolicyData data (NewEngine ecfg)) with (e0, Ok (E := string) tt) in H.
  change (erun time_json (startup ms data) (NewEngine ecfg)) with (Engine.LoadPolicies ms e0).1.
  cbn [wrap_err] in H. destruct (Engine.LoadPolicies ms e0) as [e1 r] eqn:Hl.
  destruct r as [[]|]; [|done]. injection H as ->. split; [done|].
  unfold Engine.LoadPolicies, compileWithData in Hl. cbn in Hl.
  destruct (PrepareForEval ms (store_of data)) as [q|]; [|done]. by injection Hl as <-.
Qed.

(** OPA's consent, when only evaluations followed the start-up, in terms of the policies. *)
Lemma consents_authorized ecfg data evs env input q :
  PrepareForEval shipped (store_of data) = Ok q ->
  Forall is_evaluation evs ->
  opa_consents time_json ecfg (startup shipped data ++ evs) env input ->
  authorized data (rego_input_of input) \/
  exists env' input', EEvaluate env' input' ∈ evs /\ ComputeKey input' = ComputeKey input /\
    authorized data (rego_input_of input') /\
    (AtGet env < AtSet env' + l2TTL (cache (NewEngine ecfg)))%Z.
Proof.
  intros Hq Hevs.
  assert (forall l, Forall is_evaluation l ->
    PrepareForEval shipped (store_of data)
      = Ok (query (erun time_json (startup shipped data ++ l) (NewEngine ecfg)))) as Hquery.
  { intros l Hl. unfold erun. rewrite foldl_app. fold (erun time_json l).
    change (foldl (apply_eop time_json) ?e l) with (erun time_json l e).
    rewrite erun_query by done. cbn. unfold Engine.LoadPolicies, compileWithData. cbn. by rewrite Hq. }
  intros [H|(pre & env' & input' & post & Hops & Hk & H & Ht & _)].
  - left. exact (opa_allows_authorized shipped sprintf time_json _ data _ _ (Hquery evs Hevs) H).
  - right. exists env', input'.
    destruct pre as [|o1 [|o2 pre]]; [done..|]. injection Hops as <- <- ->.
    apply Forall_app in Hevs as [Hpre _].
    split; [set_solver|]. split; [done|]. split; [|done].
    exact (opa_allows_authorized shipped sprintf time_json _ data _ _ (Hquery pre Hpre) H).
Qed.

End Shipped.

(** ** From the policy files to the upstream server *)

Section EndToEnd.

Context `{J : GoJson} `{O : OPA} `{U : UpstreamClient} {Def : Type}.
Context (shipped : list (string * string)).
Context (sprintf : string -> list jvalue -> option string) `{!RunsPolicies shipped sprintf}.
Context (time_json : Time -> result string string).
Context (caps_json : slice string -> string) (args_json : jobject -> string).
(** The file system, the decoders and the compiler of the loader. *)
Context (fs : FS) (unmarshal_map : string -> result string jobject).
Context (unmarshal_def : string -> result string Def).
Context (Compile : Def -> result string (list (string * string) * list string)).

Abbreviation serve := (Proxy.serve time_json caps_json args_json).
Abbreviation proxy_handler := (Proxy.proxy_handler time_json caps_json args_json).

(** An application whose engine was initialised with the shipped policies and this data: the
    policy directory holds the four Rego files, and no module comes from its subdirectory json.
    With policies/json/example-policy.json there, the module compiled from it would repeat the
    default rules of these files ([Compiler.defaults_in_every_module]), which OPA refuses, and
    the start would fail. *)
Definition initialised (ecfg : EngineConfig) (l : Loader) (data : jobject) (a : Application) : Prop :=
  Loader.LoadPolicies fs unmarshal_def Compile l = Ok shipped /\
  LoadPolicyData fs unmarshal_map l = Ok data /\
  LoadAndInitialize fs unmarshal_map unmarshal_def Compile l (NewEngine ecfg)
    = (policyEngine a, Ok tt).

(** What the policies know of a message when it is forwarded: it is authorized, or a message
    with the same cache key was, no longer ago than the time to live. *)
Definition permitted (cfg : Config.Config) (ecfg : EngineConfig) (data : jobject) (ms : list arrival)
    (env : AppEnv) (sess : Session.Session) (message : string) : Prop :=
  forall req ctx, handled (Routing env) message req ctx ->
    Req_Method req ∈ ["tools/call"; "resources/read"; "resources/subscribe"] ->
    let input := build_input cfg (InputAt env) sess ctx in
    authorized data (rego_input_of input) \/
    exists env0 sess0 message0 req0 ctx0,
      (env0, sess0, message0) ∈ ms /\ handled (Routing env0) message0 req0 ctx0 /\
      let input0 := build_input cfg (InputAt env0) sess0 ctx0 in
      ComputeKey input0 = ComputeKey input /\ authorized data (rego_input_of input0) /\
      (AtGet (Evaluating env) < AtSet (Evaluating env0) + l2TTL (cache (NewEngine ecfg)))%Z.

Lemma asked_by_evaluation cfg ms evs : Forall (asked_by cfg ms) evs -> Forall is_evaluation evs.
Proof.
  intros H. eapply list.Forall_impl; [exact H|]. by intros o (env & sess & m & req & ctx & _ & _ & ->).
Qed.

Lemma initialised_engine ecfg l data a :
  initialised ecfg l data a ->
  engine_after time_json ecfg (startup shipped data) a /\
  exists q, PrepareForEval shipped (store_of data) = Ok q.
Proof.
  intros (Hms & Hdata & Hinit).
  destruct (LoadAndInitialize_startup time_json fs unmarshal_map unmarshal_def Compile l ecfg
              (policyEngine a) shipped Hms Hinit) as (d & Hd & He & Hq).
  rewrite Hdata in Hd. injection Hd as <-. split; [done|by eexists].
Qed.

Lemma consented_permitted cfg ecfg l data ms env sess message a :
  initialised ecfg l data a ->
  consented time_json cfg ecfg (startup shipped data) ms env sess message ->
  permitted cfg ecfg data ms env sess message.
Proof.
  intros Hinit Hc req ctx Hh Hm input. destruct (Hc req ctx Hh Hm) as (evs & Hevs & Hopa).
  destruct (initialised_engine ecfg l data a Hinit) as [_ [q Hq]].
  destruct (consents_authorized shipped sprintf time_json ecfg data evs _ _ q Hq
              (asked_by_evaluation _ _ _ Hevs) Hopa) as [H|(env' & input' & Hin & Hk & Ha & Ht)];
    [by left|right].
  destruct (proj1 (list.Forall_forall _ _) Hevs _ Hin)
    as (env0 & sess0 & m0 & req0 & ctx0 & Hms & Hh0 & Heq).
  injection Heq as -> ->. by exists env0, sess0, m0, req0, ctx0.
Qed.

Lemma initialised_permitted cfg ecfg l data ms env sess message a m answer :
  initialised ecfg l data a -> Engine_Enabled ecfg = true -> Engine_Mode ecfg = "enforce" ->
  In (EvUpstream m answer) (proxy_handler cfg env sess message (serve cfg ms a, [])).1.2 ->
  permitted cfg ecfg data ms env sess message.
Proof.
  intros Hinit Hen Hmode Hin. apply (consented_permitted cfg ecfg l data ms env _ message a Hinit).
  exact (proxy_handler_consented _ _ _ _ _ _ _ _ _ _ _ _ _
           (proj1 (initialised_engine ecfg l data a Hinit)) Hen Hmode Hin).
Qed.

(** C7: The cache never widens what an agent may do, in an application that was initialised with
    the four Rego files of the repository and some policy data, and whose engine is enabled and
    in enforce mode. As long as no message served before has the cache key of this request for
    another agent, tool or set of capabilities, a forwarded message of an enforced method was
    sent by a session that holds a capability granting the one its tool requires, and neither
    the tool nor the agent is on a blocklist; only the rate limit can be outdated. *)
Theorem forwarded_call_is_entitled (cfg : Config.Config) (env : AppEnv) (ecfg : EngineConfig)
    (l : Loader) (data : jobject) (ms : list arrival) (a : Application) (sess : Session.Session)
    (message : string) (req : Router.Request) (ctx : Router.RequestContext) (m : string) (answer : reply)
    (Hinit : initialised ecfg l data a)
    (Hen : Engine_Enabled ecfg = true) (Hmode : Engine_Mode ecfg = "enforce")
    (Hh : handled (Routing env) message req ctx)
    (Hmethod : Req_Method req ∈ ["tools/call"; "resources/read"; "resources/subscribe"])
    (Hkeys : forall env0 sess0 message0 req0 ctx0,
       (env0, sess0, message0) ∈ ms -> handled (Routing env0) message0 req0 ctx0 ->
       ComputeKey (build_input cfg (InputAt env0) sess0 ctx0)
         = ComputeKey (build_input cfg (InputAt env) sess ctx) ->
       same_subject (build_input cfg (InputAt env0) sess0 ctx0)
         (build_input cfg (InputAt env) sess ctx))
    (Hsent : In (EvUpstream m answer) (proxy_handler cfg env sess message (serve cfg ms a, [])).1.2) :
  entitled data (Session.AgentID sess) (Router.Tool ctx) (elems (Session.Capabilities sess)).
Proof.
  pose proof (initialised_permitted cfg ecfg l data ms env _ message a m answer Hinit Hen Hmode Hsent)
    as Hp.
  destruct (build_input_subject cfg (InputAt env) sess ctx) as (<- & <- & <-).
  destruct (Hp req ctx Hh Hmethod) as [H|(env0 & sess0 & m0 & req0 & ctx0 & Hin & Hh0 & Hk & H & _)].
  - by apply authorized_entitled.
  - apply (entitled_same_subject data (build_input cfg (InputAt env0) sess0 ctx0)).
    + by apply (Hkeys env0 sess0 m0 req0 ctx0).
    + by apply authorized_entitled.
Qed.

(** The engine that [LoadAndInitialize] leaves. *)
Lemma initialised_cold ecfg l data a :
  initialised ecfg l data a ->
  enabled (policyEngine a) = Engine_Enabled ecfg /\ l2Cache (cache (policyEngine a)) = ∅.
Proof.
  intros H. destruct (initialised_engine ecfg l data a H) as [-> _]. split.
  - apply (erun_mode time_json (startup shipped data)).
  - cbn. unfold Engine.LoadPolicies. rewrite (proj1 (compileWithData_frame _)). cbn.
    unfold Invalidate. by case_match.
Qed.

(** C13: Concurrent requests are authorized too. When the engine was initialised with the
    policies of the repository and any number of goroutines evaluate at the same time, a
    result that allows means that the policy data authorizes its input, or that it comes from
    the cache and the input of another of these evaluations, with the same key, is authorized. *)
Theorem concurrent_requests_authorized (ecfg : EngineConfig) (l : Loader) (data : jobject)
    (a : Application) (calls : list eop) (st : cstate) (res : EvaluationResult)
    (Hinit : initialised ecfg l data a) (Hen : Engine_Enabled ecfg = true)
    (Hcalls : Forall is_evaluation calls)
    (Hrun : rtc (step time_json) (start (policyEngine a) calls) st)
    (Hres : ERet (Ret (Ok res)) ∈ threads st) (Hallow : PolicyTypes.Allow (Decision res) = true) :
  if CacheHit res
  then exists env input, EEvaluate env input ∈ calls /\ ComputeKey input = ComputeKey (Input res)
         /\ authorized data (rego_input_of input)
  else authorized data (rego_input_of (Input res)).
Proof.
  destruct (initialised_cold ecfg l data a Hinit) as [He Hcold]. rewrite Hen in He.
  apply list_elem_of_lookup in Hres as [i Hi].
  destruct (returned_sound time_json _ calls st i res He Hcold Hrun Hi) as (env & Hin & Hs).
  assert (forall st j env input d, computed time_json (policyEngine a) calls st j env input d ->
            PolicyTypes.Allow d = true -> authorized data (rego_input_of input)) as Hauth.
  { intros st' j env' input d Hc Hd. apply (computed_first_query _ _ _ _ _ _ _ _ Hcalls) in Hc.
    apply (opa_allows_authorized shipped sprintf time_json (policyEngine a) data input (AtEval env')).
    - destruct Hinit as (Hms & Hdata & Hi').
      destruct (LoadAndInitialize_startup time_json fs unmarshal_map unmarshal_def Compile l ecfg
                  (policyEngine a) shipped Hms Hi') as (d' & Hd' & _ & Hq). congruence.
    - by eapply evaluatePolicy_allows. }
  destruct (CacheHit res).
  - destruct Hs as (j & env' & input & st1 & st2 & _ & Hk & (_ & Hc & _) & _). exists env', input.
    split; [|split; [done|by eapply Hauth]]. apply list_elem_of_lookup. exists j. apply Hc.
  - by eapply Hauth.
Qed.

(** [json.Valid]. *)
Context (json_valid : string -> bool).

(** C1: From the policy files to the wire. An application that [LoadAndInitialize] started
    with the four Rego files of the repository, its engine enabled and in enforce mode, and
    that has served any messages since, sends something upstream for a POST only if it names an open session and, for a
    tool call, resource read or subscription, the policy data authorizes this request of this
    session, counted, or authorized an earlier message with the same cache key within the
    time to live. *)
Theorem sse_forwards_only_authorized (cfg : Config.Config) (env : AppEnv) (agent : AgentConfig)
    (ecfg : EngineConfig) (l : Loader) (data : jobject) (ms : list arrival) (a : Application)
    (r : MessageRequest) (world world' : World) (st' : Application * list event)
    (o : outcome ResponseWriter) (m : string) (answer : reply)
    (Hinit : initialised ecfg l data a)
    (Hen : Engine_Enabled ecfg = true) (Hmode : Engine_Mode ecfg = "enforce")
    (Hrun : Sse.HandleMessage json_valid
              (srv_handler (ServerSetMessageHandler (proxy_handler cfg env)
                 (Sse.NewServer (Config.Server cfg) agent)))
              r world (serve cfg ms a, []) newWriter = (world', st', o))
    (Hsent : In (EvUpstream m answer) st'.2) :
  exists id sess body, Sse.acceptable json_valid r world id sess body /\
    permitted cfg ecfg data ms env (incrementRequestCount (reqNow r) sess).1 body.
Proof.
  destruct (HandleMessage_cases json_valid _ _ _ _ _ _ _ Hrun)
    as [(id & sess & body & Hacc & _ & _ & Hst)|(Hst & _)]; subst st'; [|by destruct Hsent].
  exists id, sess, body. split; [done|].
  exact (initialised_permitted cfg ecfg l data ms env _ body a m answer Hinit Hen Hmode Hsent).
Qed.

End EndToEnd.

(** ** What the policies see of a request *)

(** What is left of the demands for an input of the proxy. *)
Lemma authorized_build_input (cfg : Config.Config) (now : Time)
    (sess : Session.Session) (ctx : Router.RequestContext) (data : jobject) :
  authorized data (rego_input_of (build_input cfg now sess ctx)) <->
  entitled data (Session.AgentID sess) (Router.Tool ctx) (elems (Session.Capabilities sess)) /\
  exists limit, limit_for data (coerce_utf8 (Session.AgentID sess)) limit /\
    rego_compare (json_int (Session.RequestCount sess)) limit = Lt.
Proof.
  destruct (build_input_subject cfg now sess ctx) as (Ha & Ht & Hc).
  assert (Session_RequestCount (PolicyTypes.Session (build_input cfg now sess ctx))
            = Session.RequestCount sess) as Hn by (unfold build_input; by destruct (bool_decide _)).
  assert (Verified (Identity (build_input cfg now sess ctx)) = false) as Hv
    by (unfold build_input; by destruct (bool_decide _)).
  split.
  - intros H. pose proof (authorized_entitled _ _ H) as He. unfold entitled_input in He.
    rewrite Ha, Ht, Hc in He. split; [done|].
    destruct (au_rate _ _ H) as (limit & Hl & Hlt). exists limit.
    cbn [rego_input_of input_agent_id input_session_request_count] in Hl, Hlt.
    by rewrite <- Ha, <- Hn.
  - intros ([H1 H2 H3] & limit & Hl & Hlt).
    split; cbn [rego_input_of input_agent_id input_agent_capabilities input_request_tool
                  input_session_request_count input_identity_verified]; rewrite ?Ha, ?Ht, ?Hc, ?Hn, ?Hv.
    + intros required Hr Hne. destruct (H1 required Hr Hne) as (cap & Hin & Hg).
      exists (JStr (coerce_utf8 cap)). rewrite coerced_capabilities. split; [|done].
      apply list_elem_of_fmap. by exists cap.
    + by exists limit.
    + done.
    + done.
    + done.
Qed.

(** The tool of a resource request is empty. *)
Lemma handled_resource_tool `{J : GoJson} env message req ctx :
  handled env message req ctx -> Req_Method req ∈ ["resources/read"; "resources/subscribe"] ->
  Router.Tool ctx = "".
Proof.
  intros [_ (ctx0 & ctx1 & H0 & H1 & ->)] Hm.
  assert (Router.Tool ctx0 = "") as H.
  { unfold NewRequestContextAt, mbind, outcome_bind in H0.
    destruct (generateRequestID _); simplify_eq/=; done. }
  unfold with_meta.
  assert (Router.Tool ctx1 = "") as Ht; [|by destruct (ExtractMeta (Params req)) as [[]|]].
  unfold extractRequestDetails in H1. rewrite bool_decide_false in H1.
  2:{ intros Hc. rewrite Hc, !elem_of_cons, elem_of_nil in Hm. naive_solver. }
  case_bool_decide; [|by simplify_eq].
  destruct (ParseResourceRead req); by simplify_eq/=.
Qed.

(** The policies reduce to two demands on the requests of the proxy: the agent is entitled
    to the tool, and the request, itself counted, is below the limit of its agent. No list of
    blocked DIDs ever applies, because the input never says that an identity is verified. *)
Theorem authorized_iff_entitled_within_limit (cfg : Config.Config) (now : Time)
    (sess : Session.Session) (ctx : Router.RequestContext) (data : jobject) :
  authorized data (rego_input_of (build_input cfg now sess ctx)) <->
  entitled data (Session.AgentID sess) (Router.Tool ctx) (elems (Session.Capabilities sess)) /\
  exists limit, limit_for data (coerce_utf8 (Session.AgentID sess)) limit /\
    rego_compare (json_int (Session.RequestCount sess)) limit = Lt.
Proof. apply authorized_build_input. Qed.

(** Reading or subscribing to a resource needs no capability: with policy data that names no
    empty tool, every agent that is not blocked and below its limit may read every resource. *)
Theorem resources_need_no_capability `{J : GoJson} (cfg : Config.Config) (now : Time) (env : RouteEnv)
    (sess : Session.Session) (message : string) (req : Router.Request)
    (ctx : Router.RequestContext) (data : jobject)
    (Hh : handled env message req ctx)
    (Hm : Req_Method req ∈ ["resources/read"; "resources/subscribe"])
    (Hcap : index (obj_get data "tool_capabilities") "" = None)
    (Hblock : ~ listed data "blocked_tools" "") :
  authorized data (rego_input_of (build_input cfg now sess ctx)) <->
  ~ listed data "blocked_agents" (coerce_utf8 (Session.AgentID sess)) /\
  exists limit, limit_for data (coerce_utf8 (Session.AgentID sess)) limit /\
    rego_compare (json_int (Session.RequestCount sess)) limit = Lt.
Proof.
  rewrite authorized_build_input, (handled_resource_tool _ _ _ _ Hh Hm). split.
  - intros [[_ _ H] Hr]. done.
  - intros [H Hr]. split; [|done]. split; [|done..]. intros required Hreq.
    change (coerce_utf8 "") with "" in Hreq. congruence.
Qed.

(** ** Witnesses *)

#[local] Existing Instance sample_json.
#[local] Existing Instance sample_client.

(** The modules of the repository, and an OPA that knows only them: a prepared query is the
    data of its store, and it answers as the rules say. *)
Definition shipped_files : list (string * string) :=
  [("blocklist.rego", "blocked"); ("capability.rego", "capability_check");
   ("main.rego", "decision"); ("rate_limit.rego", "rate_limit_ok")].

Definition rego_eval (data m : jobject) : result string (list (list jvalue)) :=
  match view m with
  | Some i => v ← decision no_format data i; Ok [[v]]
  | None => Ok []
  end.

#[local] Instance rego_opa : OPA := {|
  Engine.Query := option jobject;
  zero_query := None;
  PrepareForEval ms store :=
    if bool_decide (ms = shipped_files) then Ok (Some (default [] store)) else Err "unknown modules";
  Eval q m _ :=
    match q with
    | None => Panic "nil pointer dereference"
    | Some data => Ret (rego_eval data m)
    end
|}.

#[local] Instance rego_runs : RunsPolicies shipped_files no_format.
Proof.
  intros store q m i now Hq Hi. cbn in Hq. injection Hq as <-. cbn. unfold rego_eval. rewrite Hi.
  destruct (decision no_format _ i); [done|]. by eexists.
Qed.

Definition shipped_fs : FS :=
  {| Glob _ := Ok (map (fun p => "policies/" +:+ p.1) shipped_files);
     NotExist _ := true;
     ReadFile p := match obj_get shipped_files (filepath_Base p) with
                   | Some content => Ok content
                   | None => Ok "data"
                   end |}.

(** Tool [t] requires a capability, and ten requests reach the limit. *)
Definition shipped_data : jobject :=
  test_data [("t", JStr "read:customers")] [("default", json_int 10)] [] [] [].

Definition shipped_cfg : EngineConfig := mkEngineConfig "enforce" true (mkCacheConfig true 100 10).

Definition shipped_init : Engine * result string unit :=
  LoadAndInitialize shipped_fs (fun _ => Ok shipped_data) (fun s => Ok s)
    (fun _ => Err "no compiler") sample_loader (NewEngine shipped_cfg).

Definition shipped_app : Application :=
  {| sessionManager := Session.NewManager Session.DefaultManagerConfig;
     policyEngine := shipped_init.1; upstreamClient := Some 0;
     auditWriter := None; metrics := [] |}.

Lemma shipped_initialised :
  initialised shipped_files shipped_fs (fun _ => Ok shipped_data) (fun s => Ok s)
    (fun _ => Err "no compiler") shipped_cfg sample_loader shipped_data shipped_app.
Proof.
  split; [reflexivity|]. split; [reflexivity|].
  change (shipped_init = (shipped_init.1, Ok tt)).
  assert (match shipped_init.2 with Ok _ => true | Err _ => false end = true) as H by reflexivity.
  by destruct shipped_init as [e [[]|]].
Qed.

(** The [n]th request of a session with these capabilities. *)
Definition agent_session (caps : list string) (n : Z) : Session.Session :=
  set_activity n 0 (SetAgent "a" "a" (Some caps) (Session.NewSession "s" 0 0)).

(** What the upstream server is sent for a call of [t], after some messages. *)
Definition sent_after (ms : list arrival) (env : AppEnv) (sess : Session.Session) : list string :=
  omap (fun ev => match ev with EvUpstream m _ => Some m | _ => None end)
    (Proxy.proxy_handler sample_time no_text no_text sample_loaded env sess "call"
       (Proxy.serve sample_time no_text no_text sample_loaded ms shipped_app, [])).1.2.

Definition call_of (caps : list string) (n : Z) : arrival := (sample_aenv, agent_session caps n, "call").

(** A capability or its wildcard is needed; the request that reaches the limit is denied. *)
Example calls_need_capability :
  sent_after [] sample_aenv (agent_session ["read:*"] 1) = ["call"] /\
  sent_after [] sample_aenv (agent_session ["write:*"] 1) = [] /\
  sent_after [] sample_aenv (agent_session ["read:*"] 9) = ["call"] /\
  sent_after [] sample_aenv (agent_session ["read:*"] 10) = [].
Proof. vm_compute. by repeat split. Qed.

(** The limit that the data sets at ten is not kept once a decision is cached: the hundredth
    request of the same agent is still forwarded. *)
Example limit_outlived :
  sent_after [call_of ["read:*"] 1] sample_aenv (agent_session ["read:*"] 100) = ["call"].
Proof. vm_compute. reflexivity. Qed.

Definition shipped_call : World * (Application * list event) * outcome ResponseWriter :=
  Sse.HandleMessage (fun _ => true)
    (srv_handler (ServerSetMessageHandler
       (Proxy.proxy_handler sample_time no_text no_text sample_loaded sample_aenv)
       (Sse.NewServer (Config.Server sample_loaded) (Config.Agent sample_loaded))))
    tool_post opened.1.1 (Proxy.serve sample_time no_text no_text sample_loaded earlier shipped_app, [])
    newWriter.

Lemma sse_forwards_only_authorized_witness :
  exists id sess body, Sse.acceptable (fun _ => true) tool_post opened.1.1 id sess body /\
    permitted sample_loaded shipped_cfg shipped_data earlier sample_aenv
      (incrementRequestCount (reqNow tool_post) sess).1 body.
Proof.
  apply (sse_forwards_only_authorized shipped_files no_format sample_time no_text no_text shipped_fs
    (fun _ => Ok shipped_data) (fun s => Ok s) (fun _ => Err "no compiler") (fun _ => true)
    sample_loaded sample_aenv (Config.Agent sample_loaded) shipped_cfg sample_loader shipped_data
    earlier shipped_app tool_post opened.1.1 shipped_call.1.1 shipped_call.1.2 shipped_call.2 "call"
    (Some "done", None)).
  - exact shipped_initialised.
  - reflexivity.
  - reflexivity.
  - change (shipped_call = (shipped_call.1.1, shipped_call.1.2, shipped_call.2)).
    by destruct shipped_call as [[? ?] ?].
  - vm_compute. right. left. reflexivity.
Defined.

Lemma forwarded_call_is_entitled_witness :
  entitled shipped_data "a" "t" ["read:*"].
Proof.
  apply (forwarded_call_is_entitled shipped_files no_format sample_time no_text no_text shipped_fs
    (fun _ => Ok shipped_data) (fun s => Ok s) (fun _ => Err "no compiler") sample_loaded sample_aenv
    shipped_cfg sample_loader shipped_data [call_of ["read:*"] 1] shipped_app
    (agent_session ["read:*"] 100) "call" sample_req sample_ctx "call" (Some "done", None)).
  - exact shipped_initialised.
  - reflexivity.
  - reflexivity.
  - exact sample_handled.
  - left.
  - intros env0 sess0 message0 req0 ctx0 [= -> -> ->]%list_elem_of_singleton Hh _.
    destruct (handled_functional _ _ _ _ _ _ Hh sample_handled) as [_ ->].
    split_and!; reflexivity.
  - vm_compute. right. left. reflexivity.
Defined.

(** Two requests of the same agent at once: the second finds the entry of the first. *)
Definition two_requests : list eop :=
  [EEvaluate (sample_env 1) (build_input sample_loaded 1 (agent_session ["read:*"] 1) sample_ctx);
   EEvaluate (sample_env 2) (build_input sample_loaded 2 (agent_session ["read:*"] 2) sample_ctx)].

Definition two_served : cstate := run sample_time [0; 0; 0; 0; 1] (start shipped_init.1 two_requests).

Definition second_result : EvaluationResult :=
  match threads two_served !! 1 with
  | Some (ERet (Ret (Ok res))) => res
  | _ => warm_result
  end.

Lemma concurrent_requests_authorized_witness :
  CacheHit second_result = true /\
  exists env input, EEvaluate env input ∈ two_requests /\
    ComputeKey input = ComputeKey (Input second_result) /\ authorized shipped_data (rego_input_of input).
Proof.
  assert (CacheHit second_result = true) as Hhit by (vm_compute; reflexivity).
  split; [exact Hhit|].
  pose proof (concurrent_requests_authorized shipped_files no_format sample_time shipped_fs
    (fun _ => Ok shipped_data) (fun s => Ok s) (fun _ => Err "no compiler") shipped_cfg sample_loader
    shipped_data shipped_app two_requests two_served second_result shipped_initialised) as H.
  rewrite Hhit in H. apply H.
  - reflexivity.
  - repeat constructor.
  - apply run_reachable.
  - apply list_elem_of_lookup. exists 1.
    change (threads two_served !! 1 = Some (ERet (Ret (Ok second_result)))). unfold second_result.
    assert (match threads two_served !! 1 with Some (ERet (Ret (Ok _))) => true | _ => false end = true)
      as Hr by (vm_compute; reflexivity).
    by destruct (threads two_served !! 1) as [[| | | |[[res|]|]| | | | | | |]|].
  - vm_compute. reflexivity.
Defined.
