(* ===== verification/Lifecycle.v ===== *)
(** * The process

    Models [main], [newApplication], [Start] and [Stop] of src/cmd/proxy/main.go with the
    components in place: the loader and the engine, the transport that the configuration
    names, the observability server, the sessions and the audit writer. [App] describes the
    start and the stop by what the components answer; here they run. What happens between the
    start and the signal is an argument. *)

From Stdlib Require Import ZArith Lia.
From stdpp Require Import base list gmap sets strings numbers.
From S2P Require Import Prelude Json Session PolicyTypes Cache Engine Router.
From S2P Require Import AuditStore AuditWriter Config Loader Transport Sse Stdio Observability App Proxy.

(** What [Start] and [Stop] use of the upstream client beyond [UpstreamClient]. *)
Class UpstreamLife `{U : UpstreamClient} : Type := {
  Connect : Client -> Client * result string unit;
  Disconnect : Client -> outcome Client
}.

(** What the world answers: to the listeners, to the stdio transport, to the two servers of
    [obsServer] on shutdown, and to the database on closing; [visit] is the order in which the
    session manager meets its sessions. *)
Record Answers : Type := mkAnswers {
  listening : result string unit;
  shutting : result string unit;
  stdio_env : LifeEnv;
  metrics_err : option string;
  health_err : option string;
  visit : list string;
  close_err : option string
}.

Section Process.

Context `{J : GoJson} `{O : OPA} `{U : UpstreamClient} `{!UpstreamLife}.
Context {St Def : Type}.
(** [handleMessage], as the transports call it. *)
Context (handle : MessageHandler St).
Context (fs : FS) (unmarshal_map : string -> result string jobject).
Context (unmarshal_def : string -> result string Def).
Context (Compile : Def -> result string (list (string * string) * list string)).

(** The [transport] field: one of the two implementations. *)
Inductive AnyTransport : Type :=
| TSse (s : Sse.Server St)
| TStdio (s : Stdio.Server (S := St)).

(** [Application] with everything [Start] and [Stop] reach. The sessions belong to the session
    manager; both transports use them. *)
Record System : Type := mkSystem {
  sys_cfg : Config.Config;
  sys_app : Application;
  sys_world : World;
  sys_transport : AnyTransport;
  sys_obs : ObsServer;
  sys_ready : bool
}.

Definition with_app (a : Application) (s : System) : System :=
  {| sys_cfg := sys_cfg s; sys_app := a; sys_world := sys_world s;
     sys_transport := sys_transport s; sys_obs := sys_obs s; sys_ready := sys_ready s |}.

Definition with_client (c : option Client) (a : Application) : Application :=
  {| sessionManager := sessionManager a; policyEngine := policyEngine a; upstreamClient := c;
     auditWriter := auditWriter a; metrics := metrics a |}.

Definition on_writer (f : Writer -> Writer) (a : Application) : Application :=
  {| sessionManager := sessionManager a; policyEngine := policyEngine a;
     upstreamClient := upstreamClient a; auditWriter := f <$> auditWriter a; metrics := metrics a |}.

Definition with_transport (t : AnyTransport) (w : World) (s : System) : System :=
  {| sys_cfg := sys_cfg s; sys_app := sys_app s; sys_world := w; sys_transport := t;
     sys_obs := sys_obs s; sys_ready := sys_ready s |}.

Definition with_obs (o : ObsServer) (b : bool) (s : System) : System :=
  {| sys_cfg := sys_cfg s; sys_app := sys_app s; sys_world := sys_world s;
     sys_transport := sys_transport s; sys_obs := o; sys_ready := b |}.

(** ** The transport *)

(** A stdio server on the sessions of the manager. *)
Definition on_world (w : World) (s : Stdio.Server (S := St)) : Stdio.Server (S := St) :=
  {| Stdio.agent := Stdio.agent s; Stdio.handler := Stdio.handler s;
     Stdio.session := Stdio.session s; Stdio.started := Stdio.started s;
     Stdio.srv_done := Stdio.srv_done s; Stdio.loops := Stdio.loops s; Stdio.world := w |}.

Definition transport_Start (ans : Answers) (w : World) (t : AnyTransport)
    : AnyTransport * World * result string unit :=
  match t with
  | TSse s => let '(s, r) := t_Start (listening ans, shutting ans) s in (TSse s, w, r)
  | TStdio s =>
      let '(s, r) := t_Start (stdio_env ans) (on_world w s) in (TStdio s, Stdio.world s, r)
  end.

Definition transport_Stop (ans : Answers) (w : World) (t : AnyTransport)
    : outcome (AnyTransport * World * result string unit) :=
  match t with
  | TSse s => '(s, r) ← t_Stop (listening ans, shutting ans) s; Ret (TSse s, w, r)
  | TStdio s => '(s, r) ← t_Stop (stdio_env ans) (on_world w s); Ret (TStdio s, Stdio.world s, r)
  end.

Definition transport_Name (t : AnyTransport) : string :=
  match t with TSse s => t_Name s | TStdio s => t_Name s end.

Definition transport_started (t : AnyTransport) : bool :=
  match t with TSse s => t_started s | TStdio s => t_started s end.

Definition transport_done (t : AnyTransport) : bool :=
  match t with TSse s => Sse.srv_done s | TStdio s => Stdio.srv_done s end.

(** ** newApplication, Start and Stop *)

Definition newSystem (cfg : Config.Config) (store : result string Table) (client : Client)
    : result string System :=
  a ← newApplication cfg store client;
  let w := {| heap := []; mgr := sessionManager a |} in
  Ok {| sys_cfg := cfg; sys_app := a; sys_world := w;
        sys_transport :=
          if bool_decide (Server_Transport (Config.Server cfg) = "sse")
          then TSse (t_SetMessageHandler handle (Sse.NewServer (Config.Server cfg) (Config.Agent cfg)))
          else TStdio (t_SetMessageHandler handle (Stdio.NewServer (Config.Agent cfg) w));
        sys_obs := NewObsServer (obs_config (Config.Metrics cfg) (Config.Health cfg));
        sys_ready := false |}.

(** The loader that [Start] makes. *)
Definition loader_of (cfg : Config.Config) : Loader :=
  NewLoader (PolicyDir (Policy cfg)) (DataFile (Policy cfg)).

Definition load_policies (s : System) : System * list phase * result string unit :=
  if Policy_Enabled (Policy (sys_cfg s)) then
    let '(e, r) := LoadAndInitialize fs unmarshal_map unmarshal_def Compile (loader_of (sys_cfg s))
                     (policyEngine (sys_app s)) in
    (with_app (with_engine e (sys_app s)) s,
     match r with Ok _ => [PoliciesLoaded] | Err _ => [] end,
     wrap_err "failed to load policies" r)
  else (s, [], Ok tt).

Definition connect_upstream (s : System) : System * list phase :=
  match upstreamClient (sys_app s) with
  | Some c =>
      let '(c, r) := Connect c in
      (with_app (with_client (Some c) (sys_app s)) s, [UpstreamDialled (is_ok r)])
  | None => (s, [])
  end.

(** [obsServer.Start] and [SetReady]; a panic leaves the servers as they are. *)
Definition start_obs (s : System) : System * list phase * outcome (result string unit) :=
  match ObsStart (sys_obs s) with
  | Panic msg => (s, [], Panic msg)
  | Ret (o, r) =>
      match wrap_err "failed to start observability server" r with
      | Err msg => (with_obs o (sys_ready s) s, [], Ret (Err msg))
      | Ok _ => (with_obs o true s, [ObservabilityStarted; Ready true], Ret (Ok tt))
      end
  end.

Definition Start (ans : Answers) (s : System) : System * list phase * outcome (result string unit) :=
  let '(s, log, r) := load_policies s in
  match r with
  | Err msg => (s, log, Ret (Err msg))
  | Ok _ =>
      let log := if present (auditWriter (sys_app s)) then log ++ [AuditStarted] else log in
      let s := with_app (on_writer (set_loop Waiting) (sys_app s)) s in
      let log := log ++ [SessionsStarted] in
      let '(s, dialled) := connect_upstream s in
      let log := log ++ dialled in
      let '(t, w, r) := transport_Start ans (sys_world s) (sys_transport s) in
      let name := transport_Name (sys_transport s) in
      let s := with_transport t w s in
      match wrap_err ("failed to start " +:+ name +:+ " server") r with
      | Err msg => (s, log, Ret (Err msg))
      | Ok _ =>
          let '(s, last, r) := start_obs s in
          (s, log ++ [TransportStarted] ++ last, r)
      end
  end.

Definition disconnect_upstream (s : System) : outcome (System * list phase) :=
  match upstreamClient (sys_app s) with
  | Some c => c ← Disconnect c; Ret (with_app (with_client (Some c) (sys_app s)) s, [UpstreamDisconnected])
  | None => Ret (s, [])
  end.

(** The errors of the single steps are logged only. [auditWriter.Stop] cancels the loop and
    waits for it; what the loop still does is [AuditWriter.stop_drains]. *)
Definition Stop (ans : Answers) (s : System) : outcome (System * list phase * result string unit) :=
  let s := with_obs (sys_obs s) false s in
  let _ := ObsStop (metrics_err ans) (health_err ans) (sys_obs s) in
  '(t, w, _) ← transport_Stop ans (sys_world s) (sys_transport s);
  let s := with_transport t w s in
  '(s, gone) ← disconnect_upstream s;
  w ← Session.Stop (visit ans) (sys_world s);
  let s := with_transport (sys_transport s) w s in
  let audited := if present (auditWriter (sys_app s)) then [AuditStopped; StoreClosed] else [] in
  Ret (with_app (on_writer cancel (sys_app s)) s,
       [Ready false; ObservabilityStopped; TransportStopped] ++ gone ++ [SessionsStopped] ++ audited,
       Ok tt).

(** ** main *)

(** An invocation: the flag, the configuration that [Config.Load] returns, the database, the
    client of [upstream.NewClient], what happens while it serves, and whether a signal comes. *)
Record Invocation : Type := mkInvocation {
  showVersion : bool;
  loaded : result string Config.Config;
  database : result string Table;
  client : Client;
  at_start : Answers;
  traffic : System -> System;
  signal : bool;
  at_stop : Answers
}.

Inductive ending : Type :=
| Exit (code : Z) (left : option System)
| Crash (msg : string) (left : option System)     (* an unrecovered panic: exit code 2 *)
| Serving (s : System).

(** [log.Fatal] exits with 1, without the deferred calls and without [Stop]. *)
Definition main (i : Invocation) : ending :=
  if showVersion i then Exit 0 None
  else
    match loaded i with
    | Err _ => Exit 1 None
    | Ok cfg =>
        match newSystem cfg (database i) (client i) with
        | Err _ => Exit 1 None
        | Ok s =>
            match Start (at_start i) s with
            | (s, _, Panic msg) => Crash msg (Some s)
            | (s, _, Ret (Err _)) => Exit 1 (Some s)
            | (s, _, Ret (Ok _)) =>
                let s := traffic i s in
                if signal i then
                  match Stop (at_stop i) s with
                  | Panic msg => Crash msg (Some s)
                  | Ret (s, _, Ok _) => Exit 0 (Some s)
                  | Ret (s, _, Err _) => Exit 1 (Some s)
                  end
                else Serving s
            end
        end
    end.

(** ** The description of [App] *)

(** What the components of this system answer. *)
Definition answers_of (ans : Answers) (s : System) : StartEnv :=
  mkStartEnv (LoadAndInitialize fs unmarshal_map unmarshal_def Compile (loader_of (sys_cfg s))) Connect
    (transport_Start ans (sys_world s) (sys_transport s)).2
    (match ObsStart (sys_obs s) with Ret (_, r) => r | Panic msg => Err msg end)
    (transport_Name (sys_transport s)).

(** The process starts as [App.Start] describes: with the answers that the loader, the
    client, the transport and the observability server of the system really give, it goes
    through the same phases, leaves the same application and returns the same error, except
    that the observability server may panic where the description has it fail. *)
Theorem Start_refines (ans : Answers) (s : System) :
  let '(s', log, o) := Start ans s in
  let '(a', log', r) := App.Start (sys_cfg s) (answers_of ans s) (sys_app s) in
  sys_app s' = a' /\ log = log' /\
  match o with Ret r' => r' = r | Panic msg => ObsStart (sys_obs s) = Panic msg /\ is_ok r = false end.
Proof.
  destruct s as [cfg [sm e [c|] wr ms] w t obs b];
    unfold Start, App.Start, load_policies, connect_upstream, start_obs; cbn [LoadResult answers_of];
    (destruct (Policy_Enabled _); [destruct (LoadAndInitialize _ _ _ _ _ _) as [? [[]|?]]; [|done]|]);
    cbn -[ObsStart transport_Start transport_Name]; try destruct (Connect c);
    cbn -[ObsStart transport_Start transport_Name];
    destruct (transport_Start ans w t) as [[? ?] [[]|?]]; cbn -[ObsStart transport_Name]; try done;
    destruct (ObsStart obs) as [[? [[]|?]]|?]; cbn; by rewrite <- ?app_assoc.
Qed.

(** ** A system that is up *)

Record up (s : System) : Prop := {
  up_ready : sys_ready s = true;
  up_started : transport_started (sys_transport s) = true;
  up_done : transport_done (sys_transport s) = false;
  up_sessions : done (mgr (sys_world s)) = false;
  up_policies : Policy_Enabled (Policy (sys_cfg s)) = true ->
    exists ms data, Loader.LoadPolicies fs unmarshal_def Compile (loader_of (sys_cfg s)) = Ok ms /\
      LoadPolicyData fs unmarshal_map (loader_of (sys_cfg s)) = Ok data /\
      PrepareForEval ms (store_of data) = Ok (query (policyEngine (sys_app s)));
  up_audit : forall w, auditWriter (sys_app s) = Some w -> loop w = Waiting
}.

(** Nobody but [Start] and [Stop] touches the switches of the components. *)
Record same_life (s s' : System) : Prop := {
  sl_started : transport_started (sys_transport s') = transport_started (sys_transport s);
  sl_done : transport_done (sys_transport s') = transport_done (sys_transport s);
  sl_sessions : done (mgr (sys_world s')) = done (mgr (sys_world s))
}.

Lemma transport_Start_done ans w t :
  let '(t', w', _) := transport_Start ans w t in
  transport_done t' = transport_done t /\ done (mgr w') = done (mgr w) /\
  transport_started t' = true.
Proof.
  destruct t as [s|s]; cbn.
  - unfold ServerStart. by destruct (Sse.started s) eqn:E.
  - unfold Stdio.Start. cbn. destruct (Stdio.started s) eqn:E; [done|].
    unfold Create. by destruct (_ >=? _)%Z.
Qed.

(** What a successful start did. *)
Lemma Start_ok ans s s' log :
  Start ans s = (s', log, Ret (Ok tt)) ->
  sys_cfg s' = sys_cfg s /\ sys_ready s' = true /\
  (sys_transport s', sys_world s', Ok tt) = transport_Start ans (sys_world s) (sys_transport s) /\
  auditWriter (sys_app s') = set_loop Waiting <$> auditWriter (sys_app s) /\
  (Policy_Enabled (Policy (sys_cfg s)) = true ->
   LoadAndInitialize fs unmarshal_map unmarshal_def Compile (loader_of (sys_cfg s))
     (policyEngine (sys_app s)) = (policyEngine (sys_app s'), Ok tt)).
Proof.
  destruct s as [cfg [sm e [c|] wr ms] w t obs b];
    unfold Start, load_policies, connect_upstream, start_obs; cbn -[ObsStart transport_Start];
    (destruct (Policy_Enabled _);
       [destruct (LoadAndInitialize _ _ _ _ _ _) as [? [[]|?]]; [|done]|]);
    cbn -[ObsStart transport_Start transport_Name]; try destruct (Connect c);
    cbn -[ObsStart transport_Start transport_Name];
    destruct (transport_Start ans w t) as [[? ?] [[]|?]]; cbn -[ObsStart transport_Name]; try done;
    destruct (ObsStart obs) as [[? [[]|?]]|?]; cbn; intros [= <- <-]; by cbn.
Qed.

(** A start that does not succeed leaves the mark off. *)
Lemma Start_failed ans s s' log o :
  Start ans s = (s', log, o) -> sys_ready s = false -> o <> Ret (Ok tt) -> sys_ready s' = false.
Proof.
  destruct s as [cfg [sm e [c|] wr ms] w t obs b];
    unfold Start, load_policies, connect_upstream, start_obs; cbn -[ObsStart transport_Start];
    (destruct (Policy_Enabled _);
       [destruct (LoadAndInitialize _ _ _ _ _ _) as [? [[]|?]]; [|intros [= <- <- <-] Hb _; exact Hb]|]);
    cbn -[ObsStart transport_Start transport_Name]; try destruct (Connect c);
    cbn -[ObsStart transport_Start transport_Name];
    destruct (transport_Start ans w t) as [[? ?] [[]|?]]; cbn -[ObsStart transport_Name];
    try (intros [= <- <- <-] Hb _; exact Hb);
    destruct (ObsStart obs) as [[? [[]|?]]|?]; cbn; intros [= <- <- <-] Hb Ho; first [exact Hb|by destruct Ho].
Qed.

Lemma newSystem_fresh cfg store client s :
  newSystem cfg store client = Ok s ->
  transport_done (sys_transport s) = false /\ done (mgr (sys_world s)) = false /\ sys_ready s = false.
Proof.
  unfold newSystem. intros Hnew. apply bind_Ok in Hnew as (a & Ha & Hs). injection Hs as <-. cbn.
  unfold newApplication in Ha. apply bind_Ok in Ha as (wr & _ & Ha).
  destruct (_ || _); [|done]. injection Ha as <-. by destruct (bool_decide _).
Qed.

Lemma Start_up cfg store client ans s s' log :
  newSystem cfg store client = Ok s -> Start ans s = (s', log, Ret (Ok tt)) -> up s'.
Proof.
  intros Hnew (Hcfg & Hready & Ht & Haudit & Hpol)%Start_ok.
  apply newSystem_fresh in Hnew as (Hd & Hm & _).
  pose proof (transport_Start_done ans (sys_world s) (sys_transport s)) as Hs. rewrite <- Ht in Hs.
  destruct Hs as (Hd' & Hm' & Hst). split; try done; try congruence.
  - rewrite Hcfg. intros He. destruct (LoadAndInitialize_spec _ _ _ _ _ _ _ (Hpol He))
      as (ms & data & H1 & H2 & H3 & _). by exists ms, data.
  - intros w Hw. rewrite Haudit in Hw. destruct (auditWriter (sys_app s)); [|done].
    by injection Hw as <-.
Qed.

(** Stopping a transport that runs ends it, and adds no session. *)
Lemma transport_Stop_up ans w t :
  transport_started t = true -> transport_done t = false ->
  exists t' w' r, transport_Stop ans w t = Ret (t', w', r) /\ transport_started t' = false /\
    done (mgr w') = done (mgr w) /\
    (forall id, id ∈ dom (sessions (mgr w')) -> id ∈ dom (sessions (mgr w))).
Proof.
  destruct t as [s|s]; cbn; intros Hs Hd.
  - unfold ServerStop. rewrite Hs, Hd. cbn. by repeat eexists.
  - unfold Stdio.Stop. cbn. rewrite Hs, Hd. cbn. repeat eexists; cbn.
    + destruct (Stdio.session s) as [l|]; [|done]. destruct (deref _ l); [|done].
      unfold Delete. by case_match.
    + intros id. destruct (Stdio.session s) as [l|]; [|done]. destruct (deref _ l); [|done].
      unfold Delete. case_match; [|done]. cbn. rewrite dom_delete_L. set_solver.
Qed.

Lemma disconnect_up (s : System) :
  (forall c, upstreamClient (sys_app s) = Some c -> exists c', Disconnect c = Ret c') ->
  exists s' gone, disconnect_upstream s = Ret (s', gone) /\ sys_transport s' = sys_transport s /\
    sys_world s' = sys_world s /\ sys_ready s' = sys_ready s.
Proof.
  unfold disconnect_upstream. intros Hc. destruct (upstreamClient (sys_app s)) as [c|]; [|by exists s, []].
  destruct (Hc c eq_refl) as [c' ->]. cbn. by repeat eexists.
Qed.

(** Stopping a system that is up. *)
Lemma Stop_up ans (s : System) :
  transport_started (sys_transport s) = true -> transport_done (sys_transport s) = false ->
  done (mgr (sys_world s)) = false ->
  (forall c, upstreamClient (sys_app s) = Some c -> exists c', Disconnect c = Ret c') ->
  (forall id, id ∈ dom (sessions (mgr (sys_world s))) -> id ∈ visit ans) ->
  exists left log, Stop ans s = Ret (left, log, Ok tt) /\
    sys_ready left = false /\ transport_started (sys_transport left) = false /\
    sessions (mgr (sys_world left)) = ∅ /\ done (mgr (sys_world left)) = true /\
    (forall w, auditWriter (sys_app left) = Some w -> cancelled w = true).
Proof.
  intros Hst Hd Hm Hdisc Hvisit.
  destruct (transport_Stop_up ans (sys_world s) (sys_transport s) Hst Hd)
    as (t & w & r & Ht & Hts & Hdone & Hsub).
  unfold Stop. cbn [with_obs sys_world sys_transport sys_obs]. rewrite Ht. cbn [mbind outcome_bind].
  destruct (disconnect_up (with_transport t w (with_obs (sys_obs s) false s)) Hdisc)
    as (s' & gone & -> & Htr & Hw & Hr). cbn [mbind outcome_bind].
  cbn [with_transport sys_world sys_transport sys_ready with_obs] in Htr, Hw, Hr. rewrite Hw.
  destruct (Stop_keeps_active_count (visit ans) w) as (w' & Hstop & Hempty & _ & Hagain);
    [congruence|by auto|].
  rewrite Hstop. cbn [mbind outcome_bind]. do 2 eexists. split; [reflexivity|].
  cbn [with_app with_transport sys_ready sys_transport sys_world sys_app]. split_and!; try congruence.
  - pose proof (Hagain []) as Ha. unfold Session.Stop in Ha. by destruct (done (mgr w')).
  - intros wr Hwr. cbn in Hwr. destruct (auditWriter (sys_app s')); [|done]. by injection Hwr as <-.
Qed.

(** ** Properties *)

(** C24: A process that serves has what it needs: after a successful [Start] of a new
    application the transport and the health endpoints run, the engine evaluates the query
    compiled from the policy files and the policy data of the configuration (if policies are
    enabled), and the readiness probe answers 200 exactly when the engine has modules or is
    disabled and the audit database, if there is one, answers; when [Start] fails it does not
    answer 200. *)
Theorem serving_process_is_ready (cfg : Config.Config) (store : result string Table)
    (client : Client) (ans : Answers) (s s' : System) (log : list phase)
    (o : outcome (result string unit)) (version : string) (ping : option string)
    (took : string -> string) (now : Time) (order : list (string * HealthChecker))
    (Hnew : newSystem cfg store client = Ok s)
    (Hstart : Start ans s = (s', log, o))
    (Horder : order ≡ₚ map_to_list (checkers (app_health version ping took (sys_app s')))) :
  let probe := (ReadinessHandler now order
                  (SetReady (sys_ready s') (app_health version ping took (sys_app s')))).1 in
  match o with
  | Ret (Ok _) =>
      up s' /\
      (probe = 200%Z <-> Engine.IsReady (policyEngine (sys_app s')) = true /\
                        (auditWriter (sys_app s') = None \/ ping = None))
  | _ => probe <> 200%Z
  end.
Proof.
  intros probe. pose proof (app_readiness_iff version ping took (sys_app s') now (sys_ready s') order Horder)
    as Hprobe. fold probe in Hprobe.
  assert (o <> Ret (Ok tt) -> probe <> 200%Z) as Hno.
  { intros Ho Hp. apply Hprobe in Hp as [Hr _].
    rewrite (Start_failed _ _ _ _ _ Hstart) in Hr; [done| |done]. by eapply newSystem_fresh. }
  destruct o as [[[]|e]|msg]; [|by apply Hno..]. pose proof (Start_up _ _ _ _ _ _ _ Hnew Hstart) as Hup.
  split; [done|]. rewrite Hprobe. split; [by intros (_ & ? & ?)|]. intros [? ?].
  split; [apply Hup|done].
Qed.

(** C23: An orderly end. A process that came up, served whatever it served, gets a signal and
    can disconnect, exits with code 0 and leaves nothing behind: the probe is off, the
    transport stopped, every session closed and removed, and the audit writer told to drain. *)
Theorem signal_ends_cleanly (i : Invocation) (cfg : Config.Config) (s s' : System) (log : list phase)
    (Hversion : showVersion i = false) (Hload : loaded i = Ok cfg)
    (Hnew : newSystem cfg (database i) (client i) = Ok s)
    (Hstart : Start (at_start i) s = (s', log, Ret (Ok tt)))
    (Hlife : same_life s' (traffic i s'))
    (Hdisc : forall c, upstreamClient (sys_app (traffic i s')) = Some c ->
               exists c', Disconnect c = Ret c')
    (Hvisit : forall id, id ∈ dom (sessions (mgr (sys_world (traffic i s')))) -> id ∈ visit (at_stop i))
    (Hsignal : signal i = true) :
  exists left, main i = Exit 0 (Some left) /\
    sys_ready left = false /\ transport_started (sys_transport left) = false /\
    sessions (mgr (sys_world left)) = ∅ /\ done (mgr (sys_world left)) = true /\
    (forall w, auditWriter (sys_app left) = Some w -> cancelled w = true).
Proof.
  pose proof (Start_up _ _ _ _ _ _ _ Hnew Hstart) as [_ Hst Hd Hm _ _].
  destruct Hlife as [Hst' Hd' Hm']. rewrite Hst in Hst'. rewrite Hd in Hd'. rewrite Hm in Hm'.
  unfold main. rewrite Hversion, Hload, Hnew, Hstart, Hsignal. set (u := traffic i s') in *.
  destruct (Stop_up (at_stop i) u Hst' Hd' Hm' Hdisc Hvisit) as (left & log' & -> & Hleft).
  by exists left.
Qed.

(** The exit after an error of [Stop] is never taken: a process that exits with 1 has not
    served. *)
Theorem exit_one_never_served (i : Invocation) (code : Z) (left : option System)
    (Hmain : main i = Exit code left) :
  code = 0%Z \/ (code = 1%Z /\ forall s, left = Some s -> sys_ready s = false).
Proof.
  unfold main in Hmain. destruct (showVersion i); [simplify_eq; by left|].
  destruct (loaded i) as [cfg|e]; [|simplify_eq; by right].
  destruct (newSystem cfg (database i) (client i)) as [s|e] eqn:Hnew; [|simplify_eq; by right].
  destruct (Start (at_start i) s) as [[s' log] o] eqn:Hstart.
  destruct o as [[[]|e]|msg]; [| |done].
  - destruct (signal i); [|done].
    destruct (Stop (at_stop i) (traffic i s')) as [[[s2 log2] r]|msg] eqn:Hstop; [|done].
    unfold Stop in Hstop. destruct (transport_Stop _ _ _) as [[[t w] r']|]; [cbn in Hstop|done].
    destruct (disconnect_upstream _) as [[s3 gone]|]; [cbn in Hstop|done].
    destruct (Session.Stop _ _) as [w'|]; [cbn in Hstop|done]. simplify_eq. by left.
  - simplify_eq. right. split; [done|]. intros s2 [= <-].
    eapply Start_failed; [exact Hstart|by eapply newSystem_fresh|done].
Qed.

End Process.

(** ** Concrete runs *)

#[local] Existing Instance sample_opa.
#[local] Existing Instance sample_json.
#[local] Existing Instance sample_client.

#[local] Instance sample_life : UpstreamLife :=
  {| Connect c := (c, Ok tt); Disconnect c := Ret c |}.

Definition quiet_answers : Answers :=
  mkAnswers (Ok tt) (Ok tt) (mkLifeEnv "u1" (0%Z, 0%Z) true) None None ["sess_u1"] None.

(** A run with policies enabled, up to a signal; it serves nothing. *)
Definition run_of (cfg : Config.Config) : Invocation (St := nat) :=
  mkInvocation false (Ok cfg) (Ok empty_table) client0 quiet_answers (fun s => s) true quiet_answers.

Definition main_of (i : Invocation (St := nat)) : ending :=
  main echo sample_fs (fun _ => Ok [("k", JNull)]) (fun s => Ok s) sample_compile i.

Definition stdio_cfg : Config.Config :=
  on_Server (fun s => Config.mkServer (Listen s) "stdio" (ReadTimeout s) (WriteTimeout s) (IdleTimeout s)
    (GracefulShutdown s) (MaxConnections s) (Security s)) enabled_cfg.

(** How a run ends, and whether its transport was left running. *)
Definition ends (e : ending (St := nat)) : option Z * option bool :=
  match e with
  | Exit c l => (Some c, (fun s => transport_started (sys_transport s)) <$> l)
  | Crash _ l => (None, (fun s => transport_started (sys_transport s)) <$> l)
  | Serving s => (None, None)
  end.

Example runs_end :
  ends (main_of (run_of enabled_cfg)) = (Some 0%Z, Some false) /\
  ends (main_of (run_of stdio_cfg)) = (Some 0%Z, Some false).
Proof. split; vm_compute; reflexivity. Qed.

(** Equal probe paths pass the validation; the process then crashes after its transport has
    opened, instead of refusing the configuration. *)
Definition equal_paths_cfg : Config.Config :=
  {| Config.Version := Config.Version enabled_cfg; Config.Server := Config.Server enabled_cfg;
     Config.Upstream := Config.Upstream enabled_cfg; Config.Agent := Config.Agent enabled_cfg;
     Config.AgentFacts := Config.AgentFacts enabled_cfg; Config.Policy := Config.Policy enabled_cfg;
     Config.Audit := Config.Audit enabled_cfg; Config.Metrics := Config.Metrics enabled_cfg;
     Config.Health := mkHealth true (Health_Address (Config.Health enabled_cfg))
       (Health_Port (Config.Health enabled_cfg)) "/health" "/health";
     Config.Logging := Config.Logging enabled_cfg; Config.TLS := Config.TLS enabled_cfg |}.

Theorem equal_paths_crash_after_listening :
  validate equal_paths_cfg = Ok tt /\ ends (main_of (run_of equal_paths_cfg)) = (None, Some true).
Proof. split; vm_compute; reflexivity. Qed.

(** ** Witnesses *)

Definition started_run : result string (System (St := nat)) :=
  newSystem echo stdio_cfg (Ok empty_table) client0.

Definition blank_system : System (St := nat) :=
  mkSystem stdio_cfg proxy_app (init_world Session.DefaultManagerConfig)
    (TStdio (Stdio.NewServer (Config.Agent stdio_cfg) (init_world Session.DefaultManagerConfig)))
    (NewObsServer (obs_config (Config.Metrics stdio_cfg) (Config.Health stdio_cfg))) false.

Definition new_sample : System := match started_run with Ok s => s | Err _ => blank_system end.

Definition start_sample : System * list phase * outcome (result string unit) :=
  Start sample_fs (fun _ => Ok [("k", JNull)]) (fun s => Ok s) sample_compile quiet_answers new_sample.

Lemma new_sample_ok : newSystem echo stdio_cfg (Ok empty_table) client0 = Ok new_sample.
Proof.
  change (started_run = Ok new_sample). unfold new_sample.
  assert (is_ok started_run = true) as H by (vm_compute; reflexivity). by destruct started_run.
Qed.

Lemma start_sample_ok : start_sample = (start_sample.1.1, start_sample.1.2, Ret (Ok tt)).
Proof.
  assert (match start_sample.2 with Ret (Ok tt) => true | _ => false end = true) as H
    by (vm_compute; reflexivity).
  by destruct start_sample as [[s log] [[[]|]|]].
Qed.

Lemma serving_process_is_ready_witness :
  up sample_fs (fun _ => Ok [("k", JNull)]) (fun s => Ok s) sample_compile start_sample.1.1.
Proof.
  apply (serving_process_is_ready echo sample_fs (fun _ => Ok [("k", JNull)]) (fun s => Ok s)
    sample_compile stdio_cfg (Ok empty_table) client0 quiet_answers new_sample start_sample.1.1
    start_sample.1.2 (Ret (Ok tt)) "1.0" None (fun _ => "1ms") 0
    (map_to_list (checkers (app_health "1.0" None (fun _ => "1ms") (sys_app start_sample.1.1))))
    new_sample_ok start_sample_ok).
  reflexivity.
Defined.

Lemma signal_ends_cleanly_witness :
  exists left, main_of (run_of stdio_cfg) = Exit 0 (Some left) /\ sys_ready left = false.
Proof.
  destruct (signal_ends_cleanly echo sample_fs (fun _ => Ok [("k", JNull)]) (fun s => Ok s)
    sample_compile (run_of stdio_cfg) stdio_cfg new_sample start_sample.1.1 start_sample.1.2)
    as (left & Hmain & Hready & _).
  - reflexivity.
  - reflexivity.
  - exact new_sample_ok.
  - exact start_sample_ok.
  - split; reflexivity.
  - intros c _. exists c. reflexivity.
  - intros id (l & Hl)%elem_of_dom. change (traffic (run_of stdio_cfg) start_sample.1.1) with start_sample.1.1 in Hl.
    assert (sessions (mgr (sys_world start_sample.1.1)) = {["sess_u1" := 0]}) as Hs
      by (vm_compute; reflexivity).
    rewrite Hs in Hl. apply lookup_singleton_Some in Hl as [<- _]. left.
  - reflexivity.
  - exists left. split; [exact Hmain|exact Hready].
Defined.

Lemma exit_one_never_served_witness :
  main_of {| showVersion := false; loaded := Err "no file"; database := Ok empty_table;
             client := client0; at_start := quiet_answers; traffic := fun s => s; signal := true;
             at_stop := quiet_answers |} = Exit 1 None /\
  (1%Z = 0%Z \/ (1%Z = 1%Z /\ forall s : System (St := nat), None = Some s -> sys_ready s = false)).
Proof.
  split; [reflexivity|].
  apply (exit_one_never_served echo sample_fs (fun _ => Ok [("k", JNull)]) (fun s => Ok s) sample_compile
    {| showVersion := false; loaded := Err "no file"; database := Ok empty_table;
       client := client0; at_start := quiet_answers; traffic := fun s => s; signal := true;
       at_stop := quiet_answers |}).
  reflexivity.
Defined.
